(** * polySymmetry: symmetry propagation and side classification

    A shallow embedding of [src/polySymmetry.cpp] (class [PolySymmetryData])
    and the properties of its symmetry table and side table.

    C++ [int] indices are modelled as [Z] (the sentinel is [-1]), the
    [vector]s as lists.  [operator[]] on a [vector] has no defined behaviour
    out of range; the embedding makes every such access explicit and reports
    the offending index. *)

From stdpp Require Import base list gmap.
From Stdlib Require Import ZArith Lia.

Open Scope Z_scope.

(** ** Results of partial computations *)

(** [OutOfRange i]: a [vector] was indexed at [i] outside of its bounds.
    [OutOfFuel]: a [while] loop was cut before its queue was empty. *)
Inductive result (A : Type) : Type :=
  | Ok (a : A)
  | OutOfRange (i : Z)
  | OutOfFuel.

Arguments Ok {A} a.
Arguments OutOfRange {A} i.
Arguments OutOfFuel {A}.

Global Instance result_ret : MRet result := fun A a => Ok a.

Global Instance result_bind : MBind result := fun A B k r =>
  match r with
  | Ok a => k a
  | OutOfRange i => OutOfRange i
  | OutOfFuel => OutOfFuel
  end.

(** ** Vectors *)

(** [v[i]] as an rvalue. *)
Definition vget {A : Type} (l : list A) (i : Z) : result A :=
  if i <? 0 then OutOfRange i
  else match l !! Z.to_nat i with
       | Some a => Ok a
       | None => OutOfRange i
       end.

(** [v[i] = a]. *)
Definition vset {A : Type} (l : list A) (i : Z) (a : A) : result (list A) :=
  if i <? 0 then OutOfRange i
  else if (Z.to_nat i <? length l)%nat then Ok (<[Z.to_nat i := a]> l)
  else OutOfRange i.

(** A range-based [for] loop over a vector, threading the loop's state. *)
Fixpoint forEach {A S : Type} (body : A -> S -> result S) (l : list A) (s : S)
  : result S :=
  match l with
  | [] => Ok s
  | x :: l' => s' ← body x s; forEach body l' s'
  end.

(** [while (!queue.empty()) { x = queue.front(); queue.pop(); body }] on a
    FIFO queue.  [fuel] bounds the number of dequeue iterations. *)
Fixpoint whileQueue {A S : Type} (body : A -> list A -> S -> result (list A * S))
    (fuel : nat) (queue : list A) (s : S) : result S :=
  match queue with
  | [] => Ok s
  | x :: queue' =>
      match fuel with
      | O => OutOfFuel
      | S fuel' =>
          '(queue'', s') ← body x queue' s;
          whileQueue body fuel' queue'' s'
      end
  end.

(** ** Mesh topology (meshData.h) and seed selection (selection.h) *)

(** Modelled from the spec: the component records of [meshData.h], which is
    not part of the sources.  Every component lists its connected vertices,
    edges and faces by index; a vertex also maps each incident face to its
    face-local neighbouring vertices ([faceVertexSiblings], a map from face
    index to a vector; a face that is not a key reads as the empty vector). *)
Record ComponentData : Type := mkComponentData {
  connectedVertices : list Z;
  connectedEdges : list Z;
  connectedFaces : list Z;
  faceVertexSiblings : gmap Z (list Z)
}.

(** Modelled from the spec: [MeshData] of [meshData.h]. *)
Record MeshData : Type := mkMeshData {
  numberOfVertices : Z;
  numberOfEdges : Z;
  numberOfFaces : Z;
  vertexData : list ComponentData;
  edgeData : list ComponentData;
  faceData : list ComponentData
}.

(** Modelled from the spec: [ComponentSelection] of [selection.h], the seed. *)
Record ComponentSelection : Type := mkComponentSelection {
  edgeIndices : Z * Z;
  faceIndices : Z * Z;
  vertexIndices : Z * Z;
  leftVertexIndex : Z
}.

(** ** The symmetry table and the side table *)

Record PolySymmetryData : Type := mkPolySymmetryData {
  examinedEdges : list bool;
  examinedFaces : list bool;
  examinedVertices : list bool;
  vertexSymmetryIndices : list Z;
  edgeSymmetryIndices : list Z;
  faceSymmetryIndices : list Z;
  vertexSides : list Z;
  edgeSides : list Z;
  faceSides : list Z;
  leftSideVertexIndices : list Z
}.

Definition withVertices (st : PolySymmetryData) (idx : list Z) (ex : list bool)
  : PolySymmetryData :=
  mkPolySymmetryData (examinedEdges st) (examinedFaces st) ex
    idx (edgeSymmetryIndices st) (faceSymmetryIndices st)
    (vertexSides st) (edgeSides st) (faceSides st) (leftSideVertexIndices st).

Definition withEdges (st : PolySymmetryData) (idx : list Z) (ex : list bool)
  : PolySymmetryData :=
  mkPolySymmetryData ex (examinedFaces st) (examinedVertices st)
    (vertexSymmetryIndices st) idx (faceSymmetryIndices st)
    (vertexSides st) (edgeSides st) (faceSides st) (leftSideVertexIndices st).

Definition withFaces (st : PolySymmetryData) (idx : list Z) (ex : list bool)
  : PolySymmetryData :=
  mkPolySymmetryData (examinedEdges st) ex (examinedVertices st)
    (vertexSymmetryIndices st) (edgeSymmetryIndices st) idx
    (vertexSides st) (edgeSides st) (faceSides st) (leftSideVertexIndices st).

Definition withSides (st : PolySymmetryData) (vs es fs : list Z)
  : PolySymmetryData :=
  mkPolySymmetryData (examinedEdges st) (examinedFaces st) (examinedVertices st)
    (vertexSymmetryIndices st) (edgeSymmetryIndices st) (faceSymmetryIndices st)
    vs es fs (leftSideVertexIndices st).

Definition withLeftSideVertexIndices (st : PolySymmetryData) (l : list Z)
  : PolySymmetryData :=
  mkPolySymmetryData (examinedEdges st) (examinedFaces st) (examinedVertices st)
    (vertexSymmetryIndices st) (edgeSymmetryIndices st) (faceSymmetryIndices st)
    (vertexSides st) (edgeSides st) (faceSides st) l.

Definition LEFT : Z := 1.
Definition RIGHT : Z := -1.
Definition CENTER : Z := 0.

(** Modelled from the spec: [contains] of [util.h], membership in a vector. *)
Definition contains (l : list Z) (x : Z) : bool :=
  existsb (Z.eqb x) l.

(** Modelled from the spec: [intersection] of [util.h], the members of the
    first vector that also occur in the second.  The engine below is
    parametric in the implementation; this one instantiates it on examples. *)
Definition intersectionModel (a b : list Z) : list Z :=
  filter (fun x => bool_decide (x ∈ b)) a.

(** ** The class [PolySymmetryData] *)

Section PolySymmetry.

(** [intersection] of [util.h] (not part of the sources) is a parameter of
    the development; [meshData] is the member of that name, which none of
    the methods below writes to. *)
Variable intersection : list Z -> list Z -> list Z.
Variable meshData : MeshData.

(** [reset()] (lines 94-121): every vector is cleared and resized to the
    component count. *)
Definition reset : PolySymmetryData :=
  {| examinedEdges := replicate (Z.to_nat (numberOfEdges meshData)) false;
     examinedFaces := replicate (Z.to_nat (numberOfFaces meshData)) false;
     examinedVertices := replicate (Z.to_nat (numberOfVertices meshData)) false;
     vertexSymmetryIndices := replicate (Z.to_nat (numberOfVertices meshData)) (-1);
     edgeSymmetryIndices := replicate (Z.to_nat (numberOfEdges meshData)) (-1);
     faceSymmetryIndices := replicate (Z.to_nat (numberOfFaces meshData)) (-1);
     vertexSides := replicate (Z.to_nat (numberOfVertices meshData)) (-1);
     edgeSides := replicate (Z.to_nat (numberOfEdges meshData)) (-1);
     faceSides := replicate (Z.to_nat (numberOfFaces meshData)) (-1);
     leftSideVertexIndices := [] |}.

(** [markSymmetricalVertices] (lines 406-413). *)
Definition markSymmetricalVertices (i0 i1 : Z) (st : PolySymmetryData)
  : result PolySymmetryData :=
  idx ← vset (vertexSymmetryIndices st) i0 i1;
  idx ← vset idx i1 i0;
  ex ← vset (examinedVertices st) i0 true;
  ex ← vset ex i1 true;
  Ok (withVertices st idx ex).

(** [markSymmetricalEdges] (lines 416-423). *)
Definition markSymmetricalEdges (i0 i1 : Z) (st : PolySymmetryData)
  : result PolySymmetryData :=
  idx ← vset (edgeSymmetryIndices st) i0 i1;
  idx ← vset idx i1 i0;
  ex ← vset (examinedEdges st) i0 true;
  ex ← vset ex i1 true;
  Ok (withEdges st idx ex).

(** [markSymmetricalFaces] (lines 426-433). *)
Definition markSymmetricalFaces (i0 i1 : Z) (st : PolySymmetryData)
  : result PolySymmetryData :=
  idx ← vset (faceSymmetryIndices st) i0 i1;
  idx ← vset idx i1 i0;
  ex ← vset (examinedFaces st) i0 true;
  ex ← vset ex i1 true;
  Ok (withFaces st idx ex).

(** The loop shared by [getUnexaminedFace] and [getUnexaminedVertexSibling]:
    the first member of [l] whose flag is not set, or [-1]. *)
Fixpoint firstUnexamined (examined : list bool) (l : list Z) : result Z :=
  match l with
  | [] => Ok (-1)
  | x :: l' =>
      ex ← vget examined x;
      if (ex : bool) then firstUnexamined examined l' else Ok x
  end.

(** [getUnexaminedVertexSibling] (lines 309-325). *)
Definition getUnexaminedVertexSibling (vertexIndex faceIndex : Z)
    (st : PolySymmetryData) : result Z :=
  vd ← vget (vertexData meshData) vertexIndex;
  firstUnexamined (examinedVertices st)
    (default ([] : list Z) (faceVertexSiblings vd !! faceIndex)).

(** [getUnexaminedFace] (lines 219-233). *)
Definition getUnexaminedFace (edgeIndex : Z) (st : PolySymmetryData) : result Z :=
  ed ← vget (edgeData meshData) edgeIndex;
  firstUnexamined (examinedFaces st) (connectedFaces ed).

(** Body of the loop over the shared faces in [getUnexaminedFaces]
    (lines 191-209). *)
Definition sharedFacesBody (st : PolySymmetryData) (faceIndex : Z)
    (faces : Z * Z) : result (Z * Z) :=
  ex ← vget (examinedFaces st) faceIndex;
  if (ex : bool) then Ok faces
  else if fst faces =? -1 then Ok (faceIndex, snd faces)
  else if snd faces =? -1 then Ok (fst faces, faceIndex)
  else Ok faces.

(** [getUnexaminedFaces] (lines 179-216). *)
Definition getUnexaminedFaces (edgePair : Z * Z) (st : PolySymmetryData)
  : result (Z * Z) :=
  ed0 ← vget (edgeData meshData) (fst edgePair);
  ed1 ← vget (edgeData meshData) (snd edgePair);
  let sharedFaces := intersection (connectedFaces ed0) (connectedFaces ed1) in
  if (0 <? length sharedFaces)%nat then
    forEach (sharedFacesBody st) sharedFaces (-1, -1)
  else
    face0 ← getUnexaminedFace (fst edgePair) st;
    face1 ← getUnexaminedFace (snd edgePair) st;
    Ok (face0, face1).

(** Body of the [while] loop of [findSymmetricalVerticesOnFace]
    (lines 248-266). *)
Definition faceVerticesBody (facePair : Z * Z) (vertex0 : Z)
    (faceVerticesQueue : list Z) (st : PolySymmetryData)
  : result (list Z * PolySymmetryData) :=
  vertex1 ← vget (vertexSymmetryIndices st) vertex0;
  nextVertex0 ← getUnexaminedVertexSibling vertex0 (fst facePair) st;
  nextVertex1 ← getUnexaminedVertexSibling vertex1 (snd facePair) st;
  if (nextVertex0 =? -1) || (nextVertex1 =? -1) then Ok (faceVerticesQueue, st)
  else
    st ← markSymmetricalVertices nextVertex0 nextVertex1 st;
    Ok (faceVerticesQueue ++ [nextVertex0], st).

(** The number of components whose flag is not set. *)
Definition unexamined (examined : list bool) : nat :=
  length (filter (fun b => b = false) examined).

(** [findSymmetricalVerticesOnFace] (lines 236-267).  Every iteration of
    the [while] loop pops a vertex and pushes one only after marking a
    vertex that was not examined, so the length of the queue plus the
    number of unexamined vertices bounds the iterations
    ([findSymmetricalVerticesOnFace_fuel] below). *)
Definition findSymmetricalVerticesOnFace (facePair : Z * Z)
    (st : PolySymmetryData) : result PolySymmetryData :=
  fd ← vget (faceData meshData) (fst facePair);
  faceVerticesQueue ←
    forEach (fun v queue =>
               ex ← vget (examinedVertices st) v;
               if (ex : bool) then Ok (queue ++ [v]) else Ok queue)
            (connectedVertices fd) [];
  whileQueue (faceVerticesBody facePair)
    (length faceVerticesQueue + unexamined (examinedVertices st))
    faceVerticesQueue st.

(** Body of the loop of [findSymmetricalEdgesOnFace] (lines 277-305). *)
Definition faceEdgesBody (e : Z) (s : list (Z * Z) * PolySymmetryData)
  : result (list (Z * Z) * PolySymmetryData) :=
  let '(symmetricalEdgesQueue, st) := s in
  ex ← vget (examinedEdges st) e;
  if (ex : bool) then Ok s
  else
    ed ← vget (edgeData meshData) e;
    c0 ← vget (connectedVertices ed) 0;
    vertex0 ← vget (vertexSymmetryIndices st) c0;
    ed ← vget (edgeData meshData) e;
    c1 ← vget (connectedVertices ed) 1;
    vertex1 ← vget (vertexSymmetryIndices st) c1;
    if (vertex0 =? -1) || (vertex1 =? -1) then Ok s
    else
      vd0 ← vget (vertexData meshData) vertex0;
      vd1 ← vget (vertexData meshData) vertex1;
      let sharedEdges := intersection (connectedEdges vd0) (connectedEdges vd1) in
      if negb (length sharedEdges =? 1)%nat then Ok s
      else
        edgeIndex ← vget sharedEdges 0;
        exi ← vget (examinedEdges st) edgeIndex;
        let symmetricalEdgesQueue :=
          if (exi : bool) then symmetricalEdgesQueue
          else symmetricalEdgesQueue ++ [(e, edgeIndex)] in
        st ← markSymmetricalEdges e edgeIndex st;
        Ok (symmetricalEdgesQueue, st).

(** [findSymmetricalEdgesOnFace] (lines 270-306). *)
Definition findSymmetricalEdgesOnFace (symmetricalEdgesQueue : list (Z * Z))
    (faceIndex : Z) (st : PolySymmetryData)
  : result (list (Z * Z) * PolySymmetryData) :=
  fd ← vget (faceData meshData) faceIndex;
  forEach faceEdgesBody (connectedEdges fd) (symmetricalEdgesQueue, st).

(** [findFirstSymmetricalVertices] (lines 158-176). *)
Definition findFirstSymmetricalVertices (selection : ComponentSelection)
    (st : PolySymmetryData) : result PolySymmetryData :=
  st ← markSymmetricalVertices (fst (vertexIndices selection))
         (snd (vertexIndices selection)) st;
  st ← markSymmetricalFaces (fst (faceIndices selection))
         (snd (faceIndices selection)) st;
  ed ← vget (edgeData meshData) (fst (edgeIndices selection));
  vertex0 ← vget (connectedVertices ed) 0;
  ed ← vget (edgeData meshData) (fst (edgeIndices selection));
  vertex1 ← vget (connectedVertices ed) 1;
  ex ← vget (examinedVertices st) vertex0;
  let nextVertex0 := if (ex : bool) then vertex1 else vertex0 in
  ed ← vget (edgeData meshData) (snd (edgeIndices selection));
  vertex0 ← vget (connectedVertices ed) 0;
  ed ← vget (edgeData meshData) (snd (edgeIndices selection));
  vertex1 ← vget (connectedVertices ed) 1;
  ex ← vget (examinedVertices st) vertex0;
  let nextVertex1 := if (ex : bool) then vertex1 else vertex0 in
  st ← markSymmetricalVertices nextVertex0 nextVertex1 st;
  findSymmetricalVerticesOnFace (faceIndices selection) st.

(** Body of the worklist loop of [findSymmetricalVertices] (lines 136-154). *)
Definition worklistBody (edgePair : Z * Z) (symmetricalEdgesQueue : list (Z * Z))
    (st : PolySymmetryData) : result (list (Z * Z) * PolySymmetryData) :=
  st ← markSymmetricalEdges (fst edgePair) (snd edgePair) st;
  facesPair ← getUnexaminedFaces edgePair st;
  if (fst facesPair =? -1) || (snd facesPair =? -1)
  then Ok (symmetricalEdgesQueue, st)
  else
    st ← markSymmetricalFaces (fst facesPair) (snd facesPair) st;
    st ← findSymmetricalVerticesOnFace facesPair st;
    findSymmetricalEdgesOnFace symmetricalEdgesQueue (fst facesPair) st.

(** [findSymmetricalVertices] (lines 124-155); [fuel] bounds the number of
    edge pairs taken from the worklist. *)
Definition findSymmetricalVertices (fuel : nat) (selection : ComponentSelection)
    (st : PolySymmetryData) : result PolySymmetryData :=
  let symmetricalEdgesQueue := [edgeIndices selection] in
  let st :=
    if leftVertexIndex selection =? -1 then st
    else withLeftSideVertexIndices st
           (leftSideVertexIndices st ++ [leftVertexIndex selection]) in
  st ← findFirstSymmetricalVertices selection st;
  whileQueue worklistBody fuel symmetricalEdgesQueue st.

(** *** The side classifier *)

(** Loop state of the two flood fills of [findVertexSides]: the local
    [visitedVertices] (a [vector<int>] that only ever holds [false] and
    [true]) and the member [vertexSides]. *)
Definition FloodState : Type := (list bool * list Z)%type.

(** Body of the left flood fill (lines 348-371). *)
Definition leftFloodBody (st : PolySymmetryData) (vertexIndex : Z)
    (nextVertexQueue : list Z) (s : FloodState) : result (list Z * FloodState) :=
  let '(visitedVertices, sides) := s in
  vis ← vget visitedVertices vertexIndex;
  if (vis : bool) then Ok (nextVertexQueue, s)
  else
    visitedVertices ← vset visitedVertices vertexIndex true;
    partner ← vget (vertexSymmetryIndices st) vertexIndex;
    if partner =? vertexIndex then
      sides ← vset sides vertexIndex CENTER;
      Ok (nextVertexQueue, (visitedVertices, sides))
    else
      sides ← vset sides vertexIndex LEFT;
      vd ← vget (vertexData meshData) vertexIndex;
      nextVertexQueue ←
        forEach (fun i queue =>
                   vis ← vget visitedVertices i;
                   if (vis : bool) then Ok queue
                   else
                     partner ← vget (vertexSymmetryIndices st) i;
                     if partner =? vertexIndex then Ok queue
                     else Ok (queue ++ [i]))
                (connectedVertices vd) nextVertexQueue;
      Ok (nextVertexQueue, (visitedVertices, sides)).

(** Body of the right flood fill (lines 379-402). *)
Definition rightFloodBody (st : PolySymmetryData) (vertexIndex : Z)
    (nextVertexQueue : list Z) (s : FloodState) : result (list Z * FloodState) :=
  let '(visitedVertices, sides) := s in
  vis ← vget visitedVertices vertexIndex;
  if (vis : bool) then Ok (nextVertexQueue, s)
  else
    visitedVertices ← vset visitedVertices vertexIndex true;
    partner ← vget (vertexSymmetryIndices st) vertexIndex;
    if partner =? vertexIndex then
      sides ← vset sides vertexIndex CENTER;
      Ok (nextVertexQueue, (visitedVertices, sides))
    else
      sides ← vset sides vertexIndex RIGHT;
      vd ← vget (vertexData meshData) vertexIndex;
      nextVertexQueue ←
        forEach (fun i queue =>
                   vis ← vget visitedVertices i;
                   if (vis : bool) then Ok queue
                   else Ok (queue ++ [i]))
                (connectedVertices vd) nextVertexQueue;
      Ok (nextVertexQueue, (visitedVertices, sides)).

(** The total number of neighbours of the vertices not yet visited. *)
Fixpoint pendingNeighbours (visited : list bool) (vd : list ComponentData) : nat :=
  match visited, vd with
  | b :: visited', d :: vd' =>
      ((if b then 0 else length (connectedVertices d))
       + pendingNeighbours visited' vd')%nat
  | _, _ => O
  end.

(** [findVertexSides] (lines 328-403).  Each flood fill pops a vertex per
    iteration and pushes neighbours only when it visits a vertex for the
    first time, so the length of the queue plus the number of neighbours of
    the unvisited vertices bounds its iterations
    ([findVertexSides_fuel] below). *)
Definition findVertexSides (leftSideVertexIndices : list Z)
    (st : PolySymmetryData) : result PolySymmetryData :=
  let visitedVertices := replicate (Z.to_nat (numberOfVertices meshData)) false in
  let sides := replicate (Z.to_nat (numberOfVertices meshData)) 0 in
  '(nextVertexQueue, sides) ←
    forEach (fun i (s : list Z * list Z) =>
               sides ← vset (snd s) i LEFT;
               Ok (fst s ++ [i], sides))
            leftSideVertexIndices ([], sides);
  '(visitedVertices, sides) ←
    whileQueue (leftFloodBody st)
      (length nextVertexQueue
       + pendingNeighbours visitedVertices (vertexData meshData))
      nextVertexQueue (visitedVertices, sides);
  '(nextVertexQueue, sides) ←
    forEach (fun i (s : list Z * list Z) =>
               partner ← vget (vertexSymmetryIndices st) i;
               partner ← vget (vertexSymmetryIndices st) i;
               sides ← vset (snd s) partner RIGHT;
               Ok (fst s ++ [partner], sides))
            leftSideVertexIndices ([], sides);
  '(visitedVertices, sides) ←
    whileQueue (rightFloodBody st)
      (length nextVertexQueue
       + pendingNeighbours visitedVertices (vertexData meshData))
      nextVertexQueue (visitedVertices, sides);
  Ok (withSides st sides (edgeSides st) (faceSides st)).

(** *** Derived edge and face sides *)

(** Body of the loop over the edges in [finalizeSymmetry] (lines 442-455). *)
Definition edgeSideBody (st : PolySymmetryData) (i : Z) (sides : list Z)
  : result (list Z) :=
  ed ← vget (edgeData meshData) i;
  c0 ← vget (connectedVertices ed) 0;
  sv0 ← vget (vertexSides st) c0;
  ed ← vget (edgeData meshData) i;
  c1 ← vget (connectedVertices ed) 1;
  sv1 ← vget (vertexSides st) c1;
  if (sv0 =? CENTER) && (sv1 =? CENTER) then vset sides i CENTER
  else if (sv0 =? RIGHT) || (sv1 =? RIGHT) then vset sides i RIGHT
  else if (sv0 =? LEFT) || (sv1 =? LEFT) then vset sides i LEFT
  else Ok sides.

(** Body of the loop over the faces in [finalizeSymmetry] (lines 459-472):
    [faceVertexSides] is resized to the face's loop and filled with the
    sides of its vertices. *)
Definition faceSideBody (st : PolySymmetryData) (i : Z) (sides : list Z)
  : result (list Z) :=
  fd ← vget (faceData meshData) i;
  faceVertexSides ←
    forEach (fun v acc => sv ← vget (vertexSides st) v; Ok (acc ++ [sv]))
            (connectedVertices fd) [];
  let onTheLeft := contains faceVertexSides LEFT in
  let onTheRight := contains faceVertexSides RIGHT in
  vset sides i ((if onTheLeft then LEFT else CENTER)
                + (if onTheRight then RIGHT else CENTER)).

(** [finalizeSymmetry] (lines 436-473). *)
Definition finalizeSymmetry (st : PolySymmetryData) : result PolySymmetryData :=
  es ← forEach (edgeSideBody st) (seqZ 0 (numberOfEdges meshData)) (edgeSides st);
  fs ← forEach (faceSideBody st) (seqZ 0 (numberOfFaces meshData)) (faceSides st);
  Ok (withSides st (vertexSides st) es fs).

End PolySymmetry.

(** ** Specifications *)

Section Specifications.
Variable intersection : list Z -> list Z -> list Z.
Variable meshData : MeshData.

(** What one iteration of the edge loop leaves at its own index. *)
Definition edgeSideRule (sv0 sv1 : Z) (side : result Z) : Prop :=
  (sv0 = CENTER -> sv1 = CENTER -> side = Ok CENTER) /\
  (~ (sv0 = CENTER /\ sv1 = CENTER) -> sv0 = RIGHT \/ sv1 = RIGHT ->
   side = Ok RIGHT) /\
  (~ (sv0 = CENTER /\ sv1 = CENTER) -> sv0 <> RIGHT -> sv1 <> RIGHT ->
   sv0 = LEFT \/ sv1 = LEFT -> side = Ok LEFT).

(** One iteration of either flood fill, as a relation: the dequeued vertex
    was visited and nothing changes, or it is visited now, takes CENTER
    (self-symmetric) or [side], and in the latter case some of its
    neighbours are pushed. *)
Definition floodStep (side : Z) (st : PolySymmetryData) (x : Z)
    (q : list Z) (s : FloodState) (q' : list Z) (s' : FloodState) : Prop :=
  (vget (fst s) x = Ok true /\ q' = q /\ s' = s) \/
  (vget (fst s) x = Ok false /\
   vset (fst s) x true = Ok (fst s') /\
   exists p, vget (vertexSymmetryIndices st) x = Ok p /\
     ((p = x /\ vset (snd s) x CENTER = Ok (snd s') /\ q' = q) \/
      (p <> x /\ vset (snd s) x side = Ok (snd s') /\
       exists vd pushed,
         vget (vertexData meshData) x = Ok vd /\
         q' = q ++ pushed /\ sublist pushed (connectedVertices vd)))).

(** The measure of a flood fill: the length of the queue plus the number of
    neighbours of the unvisited vertices. *)
Definition floodMeasure (q : list Z) (s : FloodState) : nat :=
  (length q + pendingNeighbours (fst s) (vertexData meshData))%nat.

(** The topology the classifier reads is well formed: [vertexData] has an
    entry per vertex and lists only vertices of the mesh as neighbours. *)
Definition wfVertexData : Prop :=
  length (vertexData meshData) = Z.to_nat (numberOfVertices meshData) /\
  Forall (fun vd => Forall (fun v => 0 <= v < numberOfVertices meshData)
                           (connectedVertices vd))
         (vertexData meshData).

(** Queue and loop state of a flood fill stay within the mesh. *)
Definition floodInRange (q : list Z) (s : FloodState) : Prop :=
  length (fst s) = Z.to_nat (numberOfVertices meshData) /\
  length (snd s) = Z.to_nat (numberOfVertices meshData) /\
  Forall (fun v => 0 <= v < numberOfVertices meshData) q.

(** Every left seed is a vertex of the mesh and is resolved: its entry in
    the symmetry table is a vertex of the mesh. *)
Definition seedsResolved (left : list Z) (st : PolySymmetryData) : Prop :=
  Forall (fun i => 0 <= i < numberOfVertices meshData /\
                   exists p, vget (vertexSymmetryIndices st) i = Ok p /\
                             0 <= p < numberOfVertices meshData) left.

(** The writes of a [markSymmetrical...] method on the table of one kind of
    component. *)
Definition markPair (idx : list Z) (ex : list bool) (i0 i1 : Z)
  : result (list Z * list bool) :=
  idx ← vset idx i0 i1;
  idx ← vset idx i1 i0;
  ex ← vset ex i0 true;
  ex ← vset ex i1 true;
  Ok (idx, ex).

(** A region of the mesh, given by its vertices [AV], edges [AE] and faces
    [AF], is closed: the adjacency of its components, and the intersection
    of two of their adjacency lists, stay in the region. *)
Definition closedShell (AV AE AF : Z -> Prop) : Prop :=
  (forall a b, Forall AE a -> Forall AE (intersection a b)) /\
  (forall a b, Forall AF a -> Forall AF (intersection a b)) /\
  (forall v vd, AV v -> vget (vertexData meshData) v = Ok vd ->
     Forall AV (connectedVertices vd) /\ Forall AE (connectedEdges vd) /\
     forall f sibs, faceVertexSiblings vd !! f = Some sibs -> Forall AV sibs) /\
  (forall e ed, AE e -> vget (edgeData meshData) e = Ok ed ->
     Forall AV (connectedVertices ed) /\ Forall AF (connectedFaces ed)) /\
  (forall f fd, AF f -> vget (faceData meshData) f = Ok fd ->
     Forall AV (connectedVertices fd) /\ Forall AE (connectedEdges fd)).

(** The partners recorded for the vertices of a region are in the region. *)
Definition closedVertexTable (AV : Z -> Prop) (st : PolySymmetryData) : Prop :=
  forall v p, AV v -> vget (vertexSymmetryIndices st) v = Ok p -> AV p.

(** One write to the symmetry table by the propagation engine: a pair of
    vertices, a pair of edges, or a pair of faces that were not examined
    is marked, all of them in the region.  Under [freshV] the vertices were
    not examined either. *)
Definition markStep (AV AE AF : Z -> Prop) (freshV : Prop)
    (st st' : PolySymmetryData) : Prop :=
  (exists i0 i1, AV i0 /\ AV i1 /\
     (freshV -> vget (examinedVertices st) i0 = Ok false /\
                vget (examinedVertices st) i1 = Ok false) /\
     markSymmetricalVertices i0 i1 st = Ok st') \/
  (exists i0 i1, AE i0 /\ AE i1 /\ markSymmetricalEdges i0 i1 st = Ok st') \/
  (exists i0 i1, AF i0 /\ AF i1 /\
     vget (examinedFaces st) i0 = Ok false /\
     vget (examinedFaces st) i1 = Ok false /\
     markSymmetricalFaces i0 i1 st = Ok st').

(** [w] is the endpoint of the edge [e] other than its endpoint [v]. *)
Definition otherEndpoint (e v w : Z) : Prop :=
  exists ed, vget (edgeData meshData) e = Ok ed /\
    ((vget (connectedVertices ed) 0 = Ok v /\ vget (connectedVertices ed) 1 = Ok w)
     \/ (vget (connectedVertices ed) 0 = Ok w /\
         vget (connectedVertices ed) 1 = Ok v)).

(** The seed vertices are endpoints of their seed edges, the other
    endpoints of the seed edges are not seed vertices, and none of the four
    is examined. *)
Definition seedFresh (selection : ComponentSelection) (st : PolySymmetryData)
  : Prop :=
  exists w0 w1,
    otherEndpoint (fst (edgeIndices selection)) (fst (vertexIndices selection)) w0 /\
    otherEndpoint (snd (edgeIndices selection)) (snd (vertexIndices selection)) w1 /\
    w0 <> fst (vertexIndices selection) /\ w0 <> snd (vertexIndices selection) /\
    w1 <> fst (vertexIndices selection) /\ w1 <> snd (vertexIndices selection) /\
    vget (examinedVertices st) (fst (vertexIndices selection)) = Ok false /\
    vget (examinedVertices st) (snd (vertexIndices selection)) = Ok false /\
    vget (examinedVertices st) w0 = Ok false /\
    vget (examinedVertices st) w1 = Ok false.

(** The seed lies in the region. *)
Definition seedIn (AV AE AF : Z -> Prop) (selection : ComponentSelection) : Prop :=
  AV (fst (vertexIndices selection)) /\ AV (snd (vertexIndices selection)) /\
  AE (fst (edgeIndices selection)) /\ AE (snd (edgeIndices selection)) /\
  AF (fst (faceIndices selection)) /\ AF (snd (faceIndices selection)).

(** In the table of one kind of component, a recorded partner is examined,
    and so is the component it is recorded for; an examined component has a
    partner recorded. *)
Definition partnersExamined (idx : list Z) (ex : list bool) : Prop :=
  (forall a b, vget idx a = Ok b -> b <> -1 ->
     vget ex a = Ok true /\ vget ex b = Ok true) /\
  (forall a, vget ex a = Ok true ->
     exists b, vget idx a = Ok b /\ b <> -1).

(** The table of one kind of component is a partial involution. *)
Definition involutive (idx : list Z) : Prop :=
  forall a b, vget idx a = Ok b -> b <> -1 -> vget idx b = Ok a.

(** What every write of the engine keeps. *)
Definition tableInvariant (freshV : Prop) (st : PolySymmetryData) : Prop :=
  (freshV -> involutive (vertexSymmetryIndices st)) /\
  partnersExamined (vertexSymmetryIndices st) (examinedVertices st) /\
  partnersExamined (edgeSymmetryIndices st) (examinedEdges st) /\
  partnersExamined (faceSymmetryIndices st) (examinedFaces st) /\
  involutive (faceSymmetryIndices st).

(** Edge flags are only ever set: from [st] to [st'] an examined edge stays
    examined. *)
Definition edgesMonotone (st st' : PolySymmetryData) : Prop :=
  (forall c, vget (examinedEdges st) c = Ok true ->
     vget (examinedEdges st') c = Ok true) /\
  (forall c, vget (examinedEdges st') c = Ok false ->
     vget (examinedEdges st) c = Ok false).

(** Both edges of the pair [p] were unexamined in [st] and are examined in
    [st']. *)
Definition freshlyMarked (st st' : PolySymmetryData) (p : Z * Z) : Prop :=
  vget (examinedEdges st) (fst p) = Ok false /\
  vget (examinedEdges st) (snd p) = Ok false /\
  vget (examinedEdges st') (fst p) = Ok true /\
  vget (examinedEdges st') (snd p) = Ok true.

(** The components of a vector with their indices. *)
Definition indexed {A : Type} (l : list A) : list (Z * A) :=
  imap (fun i a => (Z.of_nat i, a)) l.

(** All members of [l] are on the side [b] of the membership test [inB]. *)
Definition allIn (inB : Z -> bool) (b : bool) (l : list Z) : bool :=
  forallb (fun j => Bool.eqb (inB j) b) l.

(** Shell B, given by membership tests on vertices, edges and faces, is
    disconnected from the rest of the mesh: no adjacency list of a
    component mentions a component of the other side. *)
Definition shellsSeparated (inBV inBE inBF : Z -> bool) : bool :=
  forallb (fun c : Z * ComponentData =>
             allIn inBV (inBV (fst c)) (connectedVertices (snd c))
             && allIn inBE (inBV (fst c)) (connectedEdges (snd c))
             && forallb (fun fs : Z * list Z => allIn inBV (inBV (fst c)) (snd fs))
                        (map_to_list (faceVertexSiblings (snd c))))
          (indexed (vertexData meshData))
  && forallb (fun c : Z * ComponentData =>
                allIn inBV (inBE (fst c)) (connectedVertices (snd c))
                && allIn inBF (inBE (fst c)) (connectedFaces (snd c)))
             (indexed (edgeData meshData))
  && forallb (fun c : Z * ComponentData =>
                allIn inBV (inBF (fst c)) (connectedVertices (snd c))
                && allIn inBE (inBF (fst c)) (connectedEdges (snd c)))
             (indexed (faceData meshData)).

(** The seed selects nothing of shell B. *)
Definition seedOutside (inBV inBE inBF : Z -> bool)
    (selection : ComponentSelection) : bool :=
  negb (inBV (fst (vertexIndices selection)))
  && negb (inBV (snd (vertexIndices selection)))
  && negb (inBE (fst (edgeIndices selection)))
  && negb (inBE (snd (edgeIndices selection)))
  && negb (inBF (fst (faceIndices selection)))
  && negb (inBF (snd (faceIndices selection))).

(** A component index that is not in shell B (the sentinel is not). *)
Definition outside (inB : Z -> bool) (i : Z) : Prop :=
  0 <= i -> inB i = false.

End Specifications.

(** ** Bounds of the mesh and of the tables *)

Section Bounds.
Variable meshData : MeshData.

(** [i] is an index into a vector of [n] components. *)
Definition inBounds (n i : Z) : bool := (0 <=? i) && (i <? n).

(** The topology is well formed: there is an entry per component, every
    adjacency list that the methods read names components of the mesh, and
    every edge lists its two endpoints. *)
Definition wfMesh : bool :=
  (length (vertexData meshData) =? Z.to_nat (numberOfVertices meshData))%nat
  && (length (edgeData meshData) =? Z.to_nat (numberOfEdges meshData))%nat
  && (length (faceData meshData) =? Z.to_nat (numberOfFaces meshData))%nat
  && forallb (fun vd =>
                forallb (inBounds (numberOfVertices meshData)) (connectedVertices vd)
                && forallb (inBounds (numberOfEdges meshData)) (connectedEdges vd)
                && forallb (fun fs : Z * list Z =>
                              forallb (inBounds (numberOfVertices meshData)) (snd fs))
                           (map_to_list (faceVertexSiblings vd)))
             (vertexData meshData)
  && forallb (fun ed =>
                (2 <=? length (connectedVertices ed))%nat
                && forallb (inBounds (numberOfVertices meshData)) (connectedVertices ed)
                && forallb (inBounds (numberOfFaces meshData)) (connectedFaces ed))
             (edgeData meshData)
  && forallb (fun fd =>
                forallb (inBounds (numberOfVertices meshData)) (connectedVertices fd)
                && forallb (inBounds (numberOfEdges meshData)) (connectedEdges fd))
             (faceData meshData).

(** The seed names vertices, edges and faces of the mesh. *)
Definition seedInBounds (selection : ComponentSelection) : bool :=
  inBounds (numberOfVertices meshData) (fst (vertexIndices selection))
  && inBounds (numberOfVertices meshData) (snd (vertexIndices selection))
  && inBounds (numberOfEdges meshData) (fst (edgeIndices selection))
  && inBounds (numberOfEdges meshData) (snd (edgeIndices selection))
  && inBounds (numberOfFaces meshData) (fst (faceIndices selection))
  && inBounds (numberOfFaces meshData) (snd (faceIndices selection)).

(** The vectors of the symmetry table have an entry per component. *)
Definition tableLengths (st : PolySymmetryData) : Prop :=
  length (examinedVertices st) = Z.to_nat (numberOfVertices meshData) /\
  length (vertexSymmetryIndices st) = Z.to_nat (numberOfVertices meshData) /\
  length (examinedEdges st) = Z.to_nat (numberOfEdges meshData) /\
  length (edgeSymmetryIndices st) = Z.to_nat (numberOfEdges meshData) /\
  length (examinedFaces st) = Z.to_nat (numberOfFaces meshData) /\
  length (faceSymmetryIndices st) = Z.to_nat (numberOfFaces meshData).

(** The vectors of the side table have an entry per component. *)
Definition sideLengths (st : PolySymmetryData) : Prop :=
  length (vertexSides st) = Z.to_nat (numberOfVertices meshData) /\
  length (edgeSides st) = Z.to_nat (numberOfEdges meshData) /\
  length (faceSides st) = Z.to_nat (numberOfFaces meshData).

(** Every entry of a vector of symmetry indices is the sentinel or the
    index of one of [n] components. *)
Definition partnersInBounds (n : Z) (idx : list Z) : Prop :=
  forall a b, vget idx a = Ok b -> b = -1 \/ 0 <= b < n.

(** The symmetry table is well formed: its vectors have an entry per
    component, every recorded partner is a component of the mesh, and the
    vertices that are examined are those that have a partner recorded. *)
Definition wfTable (st : PolySymmetryData) : Prop :=
  tableLengths st /\
  partnersInBounds (numberOfVertices meshData) (vertexSymmetryIndices st) /\
  partnersInBounds (numberOfEdges meshData) (edgeSymmetryIndices st) /\
  partnersInBounds (numberOfFaces meshData) (faceSymmetryIndices st) /\
  partnersExamined (vertexSymmetryIndices st) (examinedVertices st).

End Bounds.

(** One call of [markSymmetricalVertices], [markSymmetricalEdges] or
    [markSymmetricalFaces]. *)
Definition anyMark (st st' : PolySymmetryData) : Prop :=
  exists i0 i1,
    markSymmetricalVertices i0 i1 st = Ok st' \/
    markSymmetricalEdges i0 i1 st = Ok st' \/
    markSymmetricalFaces i0 i1 st = Ok st'.

(** From [ex] to [ex'] the vector keeps its length and no flag is cleared. *)
Definition flagsKept (ex ex' : list bool) : Prop :=
  length ex' = length ex /\
  forall c, vget ex c = Ok true -> vget ex' c = Ok true.

(** From [idx] to [idx'] the vector keeps its length and no recorded
    partner is replaced by the sentinel. *)
Definition partnersKept (idx idx' : list Z) : Prop :=
  length idx' = length idx /\
  forall c b, vget idx c = Ok b -> b <> -1 ->
    exists b', vget idx' c = Ok b' /\ b' <> -1.

(** What the propagation engine keeps of a table: the side table, the left
    seeds, the length of every vector, every flag that is set and every
    partner that is recorded (the partner itself may change). *)
Definition tableExtends (st st' : PolySymmetryData) : Prop :=
  vertexSides st' = vertexSides st /\
  edgeSides st' = edgeSides st /\
  faceSides st' = faceSides st /\
  leftSideVertexIndices st' = leftSideVertexIndices st /\
  flagsKept (examinedVertices st) (examinedVertices st') /\
  flagsKept (examinedEdges st) (examinedEdges st') /\
  flagsKept (examinedFaces st) (examinedFaces st') /\
  partnersKept (vertexSymmetryIndices st) (vertexSymmetryIndices st') /\
  partnersKept (edgeSymmetryIndices st) (edgeSymmetryIndices st') /\
  partnersKept (faceSymmetryIndices st) (faceSymmetryIndices st').

(** The table with which the engine starts its work on [st]: the left
    vertex of the seed, when there is one, is appended to the left seeds
    (lines 129-132). *)
Definition withLeftVertex (selection : ComponentSelection)
    (st : PolySymmetryData) : PolySymmetryData :=
  if leftVertexIndex selection =? -1 then st
  else withLeftSideVertexIndices st
         (leftSideVertexIndices st ++ [leftVertexIndex selection]).

(** The region that is the whole mesh. *)
Definition anywhere : Z -> Prop := fun _ => True.

(** The seed selects components of shell B only. *)
Definition seedInside (inBV inBE inBF : Z -> bool)
    (selection : ComponentSelection) : bool :=
  inBV (fst (vertexIndices selection))
  && inBV (snd (vertexIndices selection))
  && inBE (fst (edgeIndices selection))
  && inBE (snd (edgeIndices selection))
  && inBF (fst (faceIndices selection))
  && inBF (snd (faceIndices selection)).

(** A component index that is in shell B, or the sentinel. *)
Definition inside (inB : Z -> bool) (i : Z) : Prop :=
  0 <= i -> inB i = true.

(** The members of [l] whose flag is not set, in the order of [l]. *)
Definition unexaminedOf (examined : list bool) (l : list Z) : list Z :=
  List.filter (fun x => match vget examined x with
                        | Ok false => true
                        | _ => false
                        end) l.

(** What both flood fills of the side classifier keep (the loop state [s]
    holds the visited flags and the sides): a visited vertex has a side,
    other than CENTER when the vertex is not its own partner; a vertex with
    a side other than CENTER is visited or in the queue; the neighbours of
    a visited vertex that is not its own partner are visited or in the
    queue, but for the one that has the vertex as partner. *)
Definition spreadInvariant (meshData : MeshData) (st : PolySymmetryData)
    (q : list Z) (s : FloodState) : Prop :=
  (forall v, vget (fst s) v = Ok true ->
     exists sv, vget (snd s) v = Ok sv /\
       (vget (vertexSymmetryIndices st) v <> Ok v -> sv <> CENTER)) /\
  (forall v sv, vget (snd s) v = Ok sv -> sv <> CENTER ->
     vget (fst s) v = Ok true \/ v ∈ q) /\
  (forall v vd i, vget (fst s) v = Ok true ->
     vget (vertexSymmetryIndices st) v <> Ok v ->
     vget (vertexData meshData) v = Ok vd -> i ∈ connectedVertices vd ->
     vget (fst s) i = Ok true \/ vget (vertexSymmetryIndices st) i = Ok v
     \/ i ∈ q).

(** ** Simple meshes and the edge table *)

Section Simple.
Variable meshData : MeshData.

(** The two endpoints of the edge [e], as [findSymmetricalEdgesOnFace]
    reads them (lines 279-280). *)
Definition endpoints (e : Z) : result (Z * Z) :=
  ed ← vget (edgeData meshData) e;
  c0 ← vget (connectedVertices ed) 0;
  c1 ← vget (connectedVertices ed) 1;
  Ok (c0, c1).

(** Two pairs of endpoints name the same two vertices. *)
Definition sameEnds (p q : Z * Z) : bool :=
  ((fst p =? fst q) && (snd p =? snd q))
  || ((fst p =? snd q) && (snd p =? fst q)).

(** The mesh is a simple graph whose vertices list their own edges: every
    edge has two endpoints, which are different vertices; no two edges have
    the same endpoints; and every edge in the [connectedEdges] of a vertex
    has that vertex as an endpoint. *)
Definition simpleMesh : bool :=
  forallb (fun c : Z * ComponentData =>
             match endpoints (fst c) with
             | Ok p =>
                 (0 <=? fst p) && (0 <=? snd p) && negb (fst p =? snd p)
                 && forallb (fun c' : Z * ComponentData =>
                               (fst c' =? fst c)
                               || match endpoints (fst c') with
                                  | Ok p' => negb (sameEnds p p')
                                  | _ => true
                                  end)
                            (indexed (edgeData meshData))
             | _ => false
             end)
          (indexed (edgeData meshData))
  && forallb (fun c : Z * ComponentData =>
                forallb (fun e => match endpoints e with
                                  | Ok p => (fst p =? fst c) || (snd p =? fst c)
                                  | _ => false
                                  end)
                        (connectedEdges (snd c)))
             (indexed (vertexData meshData)).

(** The edge [e] joins the vertices [a] and [b]. *)
Definition joins (e a b : Z) : Prop :=
  endpoints e = Ok (a, b) \/ endpoints e = Ok (b, a).

(** The edge [e'] joins the partners of the endpoints of the edge [e]. *)
Definition edgePartner (st : PolySymmetryData) (e e' : Z) : Prop :=
  exists a b a' b',
    endpoints e = Ok (a, b) /\
    vget (vertexSymmetryIndices st) a = Ok a' /\
    vget (vertexSymmetryIndices st) b = Ok b' /\
    joins e' a' b'.

(** Every partner recorded for an edge joins the partners of the endpoints
    of the edge. *)
Definition edgesConsistent (st : PolySymmetryData) : Prop :=
  forall e e', vget (edgeSymmetryIndices st) e = Ok e' -> e' <> -1 ->
    edgePartner st e e'.

(** Every pair of the worklist is a pair of edges each of which joins the
    partners of the endpoints of the other. *)
Definition queueConsistent (st : PolySymmetryData) (q : list (Z * Z)) : Prop :=
  Forall (fun p => edgePartner st (fst p) (snd p) /\
                   edgePartner st (snd p) (fst p)) q.

(** The partners recorded for vertices in [st] are recorded in [st']. *)
Definition vertexEntriesKept (st st' : PolySymmetryData) : Prop :=
  forall a a', vget (vertexSymmetryIndices st) a = Ok a' -> a' <> -1 ->
    vget (vertexSymmetryIndices st') a = Ok a'.

End Simple.

(** ** Partial involutions *)

(** The table of one kind of component is a partial involution whose
    partners are examined: a recorded partner and the component it is
    recorded for are examined and have each other as partner, and an
    examined component has a partner recorded. *)
Definition partialInvolution (idx : list Z) (ex : list bool) : Prop :=
  partnersExamined idx ex /\ involutive idx.

(** Neither seed face is examined. *)
Definition seedFacesFresh (selection : ComponentSelection)
    (st : PolySymmetryData) : Prop :=
  vget (examinedFaces st) (fst (faceIndices selection)) <> Ok true /\
  vget (examinedFaces st) (snd (faceIndices selection)) <> Ok true.

(** One step of the engine as the vertex table sees it: a pair of vertices
    that were not examined is marked, or the vertex table is left alone. *)
Definition vertexStep (st st' : PolySymmetryData) : Prop :=
  (exists i0 i1,
     vget (examinedVertices st) i0 = Ok false /\
     vget (examinedVertices st) i1 = Ok false /\
     markSymmetricalVertices i0 i1 st = Ok st') \/
  (vertexSymmetryIndices st' = vertexSymmetryIndices st /\
   examinedVertices st' = examinedVertices st).

(** ** Mirrored halves *)

Section Mirror.
Variable meshData : MeshData.

(** The vertices that the left flood fill can reach from the left seeds: it
    goes on from a vertex that is not its own partner to each of its
    neighbours but the one that has the vertex as partner (line 365). *)
Inductive leftReach (st : PolySymmetryData) (left : list Z) : Z -> Prop :=
| leftReach_seed l : l ∈ left -> leftReach st left l
| leftReach_step u v vd :
    leftReach st left u ->
    vget (vertexSymmetryIndices st) u <> Ok u ->
    vget (vertexData meshData) u = Ok vd -> v ∈ connectedVertices vd ->
    vget (vertexSymmetryIndices st) v <> Ok u ->
    leftReach st left v.

(** [half] is one half of a mirrored region of the mesh.  Every vertex [v]
    of the half has a partner [p] that is not in the half and has [v] as
    partner.  A neighbour of [v] is its own partner (it is on the centre
    line), has [v] as partner (the edge crosses the seam), or is in the
    half, and then its partner is a neighbour of [p].  A neighbour of [p]
    is its own partner, is [v], or is the partner of a neighbour of [v]
    that is in the half. *)
Definition mirrorHalf (st : PolySymmetryData) (half : Z -> Prop) : Prop :=
  forall v, half v ->
    exists p vd pd,
      vget (vertexSymmetryIndices st) v = Ok p /\
      vget (vertexSymmetryIndices st) p = Ok v /\
      ~ half p /\
      vget (vertexData meshData) v = Ok vd /\
      vget (vertexData meshData) p = Ok pd /\
      (forall i, i ∈ connectedVertices vd ->
         vget (vertexSymmetryIndices st) i = Ok i \/
         vget (vertexSymmetryIndices st) i = Ok v \/
         (half i /\ exists pi, vget (vertexSymmetryIndices st) i = Ok pi /\
                               pi ∈ connectedVertices pd)) /\
      (forall j, j ∈ connectedVertices pd ->
         vget (vertexSymmetryIndices st) j = Ok j \/ j = v \/
         exists i, half i /\ i ∈ connectedVertices vd /\
                   vget (vertexSymmetryIndices st) i = Ok j).

(** What a flood fill that writes [side] keeps, where [old] are the
    vertices visited before it started, [sides0] the sides with which it
    started and [q0] the queue with which it started: a vertex visited
    before stays visited and keeps its side; a vertex visited by this flood
    fill has CENTER when it is its own partner and [side] otherwise; a
    vertex of the first queue is visited or still in the queue. *)
Definition floodTrace (side : Z) (st : PolySymmetryData) (old : list bool)
    (sides0 : list Z) (q0 q : list Z) (s : FloodState) : Prop :=
  (forall v, vget old v = Ok true ->
     vget (fst s) v = Ok true /\ vget (snd s) v = vget sides0 v) /\
  (forall v, vget (fst s) v = Ok true -> vget old v <> Ok true ->
     exists p, vget (vertexSymmetryIndices st) v = Ok p /\
               vget (snd s) v = Ok (if p =? v then CENTER else side)) /\
  (forall p, p ∈ q0 -> vget (fst s) p = Ok true \/ p ∈ q).

(** A vertex is mirrored from the visited part [visited] of the half: it is
    its own partner, or the partner of a vertex of the half that was
    visited. *)
Definition mirrored (st : PolySymmetryData) (half : Z -> Prop)
    (visited : list bool) (u : Z) : Prop :=
  vget (vertexSymmetryIndices st) u = Ok u \/
  exists v, half v /\ vget visited v = Ok true /\
            vget (vertexSymmetryIndices st) v = Ok u.

End Mirror.

(** ** Example meshes *)

(** A square split along the diagonal 1-3 into the triangles (0,1,3) and
    (1,2,3); its edges are e0=(0,1), e1=(1,3), e2=(3,0), e3=(1,2),
    e4=(2,3).  It is mirror symmetric across the diagonal: vertex 0 with 2,
    edge e0 with e3, e2 with e4, face 0 with 1. *)
Definition diagSquare : MeshData :=
  mkMeshData 4 5 2
    [mkComponentData [1; 3] [0; 2] [0] (list_to_map [(0, [3; 1])]);
     mkComponentData [0; 2; 3] [0; 1; 3] [0; 1]
       (list_to_map [(0, [0; 3]); (1, [3; 2])]);
     mkComponentData [1; 3] [3; 4] [1] (list_to_map [(1, [1; 3])]);
     mkComponentData [0; 1; 2] [1; 2; 4] [0; 1]
       (list_to_map [(0, [1; 0]); (1, [2; 1])])]
    [mkComponentData [0; 1] [] [0] ∅;
     mkComponentData [1; 3] [] [0; 1] ∅;
     mkComponentData [3; 0] [] [0] ∅;
     mkComponentData [1; 2] [] [1] ∅;
     mkComponentData [2; 3] [] [1] ∅]
    [mkComponentData [0; 1; 3] [0; 1; 2] [] ∅;
     mkComponentData [1; 2; 3] [3; 4; 1] [] ∅].

(** The symmetric seed of [diagSquare]: edges e0 and e3, faces 0 and 1,
    vertices 0 and 2; vertex 0 is on the left. *)
Definition diagSquareSeed : ComponentSelection :=
  mkComponentSelection (0, 3) (0, 1) (0, 2) 0.

(** The same seed with the centre-line vertex 1 picked as left vertex. *)
Definition diagSquareSeedCenter : ComponentSelection :=
  mkComponentSelection (0, 3) (0, 1) (0, 2) 1.

(** A seed whose vertices 0 and 1 lie on the seed edges e0 and e3 but are
    not mirror images of each other. *)
Definition diagSquareSeedSkew : ComponentSelection :=
  mkComponentSelection (0, 3) (0, 1) (0, 1) 0.

(** Two copies of [diagSquare] that share nothing: shell A has the vertices
    0-3, edges 0-4 and faces 0-1, shell B the vertices 4-7, edges 5-9 and
    faces 2-3. *)
Definition twoSquares : MeshData :=
  mkMeshData 8 10 4
    [mkComponentData [1; 3] [0; 2] [0] (list_to_map [(0, [3; 1])]);
     mkComponentData [0; 2; 3] [0; 1; 3] [0; 1]
       (list_to_map [(0, [0; 3]); (1, [3; 2])]);
     mkComponentData [1; 3] [3; 4] [1] (list_to_map [(1, [1; 3])]);
     mkComponentData [0; 1; 2] [1; 2; 4] [0; 1]
       (list_to_map [(0, [1; 0]); (1, [2; 1])]);
     mkComponentData [5; 7] [5; 7] [2] (list_to_map [(2, [7; 5])]);
     mkComponentData [4; 6; 7] [5; 6; 8] [2; 3]
       (list_to_map [(2, [4; 7]); (3, [7; 6])]);
     mkComponentData [5; 7] [8; 9] [3] (list_to_map [(3, [5; 7])]);
     mkComponentData [4; 5; 6] [6; 7; 9] [2; 3]
       (list_to_map [(2, [5; 4]); (3, [6; 5])])]
    [mkComponentData [0; 1] [] [0] ∅;
     mkComponentData [1; 3] [] [0; 1] ∅;
     mkComponentData [3; 0] [] [0] ∅;
     mkComponentData [1; 2] [] [1] ∅;
     mkComponentData [2; 3] [] [1] ∅;
     mkComponentData [4; 5] [] [2] ∅;
     mkComponentData [5; 7] [] [2; 3] ∅;
     mkComponentData [7; 4] [] [2] ∅;
     mkComponentData [5; 6] [] [3] ∅;
     mkComponentData [6; 7] [] [3] ∅]
    [mkComponentData [0; 1; 3] [0; 1; 2] [] ∅;
     mkComponentData [1; 2; 3] [3; 4; 1] [] ∅;
     mkComponentData [4; 5; 7] [5; 6; 7] [] ∅;
     mkComponentData [5; 6; 7] [8; 9; 6] [] ∅].

(** A fan of four triangles around the vertex 4: (0,1,4), (1,2,4),
    (2,3,4) and (3,0,4); its edges are e0=(0,1), e1=(1,4), e2=(4,0),
    e3=(1,2), e4=(2,4), e5=(2,3), e6=(3,4), e7=(3,0).  It is mirror
    symmetric across the line 1-4-3: vertex 0 with 2, face 0 with 1 and
    face 3 with 2. *)
Definition fan : MeshData :=
  mkMeshData 5 8 4
    [mkComponentData [1; 3; 4] [0; 2; 7] [0; 3]
       (list_to_map [(0, [4; 1]); (3, [3; 4])]);
     mkComponentData [0; 2; 4] [0; 1; 3] [0; 1]
       (list_to_map [(0, [0; 4]); (1, [4; 2])]);
     mkComponentData [1; 3; 4] [3; 4; 5] [1; 2]
       (list_to_map [(1, [1; 4]); (2, [4; 3])]);
     mkComponentData [0; 2; 4] [5; 6; 7] [2; 3]
       (list_to_map [(2, [2; 4]); (3, [4; 0])]);
     mkComponentData [0; 1; 2; 3] [1; 2; 4; 6] [0; 1; 2; 3]
       (list_to_map [(0, [1; 0]); (1, [2; 1]); (2, [3; 2]); (3, [0; 3])])]
    [mkComponentData [0; 1] [] [0] ∅;
     mkComponentData [1; 4] [] [0; 1] ∅;
     mkComponentData [4; 0] [] [0; 3] ∅;
     mkComponentData [1; 2] [] [1] ∅;
     mkComponentData [2; 4] [] [1; 2] ∅;
     mkComponentData [2; 3] [] [2] ∅;
     mkComponentData [3; 4] [] [2; 3] ∅;
     mkComponentData [3; 0] [] [3] ∅]
    [mkComponentData [0; 1; 4] [0; 1; 2] [] ∅;
     mkComponentData [1; 2; 4] [3; 4; 1] [] ∅;
     mkComponentData [2; 3; 4] [5; 6; 4] [] ∅;
     mkComponentData [3; 0; 4] [7; 2; 6] [] ∅].

(** The symmetric seed of [fan]: the inner edges e2 and e4, the faces 0 and
    1 next to them, the vertices 0 and 2; vertex 0 is on the left. *)
Definition fanSeed : ComponentSelection :=
  mkComponentSelection (2, 4) (0, 1) (0, 2) 0.

(** A single quad (0,1,2,3) with the edges e0=(0,1), e1=(1,2), e2=(2,3),
    e3=(3,0).  It is mirror symmetric across the line through the midpoints
    of e0 and e2: vertex 0 with 1 and 3 with 2, edge e3 with e1, and the
    face with itself; no vertex is on the centre line. *)
Definition quad : MeshData :=
  mkMeshData 4 4 1
    [mkComponentData [1; 3] [0; 3] [0] (list_to_map [(0, [3; 1])]);
     mkComponentData [0; 2] [0; 1] [0] (list_to_map [(0, [0; 2])]);
     mkComponentData [1; 3] [1; 2] [0] (list_to_map [(0, [1; 3])]);
     mkComponentData [0; 2] [2; 3] [0] (list_to_map [(0, [2; 0])])]
    [mkComponentData [0; 1] [] [0] ∅;
     mkComponentData [1; 2] [] [0] ∅;
     mkComponentData [2; 3] [] [0] ∅;
     mkComponentData [3; 0] [] [0] ∅]
    [mkComponentData [0; 1; 2; 3] [0; 1; 2; 3] [] ∅].

(** The symmetric seed of [quad]: edges e3 and e1, the face twice, vertices
    0 and 1; vertex 0 is on the left. *)
Definition quadSeed : ComponentSelection :=
  mkComponentSelection (3, 1) (0, 0) (0, 1) 0.

(** The seed of shell B of [twoSquares], without a left vertex. *)
Definition twoSquaresSeedB : ComponentSelection :=
  mkComponentSelection (5, 8) (2, 3) (4, 6) (-1).

(** Membership in shell B of [twoSquares]. *)
Definition inShellBVertex (v : Z) : bool := 4 <=? v.
Definition inShellBEdge (e : Z) : bool := 5 <=? e.
Definition inShellBFace (f : Z) : bool := 2 <=? f.

(** ** Example runs *)

Definition fromOk {A : Type} (default : A) (r : result A) : A :=
  match r with
  | Ok a => a
  | _ => default
  end.

(** [diagSquare], symmetric seed: the table after the engine, after the
    side classifier and after [finalizeSymmetry]. *)
Definition diagSquareTable : PolySymmetryData :=
  Eval vm_compute in
    fromOk (reset diagSquare)
      (findSymmetricalVertices intersectionModel diagSquare 6 diagSquareSeed
         (reset diagSquare)).

Definition diagSquareSides : PolySymmetryData :=
  Eval vm_compute in
    fromOk diagSquareTable (findVertexSides diagSquare [0] diagSquareTable).

Definition diagSquareFinal : PolySymmetryData :=
  Eval vm_compute in
    fromOk diagSquareSides (finalizeSymmetry diagSquare diagSquareSides).

(** [fan], symmetric seed: the table after the engine, after the side
    classifier and after [finalizeSymmetry]. *)
Definition fanTable : PolySymmetryData :=
  Eval vm_compute in
    fromOk (reset fan)
      (findSymmetricalVertices intersectionModel fan 9 fanSeed (reset fan)).

Definition fanSides : PolySymmetryData :=
  Eval vm_compute in fromOk fanTable (findVertexSides fan [0] fanTable).

Definition fanFinal : PolySymmetryData :=
  Eval vm_compute in fromOk fanSides (finalizeSymmetry fan fanSides).

(** [quad], symmetric seed: the table after the engine and the side
    classifier, and after [finalizeSymmetry]. *)
Definition quadSides : PolySymmetryData :=
  Eval vm_compute in
    fromOk (reset quad)
      (st ← findSymmetricalVertices intersectionModel quad 5 quadSeed (reset quad);
       findVertexSides quad (leftSideVertexIndices st) st).

Definition quadFinal : PolySymmetryData :=
  Eval vm_compute in fromOk quadSides (finalizeSymmetry quad quadSides).

(** [diagSquare], symmetric seed: the table when the worklist loop starts,
    and after the seed edges are marked in its first iteration. *)
Definition diagSquareFirst : PolySymmetryData :=
  Eval vm_compute in
    fromOk (reset diagSquare)
      (findFirstSymmetricalVertices diagSquare diagSquareSeed (reset diagSquare)).

Definition diagSquareFirstMarked : PolySymmetryData :=
  Eval vm_compute in
    fromOk diagSquareFirst (markSymmetricalEdges 0 3 diagSquareFirst).

(** [diagSquare] with the vertices 1 and 0, and 3 and 2, marked as
    partners, and the same after the edge e0 of face 0 went through face
    edge completion. *)
Definition diagSquareCrossed : PolySymmetryData :=
  Eval vm_compute in
    fromOk (reset diagSquare)
      (st ← markSymmetricalVertices 1 0 (reset diagSquare);
       markSymmetricalVertices 3 2 st).

Definition diagSquareCrossedNext : list (Z * Z) * PolySymmetryData :=
  Eval vm_compute in
    fromOk ([], diagSquareCrossed)
      (faceEdgesBody intersectionModel diagSquare 0 ([], diagSquareCrossed)).

(** [twoSquares], seeded in shell A only. *)
Definition twoSquaresTable : PolySymmetryData :=
  Eval vm_compute in
    fromOk (reset twoSquares)
      (findSymmetricalVertices intersectionModel twoSquares 11 diagSquareSeed
         (reset twoSquares)).

Definition twoSquaresSides : PolySymmetryData :=
  Eval vm_compute in
    fromOk twoSquaresTable (findVertexSides twoSquares [0] twoSquaresTable).

Definition twoSquaresFinal : PolySymmetryData :=
  Eval vm_compute in
    fromOk twoSquaresSides (finalizeSymmetry twoSquares twoSquaresSides).

(** [twoSquares], seeded in shell A with a left vertex and then in shell B
    without one, and the sides that follow. *)
Definition twoSquaresBothTable : PolySymmetryData :=
  Eval vm_compute in
    fromOk twoSquaresTable
      (findSymmetricalVertices intersectionModel twoSquares 11 twoSquaresSeedB
         twoSquaresTable).

Definition twoSquaresBothSides : PolySymmetryData :=
  Eval vm_compute in
    fromOk twoSquaresBothTable
      (findVertexSides twoSquares (leftSideVertexIndices twoSquaresBothTable)
         twoSquaresBothTable).

(** The symmetric seed of [diagSquare] with a seed vertex that the mesh
    does not have. *)
Definition diagSquareSeedOutside : ComponentSelection :=
  mkComponentSelection (0, 3) (0, 1) (0, 7) 0.

(** The symmetric seed of [diagSquare] without a left vertex. *)
Definition diagSquareSeedNoLeft : ComponentSelection :=
  mkComponentSelection (0, 3) (0, 1) (0, 2) (-1).

(** [diagSquare], symmetric seed without a left vertex: the table after
    the engine, after the side classifier and after [finalizeSymmetry]. *)
Definition diagSquareNoLeftTable : PolySymmetryData :=
  Eval vm_compute in
    fromOk (reset diagSquare)
      (findSymmetricalVertices intersectionModel diagSquare 6 diagSquareSeedNoLeft
         (reset diagSquare)).

Definition diagSquareNoLeftSides : PolySymmetryData :=
  Eval vm_compute in
    fromOk diagSquareNoLeftTable
      (findVertexSides diagSquare [] diagSquareNoLeftTable).

Definition diagSquareNoLeftFinal : PolySymmetryData :=
  Eval vm_compute in
    fromOk diagSquareNoLeftSides
      (finalizeSymmetry diagSquare diagSquareNoLeftSides).

(** [diagSquare], symmetric seed: the table when
    [findFirstSymmetricalVertices] starts the walk of the seed faces. *)
Definition diagSquareSeeded : PolySymmetryData :=
  Eval vm_compute in
    fromOk (reset diagSquare)
      (st ← markSymmetricalVertices 0 2 (reset diagSquare);
       st ← markSymmetricalFaces 0 1 st;
       markSymmetricalVertices 1 1 st).

(** [diagSquareCrossed] after face edge completion on face 0. *)
Definition diagSquareCrossedEdges : list (Z * Z) * PolySymmetryData :=
  Eval vm_compute in
    fromOk ([], diagSquareCrossed)
      (findSymmetricalEdgesOnFace intersectionModel diagSquare [] 0
         diagSquareCrossed).

(** [quad], symmetric seed: the table after the engine. *)
Definition quadTable : PolySymmetryData :=
  Eval vm_compute in
    fromOk (reset quad)
      (findSymmetricalVertices intersectionModel quad 5 quadSeed (reset quad)).

(** The seed of [quad] for its half-turn: edges e0 and e2, the face twice,
    vertices 0 and 2; vertex 0 is on the left.  The symmetry it starts is
    not a mirror symmetry. *)
Definition quadSeedTurn : ComponentSelection :=
  mkComponentSelection (0, 2) (0, 0) (0, 2) 0.

(** [quad], half-turn seed: the table after the engine and after the side
    classifier. *)
Definition quadTurnTable : PolySymmetryData :=
  Eval vm_compute in
    fromOk (reset quad)
      (findSymmetricalVertices intersectionModel quad 5 quadSeedTurn (reset quad)).

Definition quadTurnSides : PolySymmetryData :=
  Eval vm_compute in
    fromOk quadTurnTable (findVertexSides quad [0] quadTurnTable).

(** A seed of [fan] that is not fresh: the seed vertices 0 and 4 are on the
    seed edges e2 and e4, but the other endpoint of e2 is the seed
    vertex 4. *)
Definition fanSeedSkew : ComponentSelection :=
  mkComponentSelection (2, 4) (0, 1) (0, 4) 0.

(** A seed of [fan] whose faces 0 and 2 are examined once the symmetric seed
    has been run. *)
Definition fanSeedAgain : ComponentSelection :=
  mkComponentSelection (2, 4) (0, 2) (0, 2) (-1).

(** [fan] with a second edge e8 between the vertices 3 and 0, next to e7 on
    the face 3: the mesh is well formed but not simple. *)
Definition fanDoubled : MeshData :=
  mkMeshData 5 9 4
    [mkComponentData [1; 3; 4] [0; 2; 7; 8] [0; 3]
       (list_to_map [(0, [4; 1]); (3, [3; 4])]);
     mkComponentData [0; 2; 4] [0; 1; 3] [0; 1]
       (list_to_map [(0, [0; 4]); (1, [4; 2])]);
     mkComponentData [1; 3; 4] [3; 4; 5] [1; 2]
       (list_to_map [(1, [1; 4]); (2, [4; 3])]);
     mkComponentData [0; 2; 4] [5; 6; 7; 8] [2; 3]
       (list_to_map [(2, [2; 4]); (3, [4; 0])]);
     mkComponentData [0; 1; 2; 3] [1; 2; 4; 6] [0; 1; 2; 3]
       (list_to_map [(0, [1; 0]); (1, [2; 1]); (2, [3; 2]); (3, [0; 3])])]
    [mkComponentData [0; 1] [] [0] ∅;
     mkComponentData [1; 4] [] [0; 1] ∅;
     mkComponentData [4; 0] [] [0; 3] ∅;
     mkComponentData [1; 2] [] [1] ∅;
     mkComponentData [2; 4] [] [1; 2] ∅;
     mkComponentData [2; 3] [] [2] ∅;
     mkComponentData [3; 4] [] [2; 3] ∅;
     mkComponentData [3; 0] [] [3] ∅;
     mkComponentData [3; 0] [] [3] ∅]
    [mkComponentData [0; 1; 4] [0; 1; 2] [] ∅;
     mkComponentData [1; 2; 4] [3; 4; 1] [] ∅;
     mkComponentData [2; 3; 4] [5; 6; 4] [] ∅;
     mkComponentData [3; 0; 4] [7; 2; 6; 8] [] ∅].

(** * Properties *)

(** ** The result monad *)

Lemma bind_Ok {A B : Type} (r : result A) (k : A -> result B) (b : B) :
  r ≫= k = Ok b -> exists a, r = Ok a /\ k a = Ok b.
Proof. destruct r as [a| |]; simpl; intros H; try discriminate; eauto. Qed.

Lemma bind_Ok_l {A B : Type} (a : A) (k : A -> result B) : Ok a ≫= k = k a.
Proof. reflexivity. Qed.

Lemma bind_OutOfFuel {A B : Type} (r : result A) (k : A -> result B) :
  r ≫= k = OutOfFuel ->
  r = OutOfFuel \/ exists a, r = Ok a /\ k a = OutOfFuel.
Proof. destruct r as [a| |]; simpl; intros H; try discriminate; eauto. Qed.

(** [inv_bind H] splits a successful sequence [H : (x ← e; k) = Ok r] into
    the success of [e] and the success of the continuation. *)
Tactic Notation "inv_bind" hyp(H) :=
  let a := fresh "a" in
  let Ha := fresh "Ha" in
  apply bind_Ok in H; destruct H as (a & Ha & H).

Tactic Notation "inv_bind" hyp(H) "as" ident(x) ident(Hx) :=
  apply bind_Ok in H; destruct H as (x & Hx & H).

Ltac inv_binds H :=
  repeat (first
    [ progress (simpl in H)
    | match type of H with
      | (_ ≫= _) = Ok _ => inv_bind H
      | Ok _ = Ok _ => injection H as H
      | OutOfRange _ = Ok _ => discriminate H
      | OutOfFuel = Ok _ => discriminate H
      end ]).

(** ** Vectors *)

Lemma vget_Ok {A : Type} (l : list A) (i : Z) (a : A) :
  vget l i = Ok a <-> 0 <= i /\ l !! Z.to_nat i = Some a.
Proof.
  unfold vget. destruct (Z.ltb_spec i 0) as [Hi|Hi].
  - split; [discriminate | lia].
  - destruct (l !! Z.to_nat i) as [x|]; split.
    + intros [= ->]. auto.
    + intros [_ [= ->]]. reflexivity.
    + discriminate.
    + intros [_ ?]. discriminate.
Qed.

Lemma vget_range {A : Type} (l : list A) (i : Z) (a : A) :
  vget l i = Ok a -> 0 <= i < Z.of_nat (length l).
Proof.
  intros [Hi Hl]%vget_Ok. apply lookup_lt_Some in Hl. lia.
Qed.

Lemma vget_in_range {A : Type} (l : list A) (i : Z) :
  0 <= i < Z.of_nat (length l) -> exists a, vget l i = Ok a.
Proof.
  intros Hi. destruct (lookup_lt_is_Some_2 l (Z.to_nat i)) as [a Ha]; [lia|].
  exists a. apply vget_Ok. split; [lia | done].
Qed.

Lemma vget_not_OutOfFuel {A : Type} (l : list A) (i : Z) :
  vget l i <> OutOfFuel.
Proof.
  unfold vget. destruct (i <? 0); [discriminate|].
  destruct (l !! Z.to_nat i); discriminate.
Qed.

Lemma vget_elem_of {A : Type} (l : list A) (i : Z) (a : A) :
  vget l i = Ok a -> a ∈ l.
Proof. intros [_ H]%vget_Ok. eapply list_elem_of_lookup_2, H. Qed.

Lemma vset_Ok {A : Type} (l l' : list A) (i : Z) (a : A) :
  vset l i a = Ok l' <->
  0 <= i < Z.of_nat (length l) /\ l' = <[Z.to_nat i := a]> l.
Proof.
  unfold vset. destruct (Z.ltb_spec i 0) as [Hi|Hi].
  - split; [discriminate | lia].
  - destruct (Nat.ltb_spec (Z.to_nat i) (length l)) as [Hl|Hl]; split.
    + intros [= <-]. split; [lia | done].
    + intros [_ ->]. reflexivity.
    + discriminate.
    + lia.
Qed.

Lemma vset_in_range {A : Type} (l : list A) (i : Z) (a : A) :
  0 <= i < Z.of_nat (length l) -> vset l i a = Ok (<[Z.to_nat i := a]> l).
Proof. intros Hi. apply vset_Ok. auto. Qed.

Lemma vset_not_OutOfFuel {A : Type} (l : list A) (i : Z) (a : A) :
  vset l i a <> OutOfFuel.
Proof.
  unfold vset. destruct (i <? 0); [discriminate|].
  destruct (_ <? _)%nat; discriminate.
Qed.

Lemma vset_length {A : Type} (l l' : list A) (i : Z) (a : A) :
  vset l i a = Ok l' -> length l' = length l.
Proof. intros [_ ->]%vset_Ok. apply length_insert. Qed.

Lemma vget_vset_eq {A : Type} (l l' : list A) (i : Z) (a : A) :
  vset l i a = Ok l' -> vget l' i = Ok a.
Proof.
  intros [Hi ->]%vset_Ok. apply vget_Ok. split; [lia|].
  apply list_lookup_insert_eq. lia.
Qed.

Lemma vget_vset_ne {A : Type} (l l' : list A) (i j : Z) (a : A) :
  vset l i a = Ok l' -> i <> j -> vget l' j = vget l j.
Proof.
  intros [Hi ->]%vset_Ok Hne. unfold vget.
  destruct (Z.ltb_spec j 0) as [Hj|Hj]; [done|].
  rewrite list_lookup_insert_ne; [done | lia].
Qed.

Lemma vget_vset {A : Type} (l l' : list A) (i j : Z) (a b : A) :
  vset l i a = Ok l' -> vget l' j = Ok b ->
  (j = i /\ b = a) \/ (j <> i /\ vget l j = Ok b).
Proof.
  intros Hs Hg. destruct (decide (i = j)) as [<-|Hne].
  - left. rewrite (vget_vset_eq _ _ _ _ Hs) in Hg. by injection Hg as <-.
  - right. rewrite (vget_vset_ne _ _ _ _ _ Hs Hne) in Hg. auto.
Qed.

Lemma vget_replicate {A : Type} (n : nat) (x a : A) (i : Z) :
  vget (replicate n x) i = Ok a -> a = x.
Proof. intros [_ [-> _]%lookup_replicate]%vget_Ok. reflexivity. Qed.

Lemma vget_replicate_in_range {A : Type} (n : nat) (x : A) (i : Z) :
  0 <= i < Z.of_nat n -> vget (replicate n x) i = Ok x.
Proof.
  intros Hi. apply vget_Ok. split; [lia|].
  apply lookup_replicate. split; [done | lia].
Qed.

(** ** Loops *)

Section Loops.
Context {A S : Type}.

Lemma forEach_cons (body : A -> S -> result S) (x : A) (l : list A) (s : S) :
  forEach body (x :: l) s = s' ← body x s; forEach body l s'.
Proof. reflexivity. Qed.

Lemma forEach_app (body : A -> S -> result S) (l1 l2 : list A) (s : S) :
  forEach body (l1 ++ l2) s = s' ← forEach body l1 s; forEach body l2 s'.
Proof.
  revert s. induction l1 as [|x l1 IH]; intros s; simpl; [done|].
  destruct (body x s) as [s1| |]; simpl; auto.
Qed.

(** A property kept by every iteration holds when the loop is left. *)
Lemma forEach_inv (P : S -> Prop) (body : A -> S -> result S) (l : list A) :
  (forall x s s', x ∈ l -> P s -> body x s = Ok s' -> P s') ->
  forall s s', P s -> forEach body l s = Ok s' -> P s'.
Proof.
  induction l as [|x l IH]; intros Hbody s s' HP H; simpl in H.
  - by injection H as <-.
  - inv_bind H. eapply IH; [| |exact H].
    + intros y t t' Hy. apply Hbody. by right.
    + eapply Hbody; [by left | exact HP | exact Ha].
Qed.

Lemma forEach_not_OutOfFuel (body : A -> S -> result S) (l : list A) :
  (forall x s, x ∈ l -> body x s <> OutOfFuel) ->
  forall s, forEach body l s <> OutOfFuel.
Proof.
  induction l as [|x l IH]; intros Hbody s; simpl; [discriminate|].
  intros [H|(s1 & _ & H)]%bind_OutOfFuel.
  - eapply Hbody; [by left | exact H].
  - eapply IH; [|exact H]. intros y t Hy. apply Hbody. by right.
Qed.

(** A loop whose body succeeds under an invariant succeeds. *)
Lemma forEach_total (P : S -> Prop) (body : A -> S -> result S) (l : list A) :
  (forall x s, x ∈ l -> P s -> exists s', body x s = Ok s' /\ P s') ->
  forall s, P s -> exists s', forEach body l s = Ok s' /\ P s'.
Proof.
  induction l as [|x l IH]; intros Hbody s HP; simpl; [eauto|].
  destruct (Hbody x s) as (s1 & -> & HP1); [by left | done |]. simpl.
  apply IH; [|done]. intros y t Hy. apply Hbody. by right.
Qed.

(** A property of queue and state kept by every iteration holds, with the
    empty queue, when the loop is left. *)
Lemma whileQueue_inv (P : list A -> S -> Prop)
    (body : A -> list A -> S -> result (list A * S)) :
  (forall x q s q' s', P (x :: q) s -> body x q s = Ok (q', s') -> P q' s') ->
  forall fuel q s s',
    P q s -> whileQueue body fuel q s = Ok s' -> P [] s'.
Proof.
  intros Hbody fuel. induction fuel as [|fuel IH]; intros q s s' HP H.
  - destruct q; [by injection H as <- | discriminate].
  - destruct q as [|x q]; [by injection H as <-|].
    simpl in H. inv_bind H. destruct a as [q1 s1].
    eapply IH; [|exact H]. eapply Hbody; eauto.
Qed.

(** A loop whose body lowers a measure runs out of queue before it runs
    out of fuel. *)
Lemma whileQueue_terminates (I : list A -> S -> Prop) (mu : list A -> S -> nat)
    (body : A -> list A -> S -> result (list A * S)) :
  (forall x q s, (0 < mu (x :: q) s)%nat) ->
  (forall x q s, I (x :: q) s -> body x q s <> OutOfFuel) ->
  (forall x q s q' s', I (x :: q) s -> body x q s = Ok (q', s') ->
     I q' s' /\ (mu q' s' < mu (x :: q) s)%nat) ->
  forall fuel q s,
    I q s -> (mu q s <= fuel)%nat -> whileQueue body fuel q s <> OutOfFuel.
Proof.
  intros Hpos Hfuel Hbody fuel.
  induction fuel as [|fuel IH]; intros q s HI Hmu.
  - destruct q as [|x q]; [discriminate|]. specialize (Hpos x q s). lia.
  - destruct q as [|x q]; [discriminate|]. simpl.
    intros [H|([q1 s1] & Hb & H)]%bind_OutOfFuel.
    + by eapply Hfuel.
    + destruct (Hbody _ _ _ _ _ HI Hb) as [HI1 Hlt].
      eapply IH; [exact HI1 | lia | exact H].
Qed.

(** A loop that does not run out of fuel and whose body succeeds under an
    invariant succeeds. *)
Lemma whileQueue_safe (I : list A -> S -> Prop)
    (body : A -> list A -> S -> result (list A * S)) :
  (forall x q s, I (x :: q) s ->
     exists q' s', body x q s = Ok (q', s') /\ I q' s') ->
  forall fuel q s,
    I q s -> whileQueue body fuel q s <> OutOfFuel ->
    exists s', whileQueue body fuel q s = Ok s' /\ I [] s'.
Proof.
  intros Hbody fuel. induction fuel as [|fuel IH]; intros q s HI Hne.
  - destruct q; [eauto | done].
  - destruct q as [|x q]; [eauto|]. simpl in *.
    destruct (Hbody _ _ _ HI) as (q1 & s1 & Hb & HI1).
    rewrite Hb in *. simpl in *. by apply IH.
Qed.

(** More fuel does not change the result of a loop that had enough. *)
Lemma whileQueue_fuel_mono (body : A -> list A -> S -> result (list A * S))
    (fuel fuel' : nat) (q : list A) (s s' : S) :
  whileQueue body fuel q s = Ok s' -> (fuel <= fuel')%nat ->
  whileQueue body fuel' q s = Ok s'.
Proof.
  revert fuel' q s. induction fuel as [|fuel IH]; intros fuel' q s H Hle.
  - destruct q; [|discriminate]. by destruct fuel'.
  - destruct q as [|x q]; [by destruct fuel'|].
    destruct fuel' as [|fuel']; [lia|]. simpl in *.
    inv_bind H. destruct a as [q1 s1]. rewrite Ha. simpl.
    apply IH; [done | lia].
Qed.

End Loops.

Lemma bind_not_OutOfFuel {A B : Type} (r : result A) (k : A -> result B) :
  r <> OutOfFuel -> (forall a, r = Ok a -> k a <> OutOfFuel) ->
  r ≫= k <> OutOfFuel.
Proof. destruct r as [a| |]; simpl; intros Hr Hk; [by apply Hk | done | done]. Qed.

(** Facts of the form [_ <> OutOfFuel]. *)
Create HintDb nofuel.

#[global] Hint Resolve vget_not_OutOfFuel vset_not_OutOfFuel : nofuel.

(** [no_fuel] proves that a sequence of vector accesses, loops over vectors
    and calls known to the [nofuel] database cannot report [OutOfFuel]. *)
Ltac no_fuel :=
  repeat first
    [ solve [auto with nofuel]
    | discriminate
    | apply bind_not_OutOfFuel; [|intros ? ?]
    | match goal with
      | |- (if ?c then _ else _) <> OutOfFuel => destruct c
      | |- (let '(_, _) := ?p in _) <> OutOfFuel => destruct p
      | |- forEach _ _ _ <> OutOfFuel =>
          apply forEach_not_OutOfFuel; intros ? ? ?
      end ].

(** A loop that had enough fuel gives the same result with more. *)
Lemma whileQueue_fuel_stable {A S : Type}
    (body : A -> list A -> S -> result (list A * S))
    (fuel fuel' : nat) (q : list A) (s : S) :
  whileQueue body fuel q s <> OutOfFuel -> (fuel <= fuel')%nat ->
  whileQueue body fuel' q s = whileQueue body fuel q s.
Proof.
  revert fuel' q s. induction fuel as [|fuel IH]; intros fuel' q s H Hle.
  - destruct q; [by destruct fuel' | done].
  - destruct q as [|x q]; [by destruct fuel'|].
    destruct fuel' as [|fuel']; [lia|]. simpl in *.
    destruct (body x q s) as [[q1 s1]| |]; simpl in *; [|done..].
    apply IH; [done | lia].
Qed.

(** ** Derived edge and face sides *)

Section Finalize.
Variable meshData : MeshData.

Lemma edgeSideBody_other (st : PolySymmetryData) (x i : Z) (sides sides' : list Z) :
  edgeSideBody meshData st x sides = Ok sides' -> i <> x ->
  vget sides' i = vget sides i.
Proof.
  unfold edgeSideBody. intros H Hne. inv_binds H.
  repeat match type of H with
         | (if ?c then _ else _) = _ => destruct c
         end;
    try (eapply vget_vset_ne; [exact H | congruence]).
  by injection H as <-.
Qed.

Lemma forEach_edgeSideBody_other (st : PolySymmetryData) (l : list Z) (i : Z) :
  i ∉ l -> forall sides sides',
  forEach (edgeSideBody meshData st) l sides = Ok sides' ->
  vget sides' i = vget sides i.
Proof.
  intros Hi sides sides' H.
  eapply (forEach_inv (fun s => vget s i = vget sides i)); [|reflexivity|exact H].
  intros x s s' Hx Hs Hb. rewrite <- Hs.
  eapply edgeSideBody_other; [exact Hb|]. intros ->. done.
Qed.

Lemma edgeSideBody_spec (st : PolySymmetryData) (i : Z) (sides sides' : list Z) :
  edgeSideBody meshData st i sides = Ok sides' ->
  exists ed c0 c1 sv0 sv1,
    vget (edgeData meshData) i = Ok ed /\
    vget (connectedVertices ed) 0 = Ok c0 /\
    vget (connectedVertices ed) 1 = Ok c1 /\
    vget (vertexSides st) c0 = Ok sv0 /\
    vget (vertexSides st) c1 = Ok sv1 /\
    edgeSideRule sv0 sv1 (vget sides' i).
Proof.
  unfold edgeSideBody. intros H. inv_binds H.
  rename a into ed, a0 into c0, a1 into sv0, a2 into ed', a3 into c1, a4 into sv1.
  assert (ed' = ed) as -> by congruence.
  exists ed, c0, c1, sv0, sv1. repeat (split; [done|]).
  unfold edgeSideRule, CENTER, RIGHT, LEFT in *.
  destruct (Z.eqb_spec sv0 0), (Z.eqb_spec sv1 0),
    (Z.eqb_spec sv0 (-1)), (Z.eqb_spec sv1 (-1)),
    (Z.eqb_spec sv0 1), (Z.eqb_spec sv1 1); simpl in H;
    try (apply vget_vset_eq in H; rewrite H);
    repeat split; intros; try done; try lia.
Qed.

(** The side that [finalizeSymmetry] derives for an edge. *)
Lemma finalizeSymmetry_edgeSides_spec (st st' : PolySymmetryData) (i : Z) :
  finalizeSymmetry meshData st = Ok st' ->
  0 <= i < numberOfEdges meshData ->
  exists ed c0 c1 sv0 sv1,
    vget (edgeData meshData) i = Ok ed /\
    vget (connectedVertices ed) 0 = Ok c0 /\
    vget (connectedVertices ed) 1 = Ok c1 /\
    vget (vertexSides st') c0 = Ok sv0 /\
    vget (vertexSides st') c1 = Ok sv1 /\
    (sv0 = CENTER -> sv1 = CENTER -> vget (edgeSides st') i = Ok CENTER) /\
    (~ (sv0 = CENTER /\ sv1 = CENTER) -> sv0 = RIGHT \/ sv1 = RIGHT ->
     vget (edgeSides st') i = Ok RIGHT) /\
    (~ (sv0 = CENTER /\ sv1 = CENTER) -> sv0 <> RIGHT -> sv1 <> RIGHT ->
     sv0 = LEFT \/ sv1 = LEFT -> vget (edgeSides st') i = Ok LEFT) /\
    ((sv0 = LEFT /\ sv1 = RIGHT) \/ (sv0 = RIGHT /\ sv1 = LEFT) ->
     vget (edgeSides st') i = Ok RIGHT).
Proof.
  unfold finalizeSymmetry. intros H Hi.
  inv_bind H as es Hes. inv_bind H as fs Hfs. injection H as <-. simpl.
  assert (Hsplit : seqZ 0 (numberOfEdges meshData)
                   = seqZ 0 i ++ i :: seqZ (i + 1) (numberOfEdges meshData - i - 1)).
  { replace (numberOfEdges meshData)
      with (i + (1 + (numberOfEdges meshData - i - 1))) at 1 by lia.
    rewrite seqZ_app by lia. f_equal.
    rewrite Z.add_0_l, seqZ_cons by lia. f_equal. f_equal; lia. }
  rewrite Hsplit, forEach_app in Hes.
  inv_bind Hes as es0 Hes0. simpl in Hes. inv_bind Hes as es1 Hes1.
  destruct (edgeSideBody_spec _ _ _ _ Hes1)
    as (ed & c0 & c1 & sv0 & sv1 & Hed & Hc0 & Hc1 & Hs0 & Hs1 & Hrule).
  exists ed, c0, c1, sv0, sv1. repeat (split; [done|]).
  assert (Hkeep : vget es i = vget es1 i).
  { eapply forEach_edgeSideBody_other; [|exact Hes].
    intros [? ?]%elem_of_seqZ. lia. }
  rewrite Hkeep. destruct Hrule as (Hc & Hr & Hl).
  repeat split; auto.
  intros [[-> ->]|[-> ->]]; apply Hr; unfold LEFT, RIGHT, CENTER; auto; lia.
Qed.

(** ** C4 *)

(** C4. After [finalizeSymmetry], the side of every edge is determined by
    the sides of its two endpoint vertices, tested in this order: both
    CENTER gives CENTER; otherwise, either one RIGHT gives RIGHT; otherwise,
    either one LEFT gives LEFT.  In particular an edge with one LEFT and one
    RIGHT endpoint is RIGHT. *)
Theorem finalizeSymmetry_edge_sides (st st' : PolySymmetryData) (i : Z) :
  finalizeSymmetry meshData st = Ok st' ->
  0 <= i < numberOfEdges meshData ->
  exists ed c0 c1 sv0 sv1,
    vget (edgeData meshData) i = Ok ed /\
    vget (connectedVertices ed) 0 = Ok c0 /\
    vget (connectedVertices ed) 1 = Ok c1 /\
    vget (vertexSides st') c0 = Ok sv0 /\
    vget (vertexSides st') c1 = Ok sv1 /\
    (sv0 = CENTER -> sv1 = CENTER -> vget (edgeSides st') i = Ok CENTER) /\
    (~ (sv0 = CENTER /\ sv1 = CENTER) -> sv0 = RIGHT \/ sv1 = RIGHT ->
     vget (edgeSides st') i = Ok RIGHT) /\
    (~ (sv0 = CENTER /\ sv1 = CENTER) -> sv0 <> RIGHT -> sv1 <> RIGHT ->
     sv0 = LEFT \/ sv1 = LEFT -> vget (edgeSides st') i = Ok LEFT) /\
    ((sv0 = LEFT /\ sv1 = RIGHT) \/ (sv0 = RIGHT /\ sv1 = LEFT) ->
     vget (edgeSides st') i = Ok RIGHT).
Proof. apply finalizeSymmetry_edgeSides_spec. Qed.

Lemma contains_elem_of (l : list Z) (x : Z) :
  contains l x = bool_decide (x ∈ l).
Proof.
  unfold contains. induction l as [|y l IH]; simpl; [done|].
  rewrite IH. destruct (Z.eqb_spec x y) as [->|Hne]; simpl.
  - symmetry. apply bool_decide_eq_true. by left.
  - apply bool_decide_ext. rewrite elem_of_cons. tauto.
Qed.

Lemma faceVertexSides_spec (sides : list Z) (l : list Z) :
  forall acc0 acc,
  forEach (fun v acc => sv ← vget sides v; Ok (acc ++ [sv])) l acc0 = Ok acc ->
  exists svs, acc = acc0 ++ svs /\
    Forall2 (fun v sv => vget sides v = Ok sv) l svs.
Proof.
  induction l as [|v l IH]; intros acc0 acc H; simpl in H.
  - injection H as <-. exists []. split; [by rewrite app_nil_r | constructor].
  - inv_bind H as acc1 H1. inv_bind H1 as sv Hsv. injection H1 as <-.
    destruct (IH _ _ H) as (svs & -> & Hall).
    exists (sv :: svs). split; [by rewrite <- app_assoc | by constructor].
Qed.

Lemma faceSideBody_other (st : PolySymmetryData) (x i : Z) (sides sides' : list Z) :
  faceSideBody meshData st x sides = Ok sides' -> i <> x ->
  vget sides' i = vget sides i.
Proof.
  unfold faceSideBody. intros H Hne.
  inv_bind H as fd Hfd. inv_bind H as svs Hsvs.
  eapply vget_vset_ne; [exact H | congruence].
Qed.

Lemma forEach_faceSideBody_other (st : PolySymmetryData) (l : list Z) (i : Z) :
  i ∉ l -> forall sides sides',
  forEach (faceSideBody meshData st) l sides = Ok sides' ->
  vget sides' i = vget sides i.
Proof.
  intros Hi sides sides' H.
  eapply (forEach_inv (fun s => vget s i = vget sides i)); [|reflexivity|exact H].
  intros x s s' Hx Hs Hb. rewrite <- Hs.
  eapply faceSideBody_other; [exact Hb|]. intros ->. done.
Qed.

(** The side that [finalizeSymmetry] derives for a face. *)
Lemma finalizeSymmetry_faceSides_spec (st st' : PolySymmetryData) (i : Z) :
  finalizeSymmetry meshData st = Ok st' ->
  0 <= i < numberOfFaces meshData ->
  exists fd svs,
    vget (faceData meshData) i = Ok fd /\
    Forall2 (fun v sv => vget (vertexSides st') v = Ok sv)
            (connectedVertices fd) svs /\
    vget (faceSides st') i
    = Ok ((if bool_decide (LEFT ∈ svs) then 1 else 0)
          + (if bool_decide (RIGHT ∈ svs) then -1 else 0)) /\
    (LEFT ∈ svs -> RIGHT ∈ svs -> vget (faceSides st') i = Ok CENTER).
Proof.
  unfold finalizeSymmetry. intros H Hi.
  inv_bind H as es Hes. inv_bind H as fs Hfs. injection H as <-. simpl.
  assert (Hsplit : seqZ 0 (numberOfFaces meshData)
                   = seqZ 0 i ++ i :: seqZ (i + 1) (numberOfFaces meshData - i - 1)).
  { replace (numberOfFaces meshData)
      with (i + (1 + (numberOfFaces meshData - i - 1))) at 1 by lia.
    rewrite seqZ_app by lia. f_equal.
    rewrite Z.add_0_l, seqZ_cons by lia. f_equal. f_equal; lia. }
  rewrite Hsplit, forEach_app in Hfs.
  inv_bind Hfs as fs0 Hfs0. simpl in Hfs. inv_bind Hfs as fs1 Hfs1.
  assert (Hkeep : vget fs i = vget fs1 i).
  { eapply forEach_faceSideBody_other; [|exact Hfs].
    intros [? ?]%elem_of_seqZ. lia. }
  unfold faceSideBody in Hfs1.
  inv_bind Hfs1 as fd Hfd. inv_bind Hfs1 as svs Hsvs.
  apply faceVertexSides_spec in Hsvs as (svs' & -> & Hall). simpl in *.
  apply vget_vset_eq in Hfs1. rewrite !contains_elem_of in Hfs1.
  exists fd, svs'. split; [done|]. split; [done|].
  rewrite Hkeep, Hfs1. split; [done|].
  intros HL HR. rewrite !bool_decide_eq_true_2 by done. done.
Qed.

(** ** C5 *)

(** C5. After [finalizeSymmetry], the side of every face is the sum of 1 if
    some vertex of its loop is LEFT (else 0) and of -1 if some vertex of its
    loop is RIGHT (else 0); a face with both a LEFT and a RIGHT vertex in
    its loop is CENTER. *)
Theorem finalizeSymmetry_face_sides (st st' : PolySymmetryData) (i : Z) :
  finalizeSymmetry meshData st = Ok st' ->
  0 <= i < numberOfFaces meshData ->
  exists fd svs,
    vget (faceData meshData) i = Ok fd /\
    Forall2 (fun v sv => vget (vertexSides st') v = Ok sv)
            (connectedVertices fd) svs /\
    vget (faceSides st') i
    = Ok ((if bool_decide (LEFT ∈ svs) then 1 else 0)
          + (if bool_decide (RIGHT ∈ svs) then -1 else 0)) /\
    (LEFT ∈ svs -> RIGHT ∈ svs -> vget (faceSides st') i = Ok CENTER).
Proof. apply finalizeSymmetry_faceSides_spec. Qed.

End Finalize.

(** ** The side classifier *)

Section Classifier.
Variable meshData : MeshData.

Lemma push_unvisited_spec (visited : list bool) (l : list Z) :
  forall q q',
  forEach (fun i queue =>
             vis ← vget visited i;
             if (vis : bool) then Ok queue else Ok (queue ++ [i])) l q = Ok q' ->
  exists pushed, q' = q ++ pushed /\ sublist pushed l.
Proof.
  induction l as [|i l IH]; intros q q' H; simpl in H.
  - injection H as <-. exists []. by rewrite app_nil_r.
  - inv_bind H as q1 H1. inv_bind H1 as vis Hvis.
    destruct (IH _ _ H) as (pushed & -> & Hsub).
    destruct vis; injection H1 as <-.
    + exists pushed. split; [done | by constructor].
    + exists (i :: pushed). split; [by rewrite <- app_assoc | by constructor].
Qed.

Lemma push_unvisited_guarded_spec (visited : list bool) (idx : list Z)
    (vertexIndex : Z) (l : list Z) :
  forall q q',
  forEach (fun i queue =>
             vis ← vget visited i;
             if (vis : bool) then Ok queue
             else
               partner ← vget idx i;
               if partner =? vertexIndex then Ok queue
               else Ok (queue ++ [i])) l q = Ok q' ->
  exists pushed, q' = q ++ pushed /\ sublist pushed l.
Proof.
  induction l as [|i l IH]; intros q q' H; simpl in H.
  - injection H as <-. exists []. by rewrite app_nil_r.
  - inv_bind H as q1 H1. inv_bind H1 as vis Hvis.
    destruct (IH _ _ H) as (pushed & -> & Hsub).
    destruct vis.
    + injection H1 as <-. exists pushed. split; [done | by constructor].
    + inv_bind H1 as partner Hp. destruct (partner =? vertexIndex);
        injection H1 as <-.
      * exists pushed. split; [done | by constructor].
      * exists (i :: pushed). split; [by rewrite <- app_assoc | by constructor].
Qed.

Lemma leftFloodBody_step (st : PolySymmetryData) (x : Z) (q q' : list Z)
    (s s' : FloodState) :
  leftFloodBody meshData st x q s = Ok (q', s') -> floodStep meshData LEFT st x q s q' s'.
Proof.
  unfold leftFloodBody, floodStep. destruct s as [vis sides]. intros H.
  inv_bind H as b Hb. destruct b.
  - injection H as <- <-. by left.
  - right. inv_bind H as vis' Hvis'. inv_bind H as p Hp.
    split; [done|]. destruct (Z.eqb_spec p x) as [->|Hne].
    + inv_bind H as sides' Hsides'. injection H as <- <-. simpl.
      split; [done|]. exists x. split; [done|]. by left.
    + inv_bind H as sides' Hsides'. inv_bind H as vd Hvd.
      inv_bind H as q1 Hq1. injection H as <- <-. simpl.
      split; [done|]. exists p. split; [done|]. right.
      apply push_unvisited_guarded_spec in Hq1 as (pushed & -> & Hsub).
      split; [done|]. split; [done|]. by exists vd, pushed.
Qed.

Lemma rightFloodBody_step (st : PolySymmetryData) (x : Z) (q q' : list Z)
    (s s' : FloodState) :
  rightFloodBody meshData st x q s = Ok (q', s') -> floodStep meshData RIGHT st x q s q' s'.
Proof.
  unfold rightFloodBody, floodStep. destruct s as [vis sides]. intros H.
  inv_bind H as b Hb. destruct b.
  - injection H as <- <-. by left.
  - right. inv_bind H as vis' Hvis'. inv_bind H as p Hp.
    split; [done|]. destruct (Z.eqb_spec p x) as [->|Hne].
    + inv_bind H as sides' Hsides'. injection H as <- <-. simpl.
      split; [done|]. exists x. split; [done|]. by left.
    + inv_bind H as sides' Hsides'. inv_bind H as vd Hvd.
      inv_bind H as q1 Hq1. injection H as <- <-. simpl.
      split; [done|]. exists p. split; [done|]. right.
      apply push_unvisited_spec in Hq1 as (pushed & -> & Hsub).
      split; [done|]. split; [done|]. by exists vd, pushed.
Qed.

(** A property kept by [floodStep] holds after either flood fill. *)
Lemma leftFlood_inv (P : list Z -> FloodState -> Prop) (st : PolySymmetryData) :
  (forall x q s q' s', P (x :: q) s -> floodStep meshData LEFT st x q s q' s' -> P q' s') ->
  forall fuel q s s',
    P q s -> whileQueue (leftFloodBody meshData st) fuel q s = Ok s' -> P [] s'.
Proof.
  intros Hstep. apply whileQueue_inv.
  intros x q s q' s' HP Hb. eapply Hstep; [exact HP|].
  by apply leftFloodBody_step.
Qed.

Lemma rightFlood_inv (P : list Z -> FloodState -> Prop) (st : PolySymmetryData) :
  (forall x q s q' s', P (x :: q) s -> floodStep meshData RIGHT st x q s q' s' -> P q' s') ->
  forall fuel q s s',
    P q s -> whileQueue (rightFloodBody meshData st) fuel q s = Ok s' -> P [] s'.
Proof.
  intros Hstep. apply whileQueue_inv.
  intros x q s q' s' HP Hb. eapply Hstep; [exact HP|].
  by apply rightFloodBody_step.
Qed.

(** The two seeding loops of [findVertexSides]. *)
Lemma seedLeft_spec (left : list Z) :
  forall q0 sides0 q sides,
  forEach (fun i (s : list Z * list Z) =>
             sides ← vset (snd s) i LEFT;
             Ok (fst s ++ [i], sides)) left (q0, sides0) = Ok (q, sides) ->
  q = q0 ++ left /\ length sides = length sides0 /\
  Forall (fun i => 0 <= i < Z.of_nat (length sides0)) left /\
  (forall j, j ∈ left -> vget sides j = Ok LEFT) /\
  (forall j, j ∉ left -> vget sides j = vget sides0 j).
Proof.
  induction left as [|i left IH]; intros q0 sides0 q sides H; simpl in H.
  - injection H as <- <-. rewrite app_nil_r.
    split; [done|]. split; [done|]. split; [constructor|].
    split; [by intros j ?%elem_of_nil | done].
  - inv_bind H as s1 H1. inv_bind H1 as sides1 Hs1. injection H1 as <-.
    simpl in H. apply IH in H as (-> & Hlen & Hall & Hin & Hout).
    pose proof (vset_length _ _ _ _ Hs1) as Hlen1.
    pose proof (proj1 (vset_Ok _ _ _ _) Hs1) as [Hi _].
    split; [by rewrite <- app_assoc|]. split; [congruence|].
    split; [constructor; [done | by rewrite <- Hlen1]|]. split.
    + intros j Hj. destruct (decide (j ∈ left)) as [Hjl|Hjl]; [by apply Hin|].
      apply elem_of_cons in Hj as [->|Hj]; [|done].
      rewrite (Hout _ Hjl). by eapply vget_vset_eq.
    + intros j Hj. apply not_elem_of_cons in Hj as [Hne Hj].
      rewrite (Hout _ Hj). eapply vget_vset_ne; [exact Hs1 | done].
Qed.

Lemma seedRight_spec (idx : list Z) (left : list Z) :
  forall q0 sides0 q sides,
  forEach (fun i (s : list Z * list Z) =>
             partner ← vget idx i;
             partner ← vget idx i;
             sides ← vset (snd s) partner RIGHT;
             Ok (fst s ++ [partner], sides)) left (q0, sides0) = Ok (q, sides) ->
  exists partners,
    q = q0 ++ partners /\ length sides = length sides0 /\
    Forall2 (fun i p => vget idx i = Ok p) left partners /\
    Forall (fun p => 0 <= p < Z.of_nat (length sides0)) partners /\
    (forall p, p ∈ partners -> vget sides p = Ok RIGHT) /\
    (forall j, j ∉ partners -> vget sides j = vget sides0 j).
Proof.
  induction left as [|i left IH]; intros q0 sides0 q sides H; simpl in H.
  - injection H as <- <-. exists []. rewrite app_nil_r.
    split; [done|]. split; [done|]. split; [constructor|]. split; [constructor|].
    split; [by intros j ?%elem_of_nil | done].
  - inv_bind H as s1 H1. inv_bind H1 as p0 Hp0. inv_bind H1 as p Hp.
    inv_bind H1 as sides1 Hs1. injection H1 as <-.
    simpl in H. apply IH in H as (ps & -> & Hlen & Hall2 & Hall & Hin & Hout).
    pose proof (vset_length _ _ _ _ Hs1) as Hlen1.
    pose proof (proj1 (vset_Ok _ _ _ _) Hs1) as [Hi _].
    exists (p :: ps).
    split; [by rewrite <- app_assoc|]. split; [congruence|].
    split; [by constructor|].
    split; [constructor; [done | by rewrite <- Hlen1]|]. split.
    + intros j Hj. destruct (decide (j ∈ ps)) as [Hjl|Hjl]; [by apply Hin|].
      apply elem_of_cons in Hj as [->|Hj]; [|done].
      rewrite (Hout _ Hjl). by eapply vget_vset_eq.
    + intros j Hj. apply not_elem_of_cons in Hj as [Hne Hj].
      rewrite (Hout _ Hj). eapply vget_vset_ne; [exact Hs1 | done].
Qed.

Lemma Forall2_elem_of_l {A B : Type} (R : A -> B -> Prop) (l : list A)
    (k : list B) (x : A) :
  Forall2 R l k -> x ∈ l -> exists y, y ∈ k /\ R x y.
Proof.
  induction 1 as [|a b l k HR _ IH]; intros Hx.
  - by apply elem_of_nil in Hx.
  - apply elem_of_cons in Hx as [->|Hx].
    + exists b. split; [by left | done].
    + destruct (IH Hx) as (y & Hy & HRy). exists y. split; [by right | done].
Qed.

Lemma Forall2_elem_of_r {A B : Type} (R : A -> B -> Prop) (l : list A)
    (k : list B) (y : B) :
  Forall2 R l k -> y ∈ k -> exists x, x ∈ l /\ R x y.
Proof.
  induction 1 as [|a b l k HR _ IH]; intros Hy.
  - by apply elem_of_nil in Hy.
  - apply elem_of_cons in Hy as [->|Hy].
    + exists a. split; [by left | done].
    + destruct (IH Hy) as (x & Hx & HRx). exists x. split; [by right | done].
Qed.

(** [findVertexSides] assembled from its four loops. *)
Lemma findVertexSides_Ok (left : list Z) (st st' : PolySymmetryData) :
  findVertexSides meshData left st = Ok st' ->
  exists n q1 sides1 fuel1 vis2 sides2 q3 sides3 fuel3 vis4 sides4,
    n = Z.to_nat (numberOfVertices meshData) /\
    forEach (fun i (s : list Z * list Z) =>
               sides ← vset (snd s) i LEFT;
               Ok (fst s ++ [i], sides)) left ([], replicate n 0)
    = Ok (q1, sides1) /\
    whileQueue (leftFloodBody meshData st) fuel1 q1 (replicate n false, sides1)
    = Ok (vis2, sides2) /\
    forEach (fun i (s : list Z * list Z) =>
               partner ← vget (vertexSymmetryIndices st) i;
               partner ← vget (vertexSymmetryIndices st) i;
               sides ← vset (snd s) partner RIGHT;
               Ok (fst s ++ [partner], sides)) left ([], sides2)
    = Ok (q3, sides3) /\
    whileQueue (rightFloodBody meshData st) fuel3 q3 (vis2, sides3)
    = Ok (vis4, sides4) /\
    st' = withSides st sides4 (edgeSides st) (faceSides st).
Proof.
  unfold findVertexSides. intros H.
  inv_bind H as s1 H1. destruct s1 as [q1 sides1].
  inv_bind H as s2 H2. destruct s2 as [vis2 sides2].
  inv_bind H as s3 H3. destruct s3 as [q3 sides3].
  inv_bind H as s4 H4. destruct s4 as [vis4 sides4].
  injection H as <-.
  by eexists _, q1, sides1, _, vis2, sides2, q3, sides3, _, vis4, sides4.
Qed.

(** What an iteration leaves alone: every vertex but the dequeued one, and
    the dequeued one too when it was visited before. *)
Lemma floodStep_other (side : Z) (st : PolySymmetryData) (x j : Z)
    (q q' : list Z) (s s' : FloodState) :
  floodStep meshData side st x q s q' s' -> j <> x ->
  vget (fst s') j = vget (fst s) j /\ vget (snd s') j = vget (snd s) j.
Proof.
  intros [(_ & _ & ->)|(_ & Hvis & p & _ & Hcase)] Hne; [done|].
  split; [eapply vget_vset_ne; [exact Hvis | done]|].
  destruct Hcase as [(_ & Hs & _)|(_ & Hs & _)];
    (eapply vget_vset_ne; [exact Hs | done]).
Qed.

Lemma floodStep_visited (side : Z) (st : PolySymmetryData) (x j : Z)
    (q q' : list Z) (s s' : FloodState) :
  floodStep meshData side st x q s q' s' -> vget (fst s) j = Ok true ->
  vget (fst s') j = Ok true /\ vget (snd s') j = vget (snd s) j.
Proof.
  intros Hstep Hj. destruct (decide (j = x)) as [->|Hne].
  - destruct Hstep as [(_ & _ & ->)|(Hx & _)]; [done | congruence].
  - by destruct (floodStep_other _ _ _ _ _ _ _ _ Hstep Hne) as [-> ->].
Qed.

Lemma floodStep_queue (side : Z) (st : PolySymmetryData) (x j : Z)
    (q q' : list Z) (s s' : FloodState) :
  floodStep meshData side st x q s q' s' -> j ∈ q -> j ∈ q'.
Proof.
  intros [(_ & -> & _)|(_ & _ & p & _ & [(_ & _ & ->)|(_ & _ & Hq)])] Hj;
    [done | done |].
  destruct Hq as (vd & pushed & _ & -> & _). apply elem_of_app. by left.
Qed.

(** *** The left seeds and their partners *)

(** Every left seed [i] that is not the partner of a left seed (so not its
    own partner either) and whose partner [p] is not its own partner has
    side LEFT, and [p] has side RIGHT. *)
Lemma findVertexSides_seeds (left : list Z) (st st' : PolySymmetryData)
    (i p : Z) :
  findVertexSides meshData left st = Ok st' ->
  i ∈ left ->
  vget (vertexSymmetryIndices st) i = Ok p ->
  (forall j, j ∈ left -> vget (vertexSymmetryIndices st) j <> Ok i) ->
  vget (vertexSymmetryIndices st) p <> Ok p ->
  vget (vertexSides st') i = Ok LEFT /\ vget (vertexSides st') p = Ok RIGHT.
Proof.
  intros H Hi Hp Hnot Hpp.
  apply findVertexSides_Ok in H
    as (n & q1 & sides1 & fuel1 & vis2 & sides2 & q3 & sides3 & fuel3 & vis4
        & sides4 & Hn & H1 & H2 & H3 & H4 & ->).
  simpl.
  assert (Hpi : p <> i) by (intros ->; by eapply Hnot).
  (* the left seeds *)
  apply seedLeft_spec in H1 as (-> & Hlen1 & Hrange & Hin1 & _). simpl in *.
  rewrite length_replicate in Hrange.
  assert (Hirange : 0 <= i < Z.of_nat n).
  { rewrite Forall_forall in Hrange. by apply Hrange. }
  (* the left flood fill *)
  assert (H2' : vget vis2 i = Ok true /\ vget sides2 i = Ok LEFT).
  { pose (P := fun (q : list Z) (s : FloodState) =>
        (i ∈ q /\ vget (fst s) i = Ok false) \/
        (vget (fst s) i = Ok true /\ vget (snd s) i = Ok LEFT)).
    assert (HP : P [] (vis2, sides2)).
    { eapply (leftFlood_inv P); [| |exact H2].
      - intros x q s q' s' [[Hq Hvis]|[Hvis Hside]] Hstep.
        + destruct (decide (i = x)) as [<-|Hne].
          * right. destruct Hstep as [(Hx & _)|(_ & Hv & p' & Hp' & Hcase)];
              [congruence|].
            split; [by eapply vget_vset_eq|].
            destruct Hcase as [(-> & _)|(_ & Hs & _)]; [congruence|].
            by eapply vget_vset_eq.
          * left. apply elem_of_cons in Hq as [?|Hq]; [done|].
            split; [by eapply floodStep_queue|].
            by destruct (floodStep_other _ _ _ i _ _ _ _ Hstep Hne) as [-> _].
        + right.
          by destruct (floodStep_visited _ _ _ i _ _ _ _ Hstep Hvis) as [-> ->].
      - left. split; [done|]. simpl. by apply vget_replicate_in_range. }
    destruct HP as [[Hnil _]|HP]; [by apply elem_of_nil in Hnil | done]. }
  destruct H2' as [Hvis2 Hside2].
  (* the partners of the left seeds *)
  apply seedRight_spec in H3 as (ps & -> & Hlen3 & Hall2 & _ & Hin3 & Hout3).
  simpl in *.
  assert (Hps : p ∈ ps).
  { destruct (Forall2_elem_of_l _ _ _ _ Hall2 Hi) as (p' & Hp' & Hip').
    congruence. }
  assert (Hips : i ∉ ps).
  { intros Hin. destruct (Forall2_elem_of_r _ _ _ _ Hall2 Hin) as (j & Hj & Hji).
    by eapply Hnot. }
  (* the right flood fill *)
  pose (P := fun (q : list Z) (s : FloodState) =>
      vget (fst s) i = Ok true /\ vget (snd s) i = Ok LEFT /\
      vget (snd s) p = Ok RIGHT).
  assert (HP : P [] (vis4, sides4)).
  { eapply (rightFlood_inv P); [| |exact H4].
    - intros x q s q' s' (Hvis & Hsi & Hsp) Hstep.
      destruct (floodStep_visited _ _ _ i _ _ _ _ Hstep Hvis) as [Hvis' Hsi'].
      split; [done|]. split; [congruence|].
      destruct (decide (p = x)) as [<-|Hne].
      + destruct Hstep as [(_ & _ & ->)|(_ & _ & p' & Hp' & Hcase)]; [done|].
        destruct Hcase as [(-> & _)|(_ & Hs & _)]; [done|].
        by eapply vget_vset_eq.
      + by destruct (floodStep_other _ _ _ p _ _ _ _ Hstep Hne) as [_ ->].
    - split; [done|]. simpl. split; [by rewrite Hout3 | by apply Hin3]. }
  destruct HP as (_ & HL & HR). done.
Qed.

(** *** Termination of the flood fills *)

Lemma leftFloodBody_not_OutOfFuel (st : PolySymmetryData) (x : Z) (q : list Z)
    (s : FloodState) :
  leftFloodBody meshData st x q s <> OutOfFuel.
Proof. unfold leftFloodBody. destruct s. no_fuel. Qed.

Lemma rightFloodBody_not_OutOfFuel (st : PolySymmetryData) (x : Z) (q : list Z)
    (s : FloodState) :
  rightFloodBody meshData st x q s <> OutOfFuel.
Proof. unfold rightFloodBody. destruct s. no_fuel. Qed.

Lemma pendingNeighbours_insert_le (vd : list ComponentData) (vis : list bool)
    (n : nat) :
  (pendingNeighbours (<[n := true]> vis) vd <= pendingNeighbours vis vd)%nat.
Proof.
  revert vd n. induction vis as [|b vis IH]; intros vd n; [done|].
  destruct vd as [|d vd]; [by destruct n|].
  destruct n as [|n]; simpl.
  - destruct b; lia.
  - specialize (IH vd n). lia.
Qed.

Lemma pendingNeighbours_insert_eq (vd : list ComponentData) (vis : list bool)
    (n : nat) (d : ComponentData) :
  vis !! n = Some false -> vd !! n = Some d ->
  (pendingNeighbours (<[n := true]> vis) vd + length (connectedVertices d)
   = pendingNeighbours vis vd)%nat.
Proof.
  revert vd n. induction vis as [|b vis IH]; intros vd n Hvis Hd; [done|].
  destruct vd as [|d' vd]; [done|].
  destruct n as [|n]; simpl in *.
  - injection Hvis as ->. injection Hd as ->. lia.
  - specialize (IH vd n Hvis Hd). lia.
Qed.

Lemma floodStep_measure (side : Z) (st : PolySymmetryData) (x : Z)
    (q q' : list Z) (s s' : FloodState) :
  floodStep meshData side st x q s q' s' ->
  (floodMeasure meshData q' s' < floodMeasure meshData (x :: q) s)%nat.
Proof.
  unfold floodMeasure.
  intros [(_ & -> & ->)|(Hx & Hvis & p & _ & Hcase)]; simpl; [lia|].
  apply vset_Ok in Hvis as [Hr Hvis]. rewrite Hvis.
  destruct Hcase as [(_ & _ & ->)|(_ & _ & vd & pushed & Hvd & -> & Hsub)].
  - pose proof (pendingNeighbours_insert_le (vertexData meshData) (fst s)
                  (Z.to_nat x)). lia.
  - apply vget_Ok in Hx as [_ Hx]. apply vget_Ok in Hvd as [_ Hvd].
    pose proof (pendingNeighbours_insert_eq _ _ _ _ Hx Hvd).
    apply sublist_length in Hsub. rewrite length_app. lia.
Qed.

Lemma leftFlood_terminates (st : PolySymmetryData) (fuel : nat) (q : list Z)
    (s : FloodState) :
  (floodMeasure meshData q s <= fuel)%nat ->
  whileQueue (leftFloodBody meshData st) fuel q s <> OutOfFuel.
Proof.
  apply (whileQueue_terminates (fun _ _ => True) (floodMeasure meshData)); [| | |done].
  - intros x q0 s0. unfold floodMeasure. simpl. lia.
  - intros x q0 s0 _. apply leftFloodBody_not_OutOfFuel.
  - intros x q0 s0 q' s' _ Hb. split; [done|].
    eapply floodStep_measure, leftFloodBody_step, Hb.
Qed.

Lemma rightFlood_terminates (st : PolySymmetryData) (fuel : nat) (q : list Z)
    (s : FloodState) :
  (floodMeasure meshData q s <= fuel)%nat ->
  whileQueue (rightFloodBody meshData st) fuel q s <> OutOfFuel.
Proof.
  apply (whileQueue_terminates (fun _ _ => True) (floodMeasure meshData)); [| | |done].
  - intros x q0 s0. unfold floodMeasure. simpl. lia.
  - intros x q0 s0 _. apply rightFloodBody_not_OutOfFuel.
  - intros x q0 s0 q' s' _ Hb. split; [done|].
    eapply floodStep_measure, rightFloodBody_step, Hb.
Qed.

(** The fuel that [findVertexSides] gives to its flood fills is enough. *)
Lemma findVertexSides_fuel (left : list Z) (st : PolySymmetryData) :
  findVertexSides meshData left st <> OutOfFuel.
Proof.
  unfold findVertexSides.
  apply bind_not_OutOfFuel; [no_fuel|]. intros [q1 sides1] _.
  apply bind_not_OutOfFuel; [by apply leftFlood_terminates|].
  intros [vis2 sides2] _.
  apply bind_not_OutOfFuel; [no_fuel|]. intros [q3 sides3] _.
  apply bind_not_OutOfFuel; [by apply rightFlood_terminates|].
  intros [vis4 sides4] _. discriminate.
Qed.

(** *** In-bounds accesses of the flood fills *)

Lemma floodStep_inRange (side : Z) (st : PolySymmetryData) (x : Z)
    (q q' : list Z) (s s' : FloodState) :
  wfVertexData meshData -> floodInRange meshData (x :: q) s ->
  floodStep meshData side st x q s q' s' -> floodInRange meshData q' s'.
Proof.
  intros [_ Hadj] (Hvis & Hsides & Hq). apply Forall_cons in Hq as [Hx Hq].
  intros [(_ & -> & ->)|(_ & Hv & p & _ & Hcase)]; [done|].
  apply vset_length in Hv. unfold floodInRange.
  destruct Hcase as [(_ & Hs & ->)|(_ & Hs & vd & pushed & Hvd & -> & Hsub)];
    apply vset_length in Hs; (split; [congruence|]); (split; [congruence|]);
    [done|].
  apply Forall_app. split; [done|].
  apply vget_elem_of in Hvd. rewrite Forall_forall in Hadj.
  specialize (Hadj _ Hvd). rewrite Forall_forall in Hadj |- *.
  intros v Hv'. apply Hadj. eapply elem_of_sublist; [exact Hv' | exact Hsub].
Qed.

Lemma push_unvisited_total (visited : list bool) (l : list Z) (q : list Z) :
  Forall (fun v => 0 <= v < Z.of_nat (length visited)) l ->
  exists q',
    forEach (fun i queue =>
               vis ← vget visited i;
               if (vis : bool) then Ok queue else Ok (queue ++ [i])) l q = Ok q'.
Proof.
  intros Hl.
  destruct (forEach_total (fun _ => True)
              (fun i queue =>
                 vis ← vget visited i;
                 if (vis : bool) then Ok queue else Ok (queue ++ [i])) l)
    with (s := q) as (q' & Hq' & _); [|done|by exists q'].
  intros i queue Hi _. rewrite Forall_forall in Hl.
  destruct (vget_in_range visited i (Hl _ Hi)) as [b ->]. simpl.
  destruct b; eauto.
Qed.

Lemma push_unvisited_guarded_total (visited : list bool) (idx : list Z)
    (vertexIndex : Z) (l : list Z) (q : list Z) :
  length idx = length visited ->
  Forall (fun v => 0 <= v < Z.of_nat (length visited)) l ->
  exists q',
    forEach (fun i queue =>
               vis ← vget visited i;
               if (vis : bool) then Ok queue
               else
                 partner ← vget idx i;
                 if partner =? vertexIndex then Ok queue
                 else Ok (queue ++ [i])) l q = Ok q'.
Proof.
  intros Hlen Hl.
  destruct (forEach_total (fun _ => True)
              (fun i queue =>
                 vis ← vget visited i;
                 if (vis : bool) then Ok queue
                 else
                   partner ← vget idx i;
                   if partner =? vertexIndex then Ok queue
                   else Ok (queue ++ [i])) l)
    with (s := q) as (q' & Hq' & _); [|done|by exists q'].
  intros i queue Hi _. rewrite Forall_forall in Hl.
  destruct (vget_in_range visited i (Hl _ Hi)) as [b ->]. simpl.
  destruct b; [eauto|].
  destruct (vget_in_range idx i) as [p ->]; [rewrite Hlen; by apply Hl|].
  simpl. destruct (p =? vertexIndex); eauto.
Qed.

Lemma leftFloodBody_total (st : PolySymmetryData) (x : Z) (q : list Z)
    (s : FloodState) :
  wfVertexData meshData ->
  length (vertexSymmetryIndices st) = Z.to_nat (numberOfVertices meshData) ->
  floodInRange meshData (x :: q) s ->
  exists q' s', leftFloodBody meshData st x q s = Ok (q', s').
Proof.
  intros [Hlen Hadj] Hidx (Hvis & Hsides & Hq).
  apply Forall_cons in Hq as [Hx Hq]. destruct s as [vis sides]. simpl in *.
  unfold leftFloodBody.
  destruct (vget_in_range vis x) as [b ->]; [lia|]. simpl.
  destruct b; [eauto|].
  rewrite (vset_in_range vis x true) by lia. simpl.
  destruct (vget_in_range (vertexSymmetryIndices st) x) as [p ->]; [lia|].
  simpl. destruct (p =? x).
  - rewrite (vset_in_range sides x CENTER) by lia. simpl. eauto.
  - rewrite (vset_in_range sides x LEFT) by lia. simpl.
    destruct (vget_in_range (vertexData meshData) x) as [vd Hvd]; [lia|].
    rewrite Hvd. simpl.
    destruct (push_unvisited_guarded_total (<[Z.to_nat x:=true]> vis)
                (vertexSymmetryIndices st) x (connectedVertices vd) q)
      as [q' ->].
    + rewrite length_insert. congruence.
    + apply vget_elem_of in Hvd. rewrite Forall_forall in Hadj.
      specialize (Hadj _ Hvd). rewrite length_insert.
      eapply Forall_impl; [exact Hadj|]. intros v ?. simpl in *. lia.
    + simpl. eauto.
Qed.

Lemma rightFloodBody_total (st : PolySymmetryData) (x : Z) (q : list Z)
    (s : FloodState) :
  wfVertexData meshData ->
  length (vertexSymmetryIndices st) = Z.to_nat (numberOfVertices meshData) ->
  floodInRange meshData (x :: q) s ->
  exists q' s', rightFloodBody meshData st x q s = Ok (q', s').
Proof.
  intros [Hlen Hadj] Hidx (Hvis & Hsides & Hq).
  apply Forall_cons in Hq as [Hx Hq]. destruct s as [vis sides]. simpl in *.
  unfold rightFloodBody.
  destruct (vget_in_range vis x) as [b ->]; [lia|]. simpl.
  destruct b; [eauto|].
  rewrite (vset_in_range vis x true) by lia. simpl.
  destruct (vget_in_range (vertexSymmetryIndices st) x) as [p ->]; [lia|].
  simpl. destruct (p =? x).
  - rewrite (vset_in_range sides x CENTER) by lia. simpl. eauto.
  - rewrite (vset_in_range sides x RIGHT) by lia. simpl.
    destruct (vget_in_range (vertexData meshData) x) as [vd Hvd]; [lia|].
    rewrite Hvd. simpl.
    destruct (push_unvisited_total (<[Z.to_nat x:=true]> vis)
                (connectedVertices vd) q) as [q' ->].
    + apply vget_elem_of in Hvd. rewrite Forall_forall in Hadj.
      specialize (Hadj _ Hvd). rewrite length_insert.
      eapply Forall_impl; [exact Hadj|]. intros v ?. simpl in *. lia.
    + simpl. eauto.
Qed.

Lemma leftFlood_total (st : PolySymmetryData) (fuel : nat) (q : list Z)
    (s : FloodState) :
  wfVertexData meshData ->
  length (vertexSymmetryIndices st) = Z.to_nat (numberOfVertices meshData) ->
  floodInRange meshData q s -> (floodMeasure meshData q s <= fuel)%nat ->
  exists s', whileQueue (leftFloodBody meshData st) fuel q s = Ok s' /\
             floodInRange meshData [] s'.
Proof.
  intros Hwf Hidx HI Hfuel.
  apply (whileQueue_safe (floodInRange meshData)); [|done|by apply leftFlood_terminates].
  intros x q0 s0 HI0.
  destruct (leftFloodBody_total st x q0 s0 Hwf Hidx HI0) as (q' & s' & Hb).
  exists q', s'. split; [done|].
  eapply floodStep_inRange; [done | exact HI0 | by apply leftFloodBody_step].
Qed.

Lemma rightFlood_total (st : PolySymmetryData) (fuel : nat) (q : list Z)
    (s : FloodState) :
  wfVertexData meshData ->
  length (vertexSymmetryIndices st) = Z.to_nat (numberOfVertices meshData) ->
  floodInRange meshData q s -> (floodMeasure meshData q s <= fuel)%nat ->
  exists s', whileQueue (rightFloodBody meshData st) fuel q s = Ok s' /\
             floodInRange meshData [] s'.
Proof.
  intros Hwf Hidx HI Hfuel.
  apply (whileQueue_safe (floodInRange meshData)); [|done|by apply rightFlood_terminates].
  intros x q0 s0 HI0.
  destruct (rightFloodBody_total st x q0 s0 Hwf Hidx HI0) as (q' & s' & Hb).
  exists q', s'. split; [done|].
  eapply floodStep_inRange; [done | exact HI0 | by apply rightFloodBody_step].
Qed.

Lemma findVertexSides_total (left : list Z) (st : PolySymmetryData) :
  wfVertexData meshData ->
  length (vertexSymmetryIndices st) = Z.to_nat (numberOfVertices meshData) ->
  seedsResolved meshData left st ->
  exists st', findVertexSides meshData left st = Ok st'.
Proof.
  intros Hwf Hidx Hseeds. unfold findVertexSides.
  set (n := Z.to_nat (numberOfVertices meshData)) in *.
  (* the left seeds *)
  destruct (forEach_total (fun s : list Z * list Z => length (snd s) = n)
              (fun i (s : list Z * list Z) =>
                 sides ← vset (snd s) i LEFT; Ok (fst s ++ [i], sides)) left)
    with (s := ([] : list Z, replicate n 0)) as ([q1 sides1] & H1 & Hlen1).
  { intros i s Hi Hs. unfold seedsResolved in Hseeds.
    rewrite Forall_forall in Hseeds. destruct (Hseeds _ Hi) as [Hr _].
    rewrite vset_in_range by lia. simpl. eexists. split; [done|].
    simpl. by rewrite length_insert. }
  { simpl. apply length_replicate. }
  rewrite H1. simpl in *.
  apply seedLeft_spec in H1 as (-> & _ & Hrange & _). simpl in *.
  rewrite length_replicate in Hrange.
  (* the left flood fill *)
  destruct (leftFlood_total st
              (length left + pendingNeighbours (replicate n false) (vertexData meshData))
              left (replicate n false, sides1) Hwf Hidx)
    as ([vis2 sides2] & H2 & Hvis2 & Hsides2 & _).
  { split; [apply length_replicate|]. split; [done|].
    eapply Forall_impl; [exact Hrange|]. intros v ?. simpl in *. lia. }
  { done. }
  rewrite H2. simpl in *.
  (* the partners of the left seeds *)
  destruct (forEach_total (fun s : list Z * list Z => length (snd s) = n)
              (fun i (s : list Z * list Z) =>
                 partner ← vget (vertexSymmetryIndices st) i;
                 partner ← vget (vertexSymmetryIndices st) i;
                 sides ← vset (snd s) partner RIGHT;
                 Ok (fst s ++ [partner], sides)) left)
    with (s := ([] : list Z, sides2)) as ([q3 sides3] & H3 & Hlen3).
  { intros i s Hi Hs. unfold seedsResolved in Hseeds.
    rewrite Forall_forall in Hseeds.
    destruct (Hseeds _ Hi) as (_ & p & Hp & Hr).
    rewrite Hp. simpl. rewrite vset_in_range by lia. simpl.
    eexists. split; [done|]. simpl. by rewrite length_insert. }
  { done. }
  rewrite H3. simpl in *.
  apply seedRight_spec in H3 as (ps & -> & _ & _ & Hps & _). simpl in *.
  (* the right flood fill *)
  destruct (rightFlood_total st
              (length ps + pendingNeighbours vis2 (vertexData meshData))
              ps (vis2, sides3) Hwf Hidx)
    as ([vis4 sides4] & H4 & _).
  { split; [done|]. split; [done|].
    eapply Forall_impl; [exact Hps|]. intros v ?. simpl in *. lia. }
  { done. }
  rewrite H4. simpl. eauto.
Qed.

End Classifier.

(** ** The symmetry table *)

Lemma markPair_spec (idx idx' : list Z) (ex ex' : list bool) (i0 i1 : Z) :
  markPair idx ex i0 i1 = Ok (idx', ex') ->
  0 <= i0 < Z.of_nat (length idx) /\ 0 <= i1 < Z.of_nat (length idx) /\
  0 <= i0 < Z.of_nat (length ex) /\ 0 <= i1 < Z.of_nat (length ex) /\
  length idx' = length idx /\ length ex' = length ex /\
  vget idx' i1 = Ok i0 /\ (i0 <> i1 -> vget idx' i0 = Ok i1) /\
  vget ex' i0 = Ok true /\ vget ex' i1 = Ok true /\
  (forall j, j <> i0 -> j <> i1 ->
     vget idx' j = vget idx j /\ vget ex' j = vget ex j).
Proof.
  unfold markPair. intros H.
  inv_bind H as idx1 Hidx1. inv_bind H as idx2 Hidx2.
  inv_bind H as ex1 Hex1. inv_bind H as ex2 Hex2. injection H as <- <-.
  pose proof (vset_length _ _ _ _ Hidx1) as Hl1.
  pose proof (vset_length _ _ _ _ Hidx2) as Hl2.
  pose proof (vset_length _ _ _ _ Hex1) as Hl3.
  pose proof (vset_length _ _ _ _ Hex2) as Hl4.
  pose proof (proj1 (vset_Ok _ _ _ _) Hidx1) as [Hr1 _].
  pose proof (proj1 (vset_Ok _ _ _ _) Hidx2) as [Hr2 _].
  pose proof (proj1 (vset_Ok _ _ _ _) Hex1) as [Hr3 _].
  pose proof (proj1 (vset_Ok _ _ _ _) Hex2) as [Hr4 _].
  repeat (split; [lia || congruence|]).
  split; [by eapply vget_vset_eq|].
  split.
  { intros Hne. rewrite (vget_vset_ne _ _ _ _ _ Hidx2) by done.
    by eapply vget_vset_eq. }
  split.
  { destruct (decide (i1 = i0)) as [->|Hne]; [by eapply vget_vset_eq|].
    rewrite (vget_vset_ne _ _ _ _ _ Hex2) by done. by eapply vget_vset_eq. }
  split; [by eapply vget_vset_eq|].
  intros j Hj0 Hj1.
  rewrite (vget_vset_ne _ _ _ _ _ Hidx2), (vget_vset_ne _ _ _ _ _ Hidx1),
    (vget_vset_ne _ _ _ _ _ Hex2), (vget_vset_ne _ _ _ _ _ Hex1) by done.
  done.
Qed.

Lemma markPair_not_OutOfFuel (idx : list Z) (ex : list bool) (i0 i1 : Z) :
  markPair idx ex i0 i1 <> OutOfFuel.
Proof. unfold markPair. no_fuel. Qed.

Lemma markSymmetricalVertices_markPair (i0 i1 : Z) (st : PolySymmetryData) :
  markSymmetricalVertices i0 i1 st
  = '(idx, ex) ← markPair (vertexSymmetryIndices st) (examinedVertices st) i0 i1;
    Ok (withVertices st idx ex).
Proof.
  unfold markSymmetricalVertices, markPair.
  destruct (vset (vertexSymmetryIndices st) i0 i1) as [idx1| |]; simpl; [|done..].
  destruct (vset idx1 i1 i0) as [idx2| |]; simpl; [|done..].
  destruct (vset (examinedVertices st) i0 true) as [ex1| |]; simpl; [|done..].
  destruct (vset ex1 i1 true) as [ex2| |]; simpl; done.
Qed.

Lemma markSymmetricalEdges_markPair (i0 i1 : Z) (st : PolySymmetryData) :
  markSymmetricalEdges i0 i1 st
  = '(idx, ex) ← markPair (edgeSymmetryIndices st) (examinedEdges st) i0 i1;
    Ok (withEdges st idx ex).
Proof.
  unfold markSymmetricalEdges, markPair.
  destruct (vset (edgeSymmetryIndices st) i0 i1) as [idx1| |]; simpl; [|done..].
  destruct (vset idx1 i1 i0) as [idx2| |]; simpl; [|done..].
  destruct (vset (examinedEdges st) i0 true) as [ex1| |]; simpl; [|done..].
  destruct (vset ex1 i1 true) as [ex2| |]; simpl; done.
Qed.

Lemma markSymmetricalFaces_markPair (i0 i1 : Z) (st : PolySymmetryData) :
  markSymmetricalFaces i0 i1 st
  = '(idx, ex) ← markPair (faceSymmetryIndices st) (examinedFaces st) i0 i1;
    Ok (withFaces st idx ex).
Proof.
  unfold markSymmetricalFaces, markPair.
  destruct (vset (faceSymmetryIndices st) i0 i1) as [idx1| |]; simpl; [|done..].
  destruct (vset idx1 i1 i0) as [idx2| |]; simpl; [|done..].
  destruct (vset (examinedFaces st) i0 true) as [ex1| |]; simpl; [|done..].
  destruct (vset ex1 i1 true) as [ex2| |]; simpl; done.
Qed.

Lemma markSymmetricalVertices_Ok (i0 i1 : Z) (st st' : PolySymmetryData) :
  markSymmetricalVertices i0 i1 st = Ok st' ->
  exists idx ex,
    markPair (vertexSymmetryIndices st) (examinedVertices st) i0 i1 = Ok (idx, ex)
    /\ st' = withVertices st idx ex.
Proof.
  rewrite markSymmetricalVertices_markPair. intros H.
  inv_bind H as r Hr. destruct r as [idx ex]. injection H as <-. eauto.
Qed.

Lemma markSymmetricalEdges_Ok (i0 i1 : Z) (st st' : PolySymmetryData) :
  markSymmetricalEdges i0 i1 st = Ok st' ->
  exists idx ex,
    markPair (edgeSymmetryIndices st) (examinedEdges st) i0 i1 = Ok (idx, ex)
    /\ st' = withEdges st idx ex.
Proof.
  rewrite markSymmetricalEdges_markPair. intros H.
  inv_bind H as r Hr. destruct r as [idx ex]. injection H as <-. eauto.
Qed.

Lemma markSymmetricalFaces_Ok (i0 i1 : Z) (st st' : PolySymmetryData) :
  markSymmetricalFaces i0 i1 st = Ok st' ->
  exists idx ex,
    markPair (faceSymmetryIndices st) (examinedFaces st) i0 i1 = Ok (idx, ex)
    /\ st' = withFaces st idx ex.
Proof.
  rewrite markSymmetricalFaces_markPair. intros H.
  inv_bind H as r Hr. destruct r as [idx ex]. injection H as <-. eauto.
Qed.

Lemma firstUnexamined_spec (examined : list bool) (l : list Z) (v : Z) :
  firstUnexamined examined l = Ok v ->
  v = -1 \/ (v ∈ l /\ vget examined v = Ok false).
Proof.
  induction l as [|x l IH]; simpl; intros H.
  - injection H as <-. by left.
  - inv_bind H as b Hb. destruct b.
    + destruct (IH H) as [->|[Hv Hex]]; [by left|].
      right. split; [by right | done].
    + injection H as <-. right. split; [by left | done].
Qed.

Lemma firstUnexamined_not_OutOfFuel (examined : list bool) (l : list Z) :
  firstUnexamined examined l <> OutOfFuel.
Proof. induction l as [|x l IH]; simpl; no_fuel. Qed.

(** *** The shape of the successful runs of the loop bodies *)

Section Bodies.
Variable intersection : list Z -> list Z -> list Z.
Variable meshData : MeshData.

Lemma faceVerticesBody_Ok (facePair : Z * Z) (x : Z) (q q' : list Z)
    (st st' : PolySymmetryData) :
  faceVerticesBody meshData facePair x q st = Ok (q', st') ->
  (q' = q /\ st' = st) \/
  (exists vertex1 n0 n1,
     vget (vertexSymmetryIndices st) x = Ok vertex1 /\
     getUnexaminedVertexSibling meshData x (fst facePair) st = Ok n0 /\
     getUnexaminedVertexSibling meshData vertex1 (snd facePair) st = Ok n1 /\
     n0 <> -1 /\ n1 <> -1 /\
     markSymmetricalVertices n0 n1 st = Ok st' /\ q' = q ++ [n0]).
Proof.
  unfold faceVerticesBody. intros H.
  inv_bind H as vertex1 Hv1. inv_bind H as n0 Hn0. inv_bind H as n1 Hn1.
  destruct (Z.eqb_spec n0 (-1)) as [->|Hne0]; simpl in H;
    [injection H as <- <-; by left|].
  destruct (Z.eqb_spec n1 (-1)) as [->|Hne1]; simpl in H;
    [injection H as <- <-; by left|].
  inv_bind H as st1 Hm. injection H as <- <-. right.
  by exists vertex1, n0, n1.
Qed.

Lemma faceEdgesBody_Ok (e : Z) (q q' : list (Z * Z)) (st st' : PolySymmetryData) :
  faceEdgesBody intersection meshData e (q, st) = Ok (q', st') ->
  (q' = q /\ st' = st) \/
  (exists ed c0 c1 vertex0 vertex1 vd0 vd1 edgeIndex exi,
     vget (examinedEdges st) e = Ok false /\
     vget (edgeData meshData) e = Ok ed /\
     vget (connectedVertices ed) 0 = Ok c0 /\
     vget (connectedVertices ed) 1 = Ok c1 /\
     vget (vertexSymmetryIndices st) c0 = Ok vertex0 /\
     vget (vertexSymmetryIndices st) c1 = Ok vertex1 /\
     vget (vertexData meshData) vertex0 = Ok vd0 /\
     vget (vertexData meshData) vertex1 = Ok vd1 /\
     vget (intersection (connectedEdges vd0) (connectedEdges vd1)) 0
     = Ok edgeIndex /\
     vget (examinedEdges st) edgeIndex = Ok exi /\
     q' = (if exi : bool then q else q ++ [(e, edgeIndex)]) /\
     markSymmetricalEdges e edgeIndex st = Ok st').
Proof.
  unfold faceEdgesBody. intros H.
  inv_bind H as ex Hex. destruct ex; [injection H as <- <-; by left|].
  inv_bind H as ed Hed. inv_bind H as c0 Hc0. inv_bind H as vertex0 Hv0.
  inv_bind H as ed' Hed'. inv_bind H as c1 Hc1. inv_bind H as vertex1 Hv1.
  assert (ed' = ed) as -> by congruence.
  destruct ((vertex0 =? -1) || (vertex1 =? -1));
    [injection H as <- <-; by left|].
  inv_bind H as vd0 Hvd0. inv_bind H as vd1 Hvd1.
  destruct (negb _); [injection H as <- <-; by left|].
  inv_bind H as edgeIndex Hei. inv_bind H as exi Hexi.
  inv_bind H as st1 Hm. injection H as <- <-. right.
  by exists ed, c0, c1, vertex0, vertex1, vd0, vd1, edgeIndex, exi.
Qed.

Lemma worklistBody_Ok (edgePair : Z * Z) (q q' : list (Z * Z))
    (st st' : PolySymmetryData) :
  worklistBody intersection meshData edgePair q st = Ok (q', st') ->
  exists st1 faces,
    markSymmetricalEdges (fst edgePair) (snd edgePair) st = Ok st1 /\
    getUnexaminedFaces intersection meshData edgePair st1 = Ok faces /\
    (((fst faces = -1 \/ snd faces = -1) /\ q' = q /\ st' = st1) \/
     (fst faces <> -1 /\ snd faces <> -1 /\
      exists st2 st3,
        markSymmetricalFaces (fst faces) (snd faces) st1 = Ok st2 /\
        findSymmetricalVerticesOnFace meshData faces st2 = Ok st3 /\
        findSymmetricalEdgesOnFace intersection meshData q (fst faces) st3
        = Ok (q', st'))).
Proof.
  unfold worklistBody. intros H.
  inv_bind H as st1 Hst1. inv_bind H as faces Hfaces.
  exists st1, faces. split; [done|]. split; [done|].
  destruct (Z.eqb_spec (fst faces) (-1)) as [He0|Hne0]; simpl in H;
    [injection H as <- <-; left; auto|].
  destruct (Z.eqb_spec (snd faces) (-1)) as [He1|Hne1]; simpl in H;
    [injection H as <- <-; left; auto|].
  inv_bind H as st2 Hst2. inv_bind H as st3 Hst3. right.
  split; [done|]. split; [done|]. by exists st2, st3.
Qed.

Lemma findFirstSymmetricalVertices_Ok (selection : ComponentSelection)
    (st st' : PolySymmetryData) :
  findFirstSymmetricalVertices meshData selection st = Ok st' ->
  exists st1 st2 ed0 a0 b0 ex0 ed1 a1 b1 ex1 st3,
    markSymmetricalVertices (fst (vertexIndices selection))
      (snd (vertexIndices selection)) st = Ok st1 /\
    markSymmetricalFaces (fst (faceIndices selection))
      (snd (faceIndices selection)) st1 = Ok st2 /\
    vget (edgeData meshData) (fst (edgeIndices selection)) = Ok ed0 /\
    vget (connectedVertices ed0) 0 = Ok a0 /\
    vget (connectedVertices ed0) 1 = Ok b0 /\
    vget (examinedVertices st2) a0 = Ok ex0 /\
    vget (edgeData meshData) (snd (edgeIndices selection)) = Ok ed1 /\
    vget (connectedVertices ed1) 0 = Ok a1 /\
    vget (connectedVertices ed1) 1 = Ok b1 /\
    vget (examinedVertices st2) a1 = Ok ex1 /\
    markSymmetricalVertices (if ex0 : bool then b0 else a0)
      (if ex1 : bool then b1 else a1) st2 = Ok st3 /\
    findSymmetricalVerticesOnFace meshData (faceIndices selection) st3 = Ok st'.
Proof.
  unfold findFirstSymmetricalVertices. intros H.
  inv_bind H as st1 Hst1. inv_bind H as st2 Hst2.
  inv_bind H as ed0 Hed0. inv_bind H as a0 Ha0.
  inv_bind H as ed0' Hed0'. inv_bind H as b0 Hb0. inv_bind H as ex0 Hex0.
  inv_bind H as ed1 Hed1. inv_bind H as a1 Ha1.
  inv_bind H as ed1' Hed1'. inv_bind H as b1 Hb1. inv_bind H as ex1 Hex1.
  inv_bind H as st3 Hst3.
  assert (ed0' = ed0) as -> by congruence.
  assert (ed1' = ed1) as -> by congruence.
  by exists st1, st2, ed0, a0, b0, ex0, ed1, a1, b1, ex1, st3.
Qed.

(** Which endpoint of a seed edge [findFirstSymmetricalVertices] takes as
    the "other" one. *)
Lemma otherEndpoint_next (examined : list bool) (e v w a b : Z)
    (ed : ComponentData) (exa : bool) :
  otherEndpoint meshData e v w ->
  vget (edgeData meshData) e = Ok ed ->
  vget (connectedVertices ed) 0 = Ok a ->
  vget (connectedVertices ed) 1 = Ok b ->
  vget examined a = Ok exa ->
  vget examined v = Ok true -> vget examined w = Ok false ->
  (if exa then b else a) = w.
Proof.
  intros (ed' & Hed' & Hcase) Hed Ha Hb Hexa Hv Hw.
  assert (ed' = ed) as -> by congruence.
  destruct Hcase as [[Hv0 Hw1]|[Hw0 Hv1]].
  - assert (a = v) as -> by congruence. assert (b = w) as -> by congruence.
    assert (exa = true) as -> by congruence. done.
  - assert (a = w) as -> by congruence.
    assert (exa = false) as -> by congruence. done.
Qed.

End Bodies.

(** *** The engine writes within a closed region *)

Section Region.
Variable intersection : list Z -> list Z -> list Z.
Variable meshData : MeshData.
Variables AV AE AF : Z -> Prop.
Variable freshV : Prop.
Hypothesis Hclosed : closedShell intersection meshData AV AE AF.

Lemma markStep_closedVertexTable (st st' : PolySymmetryData) :
  markStep AV AE AF freshV st st' ->
  closedVertexTable AV st -> closedVertexTable AV st'.
Proof.
  intros [(i0 & i1 & H0 & H1 & _ & Hm)|[(i0 & i1 & _ & _ & Hm)|
          (i0 & i1 & _ & _ & _ & _ & Hm)]] Hc.
  - apply markSymmetricalVertices_Ok in Hm as (idx & ex & Hm & ->).
    apply markPair_spec in Hm
      as (_ & _ & _ & _ & _ & _ & Hi1 & Hi0 & _ & _ & Hother).
    intros v p Hv Hp. simpl in Hp.
    destruct (decide (v = i1)) as [->|Hn1]; [congruence|].
    destruct (decide (v = i0)) as [->|Hn0].
    + rewrite Hi0 in Hp by done. congruence.
    + destruct (Hother v Hn0 Hn1) as [Heq _]. rewrite Heq in Hp.
      by eapply Hc.
  - apply markSymmetricalEdges_Ok in Hm as (idx & ex & _ & ->). exact Hc.
  - apply markSymmetricalFaces_Ok in Hm as (idx & ex & _ & ->). exact Hc.
Qed.

Lemma rtc_markStep_closedVertexTable (st st' : PolySymmetryData) :
  rtc (markStep AV AE AF freshV) st st' ->
  closedVertexTable AV st -> closedVertexTable AV st'.
Proof.
  induction 1 as [|st st1 st' Hstep _ IH]; [done|].
  intros Hc. by eapply IH, markStep_closedVertexTable.
Qed.

Lemma getUnexaminedVertexSibling_region (vertexIndex faceIndex v : Z)
    (st : PolySymmetryData) :
  AV vertexIndex ->
  getUnexaminedVertexSibling meshData vertexIndex faceIndex st = Ok v ->
  v = -1 \/ (AV v /\ vget (examinedVertices st) v = Ok false).
Proof.
  unfold getUnexaminedVertexSibling. intros HA H. inv_bind H as vd Hvd.
  apply firstUnexamined_spec in H as [->|[Hv Hex]]; [by left|]. right.
  split; [|done].
  destruct Hclosed as (_ & _ & HV & _). destruct (HV _ _ HA Hvd) as (_ & _ & Hs).
  destruct (faceVertexSiblings vd !! faceIndex) as [sibs|] eqn:Hsibs;
    simpl in Hv; [|by apply elem_of_nil in Hv].
  specialize (Hs _ _ Hsibs). rewrite Forall_forall in Hs. by apply Hs.
Qed.

Lemma getUnexaminedFace_region (edgeIndex f : Z) (st : PolySymmetryData) :
  AE edgeIndex ->
  getUnexaminedFace meshData edgeIndex st = Ok f ->
  f = -1 \/ (AF f /\ vget (examinedFaces st) f = Ok false).
Proof.
  unfold getUnexaminedFace. intros HA H. inv_bind H as ed Hed.
  apply firstUnexamined_spec in H as [->|[Hv Hex]]; [by left|]. right.
  split; [|done].
  destruct Hclosed as (_ & _ & _ & HE & _). destruct (HE _ _ HA Hed) as (_ & Hf).
  rewrite Forall_forall in Hf. by apply Hf.
Qed.

Lemma getUnexaminedFaces_region (edgePair faces : Z * Z) (st : PolySymmetryData) :
  AE (fst edgePair) -> AE (snd edgePair) ->
  getUnexaminedFaces intersection meshData edgePair st = Ok faces ->
  (fst faces = -1 \/
   (AF (fst faces) /\ vget (examinedFaces st) (fst faces) = Ok false)) /\
  (snd faces = -1 \/
   (AF (snd faces) /\ vget (examinedFaces st) (snd faces) = Ok false)).
Proof.
  unfold getUnexaminedFaces. intros HA0 HA1 H.
  inv_bind H as ed0 Hed0. inv_bind H as ed1 Hed1.
  destruct (0 <? length _)%nat.
  - pose (P := fun faces : Z * Z =>
        (fst faces = -1 \/
         (AF (fst faces) /\ vget (examinedFaces st) (fst faces) = Ok false)) /\
        (snd faces = -1 \/
         (AF (snd faces) /\ vget (examinedFaces st) (snd faces) = Ok false))).
    eapply (forEach_inv P); [| |exact H]; [|split; by left].
    intros f [f0 f1] faces' Hf [HP0 HP1] Hb. unfold sharedFacesBody in Hb.
    inv_bind Hb as b Hex. simpl in *.
    assert (HAf : AF f).
    { destruct Hclosed as (_ & Hint & _ & HE & _).
      destruct (HE _ _ HA0 Hed0) as (_ & Hf0).
      specialize (Hint _ (connectedFaces ed1) Hf0).
      rewrite Forall_forall in Hint. by apply Hint. }
    destruct b; [by injection Hb as <-|].
    destruct (f0 =? -1); [injection Hb as <-; split; [by right | done]|].
    destruct (f1 =? -1); injection Hb as <-; split; auto.
  - inv_bind H as f0 Hf0. inv_bind H as f1 Hf1. injection H as <-. simpl.
    split; [by apply (getUnexaminedFace_region _ _ _ HA0 Hf0)
           | by apply (getUnexaminedFace_region _ _ _ HA1 Hf1)].
Qed.

Lemma markSymmetricalVertices_step (i0 i1 : Z) (st st' : PolySymmetryData) :
  AV i0 -> AV i1 ->
  (freshV -> vget (examinedVertices st) i0 = Ok false /\
             vget (examinedVertices st) i1 = Ok false) ->
  markSymmetricalVertices i0 i1 st = Ok st' ->
  rtc (markStep AV AE AF freshV) st st'.
Proof. intros. apply rtc_once. left. by exists i0, i1. Qed.

Lemma markSymmetricalEdges_step (i0 i1 : Z) (st st' : PolySymmetryData) :
  AE i0 -> AE i1 -> markSymmetricalEdges i0 i1 st = Ok st' ->
  rtc (markStep AV AE AF freshV) st st'.
Proof. intros. apply rtc_once. right. left. by exists i0, i1. Qed.

Lemma markSymmetricalFaces_step (i0 i1 : Z) (st st' : PolySymmetryData) :
  AF i0 -> AF i1 ->
  vget (examinedFaces st) i0 = Ok false ->
  vget (examinedFaces st) i1 = Ok false ->
  markSymmetricalFaces i0 i1 st = Ok st' ->
  rtc (markStep AV AE AF freshV) st st'.
Proof. intros. apply rtc_once. right. right. by exists i0, i1. Qed.

Lemma faceVerticesBody_region (facePair : Z * Z) (x : Z) (q q' : list Z)
    (st st' : PolySymmetryData) :
  Forall AV (x :: q) -> closedVertexTable AV st ->
  faceVerticesBody meshData facePair x q st = Ok (q', st') ->
  Forall AV q' /\ rtc (markStep AV AE AF freshV) st st'.
Proof.
  unfold faceVerticesBody. intros [Hx Hq]%Forall_cons Hc H.
  inv_bind H as vertex1 Hv1. inv_bind H as n0 Hn0. inv_bind H as n1 Hn1.
  destruct (Z.eqb_spec n0 (-1)) as [->|Hne0]; simpl in H;
    [by injection H as <- <-|].
  destruct (Z.eqb_spec n1 (-1)) as [->|Hne1]; simpl in H;
    [by injection H as <- <-|].
  inv_bind H as st1 Hm. injection H as <- <-.
  destruct (getUnexaminedVertexSibling_region _ _ _ _ Hx Hn0) as [?|[HA0 Hx0]];
    [done|].
  destruct (getUnexaminedVertexSibling_region _ _ _ _ (Hc _ _ Hx Hv1) Hn1)
    as [?|[HA1 Hx1]]; [done|].
  split;
    [|exact (markSymmetricalVertices_step _ _ _ _ HA0 HA1
               (fun _ => conj Hx0 Hx1) Hm)].
  apply Forall_app. split; [done|]. by constructor.
Qed.

Lemma findSymmetricalVerticesOnFace_region (facePair : Z * Z)
    (st st' : PolySymmetryData) :
  AF (fst facePair) -> closedVertexTable AV st ->
  findSymmetricalVerticesOnFace meshData facePair st = Ok st' ->
  rtc (markStep AV AE AF freshV) st st'.
Proof.
  unfold findSymmetricalVerticesOnFace. intros HA Hc H.
  inv_bind H as fd Hfd. inv_bind H as q0 Hq0.
  assert (Hq : Forall AV q0).
  { destruct Hclosed as (_ & _ & _ & _ & HF).
    destruct (HF _ _ HA Hfd) as [Hvs _]. rewrite Forall_forall in Hvs.
    eapply (forEach_inv (Forall AV)); [| |exact Hq0]; [|constructor].
    intros v q q' Hv HP Hb. inv_bind Hb as b Hex.
    destruct b; injection Hb as <-; [|done].
    apply Forall_app. split; [done|]. constructor; [by apply Hvs | done]. }
  pose (P := fun (q : list Z) (s : PolySymmetryData) =>
      Forall AV q /\ rtc (markStep AV AE AF freshV) st s).
  assert (HP : P [] st'); [|by destruct HP].
  eapply (whileQueue_inv P); [| |exact H]; [|by split].
  intros x q s q' s' [HPq HPs] Hb.
  destruct (faceVerticesBody_region _ _ _ _ _ _ HPq
              (rtc_markStep_closedVertexTable _ _ HPs Hc) Hb) as [Hq' Hs'].
  split; [done|]. by etrans.
Qed.

Lemma faceEdgesBody_region (e : Z) (q q' : list (Z * Z))
    (st st' : PolySymmetryData) :
  AE e -> Forall (fun p => AE (fst p) /\ AE (snd p)) q ->
  closedVertexTable AV st ->
  faceEdgesBody intersection meshData e (q, st) = Ok (q', st') ->
  Forall (fun p => AE (fst p) /\ AE (snd p)) q' /\
  rtc (markStep AV AE AF freshV) st st'.
Proof.
  intros He Hq Hc
    [[-> ->]|(ed & c0 & c1 & vertex0 & vertex1 & vd0 & vd1 & edgeIndex & exi
              & _ & Hed & Hc0 & Hc1 & Hv0 & Hv1 & Hvd0 & Hvd1 & Hei & _
              & -> & Hm)]%faceEdgesBody_Ok; [done|].
  destruct Hclosed as (HintE & _ & HV & HE & _).
  destruct (HE _ _ He Hed) as [Hcv _]. rewrite Forall_forall in Hcv.
  assert (HA0 : AV vertex0).
  { eapply Hc; [|exact Hv0]. by eapply Hcv, vget_elem_of. }
  destruct (HV _ _ HA0 Hvd0) as (_ & Hce & _).
  specialize (HintE _ (connectedEdges vd1) Hce).
  rewrite Forall_forall in HintE.
  assert (HAe : AE edgeIndex) by (by eapply HintE, vget_elem_of).
  split; [|exact (markSymmetricalEdges_step _ _ _ _ He HAe Hm)].
  destruct exi; [done|]. apply Forall_app. split; [done|]. by constructor.
Qed.

Lemma findSymmetricalEdgesOnFace_region (faceIndex : Z) (q q' : list (Z * Z))
    (st st' : PolySymmetryData) :
  AF faceIndex -> Forall (fun p => AE (fst p) /\ AE (snd p)) q ->
  closedVertexTable AV st ->
  findSymmetricalEdgesOnFace intersection meshData q faceIndex st = Ok (q', st') ->
  Forall (fun p => AE (fst p) /\ AE (snd p)) q' /\
  rtc (markStep AV AE AF freshV) st st'.
Proof.
  unfold findSymmetricalEdgesOnFace. intros HA Hq Hc H. inv_bind H as fd Hfd.
  destruct Hclosed as (_ & _ & _ & _ & HF).
  destruct (HF _ _ HA Hfd) as [_ Hes]. rewrite Forall_forall in Hes.
  pose (P := fun s : list (Z * Z) * PolySymmetryData =>
      Forall (fun p => AE (fst p) /\ AE (snd p)) (fst s) /\
      rtc (markStep AV AE AF freshV) st (snd s)).
  change (P (q', st')).
  eapply (forEach_inv P); [| |exact H]; [|by split].
  intros e [q1 s1] [q2 s2] He [HPq HPs] Hb. simpl in *.
  destruct (faceEdgesBody_region _ _ _ _ _ (Hes _ He) HPq
              (rtc_markStep_closedVertexTable _ _ HPs Hc) Hb) as [Hq2 Hs2].
  split; [done|]. simpl. by etrans.
Qed.

Lemma findFirstSymmetricalVertices_region (selection : ComponentSelection)
    (st st' : PolySymmetryData) :
  seedIn AV AE AF selection ->
  (freshV -> seedFresh meshData selection st) ->
  vget (examinedFaces st) (fst (faceIndices selection)) = Ok false ->
  vget (examinedFaces st) (snd (faceIndices selection)) = Ok false ->
  closedVertexTable AV st ->
  findFirstSymmetricalVertices meshData selection st = Ok st' ->
  rtc (markStep AV AE AF freshV) st st'.
Proof.
  intros (Hv0 & Hv1 & He0 & He1 & Hf0 & Hf1) Hfresh Hx0 Hx1 Hc
    (st1 & st2 & ed0 & a0 & b0 & ex0 & ed1 & a1 & b1 & ex1 & st3 & Hst1 & Hst2
     & Hed0 & Ha0 & Hb0 & Hex0 & Hed1 & Ha1 & Hb1 & Hex1 & Hst3 & H)
    %findFirstSymmetricalVertices_Ok.
  destruct Hclosed as (_ & _ & _ & HE & _).
  destruct (HE _ _ He0 Hed0) as [Hcv0 _]. rewrite Forall_forall in Hcv0.
  destruct (HE _ _ He1 Hed1) as [Hcv1 _]. rewrite Forall_forall in Hcv1.
  assert (R1 : rtc (markStep AV AE AF freshV) st st1).
  { apply (markSymmetricalVertices_step _ _ _ _ Hv0 Hv1); [|done].
    intros Hf. destruct (Hfresh Hf)
      as (w0 & w1 & _ & _ & _ & _ & _ & _ & Hu0 & Hu1 & _). done. }
  pose proof Hst1 as Hst1'.
  apply markSymmetricalVertices_Ok in Hst1' as (idx1 & exv1 & Hm1 & ->).
  assert (R2 : rtc (markStep AV AE AF freshV) (withVertices st idx1 exv1) st2)
    by (by apply (markSymmetricalFaces_step _ _ _ _ Hf0 Hf1)).
  apply markSymmetricalFaces_Ok in Hst2 as (idx2 & exf2 & Hm2 & ->).
  simpl in *.
  assert (HA0 : AV (if ex0 then b0 else a0))
    by (destruct ex0; by eapply Hcv0, vget_elem_of).
  assert (HA1 : AV (if ex1 then b1 else a1))
    by (destruct ex1; by eapply Hcv1, vget_elem_of).
  assert (R3 : rtc (markStep AV AE AF freshV)
                 (withFaces (withVertices st idx1 exv1) idx2 exf2) st3).
  { apply (markSymmetricalVertices_step _ _ _ _ HA0 HA1); [|done].
    intros Hf. simpl.
    destruct (Hfresh Hf)
      as (w0 & w1 & Ho0 & Ho1 & Hn00 & Hn01 & Hn10 & Hn11 & Hu0 & Hu1 & Hw0 & Hw1).
    apply markPair_spec in Hm1
      as (_ & _ & _ & _ & _ & _ & _ & _ & Hex0' & Hex1' & Hother).
    assert (Hw0' : vget exv1 w0 = Ok false)
      by (by destruct (Hother w0 Hn00 Hn01) as [_ ->]).
    assert (Hw1' : vget exv1 w1 = Ok false)
      by (by destruct (Hother w1 Hn10 Hn11) as [_ ->]).
    rewrite (otherEndpoint_next meshData exv1 _ _ _ _ _ _ _
               Ho0 Hed0 Ha0 Hb0 Hex0 Hex0' Hw0').
    rewrite (otherEndpoint_next meshData exv1 _ _ _ _ _ _ _
               Ho1 Hed1 Ha1 Hb1 Hex1 Hex1' Hw1').
    done. }
  assert (R123 : rtc (markStep AV AE AF freshV) st st3)
    by (do 2 (etrans; [|done]); done).
  etrans; [exact R123|].
  eapply findSymmetricalVerticesOnFace_region; [exact Hf0| |exact H].
  by eapply rtc_markStep_closedVertexTable.
Qed.

Lemma worklistBody_region (edgePair : Z * Z) (q q' : list (Z * Z))
    (st st' : PolySymmetryData) :
  Forall (fun p => AE (fst p) /\ AE (snd p)) (edgePair :: q) ->
  closedVertexTable AV st ->
  worklistBody intersection meshData edgePair q st = Ok (q', st') ->
  Forall (fun p => AE (fst p) /\ AE (snd p)) q' /\
  rtc (markStep AV AE AF freshV) st st'.
Proof.
  intros [[He0 He1] Hq]%Forall_cons Hc
    (st1 & faces & Hst1 & Hfaces & Hcase)%worklistBody_Ok.
  pose proof (markSymmetricalEdges_step _ _ _ _ He0 He1 Hst1) as R1.
  destruct Hcase as [(_ & -> & ->)|(Hn0 & Hn1 & st2 & st3 & Hst2 & Hst3 & H)];
    [done|].
  destruct (getUnexaminedFaces_region _ _ _ He0 He1 Hfaces)
    as [[?|[Hf0 Hx0]] [?|[Hf1 Hx1]]]; try done.
  pose proof (markSymmetricalFaces_step _ _ _ _ Hf0 Hf1 Hx0 Hx1 Hst2) as R2.
  assert (R12 : rtc (markStep AV AE AF freshV) st st2) by (by etrans).
  pose proof (findSymmetricalVerticesOnFace_region _ _ _ Hf0
                (rtc_markStep_closedVertexTable _ _ R12 Hc) Hst3) as R3.
  assert (R123 : rtc (markStep AV AE AF freshV) st st3) by (by etrans).
  destruct (findSymmetricalEdgesOnFace_region _ _ _ _ _ Hf0 Hq
              (rtc_markStep_closedVertexTable _ _ R123 Hc) H) as [Hq' R4].
  split; [done | by etrans].
Qed.

(** Every successful run of the engine is a sequence of writes within the
    region of its seed. *)
Lemma findSymmetricalVertices_region (fuel : nat) (selection : ComponentSelection)
    (st st' : PolySymmetryData) :
  seedIn AV AE AF selection ->
  (freshV -> seedFresh meshData selection st) ->
  vget (examinedFaces st) (fst (faceIndices selection)) = Ok false ->
  vget (examinedFaces st) (snd (faceIndices selection)) = Ok false ->
  closedVertexTable AV st ->
  findSymmetricalVertices intersection meshData fuel selection st = Ok st' ->
  exists st0,
    (st0 = st \/
     st0 = withLeftSideVertexIndices st
             (leftSideVertexIndices st ++ [leftVertexIndex selection])) /\
    rtc (markStep AV AE AF freshV) st0 st'.
Proof.
  unfold findSymmetricalVertices. intros Hseed Hfresh Hx0 Hx1 Hc H.
  set (st0 := if leftVertexIndex selection =? -1 then st else _) in H.
  inv_bind H as st1 Hst1. exists st0. split.
  { subst st0. destruct (_ =? _); auto. }
  assert (R1 : rtc (markStep AV AE AF freshV) st0 st1).
  { eapply findFirstSymmetricalVertices_region; [done| | | | |exact Hst1];
      subst st0; by destruct (_ =? _). }
  pose (P := fun (q : list (Z * Z)) (s : PolySymmetryData) =>
      Forall (fun p => AE (fst p) /\ AE (snd p)) q /\
      rtc (markStep AV AE AF freshV) st0 s).
  assert (HP : P [] st'); [|by destruct HP].
  eapply (whileQueue_inv P); [| |exact H].
  - intros x q s q' s' [HPq HPs] Hb.
    assert (Hc0 : closedVertexTable AV st0)
      by (subst st0; by destruct (_ =? _)).
    destruct (worklistBody_region _ _ _ _ _ HPq
                (rtc_markStep_closedVertexTable _ _ HPs Hc0) Hb) as [Hq' Hs'].
    split; [done | by etrans].
  - split; [|done]. constructor; [|constructor].
    destruct Hseed as (_ & _ & He0 & He1 & _). done.
Qed.

End Region.

(** *** The invariant of the symmetry table *)

Lemma markPair_partnersExamined (idx idx' : list Z) (ex ex' : list bool)
    (i0 i1 : Z) :
  markPair idx ex i0 i1 = Ok (idx', ex') ->
  partnersExamined idx ex -> partnersExamined idx' ex'.
Proof.
  intros (Hr0 & Hr1 & _ & _ & _ & _ & Hi1 & Hi0 & He0 & He1 & Hother)%markPair_spec
    [Hpart Hex].
  assert (Hex' : forall j, vget ex j = Ok true -> vget ex' j = Ok true).
  { intros j Hj. destruct (decide (j = i0)) as [->|Hn0]; [done|].
    destruct (decide (j = i1)) as [->|Hn1]; [done|].
    by destruct (Hother j Hn0 Hn1) as [_ ->]. }
  split.
  - intros a b Ha Hb.
    destruct (decide (a = i1)) as [->|Hn1]; [split; congruence|].
    destruct (decide (a = i0)) as [->|Hn0].
    { rewrite Hi0 in Ha by done. split; congruence. }
    destruct (Hother a Hn0 Hn1) as [Heq _]. rewrite Heq in Ha.
    destruct (Hpart a b Ha Hb). auto.
  - intros a Ha.
    destruct (decide (a = i1)) as [->|Hn1]; [exists i0; split; [done | lia]|].
    destruct (decide (a = i0)) as [->|Hn0].
    { exists i1. split; [by apply Hi0 | lia]. }
    destruct (Hother a Hn0 Hn1) as [Hidx Hexa]. rewrite Hidx.
    apply Hex. by rewrite <- Hexa.
Qed.

Lemma markPair_involutive (idx idx' : list Z) (ex ex' : list bool) (i0 i1 : Z) :
  markPair idx ex i0 i1 = Ok (idx', ex') ->
  vget ex i0 = Ok false -> vget ex i1 = Ok false ->
  partnersExamined idx ex -> involutive idx -> involutive idx'.
Proof.
  intros (_ & _ & _ & _ & _ & _ & Hi1 & Hi0 & _ & _ & Hother)%markPair_spec
    Hx0 Hx1 [Hpart _] Hinv a b Ha Hb.
  destruct (decide (a = i1)) as [->|Hn1].
  { assert (b = i0) as -> by congruence.
    destruct (decide (i0 = i1)) as [->|Hne]; [done | by apply Hi0]. }
  destruct (decide (a = i0)) as [->|Hn0].
  { rewrite Hi0 in Ha by done. congruence. }
  destruct (Hother a Hn0 Hn1) as [Heq _]. rewrite Heq in Ha.
  destruct (Hpart a b Ha Hb) as [_ Hbx].
  assert (b <> i0) by congruence. assert (b <> i1) by congruence.
  destruct (Hother b) as [-> _]; [done..|]. by apply Hinv.
Qed.

Lemma markStep_tableInvariant (AV AE AF : Z -> Prop) (freshV : Prop)
    (st st' : PolySymmetryData) :
  markStep AV AE AF freshV st st' -> tableInvariant freshV st -> tableInvariant freshV st'.
Proof.
  intros [(i0 & i1 & _ & _ & Hg & Hm)|[(i0 & i1 & _ & _ & Hm)|
          (i0 & i1 & _ & _ & Hx0 & Hx1 & Hm)]] (HIV & HV & HE & HF & HI).
  - apply markSymmetricalVertices_Ok in Hm as (idx & ex & Hm & ->).
    split; [|split; [|done]]; simpl.
    + intros Hfresh. destruct (Hg Hfresh) as [Hx0 Hx1].
      eapply markPair_involutive; [exact Hm | done | done | done | by apply HIV].
    + by eapply markPair_partnersExamined.
  - apply markSymmetricalEdges_Ok in Hm as (idx & ex & Hm & ->).
    split; [done|]. split; [done|]. split; [|done].
    by eapply markPair_partnersExamined.
  - apply markSymmetricalFaces_Ok in Hm as (idx & ex & Hm & ->).
    split; [done|]. split; [done|]. split; [done|]. split; simpl.
    + by eapply markPair_partnersExamined.
    + by eapply markPair_involutive.
Qed.

Lemma rtc_markStep_tableInvariant (AV AE AF : Z -> Prop) (freshV : Prop)
    (st st' : PolySymmetryData) :
  rtc (markStep AV AE AF freshV) st st' -> tableInvariant freshV st -> tableInvariant freshV st'.
Proof.
  induction 1 as [|st st1 st' Hstep _ IH]; [done|].
  intros Hc. by eapply IH, markStep_tableInvariant.
Qed.

Lemma partnersExamined_replicate (n : nat) :
  partnersExamined (replicate n (-1)) (replicate n false).
Proof.
  split.
  - intros a b ->%vget_replicate Hb. done.
  - intros a Ha%vget_replicate. done.
Qed.

Lemma reset_tableInvariant (freshV : Prop) (meshData : MeshData) :
  tableInvariant freshV (reset meshData).
Proof.
  unfold tableInvariant, reset. simpl.
  split; [by intros _ a b Ha%vget_replicate Hb|].
  repeat (split; [apply partnersExamined_replicate|]).
  intros a b Ha%vget_replicate Hb. done.
Qed.

Lemma closedShell_all (intersection : list Z -> list Z -> list Z)
    (meshData : MeshData) :
  closedShell intersection meshData (fun _ => True) (fun _ => True) (fun _ => True).
Proof.
  unfold closedShell.
  repeat split; intros; by apply Forall_forall.
Qed.

(** The seed faces are faces of the mesh in every successful run. *)
Lemma findSymmetricalVertices_seed_faces (intersection : list Z -> list Z -> list Z)
    (meshData : MeshData) (fuel : nat) (selection : ComponentSelection)
    (st st' : PolySymmetryData) :
  findSymmetricalVertices intersection meshData fuel selection st = Ok st' ->
  0 <= fst (faceIndices selection) < Z.of_nat (length (examinedFaces st)) /\
  0 <= snd (faceIndices selection) < Z.of_nat (length (examinedFaces st)).
Proof.
  unfold findSymmetricalVertices. intros H. inv_bind H as st1 Hst1.
  apply findFirstSymmetricalVertices_Ok in Hst1
    as (s1 & s2 & _ & _ & _ & _ & _ & _ & _ & _ & _ & Hs1 & Hs2 & _).
  apply markSymmetricalVertices_Ok in Hs1 as (? & ? & _ & ->).
  apply markSymmetricalFaces_Ok in Hs2 as (? & ? & Hm & _).
  apply markPair_spec in Hm as (_ & _ & H0 & H1 & _). simpl in *.
  by destruct (_ =? _).
Qed.

Lemma findSymmetricalVertices_tableInvariant
    (intersection : list Z -> list Z -> list Z) (meshData : MeshData)
    (fuel : nat) (selection : ComponentSelection) (st' : PolySymmetryData) :
  findSymmetricalVertices intersection meshData fuel selection (reset meshData)
  = Ok st' ->
  tableInvariant (seedFresh meshData selection (reset meshData)) st'.
Proof.
  intros H.
  destruct (findSymmetricalVertices_seed_faces _ _ _ _ _ _ H) as [Hf0 Hf1].
  simpl in Hf0, Hf1. rewrite length_replicate in Hf0, Hf1.
  assert (Hseed : seedIn (fun _ => True) (fun _ => True) (fun _ => True) selection)
    by (by repeat split).
  assert (Hc : closedVertexTable (fun _ => True) (reset meshData))
    by (by intros v p _ _).
  destruct (findSymmetricalVertices_region intersection meshData _ _ _
              (seedFresh meshData selection (reset meshData))
              (closedShell_all _ _) fuel selection (reset meshData) st' Hseed
              (fun Hfresh => Hfresh)
              (vget_replicate_in_range _ false _ Hf0)
              (vget_replicate_in_range _ false _ Hf1) Hc H)
    as (st0 & Hst0 & Hrtc).
  eapply rtc_markStep_tableInvariant; [exact Hrtc|].
  destruct Hst0 as [->| ->]; apply reset_tableInvariant.
Qed.

(** ** Termination of the propagation engine *)

Lemma unexamined_cons (b : bool) (ex : list bool) :
  unexamined (b :: ex) = ((if b then 0 else 1) + unexamined ex)%nat.
Proof.
  unfold unexamined. rewrite filter_cons. destruct b; case_decide; done.
Qed.
Lemma unexamined_insert_le (ex : list bool) (n : nat) :
  (unexamined (<[n := true]> ex) <= unexamined ex)%nat.
Proof.
  revert n. induction ex as [|b ex IH]; intros n; [done|].
  destruct n as [|n]; simpl; rewrite !unexamined_cons.
  - destruct b; lia.
  - specialize (IH n). lia.
Qed.

Lemma unexamined_insert_lt (ex : list bool) (n : nat) :
  ex !! n = Some false ->
  (unexamined (<[n := true]> ex) < unexamined ex)%nat.
Proof.
  revert n. induction ex as [|b ex IH]; intros n Hn; [done|].
  destruct n as [|n]; simpl in *; rewrite !unexamined_cons.
  - injection Hn as ->. lia.
  - specialize (IH n Hn). lia.
Qed.

Lemma unexamined_replicate (n : nat) : unexamined (replicate n false) = n.
Proof.
  induction n as [|n IH]; [done|]. simpl. rewrite unexamined_cons. lia.
Qed.

Lemma markPair_examined (idx idx' : list Z) (ex ex' : list bool) (i0 i1 : Z) :
  markPair idx ex i0 i1 = Ok (idx', ex') ->
  ex' = <[Z.to_nat i1 := true]> (<[Z.to_nat i0 := true]> ex).
Proof.
  unfold markPair. intros H.
  inv_bind H as idx1 Hidx1. inv_bind H as idx2 Hidx2.
  inv_bind H as ex1 Hex1. inv_bind H as ex2 Hex2. injection H as <- <-.
  apply vset_Ok in Hex1 as [_ ->]. by apply vset_Ok in Hex2 as [_ ->].
Qed.

Lemma markPair_unexamined_le (idx idx' : list Z) (ex ex' : list bool) (i0 i1 : Z) :
  markPair idx ex i0 i1 = Ok (idx', ex') ->
  (unexamined ex' <= unexamined ex)%nat.
Proof.
  intros ->%markPair_examined.
  etrans; [apply unexamined_insert_le|]. apply unexamined_insert_le.
Qed.

Lemma markPair_unexamined_lt (idx idx' : list Z) (ex ex' : list bool) (i0 i1 : Z) :
  markPair idx ex i0 i1 = Ok (idx', ex') ->
  vget ex i0 = Ok false \/ vget ex i1 = Ok false ->
  (unexamined ex' < unexamined ex)%nat.
Proof.
  intros Hm Hcase. pose proof (markPair_spec _ _ _ _ _ _ Hm) as (_ & _ & Hr0 & _).
  apply markPair_examined in Hm as ->.
  assert (Hcase' : vget ex i0 = Ok false \/
                   (vget ex i0 = Ok true /\ vget ex i1 = Ok false)).
  { destruct Hcase as [?|H1]; [by left|].
    destruct (vget_in_range ex i0 Hr0) as [[] Hb]; auto. }
  destruct Hcase' as [[_ H0]%vget_Ok|[H0 [Hr1 H1]%vget_Ok]].
  - eapply Nat.le_lt_trans; [apply unexamined_insert_le|].
    by apply unexamined_insert_lt.
  - eapply Nat.lt_le_trans; [|apply unexamined_insert_le].
    apply unexamined_insert_lt.
    rewrite list_lookup_insert_ne; [done|].
    intros Heq. apply vget_Ok in H0 as [? H0]. congruence.
Qed.

#[global] Hint Resolve markPair_not_OutOfFuel firstUnexamined_not_OutOfFuel : nofuel.

Lemma markSymmetricalVertices_not_OutOfFuel (i0 i1 : Z) (st : PolySymmetryData) :
  markSymmetricalVertices i0 i1 st <> OutOfFuel.
Proof. rewrite markSymmetricalVertices_markPair. no_fuel. Qed.

Lemma markSymmetricalEdges_not_OutOfFuel (i0 i1 : Z) (st : PolySymmetryData) :
  markSymmetricalEdges i0 i1 st <> OutOfFuel.
Proof. rewrite markSymmetricalEdges_markPair. no_fuel. Qed.

Lemma markSymmetricalFaces_not_OutOfFuel (i0 i1 : Z) (st : PolySymmetryData) :
  markSymmetricalFaces i0 i1 st <> OutOfFuel.
Proof. rewrite markSymmetricalFaces_markPair. no_fuel. Qed.

#[global] Hint Resolve markSymmetricalVertices_not_OutOfFuel
  markSymmetricalEdges_not_OutOfFuel markSymmetricalFaces_not_OutOfFuel : nofuel.

Section Termination.
Variable intersection : list Z -> list Z -> list Z.
Variable meshData : MeshData.

Lemma getUnexaminedVertexSibling_not_OutOfFuel (v f : Z) (st : PolySymmetryData) :
  getUnexaminedVertexSibling meshData v f st <> OutOfFuel.
Proof. unfold getUnexaminedVertexSibling. no_fuel. Qed.

Lemma getUnexaminedFace_not_OutOfFuel (e : Z) (st : PolySymmetryData) :
  getUnexaminedFace meshData e st <> OutOfFuel.
Proof. unfold getUnexaminedFace. no_fuel. Qed.

Hint Resolve getUnexaminedVertexSibling_not_OutOfFuel
  getUnexaminedFace_not_OutOfFuel : nofuel.

Lemma getUnexaminedFaces_not_OutOfFuel (edgePair : Z * Z) (st : PolySymmetryData) :
  getUnexaminedFaces intersection meshData edgePair st <> OutOfFuel.
Proof. unfold getUnexaminedFaces, sharedFacesBody. no_fuel. Qed.

Lemma getUnexaminedVertexSibling_unexamined (vertexIndex faceIndex v : Z)
    (st : PolySymmetryData) :
  getUnexaminedVertexSibling meshData vertexIndex faceIndex st = Ok v ->
  v = -1 \/ vget (examinedVertices st) v = Ok false.
Proof.
  unfold getUnexaminedVertexSibling. intros H. inv_bind H as vd Hvd.
  apply firstUnexamined_spec in H as [->|[_ Hex]]; auto.
Qed.

(** The measure of the loop of [findSymmetricalVerticesOnFace]. *)
Lemma faceVerticesBody_measure (facePair : Z * Z) (x : Z) (q q' : list Z)
    (st st' : PolySymmetryData) :
  faceVerticesBody meshData facePair x q st = Ok (q', st') ->
  (length q' + unexamined (examinedVertices st')
   < length (x :: q) + unexamined (examinedVertices st))%nat.
Proof.
  intros [[-> ->]|(vertex1 & n0 & n1 & _ & Hn0 & _ & Hne0 & _ & Hm & ->)]
    %faceVerticesBody_Ok; simpl; [lia|].
  apply getUnexaminedVertexSibling_unexamined in Hn0 as [?|Hn0]; [done|].
  apply markSymmetricalVertices_Ok in Hm as (idx & ex & Hm & ->). simpl.
  pose proof (markPair_unexamined_lt _ _ _ _ _ _ Hm (or_introl Hn0)).
  rewrite length_app. simpl. lia.
Qed.

Lemma faceVerticesBody_not_OutOfFuel (facePair : Z * Z) (x : Z) (q : list Z)
    (st : PolySymmetryData) :
  faceVerticesBody meshData facePair x q st <> OutOfFuel.
Proof. unfold faceVerticesBody. no_fuel. Qed.

(** The fuel that [findSymmetricalVerticesOnFace] gives to its loop is
    enough. *)
Lemma findSymmetricalVerticesOnFace_fuel (facePair : Z * Z) (st : PolySymmetryData) :
  findSymmetricalVerticesOnFace meshData facePair st <> OutOfFuel.
Proof.
  unfold findSymmetricalVerticesOnFace. no_fuel.
  apply (whileQueue_terminates (fun _ _ => True)
           (fun q s => (length q + unexamined (examinedVertices s))%nat));
    [| | |done|done].
  - intros x q s. simpl. lia.
  - intros x q s _. apply faceVerticesBody_not_OutOfFuel.
  - intros x q s q' s' _ Hb. split; [done|]. by eapply faceVerticesBody_measure.
Qed.

Hint Resolve findSymmetricalVerticesOnFace_fuel getUnexaminedFaces_not_OutOfFuel
  : nofuel.

Lemma faceEdgesBody_not_OutOfFuel (e : Z) (s : list (Z * Z) * PolySymmetryData) :
  faceEdgesBody intersection meshData e s <> OutOfFuel.
Proof. unfold faceEdgesBody. destruct s. no_fuel. Qed.

Hint Resolve faceEdgesBody_not_OutOfFuel : nofuel.

Lemma findSymmetricalEdgesOnFace_not_OutOfFuel (q : list (Z * Z)) (f : Z)
    (st : PolySymmetryData) :
  findSymmetricalEdgesOnFace intersection meshData q f st <> OutOfFuel.
Proof. unfold findSymmetricalEdgesOnFace. no_fuel. Qed.

Hint Resolve findSymmetricalEdgesOnFace_not_OutOfFuel : nofuel.

Lemma worklistBody_not_OutOfFuel (edgePair : Z * Z) (q : list (Z * Z))
    (st : PolySymmetryData) :
  worklistBody intersection meshData edgePair q st <> OutOfFuel.
Proof. unfold worklistBody. no_fuel. Qed.

Lemma findFirstSymmetricalVertices_not_OutOfFuel (selection : ComponentSelection)
    (st : PolySymmetryData) :
  findFirstSymmetricalVertices meshData selection st <> OutOfFuel.
Proof. unfold findFirstSymmetricalVertices. no_fuel. Qed.

(** Marking vertices or faces leaves the edge flags alone. *)
Lemma findSymmetricalVerticesOnFace_examinedEdges (facePair : Z * Z)
    (st st' : PolySymmetryData) :
  findSymmetricalVerticesOnFace meshData facePair st = Ok st' ->
  examinedEdges st' = examinedEdges st.
Proof.
  unfold findSymmetricalVerticesOnFace. intros H.
  inv_bind H as fd Hfd. inv_bind H as q0 Hq0.
  eapply (whileQueue_inv (fun _ s => examinedEdges s = examinedEdges st));
    [| |exact H]; [|done].
  intros x q s q' s' HP
    [[-> ->]|(vertex1 & n0 & n1 & _ & _ & _ & _ & _ & Hm & ->)]
    %faceVerticesBody_Ok; [done|].
  by apply markSymmetricalVertices_Ok in Hm as (idx & ex & _ & ->).
Qed.

Lemma findFirstSymmetricalVertices_examinedEdges (selection : ComponentSelection)
    (st st' : PolySymmetryData) :
  findFirstSymmetricalVertices meshData selection st = Ok st' ->
  examinedEdges st' = examinedEdges st.
Proof.
  intros (st1 & st2 & ed0 & a0 & b0 & ex0 & ed1 & a1 & b1 & ex1 & st3 & Hst1
          & Hst2 & _ & _ & _ & _ & _ & _ & _ & _ & Hst3 & H)
    %findFirstSymmetricalVertices_Ok.
  apply findSymmetricalVerticesOnFace_examinedEdges in H. rewrite H.
  apply markSymmetricalVertices_Ok in Hst1 as (? & ? & _ & ->).
  apply markSymmetricalFaces_Ok in Hst2 as (? & ? & _ & ->).
  by apply markSymmetricalVertices_Ok in Hst3 as (? & ? & _ & ->).
Qed.

(** Face edge completion pushes a pair only when it marks an edge that was
    not examined. *)
Lemma faceEdgesBody_measure (e : Z) (q q' : list (Z * Z))
    (st st' : PolySymmetryData) :
  faceEdgesBody intersection meshData e (q, st) = Ok (q', st') ->
  (length q' + unexamined (examinedEdges st')
   <= length q + unexamined (examinedEdges st))%nat.
Proof.
  intros [[-> ->]|(ed & c0 & c1 & vertex0 & vertex1 & vd0 & vd1 & edgeIndex & exi
                   & _ & _ & _ & _ & _ & _ & _ & _ & _ & Hexi & -> & Hm)]
    %faceEdgesBody_Ok; [done|].
  apply markSymmetricalEdges_Ok in Hm as (idx & ex & Hm & ->). simpl.
  destruct exi.
  - pose proof (markPair_unexamined_le _ _ _ _ _ _ Hm). lia.
  - pose proof (markPair_unexamined_lt _ _ _ _ _ _ Hm (or_intror Hexi)).
    rewrite length_app. simpl. lia.
Qed.

Lemma findSymmetricalEdgesOnFace_measure (faceIndex : Z) (q q' : list (Z * Z))
    (st st' : PolySymmetryData) :
  findSymmetricalEdgesOnFace intersection meshData q faceIndex st = Ok (q', st') ->
  (length q' + unexamined (examinedEdges st')
   <= length q + unexamined (examinedEdges st))%nat.
Proof.
  unfold findSymmetricalEdgesOnFace. intros H. inv_bind H as fd Hfd.
  pose (P := fun s : list (Z * Z) * PolySymmetryData =>
      (length (fst s) + unexamined (examinedEdges (snd s))
       <= length q + unexamined (examinedEdges st))%nat).
  change (P (q', st')).
  eapply (forEach_inv P); [| |exact H]; [|unfold P; simpl; lia].
  intros e [q1 s1] [q2 s2] _ HP Hb. unfold P in *. simpl in *.
  apply faceEdgesBody_measure in Hb. lia.
Qed.

(** The measure of the worklist loop: the length of the queue plus the
    number of unexamined edges. *)
Lemma worklistBody_measure (edgePair : Z * Z) (q q' : list (Z * Z))
    (st st' : PolySymmetryData) :
  worklistBody intersection meshData edgePair q st = Ok (q', st') ->
  (length q' + unexamined (examinedEdges st')
   < length (edgePair :: q) + unexamined (examinedEdges st))%nat.
Proof.
  intros (st1 & faces & Hst1 & _ & Hcase)%worklistBody_Ok.
  apply markSymmetricalEdges_Ok in Hst1 as (idx & ex & Hm & ->).
  apply markPair_unexamined_le in Hm.
  destruct Hcase as [(_ & -> & ->)|(_ & _ & st2 & st3 & Hst2 & Hst3 & H)];
    simpl in *; [lia|].
  apply markSymmetricalFaces_Ok in Hst2 as (? & ? & _ & ->).
  apply findSymmetricalVerticesOnFace_examinedEdges in Hst3.
  apply findSymmetricalEdgesOnFace_measure in H.
  rewrite Hst3 in H. simpl in H. lia.
Qed.

Lemma worklist_fuel (fuel : nat) (q : list (Z * Z)) (st : PolySymmetryData) :
  (length q + unexamined (examinedEdges st) <= fuel)%nat ->
  whileQueue (worklistBody intersection meshData) fuel q st <> OutOfFuel.
Proof.
  apply (whileQueue_terminates (fun _ _ => True)
           (fun q s => (length q + unexamined (examinedEdges s))%nat));
    [| | |done].
  - intros x q0 s. simpl. lia.
  - intros x q0 s _. apply worklistBody_not_OutOfFuel.
  - intros x q0 s q' s' _ Hb. split; [done|]. by eapply worklistBody_measure.
Qed.

Lemma findSymmetricalVertices_fuel (fuel : nat) (selection : ComponentSelection)
    (st : PolySymmetryData) :
  (unexamined (examinedEdges st) < fuel)%nat ->
  findSymmetricalVertices intersection meshData fuel selection st <> OutOfFuel.
Proof.
  unfold findSymmetricalVertices. intros Hfuel.
  set (st0 := if leftVertexIndex selection =? -1 then st else _).
  assert (Hst0 : examinedEdges st0 = examinedEdges st)
    by (subst st0; by destruct (_ =? _)).
  apply bind_not_OutOfFuel;
    [apply findFirstSymmetricalVertices_not_OutOfFuel|].
  intros st1 Hst1. apply worklist_fuel.
  apply findFirstSymmetricalVertices_examinedEdges in Hst1.
  rewrite Hst1, Hst0. simpl. lia.
Qed.

Lemma findSymmetricalVertices_fuel_stable (fuel fuel' : nat)
    (selection : ComponentSelection) (st : PolySymmetryData) :
  findSymmetricalVertices intersection meshData fuel selection st <> OutOfFuel ->
  (fuel <= fuel')%nat ->
  findSymmetricalVertices intersection meshData fuel' selection st
  = findSymmetricalVertices intersection meshData fuel selection st.
Proof.
  unfold findSymmetricalVertices. intros H Hle.
  destruct (findFirstSymmetricalVertices meshData selection _) as [st1| |];
    simpl in *; [|done..].
  by apply whileQueue_fuel_stable.
Qed.

(** What an iteration of the worklist pushes. *)
Lemma edgesMonotone_refl (st : PolySymmetryData) : edgesMonotone st st.
Proof. by split. Qed.

Lemma edgesMonotone_trans (st1 st2 st3 : PolySymmetryData) :
  edgesMonotone st1 st2 -> edgesMonotone st2 st3 -> edgesMonotone st1 st3.
Proof. intros [H1 H2] [H3 H4]. split; auto. Qed.

Lemma edgesMonotone_eq (st st' : PolySymmetryData) :
  examinedEdges st' = examinedEdges st -> edgesMonotone st st'.
Proof. intros H. unfold edgesMonotone. rewrite H. by split. Qed.

Lemma markSymmetricalEdges_monotone (i0 i1 : Z) (st st' : PolySymmetryData) :
  markSymmetricalEdges i0 i1 st = Ok st' ->
  edgesMonotone st st' /\
  vget (examinedEdges st') i0 = Ok true /\
  vget (examinedEdges st') i1 = Ok true.
Proof.
  intros (idx & ex & Hm & ->)%markSymmetricalEdges_Ok. simpl.
  apply markPair_spec in Hm
    as (_ & _ & _ & _ & _ & _ & _ & _ & Hx0 & Hx1 & Hother).
  split; [|done]. split; simpl; intros c Hc.
  - destruct (decide (c = i0)) as [->|Hn0]; [done|].
    destruct (decide (c = i1)) as [->|Hn1]; [done|].
    by destruct (Hother c Hn0 Hn1) as [_ ->].
  - assert (Hn0 : c <> i0) by congruence.
    assert (Hn1 : c <> i1) by congruence.
    by destruct (Hother c Hn0 Hn1) as [_ <-].
Qed.

Lemma freshlyMarked_extend (st0 st1 st2 : PolySymmetryData) (p : Z * Z) :
  edgesMonotone st0 st1 -> edgesMonotone st1 st2 ->
  freshlyMarked st0 st1 p \/ freshlyMarked st1 st2 p ->
  freshlyMarked st0 st2 p.
Proof.
  intros [M1 M2] [M3 M4] [(H1 & H2 & H3 & H4)|(H1 & H2 & H3 & H4)];
    repeat split; auto.
Qed.

Lemma faceEdgesBody_pushes (e : Z) (q q' : list (Z * Z))
    (st st' : PolySymmetryData) :
  faceEdgesBody intersection meshData e (q, st) = Ok (q', st') ->
  edgesMonotone st st' /\
  exists pushed, q' = q ++ pushed /\ Forall (freshlyMarked st st') pushed.
Proof.
  intros [[-> ->]|(ed & c0 & c1 & vertex0 & vertex1 & vd0 & vd1 & edgeIndex & exi
                   & Hex & _ & _ & _ & _ & _ & _ & _ & _ & Hexi & -> & Hm)]
    %faceEdgesBody_Ok.
  { split; [apply edgesMonotone_refl|]. exists []. by rewrite app_nil_r. }
  apply markSymmetricalEdges_monotone in Hm as (Hmono & Hx0 & Hx1).
  split; [done|]. destruct exi.
  - exists []. by rewrite app_nil_r.
  - exists [(e, edgeIndex)]. split; [done|]. by repeat constructor.
Qed.

Lemma findSymmetricalEdgesOnFace_pushes (faceIndex : Z) (q q' : list (Z * Z))
    (st st' : PolySymmetryData) :
  findSymmetricalEdgesOnFace intersection meshData q faceIndex st = Ok (q', st') ->
  edgesMonotone st st' /\
  exists pushed, q' = q ++ pushed /\ Forall (freshlyMarked st st') pushed.
Proof.
  unfold findSymmetricalEdgesOnFace. intros H. inv_bind H as fd Hfd.
  pose (P := fun s : list (Z * Z) * PolySymmetryData =>
      edgesMonotone st (snd s) /\
      exists pushed, fst s = q ++ pushed /\
                     Forall (freshlyMarked st (snd s)) pushed).
  change (P (q', st')).
  eapply (forEach_inv P); [| |exact H].
  - intros e [q1 s1] [q2 s2] _ (Hmono & pushed & Hq1 & Hall) Hb.
    simpl in *. subst q1.
    apply faceEdgesBody_pushes in Hb as (Hmono' & pushed' & -> & Hall').
    split; [by eapply edgesMonotone_trans|]. simpl.
    exists (pushed ++ pushed'). split; [by rewrite app_assoc|].
    apply Forall_app. split.
    + eapply Forall_impl; [exact Hall|]. intros p Hp.
      eapply freshlyMarked_extend; eauto.
    + eapply Forall_impl; [exact Hall'|]. intros p Hp.
      eapply freshlyMarked_extend; eauto.
  - split; [apply edgesMonotone_refl|]. exists []. by rewrite app_nil_r.
Qed.

Lemma worklistBody_pushes (edgePair : Z * Z) (q q' : list (Z * Z))
    (st st' : PolySymmetryData) :
  worklistBody intersection meshData edgePair q st = Ok (q', st') ->
  exists pushed, q' = q ++ pushed /\ Forall (freshlyMarked st st') pushed.
Proof.
  intros (st1 & faces & Hst1 & _ & Hcase)%worklistBody_Ok.
  destruct Hcase as [(_ & -> & ->)|(_ & _ & st2 & st3 & Hst2 & Hst3 & H)].
  { exists []. by rewrite app_nil_r. }
  apply markSymmetricalEdges_monotone in Hst1 as (M1 & _).
  apply markSymmetricalFaces_Ok in Hst2 as (? & ? & _ & ->).
  apply findSymmetricalVerticesOnFace_examinedEdges in Hst3.
  apply findSymmetricalEdgesOnFace_pushes in H as (M3 & pushed & -> & Hall).
  assert (M13 : edgesMonotone st st3).
  { eapply edgesMonotone_trans; [exact M1|]. by apply edgesMonotone_eq. }
  exists pushed. split; [done|].
  eapply Forall_impl; [exact Hall|]. intros p Hp.
  eapply freshlyMarked_extend; eauto.
Qed.

(** ** C7 *)

(** C7. On a freshly reset table, for every mesh and every seed, the
    worklist loop of the propagation engine empties its queue (or stops at
    an access out of bounds) within [numberOfEdges + 1] dequeue iterations:
    with that much fuel it never runs out, and more fuel does not change
    the result.  The reason is in the last part: an iteration only pushes
    pairs of edges that were unexamined when it started and that it leaves
    examined, so an examined edge is never pushed again. *)
Theorem findSymmetricalVertices_terminates (fuel : nat)
    (selection : ComponentSelection) :
  (Z.to_nat (numberOfEdges meshData) < fuel)%nat ->
  findSymmetricalVertices intersection meshData fuel selection (reset meshData)
  <> OutOfFuel /\
  (forall fuel', (fuel <= fuel')%nat ->
     findSymmetricalVertices intersection meshData fuel' selection (reset meshData)
     = findSymmetricalVertices intersection meshData fuel selection
         (reset meshData)) /\
  (forall edgePair q st q' st',
     worklistBody intersection meshData edgePair q st = Ok (q', st') ->
     exists pushed, q' = q ++ pushed /\
       Forall (fun p => vget (examinedEdges st) (fst p) = Ok false /\
                        vget (examinedEdges st) (snd p) = Ok false /\
                        vget (examinedEdges st') (fst p) = Ok true /\
                        vget (examinedEdges st') (snd p) = Ok true) pushed).
Proof.
  intros Hfuel.
  assert (H : findSymmetricalVertices intersection meshData fuel selection
                (reset meshData) <> OutOfFuel).
  { apply findSymmetricalVertices_fuel. simpl.
    by rewrite unexamined_replicate. }
  split; [done|]. split.
  - intros fuel' Hle. by apply findSymmetricalVertices_fuel_stable.
  - intros edgePair q st q' st' Hb.
    destruct (worklistBody_pushes _ _ _ _ _ Hb) as (pushed & -> & Hall).
    exists pushed. split; [done | exact Hall].
Qed.

End Termination.

(** ** Skipped edges and dropped pairs *)

Section Skips.
Variable intersection : list Z -> list Z -> list Z.
Variable meshData : MeshData.

Lemma faceEdgesBody_ambiguous (e : Z) (q : list (Z * Z)) (st : PolySymmetryData)
    (ed vd0 vd1 : ComponentData) (c0 c1 vertex0 vertex1 : Z) :
  vget (examinedEdges st) e = Ok false ->
  vget (edgeData meshData) e = Ok ed ->
  vget (connectedVertices ed) 0 = Ok c0 ->
  vget (connectedVertices ed) 1 = Ok c1 ->
  vget (vertexSymmetryIndices st) c0 = Ok vertex0 ->
  vget (vertexSymmetryIndices st) c1 = Ok vertex1 ->
  vget (vertexData meshData) vertex0 = Ok vd0 ->
  vget (vertexData meshData) vertex1 = Ok vd1 ->
  length (intersection (connectedEdges vd0) (connectedEdges vd1)) <> 1%nat ->
  faceEdgesBody intersection meshData e (q, st) = Ok (q, st).
Proof.
  intros Hex Hed Hc0 Hc1 Hv0 Hv1 Hvd0 Hvd1 Hlen. unfold faceEdgesBody.
  rewrite Hex. simpl. rewrite Hed. simpl. rewrite Hc0. simpl.
  rewrite Hv0. simpl. rewrite Hc1. simpl. rewrite Hv1. simpl.
  pose proof (vget_range _ _ _ Hvd0) as Hr0.
  pose proof (vget_range _ _ _ Hvd1) as Hr1.
  destruct (Z.eqb_spec vertex0 (-1)) as [?|_]; [lia|].
  destruct (Z.eqb_spec vertex1 (-1)) as [?|_]; [lia|]. simpl.
  rewrite Hvd0. simpl. rewrite Hvd1. simpl.
  by destruct (Nat.eqb_spec
                 (length (intersection (connectedEdges vd0) (connectedEdges vd1))) 1).
Qed.

(** ** C6 *)

(** C6. In [findSymmetricalEdgesOnFace], when the traversal of the edges of
    the face reaches an unexamined edge [e] whose endpoint partners
    [vertex0] and [vertex1] do not have exactly one incident edge in common,
    the edge is skipped: its iteration leaves the queue and the table as
    they were, and the traversal goes on with the next edge of the face. *)
Theorem findSymmetricalEdgesOnFace_skips_ambiguous (faceIndex e : Z)
    (pre post : list Z) (q q1 : list (Z * Z)) (st st1 : PolySymmetryData)
    (fd ed vd0 vd1 : ComponentData) (c0 c1 vertex0 vertex1 : Z) :
  vget (faceData meshData) faceIndex = Ok fd ->
  connectedEdges fd = pre ++ e :: post ->
  forEach (faceEdgesBody intersection meshData) pre (q, st) = Ok (q1, st1) ->
  vget (examinedEdges st1) e = Ok false ->
  vget (edgeData meshData) e = Ok ed ->
  vget (connectedVertices ed) 0 = Ok c0 ->
  vget (connectedVertices ed) 1 = Ok c1 ->
  vget (vertexSymmetryIndices st1) c0 = Ok vertex0 ->
  vget (vertexSymmetryIndices st1) c1 = Ok vertex1 ->
  vget (vertexData meshData) vertex0 = Ok vd0 ->
  vget (vertexData meshData) vertex1 = Ok vd1 ->
  length (intersection (connectedEdges vd0) (connectedEdges vd1)) <> 1%nat ->
  faceEdgesBody intersection meshData e (q1, st1) = Ok (q1, st1) /\
  findSymmetricalEdgesOnFace intersection meshData q faceIndex st
  = forEach (faceEdgesBody intersection meshData) post (q1, st1).
Proof.
  intros Hfd Hces Hpre Hex Hed Hc0 Hc1 Hv0 Hv1 Hvd0 Hvd1 Hlen.
  pose proof (faceEdgesBody_ambiguous e q1 st1 _ _ _ _ _ _ _
                Hex Hed Hc0 Hc1 Hv0 Hv1 Hvd0 Hvd1 Hlen) as Hskip.
  split; [done|].
  unfold findSymmetricalEdgesOnFace. rewrite Hfd, bind_Ok_l.
  by rewrite Hces, forEach_app, Hpre, bind_Ok_l, forEach_cons, Hskip, bind_Ok_l.
Qed.

Lemma markPair_idempotent (idx : list Z) (ex : list bool) (i0 i1 : Z) :
  vget idx i0 = Ok i1 -> vget idx i1 = Ok i0 ->
  vget ex i0 = Ok true -> vget ex i1 = Ok true ->
  markPair idx ex i0 i1 = Ok (idx, ex).
Proof.
  intros H0 H1 Hx0 Hx1. unfold markPair.
  pose proof (vget_range _ _ _ H0). pose proof (vget_range _ _ _ H1).
  pose proof (vget_range _ _ _ Hx0). pose proof (vget_range _ _ _ Hx1).
  apply vget_Ok in H0 as [_ H0]. apply vget_Ok in H1 as [_ H1].
  apply vget_Ok in Hx0 as [_ Hx0]. apply vget_Ok in Hx1 as [_ Hx1].
  rewrite (vset_in_range idx i0 i1) by done. simpl.
  rewrite (list_insert_id _ _ _ H0).
  rewrite (vset_in_range idx i1 i0) by done. simpl.
  rewrite (list_insert_id _ _ _ H1).
  rewrite (vset_in_range ex i0 true) by done. simpl.
  rewrite (list_insert_id _ _ _ Hx0).
  rewrite (vset_in_range ex i1 true) by done. simpl.
  by rewrite (list_insert_id _ _ _ Hx1).
Qed.

(** ** C9 *)

(** C9 (amended). When a dequeued edge pair yields no unexamined face on
    either side, the pair is dropped: nothing is enqueued and no face or
    vertex entry is written.  The only writes of the iteration are the
    mutual marking of the dequeued pair itself, made before the faces are
    looked up: every other edge entry is unchanged, and when the two edges
    were already marked as each other's partners the whole table is
    unchanged. *)
Theorem worklistBody_dead_end (edgePair faces : Z * Z) (q : list (Z * Z))
    (st st1 : PolySymmetryData) :
  markSymmetricalEdges (fst edgePair) (snd edgePair) st = Ok st1 ->
  getUnexaminedFaces intersection meshData edgePair st1 = Ok faces ->
  fst faces = -1 \/ snd faces = -1 ->
  worklistBody intersection meshData edgePair q st = Ok (q, st1) /\
  vertexSymmetryIndices st1 = vertexSymmetryIndices st /\
  examinedVertices st1 = examinedVertices st /\
  faceSymmetryIndices st1 = faceSymmetryIndices st /\
  examinedFaces st1 = examinedFaces st /\
  (forall e, e <> fst edgePair -> e <> snd edgePair ->
     vget (edgeSymmetryIndices st1) e = vget (edgeSymmetryIndices st) e /\
     vget (examinedEdges st1) e = vget (examinedEdges st) e) /\
  (vget (edgeSymmetryIndices st) (fst edgePair) = Ok (snd edgePair) ->
   vget (edgeSymmetryIndices st) (snd edgePair) = Ok (fst edgePair) ->
   vget (examinedEdges st) (fst edgePair) = Ok true ->
   vget (examinedEdges st) (snd edgePair) = Ok true ->
   st1 = st).
Proof.
  intros Hm Hfaces Hdead. split.
  { unfold worklistBody. rewrite Hm. simpl. rewrite Hfaces. simpl.
    destruct Hdead as [-> | ->]; simpl; [done|].
    by rewrite orb_true_r. }
  pose proof Hm as Hm'.
  apply markSymmetricalEdges_Ok in Hm' as (idx & ex & Hp & ->). simpl.
  repeat (split; [done|]). split.
  - intros e Hn0 Hn1.
    apply markPair_spec in Hp as (_ & _ & _ & _ & _ & _ & _ & _ & _ & _ & Ho).
    by apply Ho.
  - intros H0 H1 Hx0 Hx1.
    rewrite (markPair_idempotent _ _ _ _ H0 H1 Hx0 Hx1) in Hp.
    injection Hp as <- <-. by destruct st.
Qed.

End Skips.

(** ** Disconnected shells *)

Lemma indexed_vget {A : Type} (l : list A) (i : Z) (a : A) :
  vget l i = Ok a -> (i, a) ∈ indexed l.
Proof.
  intros [Hi Hl]%vget_Ok. unfold indexed.
  apply elem_of_lookup_imap. exists (Z.to_nat i), a.
  split; [|done]. f_equal. lia.
Qed.

Lemma allIn_spec (inB : Z -> bool) (b : bool) (l : list Z) (j : Z) :
  allIn inB b l = true -> j ∈ l -> inB j = b.
Proof.
  unfold allIn. rewrite forallb_forall. intros H Hj%list_elem_of_In.
  apply Bool.eqb_prop. by apply H.
Qed.

(** A write of the engine within a region leaves the entries of the
    components that are not in the region alone. *)
Lemma markStep_frame (AV AE AF : Z -> Prop) (freshV : Prop)
    (st st' : PolySymmetryData) :
  markStep AV AE AF freshV st st' ->
  (forall v, ~ AV v ->
     vget (vertexSymmetryIndices st') v = vget (vertexSymmetryIndices st) v /\
     vget (examinedVertices st') v = vget (examinedVertices st) v) /\
  (forall e, ~ AE e ->
     vget (edgeSymmetryIndices st') e = vget (edgeSymmetryIndices st) e /\
     vget (examinedEdges st') e = vget (examinedEdges st) e) /\
  (forall f, ~ AF f ->
     vget (faceSymmetryIndices st') f = vget (faceSymmetryIndices st) f /\
     vget (examinedFaces st') f = vget (examinedFaces st) f).
Proof.
  intros [(i0 & i1 & H0 & H1 & _ & Hm)|[(i0 & i1 & H0 & H1 & Hm)|
          (i0 & i1 & H0 & H1 & _ & _ & Hm)]].
  - apply markSymmetricalVertices_Ok in Hm as (idx & ex & Hm & ->).
    apply markPair_spec in Hm as (_ & _ & _ & _ & _ & _ & _ & _ & _ & _ & Ho).
    split; [|done]. intros v Hv. apply Ho; congruence.
  - apply markSymmetricalEdges_Ok in Hm as (idx & ex & Hm & ->).
    apply markPair_spec in Hm as (_ & _ & _ & _ & _ & _ & _ & _ & _ & _ & Ho).
    split; [done|]. split; [|done]. intros v Hv. apply Ho; congruence.
  - apply markSymmetricalFaces_Ok in Hm as (idx & ex & Hm & ->).
    apply markPair_spec in Hm as (_ & _ & _ & _ & _ & _ & _ & _ & _ & _ & Ho).
    split; [done|]. split; [done|]. intros v Hv. apply Ho; congruence.
Qed.

Lemma rtc_markStep_frame (AV AE AF : Z -> Prop) (freshV : Prop)
    (st st' : PolySymmetryData) :
  rtc (markStep AV AE AF freshV) st st' ->
  (forall v, ~ AV v ->
     vget (vertexSymmetryIndices st') v = vget (vertexSymmetryIndices st) v /\
     vget (examinedVertices st') v = vget (examinedVertices st) v) /\
  (forall e, ~ AE e ->
     vget (edgeSymmetryIndices st') e = vget (edgeSymmetryIndices st) e /\
     vget (examinedEdges st') e = vget (examinedEdges st) e) /\
  (forall f, ~ AF f ->
     vget (faceSymmetryIndices st') f = vget (faceSymmetryIndices st) f /\
     vget (examinedFaces st') f = vget (examinedFaces st) f).
Proof.
  induction 1 as [|st st1 st' Hstep _ (IHV & IHE & IHF)]; [done|].
  apply markStep_frame in Hstep as (HV & HE & HF).
  split; [|split]; intros c Hc.
  - destruct (IHV c Hc) as [-> ->]. by apply HV.
  - destruct (IHE c Hc) as [-> ->]. by apply HE.
  - destruct (IHF c Hc) as [-> ->]. by apply HF.
Qed.

Section Shells.
Variable intersection : list Z -> list Z -> list Z.
Variable meshData : MeshData.
Variables inBV inBE inBF : Z -> bool.
Hypothesis Hintersection : forall a b x, x ∈ intersection a b -> x ∈ a.
Hypothesis Hseparated : shellsSeparated meshData inBV inBE inBF = true.

Lemma separated_vertex (v : Z) (vd : ComponentData) :
  vget (vertexData meshData) v = Ok vd ->
  (forall w, w ∈ connectedVertices vd -> inBV w = inBV v) /\
  (forall e, e ∈ connectedEdges vd -> inBE e = inBV v) /\
  (forall f sibs w, faceVertexSiblings vd !! f = Some sibs -> w ∈ sibs ->
     inBV w = inBV v).
Proof.
  intros Hvd%indexed_vget. unfold shellsSeparated in Hseparated.
  apply andb_prop in Hseparated as [[HV _]%andb_prop _].
  rewrite forallb_forall in HV.
  specialize (HV _ (proj1 (list_elem_of_In _ _) Hvd)). simpl in HV.
  apply andb_prop in HV as [[H1 H2]%andb_prop H3].
  split; [intros w; by apply allIn_spec|].
  split; [intros e; by apply allIn_spec|].
  intros f sibs w Hf Hw. rewrite forallb_forall in H3.
  apply elem_of_map_to_list in Hf.
  specialize (H3 _ (proj1 (list_elem_of_In _ _) Hf)). simpl in H3.
  by eapply allIn_spec.
Qed.

Lemma separated_edge (e : Z) (ed : ComponentData) :
  vget (edgeData meshData) e = Ok ed ->
  (forall w, w ∈ connectedVertices ed -> inBV w = inBE e) /\
  (forall f, f ∈ connectedFaces ed -> inBF f = inBE e).
Proof.
  intros Hed%indexed_vget. unfold shellsSeparated in Hseparated.
  apply andb_prop in Hseparated as [[_ HE]%andb_prop _].
  rewrite forallb_forall in HE.
  specialize (HE _ (proj1 (list_elem_of_In _ _) Hed)). simpl in HE.
  apply andb_prop in HE as [H1 H2].
  split; [intros w; by apply allIn_spec | intros f; by apply allIn_spec].
Qed.

Lemma separated_face (f : Z) (fd : ComponentData) :
  vget (faceData meshData) f = Ok fd ->
  (forall w, w ∈ connectedVertices fd -> inBV w = inBF f) /\
  (forall e, e ∈ connectedEdges fd -> inBE e = inBF f).
Proof.
  intros Hfd%indexed_vget. unfold shellsSeparated in Hseparated.
  apply andb_prop in Hseparated as [_ HF].
  rewrite forallb_forall in HF.
  specialize (HF _ (proj1 (list_elem_of_In _ _) Hfd)). simpl in HF.
  apply andb_prop in HF as [H1 H2].
  split; [intros w; by apply allIn_spec | intros e; by apply allIn_spec].
Qed.

(** The complement of a disconnected shell is a closed region. *)
Lemma separated_closedShell :
  closedShell intersection meshData (outside inBV) (outside inBE) (outside inBF).
Proof.
  unfold closedShell, outside. split; [|split; [|split; [|split]]].
  - intros a b Ha. rewrite Forall_forall in Ha |- *.
    intros x Hx. eapply Ha, Hintersection, Hx.
  - intros a b Ha. rewrite Forall_forall in Ha |- *.
    intros x Hx. eapply Ha, Hintersection, Hx.
  - intros v vd Hv Hvd. pose proof (vget_range _ _ _ Hvd) as Hr.
    destruct (separated_vertex _ _ Hvd) as (H1 & H2 & H3).
    rewrite !Forall_forall. split; [|split].
    + intros w Hw _. rewrite (H1 _ Hw). apply Hv. lia.
    + intros e He _. rewrite (H2 _ He). apply Hv. lia.
    + intros f sibs Hf. rewrite Forall_forall.
      intros w Hw _. rewrite (H3 _ _ _ Hf Hw). apply Hv. lia.
  - intros e ed He Hed. pose proof (vget_range _ _ _ Hed) as Hr.
    destruct (separated_edge _ _ Hed) as (H1 & H2).
    rewrite !Forall_forall. split.
    + intros w Hw _. rewrite (H1 _ Hw). apply He. lia.
    + intros f Hf _. rewrite (H2 _ Hf). apply He. lia.
  - intros f fd Hf Hfd. pose proof (vget_range _ _ _ Hfd) as Hr.
    destruct (separated_face _ _ Hfd) as (H1 & H2).
    rewrite !Forall_forall. split.
    + intros w Hw _. rewrite (H1 _ Hw). apply Hf. lia.
    + intros e He _. rewrite (H2 _ He). apply Hf. lia.
Qed.

Lemma floodStep_length (side : Z) (st : PolySymmetryData) (x : Z)
    (q q' : list Z) (s s' : FloodState) :
  floodStep meshData side st x q s q' s' -> length (snd s') = length (snd s).
Proof.
  intros [(_ & _ & ->)|(_ & _ & p & _ & [(_ & Hs & _)|(_ & Hs & _)])];
    [done | by eapply vset_length..].
Qed.

(** The flood fills stay within a region that is closed under vertex
    adjacency and under the symmetry table, and leave the side of every
    vertex that is not in the region at its initial value. *)
Lemma floodStep_region (AV : Z -> Prop) (side : Z) (st : PolySymmetryData)
    (x v : Z) (q q' : list Z) (s s' : FloodState) :
  (forall w vd, AV w -> vget (vertexData meshData) w = Ok vd ->
     Forall AV (connectedVertices vd)) ->
  ~ AV v ->
  Forall AV (x :: q) /\ (forall sv, vget (snd s) v = Ok sv -> sv = CENTER) ->
  floodStep meshData side st x q s q' s' ->
  Forall AV q' /\ (forall sv, vget (snd s') v = Ok sv -> sv = CENTER).
Proof.
  intros Hadj Hv [[Hx Hq]%Forall_cons Hside] Hstep. split.
  - destruct Hstep as [(_ & -> & _)|(_ & _ & p & _ & [(_ & _ & ->)|(_ & _ & Hp)])];
      [done | done |].
    destruct Hp as (vd & pushed & Hvd & -> & Hsub).
    apply Forall_app. split; [done|].
    specialize (Hadj _ _ Hx Hvd). rewrite Forall_forall in Hadj |- *.
    intros w Hw. apply Hadj. by eapply elem_of_sublist.
  - assert (Hne : v <> x) by congruence.
    by destruct (floodStep_other _ _ _ _ _ _ _ _ _ Hstep Hne) as [_ ->].
Qed.

Lemma findVertexSides_region (AV : Z -> Prop) (left : list Z)
    (st st' : PolySymmetryData) :
  (forall w vd, AV w -> vget (vertexData meshData) w = Ok vd ->
     Forall AV (connectedVertices vd)) ->
  Forall AV left -> closedVertexTable AV st ->
  findVertexSides meshData left st = Ok st' ->
  st' = withSides st (vertexSides st') (edgeSides st) (faceSides st) /\
  length (vertexSides st') = Z.to_nat (numberOfVertices meshData) /\
  forall v sv, ~ AV v -> vget (vertexSides st') v = Ok sv -> sv = CENTER.
Proof.
  intros Hadj Hleft Hc H.
  apply findVertexSides_Ok in H
    as (n & q1 & sides1 & fuel1 & vis2 & sides2 & q3 & sides3 & fuel3 & vis4
        & sides4 & -> & H1 & H2 & H3 & H4 & ->).
  simpl. split; [done|].
  apply seedLeft_spec in H1 as (-> & Hlen1 & _ & _ & Hout1). simpl in *.
  apply seedRight_spec in H3 as (ps & -> & Hlen3 & Hall2 & _ & _ & Hout3).
  simpl in *.
  assert (Hps : Forall AV ps).
  { rewrite Forall_forall in Hleft |- *. intros p Hp.
    destruct (Forall2_elem_of_r _ _ _ _ Hall2 Hp) as (i & Hi & Hip).
    eapply Hc; [|exact Hip]. by apply Hleft. }
  split.
  { pose (L := fun (k : nat) (_ : list Z) (s : FloodState) => length (snd s) = k).
    assert (Hl2 : L (length sides1) [] (vis2, sides2)).
    { eapply (leftFlood_inv meshData (L (length sides1))); [| |exact H2];
        [|done].
      intros x q s q' s' HP Hstep. unfold L in *.
      by rewrite (floodStep_length _ _ _ _ _ _ _ Hstep). }
    assert (Hl4 : L (length sides3) [] (vis4, sides4)).
    { eapply (rightFlood_inv meshData (L (length sides3))); [| |exact H4];
        [|done].
      intros x q s q' s' HP Hstep. unfold L in *.
      by rewrite (floodStep_length _ _ _ _ _ _ _ Hstep). }
    unfold L in *. simpl in *.
    rewrite Hl4, Hlen3, Hl2, Hlen1. apply length_replicate. }
  intros v sv Hv.
  assert (Hvl : v ∉ left).
  { intros Hin. rewrite Forall_forall in Hleft. by apply Hv, Hleft. }
  assert (Hvp : v ∉ ps).
  { intros Hin. rewrite Forall_forall in Hps. by apply Hv, Hps. }
  pose (P := fun (q : list Z) (s : FloodState) =>
      Forall AV q /\ (forall sv, vget (snd s) v = Ok sv -> sv = CENTER)).
  assert (HP2 : P [] (vis2, sides2)).
  { eapply (leftFlood_inv meshData P); [| |exact H2].
    - intros x q s q' s' HP Hstep. by eapply floodStep_region.
    - split; [done|]. simpl. intros sv0. rewrite (Hout1 _ Hvl).
      by intros ->%vget_replicate. }
  assert (HP4 : P [] (vis4, sides4)).
  { eapply (rightFlood_inv meshData P); [| |exact H4].
    - intros x q s q' s' HP Hstep. by eapply floodStep_region.
    - split; [done|]. simpl. intros sv0. rewrite (Hout3 _ Hvp).
      by apply HP2. }
  by apply HP4.
Qed.

Lemma finalizeSymmetry_tables (st st' : PolySymmetryData) :
  finalizeSymmetry meshData st = Ok st' ->
  st' = withSides st (vertexSides st) (edgeSides st') (faceSides st').
Proof.
  unfold finalizeSymmetry. intros H.
  inv_bind H as es Hes. inv_bind H as fs Hfs. by injection H as <-.
Qed.

Lemma inside_not_outside (inB : Z -> bool) (i : Z) :
  inB i = true -> 0 <= i -> ~ outside inB i.
Proof. intros Hi Hr Ho. specialize (Ho Hr). congruence. Qed.

(** ** C8 *)

(** C8. On a mesh where shell B is disconnected from the rest, with a seed
    and left seeds that select nothing of shell B, running the propagation
    engine on a freshly reset table, then the side classifier, then
    [finalizeSymmetry] leaves every vertex, edge and face of shell B
    unexamined, with the unresolved sentinel -1 as symmetry index, and with
    side CENTER. *)
Theorem disconnected_shell_untouched (fuel : nat) (selection : ComponentSelection)
    (left : list Z) (st1 st2 st3 : PolySymmetryData) :
  seedOutside inBV inBE inBF selection = true ->
  forallb (fun v => negb (inBV v)) left = true ->
  findSymmetricalVertices intersection meshData fuel selection (reset meshData)
  = Ok st1 ->
  findVertexSides meshData left st1 = Ok st2 ->
  finalizeSymmetry meshData st2 = Ok st3 ->
  (forall v, inBV v = true -> 0 <= v < numberOfVertices meshData ->
     vget (examinedVertices st3) v = Ok false /\
     vget (vertexSymmetryIndices st3) v = Ok (-1) /\
     vget (vertexSides st3) v = Ok CENTER) /\
  (forall e, inBE e = true -> 0 <= e < numberOfEdges meshData ->
     vget (examinedEdges st3) e = Ok false /\
     vget (edgeSymmetryIndices st3) e = Ok (-1) /\
     vget (edgeSides st3) e = Ok CENTER) /\
  (forall f, inBF f = true -> 0 <= f < numberOfFaces meshData ->
     vget (examinedFaces st3) f = Ok false /\
     vget (faceSymmetryIndices st3) f = Ok (-1) /\
     vget (faceSides st3) f = Ok CENTER).
Proof.
  intros Hseed Hleft H1 H2 H3.
  pose proof separated_closedShell as Hclosed.
  (* the engine *)
  assert (HseedIn : seedIn (outside inBV) (outside inBE) (outside inBF) selection).
  { unfold seedOutside in Hseed. unfold seedIn, outside.
    repeat (apply andb_prop in Hseed as [Hseed ?%negb_true_iff]).
    apply negb_true_iff in Hseed. by repeat split. }
  assert (Hc0 : closedVertexTable (outside inBV) (reset meshData)).
  { intros v p _ ->%vget_replicate. unfold outside. lia. }
  destruct (findSymmetricalVertices_seed_faces _ _ _ _ _ _ H1) as [Hf0 Hf1].
  simpl in Hf0, Hf1. rewrite length_replicate in Hf0, Hf1.
  destruct (findSymmetricalVertices_region intersection meshData _ _ _ False
              Hclosed fuel selection (reset meshData) st1 HseedIn
              (fun contra : False => match contra with end)
              (vget_replicate_in_range _ false _ Hf0)
              (vget_replicate_in_range _ false _ Hf1) Hc0 H1)
    as (st0 & Hst0 & Hrtc).
  assert (Hc1 : closedVertexTable (outside inBV) st1).
  { eapply rtc_markStep_closedVertexTable; [exact Hrtc|].
    by destruct Hst0 as [->| ->]. }
  apply rtc_markStep_frame in Hrtc as (HV & HE & HF).
  (* the side classifier *)
  assert (Hleft' : Forall (outside inBV) left).
  { rewrite forallb_forall in Hleft. apply Forall_forall.
    intros v Hv%list_elem_of_In _. by apply negb_true_iff, Hleft. }
  assert (Hadj : forall w vd, outside inBV w ->
            vget (vertexData meshData) w = Ok vd ->
            Forall (outside inBV) (connectedVertices vd)).
  { intros w vd Hw Hvd. destruct Hclosed as (_ & _ & Hv & _).
    by destruct (Hv _ _ Hw Hvd). }
  destruct (findVertexSides_region _ left st1 st2 Hadj Hleft' Hc1 H2)
    as (Hst2 & Hlen2 & Hsides2).
  (* the derived sides *)
  pose proof (finalizeSymmetry_tables _ _ H3) as Hst3.
  split; [|split].
  - intros v Hv Hr. pose proof (inside_not_outside _ _ Hv (proj1 Hr)) as Hout.
    rewrite Hst3, Hst2. simpl.
    destruct (HV v Hout) as [-> ->].
    destruct (vget_in_range (vertexSides st2) v) as [sv Hsv]; [lia|].
    rewrite Hsv, (Hsides2 _ _ Hout Hsv).
    destruct Hst0 as [->| ->]; simpl;
      rewrite !vget_replicate_in_range by lia; done.
  - intros e He Hr. pose proof (inside_not_outside _ _ He (proj1 Hr)) as Hout.
    destruct (finalizeSymmetry_edgeSides_spec _ _ _ _ H3 Hr)
      as (ed & c0 & c1 & sv0 & sv1 & Hed & Hc0' & Hc1' & Hs0 & Hs1 & Hcenter & _).
    destruct (separated_edge _ _ Hed) as [HinV _].
    assert (Hsv : forall c sv, c ∈ connectedVertices ed ->
                    vget (vertexSides st3) c = Ok sv -> sv = CENTER).
    { intros c sv Hc Hsv. rewrite Hst3 in Hsv. simpl in Hsv.
      eapply Hsides2; [|exact Hsv].
      apply inside_not_outside; [|apply vget_range in Hsv; lia].
      rewrite (HinV _ Hc). done. }
    rewrite Hcenter;
      [|exact (Hsv _ _ (vget_elem_of _ _ _ Hc0') Hs0)
       |exact (Hsv _ _ (vget_elem_of _ _ _ Hc1') Hs1)].
    rewrite Hst3, Hst2. simpl. destruct (HE e Hout) as [-> ->].
    destruct Hst0 as [->| ->]; simpl;
      rewrite !vget_replicate_in_range by lia; done.
  - intros f Hf Hr. pose proof (inside_not_outside _ _ Hf (proj1 Hr)) as Hout.
    destruct (finalizeSymmetry_faceSides_spec _ _ _ _ H3 Hr)
      as (fd & svs & Hfd & Hall & Hside & _).
    destruct (separated_face _ _ Hfd) as [HinV _].
    assert (Hsvs : forall sv, sv ∈ svs -> sv = CENTER).
    { intros sv Hsv.
      destruct (Forall2_elem_of_r _ _ _ _ Hall Hsv) as (c & Hc & Hcs).
      rewrite Hst3 in Hcs. simpl in Hcs.
      eapply Hsides2; [|exact Hcs].
      apply inside_not_outside; [|apply vget_range in Hcs; lia].
      rewrite (HinV _ Hc). done. }
    rewrite Hside.
    rewrite !bool_decide_eq_false_2
      by (intros Hin; by apply Hsvs in Hin).
    rewrite Hst3, Hst2. simpl. destruct (HF f Hout) as [-> ->].
    destruct Hst0 as [->| ->]; simpl;
      rewrite !vget_replicate_in_range by lia; done.
Qed.

End Shells.

(** ** Self-symmetric vertices *)

(** A self-symmetric vertex that is not the partner of a left seed (so not
    a left seed itself) ends with side CENTER. *)
Lemma findVertexSides_self_symmetric (meshData : MeshData) (left : list Z)
    (st st' : PolySymmetryData) (v : Z) :
  findVertexSides meshData left st = Ok st' ->
  vget (vertexSymmetryIndices st) v = Ok v ->
  (forall i, i ∈ left -> vget (vertexSymmetryIndices st) i <> Ok v) ->
  forall sv, vget (vertexSides st') v = Ok sv -> sv = CENTER.
Proof.
  intros H Hv Hnot.
  apply findVertexSides_Ok in H
    as (n & q1 & sides1 & fuel1 & vis2 & sides2 & q3 & sides3 & fuel3 & vis4
        & sides4 & -> & H1 & H2 & H3 & H4 & ->).
  simpl.
  apply seedLeft_spec in H1 as (-> & _ & _ & _ & Hout1). simpl in *.
  apply seedRight_spec in H3 as (ps & -> & _ & Hall2 & _ & _ & Hout3).
  simpl in *.
  assert (Hvl : v ∉ left) by (intros Hin; by apply (Hnot v)).
  assert (Hvp : v ∉ ps).
  { intros Hin. destruct (Forall2_elem_of_r _ _ _ _ Hall2 Hin) as (i & Hi & Hip).
    by apply (Hnot i). }
  pose (P := fun (q : list Z) (s : FloodState) =>
      forall sv, vget (snd s) v = Ok sv -> sv = CENTER).
  assert (Hstep : forall side x q s q' s',
            P (x :: q) s -> floodStep meshData side st x q s q' s' -> P q' s').
  { intros side x q s q' s' HP Hstep. unfold P in *.
    destruct (decide (v = x)) as [<-|Hne].
    - destruct Hstep as [(_ & _ & ->)|(_ & _ & p & Hp & Hcase)]; [done|].
      destruct Hcase as [(_ & Hs & _)|(Hne & _)]; [|congruence].
      intros sv. rewrite (vget_vset_eq _ _ _ _ Hs). congruence.
    - by destruct (floodStep_other _ _ _ _ _ _ _ _ _ Hstep Hne) as [_ ->]. }
  assert (HP2 : P [] (vis2, sides2)).
  { eapply (leftFlood_inv meshData P); [| |exact H2]; [by apply Hstep|].
    unfold P. simpl. intros sv. rewrite (Hout1 _ Hvl).
    by intros ->%vget_replicate. }
  assert (HP4 : P [] (vis4, sides4)).
  { eapply (rightFlood_inv meshData P); [| |exact H4]; [by apply Hstep|].
    unfold P. simpl. intros sv. rewrite (Hout3 _ Hvp). by apply HP2. }
  exact HP4.
Qed.

(** ** C2 *)

(** C2 (the code departs from it). On [diagSquare] with its symmetric seed
    and the centre-line vertex 1 picked as left vertex, the engine records
    vertex 1 as self-symmetric, and [findVertexSides] ends with vertex 1 on
    the RIGHT: the left flood fill sets it to CENTER, then the seeding of
    the right flood fill writes RIGHT to the partner of the left seed,
    which is vertex 1 itself, and the right flood fill skips it as
    visited. *)
Theorem self_symmetric_left_seed_ends_right :
  exists st1 st2,
    findSymmetricalVertices intersectionModel diagSquare 6 diagSquareSeedCenter
      (reset diagSquare) = Ok st1 /\
    leftSideVertexIndices st1 = [1] /\
    vget (vertexSymmetryIndices st1) 1 = Ok 1 /\
    findVertexSides diagSquare (leftSideVertexIndices st1) st1 = Ok st2 /\
    vget (vertexSides st2) 1 = Ok RIGHT.
Proof.
  eexists. eexists.
  split; [vm_compute; reflexivity|].
  split; [reflexivity|].
  split; [reflexivity|].
  split; [vm_compute; reflexivity|].
  reflexivity.
Qed.

(** ** C10 *)

(** C10. [findVertexSides] indexes [vertexSides] with
    [vertexSymmetryIndices[i]] for every left seed [i] without testing it
    for the sentinel.  When the topology is well formed and every left seed
    is resolved to a vertex of the mesh, every access of [findVertexSides]
    is in bounds: it returns a table.  Without the precondition the access
    at [-1] is reached: an unresolved left seed makes it index
    [vertexSides] out of bounds with [-1]. *)
Theorem findVertexSides_in_bounds :
  (forall (meshData : MeshData) (left : list Z) (st : PolySymmetryData),
     wfVertexData meshData ->
     length (vertexSymmetryIndices st) = Z.to_nat (numberOfVertices meshData) ->
     seedsResolved meshData left st ->
     exists st', findVertexSides meshData left st = Ok st') /\
  (exists (meshData : MeshData) (left : list Z) (st : PolySymmetryData) (i : Z),
     wfVertexData meshData /\
     length (vertexSymmetryIndices st) = Z.to_nat (numberOfVertices meshData) /\
     i ∈ left /\ 0 <= i < numberOfVertices meshData /\
     vget (vertexSymmetryIndices st) i = Ok (-1) /\
     findVertexSides meshData left st = OutOfRange (-1)).
Proof.
  split; [apply findVertexSides_total|].
  exists diagSquare, [0], (reset diagSquare), 0.
  split; [split; [reflexivity | repeat constructor; simpl; lia]|].
  split; [reflexivity|]. split; [by left|]. split; [simpl; lia|].
  split; reflexivity.
Qed.

(** * Further properties *)

(** ** The writes of the propagation engine *)

Section Marks.
Variable intersection : list Z -> list Z -> list Z.
Variable meshData : MeshData.

Lemma faceVerticesBody_marks (facePair : Z * Z) (x : Z) (q q' : list Z)
    (st st' : PolySymmetryData) :
  faceVerticesBody meshData facePair x q st = Ok (q', st') ->
  rtc anyMark st st'.
Proof.
  intros [[-> ->]|(vertex1 & n0 & n1 & _ & _ & _ & _ & _ & Hm & ->)]
    %faceVerticesBody_Ok; [done|].
  apply rtc_once. exists n0, n1. by left.
Qed.

Lemma findSymmetricalVerticesOnFace_marks (facePair : Z * Z)
    (st st' : PolySymmetryData) :
  findSymmetricalVerticesOnFace meshData facePair st = Ok st' ->
  rtc anyMark st st'.
Proof.
  unfold findSymmetricalVerticesOnFace. intros H.
  inv_bind H as fd Hfd. inv_bind H as q0 Hq0.
  eapply (whileQueue_inv (fun _ s => rtc anyMark st s)); [| |exact H]; [|done].
  intros x q s q' s' HP Hb. etrans; [exact HP|].
  by eapply faceVerticesBody_marks.
Qed.

Lemma faceEdgesBody_marks (e : Z) (q q' : list (Z * Z))
    (st st' : PolySymmetryData) :
  faceEdgesBody intersection meshData e (q, st) = Ok (q', st') ->
  rtc anyMark st st'.
Proof.
  intros [[-> ->]|(ed & c0 & c1 & vertex0 & vertex1 & vd0 & vd1 & edgeIndex & exi
                   & _ & _ & _ & _ & _ & _ & _ & _ & _ & _ & _ & Hm)]
    %faceEdgesBody_Ok; [done|].
  apply rtc_once. exists e, edgeIndex. right. by left.
Qed.

Lemma findSymmetricalEdgesOnFace_marks (faceIndex : Z) (q q' : list (Z * Z))
    (st st' : PolySymmetryData) :
  findSymmetricalEdgesOnFace intersection meshData q faceIndex st = Ok (q', st') ->
  rtc anyMark st st'.
Proof.
  unfold findSymmetricalEdgesOnFace. intros H. inv_bind H as fd Hfd.
  pose (P := fun s : list (Z * Z) * PolySymmetryData => rtc anyMark st (snd s)).
  change (P (q', st')).
  eapply (forEach_inv P); [| |exact H]; [|apply rtc_refl].
  intros e [q1 s1] [q2 s2] _ HP Hb. unfold P in *. simpl in *.
  etrans; [exact HP|]. by eapply faceEdgesBody_marks.
Qed.

Lemma findFirstSymmetricalVertices_marks (selection : ComponentSelection)
    (st st' : PolySymmetryData) :
  findFirstSymmetricalVertices meshData selection st = Ok st' ->
  rtc anyMark st st'.
Proof.
  intros (st1 & st2 & ed0 & a0 & b0 & ex0 & ed1 & a1 & b1 & ex1 & st3 & Hst1
          & Hst2 & _ & _ & _ & _ & _ & _ & _ & _ & Hst3 & H)
    %findFirstSymmetricalVertices_Ok.
  etrans; [apply rtc_once; eexists _, _; left; exact Hst1|].
  etrans; [apply rtc_once; eexists _, _; right; right; exact Hst2|].
  etrans; [apply rtc_once; eexists _, _; left; exact Hst3|].
  by eapply findSymmetricalVerticesOnFace_marks.
Qed.

Lemma worklistBody_marks (edgePair : Z * Z) (q q' : list (Z * Z))
    (st st' : PolySymmetryData) :
  worklistBody intersection meshData edgePair q st = Ok (q', st') ->
  rtc anyMark st st'.
Proof.
  intros (st1 & faces & Hst1 & _ & Hcase)%worklistBody_Ok.
  etrans; [apply rtc_once; eexists _, _; right; left; exact Hst1|].
  destruct Hcase as [(_ & _ & ->)|(_ & _ & st2 & st3 & Hst2 & Hst3 & H)];
    [done|].
  etrans; [apply rtc_once; eexists _, _; right; right; exact Hst2|].
  etrans; [by eapply findSymmetricalVerticesOnFace_marks|].
  by eapply findSymmetricalEdgesOnFace_marks.
Qed.

Lemma worklist_marks (fuel : nat) (q : list (Z * Z)) (st st' : PolySymmetryData) :
  whileQueue (worklistBody intersection meshData) fuel q st = Ok st' ->
  rtc anyMark st st'.
Proof.
  intros H.
  eapply (whileQueue_inv (fun _ s => rtc anyMark st s)); [| |exact H]; [|done].
  intros x q0 s q' s' HP Hb. etrans; [exact HP|]. by eapply worklistBody_marks.
Qed.

(** Every successful run of the engine is a sequence of calls of the
    [markSymmetrical...] methods. *)
Lemma findSymmetricalVertices_marks (fuel : nat) (selection : ComponentSelection)
    (st st' : PolySymmetryData) :
  findSymmetricalVertices intersection meshData fuel selection st = Ok st' ->
  rtc anyMark (withLeftVertex selection st) st'.
Proof.
  unfold findSymmetricalVertices. fold (withLeftVertex selection st). intros H.
  inv_bind H as st1 Hst1.
  etrans; [by eapply findFirstSymmetricalVertices_marks|].
  by eapply worklist_marks.
Qed.

End Marks.

Lemma flagsKept_refl (ex : list bool) : flagsKept ex ex.
Proof. by split. Qed.

Lemma flagsKept_trans (ex1 ex2 ex3 : list bool) :
  flagsKept ex1 ex2 -> flagsKept ex2 ex3 -> flagsKept ex1 ex3.
Proof. intros [L1 H1] [L2 H2]. split; [congruence | auto]. Qed.

Lemma partnersKept_refl (idx : list Z) : partnersKept idx idx.
Proof. split; [done|]. intros c b Hc Hb. by exists b. Qed.

Lemma partnersKept_trans (idx1 idx2 idx3 : list Z) :
  partnersKept idx1 idx2 -> partnersKept idx2 idx3 -> partnersKept idx1 idx3.
Proof.
  intros [L1 H1] [L2 H2]. split; [congruence|].
  intros c b Hc Hb. destruct (H1 c b Hc Hb) as (b' & Hc' & Hb'). eauto.
Qed.

Lemma markPair_kept (idx idx' : list Z) (ex ex' : list bool) (i0 i1 : Z) :
  markPair idx ex i0 i1 = Ok (idx', ex') ->
  flagsKept ex ex' /\ partnersKept idx idx'.
Proof.
  intros (Hr0 & Hr1 & _ & _ & Hl & Hlx & Hi1 & Hi0 & Hx0 & Hx1 & Hother)
    %markPair_spec.
  split; (split; [done|]).
  - intros c Hc. destruct (decide (c = i0)) as [->|Hn0]; [done|].
    destruct (decide (c = i1)) as [->|Hn1]; [done|].
    by destruct (Hother c Hn0 Hn1) as [_ ->].
  - intros c b Hc Hb. destruct (decide (c = i1)) as [->|Hn1].
    { exists i0. split; [done | lia]. }
    destruct (decide (c = i0)) as [->|Hn0].
    { exists i1. split; [by apply Hi0 | lia]. }
    exists b. destruct (Hother c Hn0 Hn1) as [-> _]. done.
Qed.

Lemma tableExtends_refl (st : PolySymmetryData) : tableExtends st st.
Proof.
  unfold tableExtends.
  repeat (split; [done || apply flagsKept_refl || apply partnersKept_refl|]).
  apply partnersKept_refl.
Qed.

Lemma tableExtends_trans (st1 st2 st3 : PolySymmetryData) :
  tableExtends st1 st2 -> tableExtends st2 st3 -> tableExtends st1 st3.
Proof.
  intros (A1 & A2 & A3 & A4 & A5 & A6 & A7 & A8 & A9 & A10)
         (B1 & B2 & B3 & B4 & B5 & B6 & B7 & B8 & B9 & B10).
  unfold tableExtends.
  repeat (split; [congruence || (by eapply flagsKept_trans)
                  || (by eapply partnersKept_trans)|]).
  by eapply partnersKept_trans.
Qed.

Lemma anyMark_extends (st st' : PolySymmetryData) :
  anyMark st st' -> tableExtends st st'.
Proof.
  intros (i0 & i1 & [Hm|[Hm|Hm]]).
  - apply markSymmetricalVertices_Ok in Hm as (idx & ex & Hm & ->).
    apply markPair_kept in Hm as [Hx Hi]. unfold tableExtends. simpl.
    repeat (split; [done || apply flagsKept_refl || apply partnersKept_refl|]).
    apply partnersKept_refl.
  - apply markSymmetricalEdges_Ok in Hm as (idx & ex & Hm & ->).
    apply markPair_kept in Hm as [Hx Hi]. unfold tableExtends. simpl.
    repeat (split; [done || apply flagsKept_refl || apply partnersKept_refl|]).
    apply partnersKept_refl.
  - apply markSymmetricalFaces_Ok in Hm as (idx & ex & Hm & ->).
    apply markPair_kept in Hm as [Hx Hi]. unfold tableExtends. simpl.
    repeat (split; [done || apply flagsKept_refl || apply partnersKept_refl|]).
    done.
Qed.

Lemma rtc_anyMark_extends (st st' : PolySymmetryData) :
  rtc anyMark st st' -> tableExtends st st'.
Proof.
  induction 1 as [st|st st1 st' Hstep _ IH]; [apply tableExtends_refl|].
  eapply tableExtends_trans; [by apply anyMark_extends | exact IH].
Qed.

Lemma withLeftVertex_tables (selection : ComponentSelection) (st : PolySymmetryData) :
  withLeftVertex selection st
  = withLeftSideVertexIndices st
      (leftSideVertexIndices st
       ++ (if leftVertexIndex selection =? -1 then []
           else [leftVertexIndex selection])).
Proof.
  unfold withLeftVertex. destruct (_ =? _); [|done].
  rewrite app_nil_r. by destruct st.
Qed.

(** X7. The propagation engine leaves the side table alone, appends the left
    vertex of the seed, when there is one, to the left seeds, and changes
    the length of no vector of the symmetry table. *)
Theorem findSymmetricalVertices_frame (intersection : list Z -> list Z -> list Z)
    (meshData : MeshData) (fuel : nat) (selection : ComponentSelection)
    (st st' : PolySymmetryData) :
  findSymmetricalVertices intersection meshData fuel selection st = Ok st' ->
  vertexSides st' = vertexSides st /\
  edgeSides st' = edgeSides st /\
  faceSides st' = faceSides st /\
  leftSideVertexIndices st'
  = leftSideVertexIndices st
    ++ (if leftVertexIndex selection =? -1 then []
        else [leftVertexIndex selection]) /\
  length (examinedVertices st') = length (examinedVertices st) /\
  length (vertexSymmetryIndices st') = length (vertexSymmetryIndices st) /\
  length (examinedEdges st') = length (examinedEdges st) /\
  length (edgeSymmetryIndices st') = length (edgeSymmetryIndices st) /\
  length (examinedFaces st') = length (examinedFaces st) /\
  length (faceSymmetryIndices st') = length (faceSymmetryIndices st).
Proof.
  intros H%findSymmetricalVertices_marks%rtc_anyMark_extends.
  rewrite withLeftVertex_tables in H.
  destruct H as (A1 & A2 & A3 & A4 & [A5 _] & [A6 _] & [A7 _] & [A8 _] & [A9 _]
                 & [A10 _]).
  simpl in *. done.
Qed.

(** X8. The propagation engine never clears an examined flag and never
    replaces a recorded partner by the sentinel: a component that is
    examined, or resolved, stays so. *)
Theorem findSymmetricalVertices_monotone
    (intersection : list Z -> list Z -> list Z)
    (meshData : MeshData) (fuel : nat) (selection : ComponentSelection)
    (st st' : PolySymmetryData) :
  findSymmetricalVertices intersection meshData fuel selection st = Ok st' ->
  (forall v, vget (examinedVertices st) v = Ok true ->
     vget (examinedVertices st') v = Ok true) /\
  (forall e, vget (examinedEdges st) e = Ok true ->
     vget (examinedEdges st') e = Ok true) /\
  (forall f, vget (examinedFaces st) f = Ok true ->
     vget (examinedFaces st') f = Ok true) /\
  (forall v b, vget (vertexSymmetryIndices st) v = Ok b -> b <> -1 ->
     exists b', vget (vertexSymmetryIndices st') v = Ok b' /\ b' <> -1) /\
  (forall e b, vget (edgeSymmetryIndices st) e = Ok b -> b <> -1 ->
     exists b', vget (edgeSymmetryIndices st') e = Ok b' /\ b' <> -1) /\
  (forall f b, vget (faceSymmetryIndices st) f = Ok b -> b <> -1 ->
     exists b', vget (faceSymmetryIndices st') f = Ok b' /\ b' <> -1).
Proof.
  intros H%findSymmetricalVertices_marks%rtc_anyMark_extends.
  rewrite withLeftVertex_tables in H.
  destruct H as (_ & _ & _ & _ & [_ A5] & [_ A6] & [_ A7] & [_ A8] & [_ A9]
                 & [_ A10]).
  simpl in *. done.
Qed.

(** ** The seed *)

Lemma inBounds_spec (n i : Z) : inBounds n i = true <-> 0 <= i < n.
Proof. unfold inBounds. rewrite andb_true_iff, Z.leb_le, Z.ltb_lt. done. Qed.

Section Seed.
Variable intersection : list Z -> list Z -> list Z.
Variable meshData : MeshData.

(** A run of the engine that succeeds had every index of its seed within
    the vectors of the table. *)
Lemma findSymmetricalVertices_seed_within (fuel : nat)
    (selection : ComponentSelection) (st st' : PolySymmetryData) :
  findSymmetricalVertices intersection meshData fuel selection st = Ok st' ->
  (0 <= fst (vertexIndices selection) < Z.of_nat (length (examinedVertices st)) /\
   0 <= snd (vertexIndices selection) < Z.of_nat (length (examinedVertices st))) /\
  (0 <= fst (edgeIndices selection) < Z.of_nat (length (examinedEdges st)) /\
   0 <= snd (edgeIndices selection) < Z.of_nat (length (examinedEdges st))) /\
  (0 <= fst (faceIndices selection) < Z.of_nat (length (examinedFaces st)) /\
   0 <= snd (faceIndices selection) < Z.of_nat (length (examinedFaces st))).
Proof.
  intros H. split; [|split].
  - unfold findSymmetricalVertices in H. fold (withLeftVertex selection st) in H.
    inv_bind H as st1 Hst1.
    apply findFirstSymmetricalVertices_Ok in Hst1
      as (s1 & s2 & _ & _ & _ & _ & _ & _ & _ & _ & _ & Hs1 & _).
    apply markSymmetricalVertices_Ok in Hs1 as (? & ? & Hm & _).
    apply markPair_spec in Hm as (_ & _ & H0 & H1 & _).
    rewrite withLeftVertex_tables in H0, H1. done.
  - unfold findSymmetricalVertices in H. fold (withLeftVertex selection st) in H.
    inv_bind H as st1 Hst1.
    apply findFirstSymmetricalVertices_examinedEdges in Hst1.
    rewrite withLeftVertex_tables in Hst1. simpl in Hst1.
    destruct fuel as [|fuel]; [discriminate|]. simpl in H.
    inv_bind H as r Hr. destruct r as [q1 s1].
    apply worklistBody_Ok in Hr as (s0 & faces & Hm & _).
    apply markSymmetricalEdges_Ok in Hm as (? & ? & Hm & _).
    apply markPair_spec in Hm as (_ & _ & H0 & H1 & _).
    rewrite Hst1 in H0, H1. done.
  - by eapply findSymmetricalVertices_seed_faces.
Qed.

(** X4. On a table with an entry per component, a run of the engine that
    succeeds had a seed that names components of the mesh; with a seed
    that does not, and fuel for the worklist, the run indexes a vector out
    of its bounds. *)
Theorem findSymmetricalVertices_seed_bounds (fuel : nat)
    (selection : ComponentSelection) (st : PolySymmetryData) :
  tableLengths meshData st ->
  (forall st',
     findSymmetricalVertices intersection meshData fuel selection st = Ok st' ->
     seedInBounds meshData selection = true) /\
  ((unexamined (examinedEdges st) < fuel)%nat ->
   seedInBounds meshData selection = false ->
   exists j,
     findSymmetricalVertices intersection meshData fuel selection st
     = OutOfRange j).
Proof.
  intros (LV & _ & LE & _ & LF & _).
  assert (Hok : forall st',
     findSymmetricalVertices intersection meshData fuel selection st = Ok st' ->
     seedInBounds meshData selection = true).
  { intros st' H.
    apply findSymmetricalVertices_seed_within in H
      as ((V0 & V1) & (E0 & E1) & (F0 & F1)).
    unfold seedInBounds. rewrite !andb_true_iff, !inBounds_spec. lia. }
  split; [exact Hok|]. intros Hfuel Hseed.
  destruct (findSymmetricalVertices intersection meshData fuel selection st)
    as [st'|j|] eqn:Hrun.
  - rewrite (Hok st' eq_refl) in Hseed. discriminate.
  - by exists j.
  - by apply findSymmetricalVertices_fuel in Hrun.
Qed.

End Seed.

Lemma markStep_anyMark (AV AE AF : Z -> Prop) (freshV : Prop)
    (st st' : PolySymmetryData) :
  markStep AV AE AF freshV st st' -> anyMark st st'.
Proof.
  intros [(i0 & i1 & _ & _ & _ & Hm)|[(i0 & i1 & _ & _ & Hm)|
          (i0 & i1 & _ & _ & _ & _ & Hm)]]; exists i0, i1; auto.
Qed.

Lemma rtc_markStep_extends (AV AE AF : Z -> Prop) (freshV : Prop)
    (st st' : PolySymmetryData) :
  rtc (markStep AV AE AF freshV) st st' -> tableExtends st st'.
Proof.
  induction 1 as [st|st st1 st' Hstep _ IH]; [apply tableExtends_refl|].
  eapply tableExtends_trans; [|exact IH].
  by eapply anyMark_extends, markStep_anyMark.
Qed.

(** The entry of an examined face is not written again. *)
Lemma markStep_face_kept (AV AE AF : Z -> Prop) (freshV : Prop)
    (st st' : PolySymmetryData) (f b : Z) :
  markStep AV AE AF freshV st st' ->
  vget (examinedFaces st) f = Ok true /\ vget (faceSymmetryIndices st) f = Ok b ->
  vget (examinedFaces st') f = Ok true /\ vget (faceSymmetryIndices st') f = Ok b.
Proof.
  intros [(i0 & i1 & _ & _ & _ & Hm)|[(i0 & i1 & _ & _ & Hm)|
          (i0 & i1 & _ & _ & Hx0 & Hx1 & Hm)]] [Hf Hb].
  - by apply markSymmetricalVertices_Ok in Hm as (idx & ex & _ & ->).
  - by apply markSymmetricalEdges_Ok in Hm as (idx & ex & _ & ->).
  - apply markSymmetricalFaces_Ok in Hm as (idx & ex & Hm & ->). simpl.
    apply markPair_spec in Hm as (_ & _ & _ & _ & _ & _ & _ & _ & _ & _ & Ho).
    assert (Hn0 : f <> i0) by congruence.
    assert (Hn1 : f <> i1) by congruence.
    by destruct (Ho f Hn0 Hn1) as [-> ->].
Qed.

Lemma rtc_markStep_face_kept (AV AE AF : Z -> Prop) (freshV : Prop)
    (st st' : PolySymmetryData) (f b : Z) :
  rtc (markStep AV AE AF freshV) st st' ->
  vget (examinedFaces st) f = Ok true /\ vget (faceSymmetryIndices st) f = Ok b ->
  vget (examinedFaces st') f = Ok true /\ vget (faceSymmetryIndices st') f = Ok b.
Proof.
  induction 1 as [|st st1 st' Hstep _ IH]; [done|].
  intros H. by eapply IH, markStep_face_kept.
Qed.

Section SeedRecorded.
Variable intersection : list Z -> list Z -> list Z.
Variable meshData : MeshData.

Lemma closedVertexTable_anywhere (st : PolySymmetryData) :
  closedVertexTable anywhere st.
Proof. by intros v p _ _. Qed.

(** After the seed faces are marked, the worklist only marks faces that
    are not examined. *)
Lemma worklist_steps (fuel : nat) (q : list (Z * Z)) (st st' : PolySymmetryData) :
  whileQueue (worklistBody intersection meshData) fuel q st = Ok st' ->
  rtc (markStep anywhere anywhere anywhere False) st st'.
Proof.
  intros H.
  eapply (whileQueue_inv
            (fun _ s => rtc (markStep anywhere anywhere anywhere False) st s));
    [| |exact H]; [|done].
  intros x q0 s q' s' HP Hb. etrans; [exact HP|].
  eapply (worklistBody_region intersection meshData anywhere anywhere anywhere
            False (closedShell_all _ _)); [| |exact Hb].
  - by apply Forall_forall.
  - apply closedVertexTable_anywhere.
Qed.

Lemma findSymmetricalVertices_seed_recorded_aux (fuel : nat)
    (selection : ComponentSelection) (st st' : PolySymmetryData) :
  findSymmetricalVertices intersection meshData fuel selection st = Ok st' ->
  vget (faceSymmetryIndices st') (fst (faceIndices selection))
  = Ok (snd (faceIndices selection)) /\
  vget (faceSymmetryIndices st') (snd (faceIndices selection))
  = Ok (fst (faceIndices selection)) /\
  vget (examinedFaces st') (fst (faceIndices selection)) = Ok true /\
  vget (examinedFaces st') (snd (faceIndices selection)) = Ok true /\
  vget (examinedVertices st') (fst (vertexIndices selection)) = Ok true /\
  vget (examinedVertices st') (snd (vertexIndices selection)) = Ok true /\
  vget (examinedEdges st') (fst (edgeIndices selection)) = Ok true /\
  vget (examinedEdges st') (snd (edgeIndices selection)) = Ok true.
Proof.
  unfold findSymmetricalVertices. fold (withLeftVertex selection st). intros H.
  inv_bind H as st1 Hst1.
  apply findFirstSymmetricalVertices_Ok in Hst1
    as (s1 & s2 & ed0 & a0 & b0 & ex0 & ed1 & a1 & b1 & ex1 & s3 & Hs1 & Hs2
        & _ & _ & _ & _ & _ & _ & _ & _ & Hs3 & Hf).
  (* the faces *)
  assert (R23 : rtc (markStep anywhere anywhere anywhere False) s2 s3).
  { eapply (markSymmetricalVertices_step anywhere anywhere anywhere False);
      [done | done | by intros [] | exact Hs3]. }
  assert (R3 : rtc (markStep anywhere anywhere anywhere False) s3 st1).
  { eapply (findSymmetricalVerticesOnFace_region intersection meshData
              anywhere anywhere anywhere False (closedShell_all _ _));
      [done | apply closedVertexTable_anywhere | exact Hf]. }
  assert (R2 : rtc (markStep anywhere anywhere anywhere False) s2 st').
  { etrans; [exact R23|]. etrans; [exact R3|]. by eapply worklist_steps. }
  pose proof Hs2 as Hs2'.
  apply markSymmetricalFaces_Ok in Hs2' as (idx & ex & Hm & Hs2').
  apply markPair_spec in Hm
    as (_ & _ & _ & _ & _ & _ & Hi1 & Hi0 & Hx0 & Hx1 & _).
  assert (Hi0' : vget idx (fst (faceIndices selection))
                 = Ok (snd (faceIndices selection))).
  { destruct (decide (fst (faceIndices selection) = snd (faceIndices selection)))
      as [Heq|Hne]; [|by apply Hi0].
    rewrite Heq in Hi1 |- *. done. }
  destruct (rtc_markStep_face_kept _ _ _ _ _ _ (fst (faceIndices selection))
              (snd (faceIndices selection)) R2) as [F0 F0'];
    [by rewrite Hs2'|].
  destruct (rtc_markStep_face_kept _ _ _ _ _ _ (snd (faceIndices selection))
              (fst (faceIndices selection)) R2) as [F1 F1'];
    [by rewrite Hs2'|].
  repeat (split; [done|]).
  (* the vertices *)
  assert (E1 : tableExtends s1 st').
  { eapply tableExtends_trans;
      [apply anyMark_extends; eexists _, _; right; right; exact Hs2|].
    by eapply rtc_markStep_extends. }
  apply markSymmetricalVertices_Ok in Hs1 as (idxv & exv & Hmv & ->).
  apply markPair_spec in Hmv as (_ & _ & _ & _ & _ & _ & _ & _ & V0 & V1 & _).
  destruct E1 as (_ & _ & _ & _ & [_ KV] & _). simpl in KV.
  split; [by apply KV|]. split; [by apply KV|].
  (* the edges *)
  destruct fuel as [|fuel]; [discriminate|]. simpl in H.
  inv_bind H as r Hr. destruct r as [q1 s4].
  pose proof (worklistBody_marks _ _ _ _ _ _ _ Hr) as R4.
  apply worklist_marks in H.
  apply worklistBody_Ok in Hr as (s0 & faces & Hm0 & _ & Hcase).
  assert (E0 : tableExtends s0 st').
  { apply rtc_anyMark_extends. etrans; [|exact H].
    destruct Hcase as [(_ & _ & ->)|(_ & _ & t2 & t3 & Ht2 & Ht3 & Ht4)];
      [done|].
    etrans; [apply rtc_once; eexists _, _; right; right; exact Ht2|].
    etrans; [by eapply findSymmetricalVerticesOnFace_marks|].
    by eapply findSymmetricalEdgesOnFace_marks. }
  apply markSymmetricalEdges_monotone in Hm0 as (_ & X0 & X1).
  destruct E0 as (_ & _ & _ & _ & _ & [_ KE] & _).
  split; by apply KE.
Qed.

(** X6. After a run of the engine the seed is recorded: the two seed faces are
    each other's partners, and the seed faces, the seed vertices and the
    seed edges are examined. *)
Theorem findSymmetricalVertices_seed_recorded (fuel : nat)
    (selection : ComponentSelection) (st st' : PolySymmetryData) :
  findSymmetricalVertices intersection meshData fuel selection st = Ok st' ->
  vget (faceSymmetryIndices st') (fst (faceIndices selection))
  = Ok (snd (faceIndices selection)) /\
  vget (faceSymmetryIndices st') (snd (faceIndices selection))
  = Ok (fst (faceIndices selection)) /\
  vget (examinedFaces st') (fst (faceIndices selection)) = Ok true /\
  vget (examinedFaces st') (snd (faceIndices selection)) = Ok true /\
  vget (examinedVertices st') (fst (vertexIndices selection)) = Ok true /\
  vget (examinedVertices st') (snd (vertexIndices selection)) = Ok true /\
  vget (examinedEdges st') (fst (edgeIndices selection)) = Ok true /\
  vget (examinedEdges st') (snd (edgeIndices selection)) = Ok true.
Proof. apply findSymmetricalVertices_seed_recorded_aux. Qed.

End SeedRecorded.

(** ** Accesses within bounds *)

Lemma forallb_inBounds (n : Z) (l : list Z) :
  forallb (inBounds n) l = true -> Forall (fun i => 0 <= i < n) l.
Proof.
  rewrite forallb_forall, Forall_forall. intros H x Hx%list_elem_of_In.
  by apply inBounds_spec, H.
Qed.

Lemma markPair_total (idx : list Z) (ex : list bool) (i0 i1 : Z) :
  length ex = length idx ->
  0 <= i0 < Z.of_nat (length idx) -> 0 <= i1 < Z.of_nat (length idx) ->
  exists idx' ex', markPair idx ex i0 i1 = Ok (idx', ex').
Proof.
  intros Hlen H0 H1. unfold markPair.
  rewrite (vset_in_range idx i0 i1) by done. simpl.
  rewrite (vset_in_range (<[Z.to_nat i0:=i1]> idx) i1 i0)
    by (rewrite length_insert; done). simpl.
  rewrite (vset_in_range ex i0 true) by lia. simpl.
  rewrite (vset_in_range (<[Z.to_nat i0:=true]> ex) i1 true)
    by (rewrite length_insert; lia). simpl.
  eauto.
Qed.

Lemma markPair_inBounds (n : Z) (idx idx' : list Z) (ex ex' : list bool)
    (i0 i1 : Z) :
  markPair idx ex i0 i1 = Ok (idx', ex') ->
  length idx = Z.to_nat n ->
  partnersInBounds n idx -> partnersInBounds n idx'.
Proof.
  intros (H0 & H1 & _ & _ & _ & _ & Hi1 & Hi0 & _ & _ & Hother)%markPair_spec
    Hlen Hin a b Ha.
  destruct (decide (a = i1)) as [->|Hn1].
  { right. assert (b = i0) by congruence. lia. }
  destruct (decide (a = i0)) as [->|Hn0].
  { right. rewrite Hi0 in Ha by done. assert (b = i1) by congruence. lia. }
  destruct (Hother a Hn0 Hn1) as [Heq _]. rewrite Heq in Ha. by eapply Hin.
Qed.

Lemma firstUnexamined_total (examined : list bool) (l : list Z) :
  Forall (fun x => 0 <= x < Z.of_nat (length examined)) l ->
  exists r, firstUnexamined examined l = Ok r.
Proof.
  induction 1 as [|x l Hx _ [r IH]]; simpl; [eauto|].
  destruct (vget_in_range examined x Hx) as [b ->]. simpl.
  destruct b; eauto.
Qed.

Section InBounds.
Variable intersection : list Z -> list Z -> list Z.
Variable meshData : MeshData.
Hypothesis Hwf : wfMesh meshData = true.
Hypothesis Hintersection : forall a b x, x ∈ intersection a b -> x ∈ a.

Lemma wfMesh_lengths :
  length (vertexData meshData) = Z.to_nat (numberOfVertices meshData) /\
  length (edgeData meshData) = Z.to_nat (numberOfEdges meshData) /\
  length (faceData meshData) = Z.to_nat (numberOfFaces meshData).
Proof.
  unfold wfMesh in Hwf. rewrite !andb_true_iff, !Nat.eqb_eq in Hwf. tauto.
Qed.

Lemma wfMesh_vertex (v : Z) (vd : ComponentData) :
  vget (vertexData meshData) v = Ok vd ->
  Forall (fun i => 0 <= i < numberOfVertices meshData) (connectedVertices vd) /\
  Forall (fun i => 0 <= i < numberOfEdges meshData) (connectedEdges vd) /\
  forall f sibs, faceVertexSiblings vd !! f = Some sibs ->
    Forall (fun i => 0 <= i < numberOfVertices meshData) sibs.
Proof.
  intros Hvd%vget_elem_of%list_elem_of_In.
  unfold wfMesh in Hwf. rewrite !andb_true_iff in Hwf.
  destruct Hwf as [[[_ HV] _] _]. rewrite forallb_forall in HV.
  specialize (HV _ Hvd). rewrite !andb_true_iff in HV.
  destruct HV as [[H1 H2] H3].
  split; [by apply forallb_inBounds|]. split; [by apply forallb_inBounds|].
  intros f sibs Hf%elem_of_map_to_list%list_elem_of_In.
  rewrite forallb_forall in H3. by apply forallb_inBounds, (H3 (f, sibs)).
Qed.

Lemma wfMesh_edge (e : Z) (ed : ComponentData) :
  vget (edgeData meshData) e = Ok ed ->
  (2 <= length (connectedVertices ed))%nat /\
  Forall (fun i => 0 <= i < numberOfVertices meshData) (connectedVertices ed) /\
  Forall (fun i => 0 <= i < numberOfFaces meshData) (connectedFaces ed).
Proof.
  intros Hed%vget_elem_of%list_elem_of_In.
  unfold wfMesh in Hwf. rewrite !andb_true_iff in Hwf.
  destruct Hwf as [[_ HE] _]. rewrite forallb_forall in HE.
  specialize (HE _ Hed). rewrite !andb_true_iff, Nat.leb_le in HE.
  destruct HE as [[H1 H2] H3].
  split; [done|]. split; by apply forallb_inBounds.
Qed.

Lemma wfMesh_face (f : Z) (fd : ComponentData) :
  vget (faceData meshData) f = Ok fd ->
  Forall (fun i => 0 <= i < numberOfVertices meshData) (connectedVertices fd) /\
  Forall (fun i => 0 <= i < numberOfEdges meshData) (connectedEdges fd).
Proof.
  intros Hfd%vget_elem_of%list_elem_of_In.
  unfold wfMesh in Hwf. rewrite !andb_true_iff in Hwf.
  destruct Hwf as [_ HF]. rewrite forallb_forall in HF.
  specialize (HF _ Hfd). rewrite !andb_true_iff in HF.
  destruct HF as [H1 H2]. split; by apply forallb_inBounds.
Qed.

(** The two endpoints that the methods read of an edge. *)
Lemma wfMesh_endpoints (e : Z) :
  0 <= e < numberOfEdges meshData ->
  exists ed c0 c1,
    vget (edgeData meshData) e = Ok ed /\
    vget (connectedVertices ed) 0 = Ok c0 /\
    vget (connectedVertices ed) 1 = Ok c1 /\
    0 <= c0 < numberOfVertices meshData /\
    0 <= c1 < numberOfVertices meshData.
Proof.
  intros He. destruct wfMesh_lengths as (_ & LE & _).
  destruct (vget_in_range (edgeData meshData) e) as [ed Hed]; [lia|].
  destruct (wfMesh_edge _ _ Hed) as (Hlen & Hcv & _).
  destruct (vget_in_range (connectedVertices ed) 0) as [c0 Hc0]; [lia|].
  destruct (vget_in_range (connectedVertices ed) 1) as [c1 Hc1]; [lia|].
  exists ed, c0, c1. rewrite Forall_forall in Hcv.
  repeat (split; [done|]).
  split; by eapply Hcv, vget_elem_of.
Qed.

(** *** The table stays well formed *)

Lemma wfTable_reset : wfTable meshData (reset meshData).
Proof.
  unfold wfTable, tableLengths, reset. simpl. rewrite !length_replicate.
  split; [done|].
  repeat (split; [by intros a b ->%vget_replicate; left|]).
  apply partnersExamined_replicate.
Qed.

Lemma anyMark_wfTable (st st' : PolySymmetryData) :
  anyMark st st' -> wfTable meshData st -> wfTable meshData st'.
Proof.
  intros (i0 & i1 & [Hm|[Hm|Hm]])
    ((LV & LVi & LE & LEi & LF & LFi) & BV & BE & BF & PX).
  - apply markSymmetricalVertices_Ok in Hm as (idx & ex & Hm & ->).
    pose proof (markPair_spec _ _ _ _ _ _ Hm)
      as (_ & _ & _ & _ & Hl & Hlx & _).
    unfold wfTable, tableLengths. simpl.
    split; [repeat split; congruence|].
    split; [by eapply markPair_inBounds|].
    split; [done|]. split; [done|]. by eapply markPair_partnersExamined.
  - apply markSymmetricalEdges_Ok in Hm as (idx & ex & Hm & ->).
    pose proof (markPair_spec _ _ _ _ _ _ Hm)
      as (_ & _ & _ & _ & Hl & Hlx & _).
    unfold wfTable, tableLengths. simpl.
    split; [repeat split; congruence|].
    split; [done|]. split; [by eapply markPair_inBounds|]. done.
  - apply markSymmetricalFaces_Ok in Hm as (idx & ex & Hm & ->).
    pose proof (markPair_spec _ _ _ _ _ _ Hm)
      as (_ & _ & _ & _ & Hl & Hlx & _).
    unfold wfTable, tableLengths. simpl.
    split; [repeat split; congruence|].
    split; [done|]. split; [done|]. split; [by eapply markPair_inBounds|]. done.
Qed.

Lemma rtc_anyMark_wfTable (st st' : PolySymmetryData) :
  rtc anyMark st st' -> wfTable meshData st -> wfTable meshData st'.
Proof.
  induction 1 as [|st st1 st' Hstep _ IH]; [done|].
  intros H. by eapply IH, anyMark_wfTable.
Qed.

(** *** The calls succeed *)

Lemma markSymmetricalVertices_total (i0 i1 : Z) (st : PolySymmetryData) :
  wfTable meshData st ->
  0 <= i0 < numberOfVertices meshData -> 0 <= i1 < numberOfVertices meshData ->
  exists st', markSymmetricalVertices i0 i1 st = Ok st' /\ wfTable meshData st'.
Proof.
  intros Hst H0 H1. pose proof Hst as ((LV & LVi & _) & _).
  destruct (markPair_total (vertexSymmetryIndices st) (examinedVertices st) i0 i1)
    as (idx & ex & Hm); [congruence | lia | lia |].
  assert (Hs : markSymmetricalVertices i0 i1 st = Ok (withVertices st idx ex))
    by (by rewrite markSymmetricalVertices_markPair, Hm).
  eexists. split; [exact Hs|].
  eapply anyMark_wfTable; [|exact Hst]. exists i0, i1. by left.
Qed.

Lemma markSymmetricalEdges_total (i0 i1 : Z) (st : PolySymmetryData) :
  wfTable meshData st ->
  0 <= i0 < numberOfEdges meshData -> 0 <= i1 < numberOfEdges meshData ->
  exists st', markSymmetricalEdges i0 i1 st = Ok st' /\ wfTable meshData st'.
Proof.
  intros Hst H0 H1. pose proof Hst as ((_ & _ & LE & LEi & _) & _).
  destruct (markPair_total (edgeSymmetryIndices st) (examinedEdges st) i0 i1)
    as (idx & ex & Hm); [congruence | lia | lia |].
  assert (Hs : markSymmetricalEdges i0 i1 st = Ok (withEdges st idx ex))
    by (by rewrite markSymmetricalEdges_markPair, Hm).
  eexists. split; [exact Hs|].
  eapply anyMark_wfTable; [|exact Hst]. exists i0, i1. right. by left.
Qed.

Lemma markSymmetricalFaces_total (i0 i1 : Z) (st : PolySymmetryData) :
  wfTable meshData st ->
  0 <= i0 < numberOfFaces meshData -> 0 <= i1 < numberOfFaces meshData ->
  exists st', markSymmetricalFaces i0 i1 st = Ok st' /\ wfTable meshData st'.
Proof.
  intros Hst H0 H1. pose proof Hst as ((_ & _ & _ & _ & LF & LFi) & _).
  destruct (markPair_total (faceSymmetryIndices st) (examinedFaces st) i0 i1)
    as (idx & ex & Hm); [congruence | lia | lia |].
  assert (Hs : markSymmetricalFaces i0 i1 st = Ok (withFaces st idx ex))
    by (by rewrite markSymmetricalFaces_markPair, Hm).
  eexists. split; [exact Hs|].
  eapply anyMark_wfTable; [|exact Hst]. exists i0, i1. right. by right.
Qed.

Lemma getUnexaminedVertexSibling_total (vertexIndex faceIndex : Z)
    (st : PolySymmetryData) :
  wfTable meshData st -> 0 <= vertexIndex < numberOfVertices meshData ->
  exists r, getUnexaminedVertexSibling meshData vertexIndex faceIndex st = Ok r.
Proof.
  intros ((LV & _) & _) Hv. destruct wfMesh_lengths as (LVd & _).
  unfold getUnexaminedVertexSibling.
  destruct (vget_in_range (vertexData meshData) vertexIndex) as [vd Hvd]; [lia|].
  rewrite Hvd. simpl. apply firstUnexamined_total.
  destruct (wfMesh_vertex _ _ Hvd) as (_ & _ & Hsibs).
  destruct (faceVertexSiblings vd !! faceIndex) as [sibs|] eqn:Hf; simpl;
    [|constructor].
  eapply Forall_impl; [exact (Hsibs _ _ Hf)|]. intros x ?. simpl in *. lia.
Qed.

Lemma getUnexaminedFace_total (edgeIndex : Z) (st : PolySymmetryData) :
  wfTable meshData st -> 0 <= edgeIndex < numberOfEdges meshData ->
  exists r, getUnexaminedFace meshData edgeIndex st = Ok r.
Proof.
  intros ((_ & _ & _ & _ & LF & _) & _) He.
  destruct wfMesh_lengths as (_ & LEd & _). unfold getUnexaminedFace.
  destruct (vget_in_range (edgeData meshData) edgeIndex) as [ed Hed]; [lia|].
  rewrite Hed. simpl. apply firstUnexamined_total.
  destruct (wfMesh_edge _ _ Hed) as (_ & _ & Hfs).
  eapply Forall_impl; [exact Hfs|]. intros x ?. simpl in *. lia.
Qed.

Lemma getUnexaminedFaces_total (edgePair : Z * Z) (st : PolySymmetryData) :
  wfTable meshData st ->
  0 <= fst edgePair < numberOfEdges meshData ->
  0 <= snd edgePair < numberOfEdges meshData ->
  exists faces, getUnexaminedFaces intersection meshData edgePair st = Ok faces.
Proof.
  intros Hst He0 He1. pose proof Hst as ((_ & _ & _ & _ & LF & _) & _).
  destruct wfMesh_lengths as (_ & LEd & _). unfold getUnexaminedFaces.
  destruct (vget_in_range (edgeData meshData) (fst edgePair)) as [ed0 Hed0];
    [lia|].
  destruct (vget_in_range (edgeData meshData) (snd edgePair)) as [ed1 Hed1];
    [lia|].
  rewrite Hed0. simpl. rewrite Hed1. simpl.
  destruct (0 <? length _)%nat.
  - destruct (forEach_total (fun _ => True) (sharedFacesBody st)
                (intersection (connectedFaces ed0) (connectedFaces ed1)))
      with (s := (-1, -1)) as (faces & Hfaces & _); [|done|by exists faces].
    intros f faces Hf%Hintersection _.
    destruct (wfMesh_edge _ _ Hed0) as (_ & _ & Hfs).
    rewrite Forall_forall in Hfs. specialize (Hfs _ Hf).
    unfold sharedFacesBody.
    destruct (vget_in_range (examinedFaces st) f) as [b ->]; [lia|]. simpl.
    destruct b; [eauto|].
    destruct (_ =? _); [eauto|]. destruct (_ =? _); eauto.
  - destruct (getUnexaminedFace_total (fst edgePair) st Hst He0) as [f0 ->].
    destruct (getUnexaminedFace_total (snd edgePair) st Hst He1) as [f1 ->].
    simpl. eauto.
Qed.

Lemma faceVerticesBody_total (facePair : Z * Z) (x : Z) (q : list Z)
    (st : PolySymmetryData) :
  wfTable meshData st -> vget (examinedVertices st) x = Ok true ->
  Forall (fun v => vget (examinedVertices st) v = Ok true) q ->
  exists q' st',
    faceVerticesBody meshData facePair x q st = Ok (q', st') /\
    wfTable meshData st' /\
    Forall (fun v => vget (examinedVertices st') v = Ok true) q'.
Proof.
  intros Hst Hx Hq.
  pose proof Hst as ((LV & LVi & _) & BV & _ & _ & [_ PX]).
  destruct (PX _ Hx) as (p & Hp & Hpne).
  assert (Hxr : 0 <= x < numberOfVertices meshData)
    by (apply vget_range in Hx; lia).
  assert (Hpr : 0 <= p < numberOfVertices meshData)
    by (destruct (BV _ _ Hp); [done | lia]).
  destruct (getUnexaminedVertexSibling_total x (fst facePair) st Hst Hxr)
    as [n0 Hn0].
  destruct (getUnexaminedVertexSibling_total p (snd facePair) st Hst Hpr)
    as [n1 Hn1].
  assert (Hbody : faceVerticesBody meshData facePair x q st
            = if (n0 =? -1) || (n1 =? -1) then Ok (q, st)
              else st1 ← markSymmetricalVertices n0 n1 st; Ok (q ++ [n0], st1)).
  { unfold faceVerticesBody. rewrite Hp. simpl.
    rewrite Hn0. simpl. by rewrite Hn1. }
  rewrite Hbody.
  destruct (Z.eqb_spec n0 (-1)) as [He0|Hne0]; simpl; [by exists q, st|].
  destruct (Z.eqb_spec n1 (-1)) as [He1|Hne1]; simpl; [by exists q, st|].
  apply getUnexaminedVertexSibling_unexamined in Hn0 as [?|Hn0]; [done|].
  apply getUnexaminedVertexSibling_unexamined in Hn1 as [?|Hn1]; [done|].
  destruct (markSymmetricalVertices_total n0 n1 st Hst) as (st' & Hm & Hst');
    [apply vget_range in Hn0; lia | apply vget_range in Hn1; lia |].
  rewrite Hm. simpl.
  exists (q ++ [n0]), st'. split; [done|]. split; [done|].
  assert (Hext : tableExtends st st')
    by (apply anyMark_extends; exists n0, n1; by left).
  destruct Hext as (_ & _ & _ & _ & [_ KV] & _).
  apply Forall_app. split.
  - eapply Forall_impl; [exact Hq|]. intros v Hv. by apply KV.
  - constructor; [|constructor].
    apply markSymmetricalVertices_Ok in Hm as (idx & ex & Hm & ->). simpl.
    by apply markPair_spec in Hm as (_ & _ & _ & _ & _ & _ & _ & _ & ? & _).
Qed.

Lemma findSymmetricalVerticesOnFace_total (facePair : Z * Z)
    (st : PolySymmetryData) :
  wfTable meshData st -> 0 <= fst facePair < numberOfFaces meshData ->
  exists st',
    findSymmetricalVerticesOnFace meshData facePair st = Ok st' /\
    wfTable meshData st'.
Proof.
  intros Hst Hf. pose proof Hst as ((LV & _) & _).
  destruct wfMesh_lengths as (_ & _ & LFd).
  pose proof (findSymmetricalVerticesOnFace_fuel meshData facePair st) as Hfuel.
  unfold findSymmetricalVerticesOnFace in *.
  destruct (vget_in_range (faceData meshData) (fst facePair)) as [fd Hfd]; [lia|].
  rewrite Hfd in *. simpl in *.
  destruct (wfMesh_face _ _ Hfd) as [Hvs _].
  destruct (forEach_total
              (Forall (fun v => vget (examinedVertices st) v = Ok true))
              (fun v queue =>
                 ex ← vget (examinedVertices st) v;
                 if (ex : bool) then Ok (queue ++ [v]) else Ok queue)
              (connectedVertices fd)) with (s := ([] : list Z))
    as (q0 & Hq0 & HPq0); [|constructor|].
  { intros v queue Hv HP. rewrite Forall_forall in Hvs. specialize (Hvs _ Hv).
    destruct (vget_in_range (examinedVertices st) v) as [b Hb]; [lia|].
    rewrite Hb. simpl. destruct b; [|eauto].
    eexists. split; [done|]. apply Forall_app. split; [done|]. by constructor. }
  rewrite Hq0 in *. simpl in *.
  destruct (whileQueue_safe
              (fun q s => wfTable meshData s /\
                 Forall (fun v => vget (examinedVertices s) v = Ok true) q)
              (faceVerticesBody meshData facePair))
    with (fuel := (length q0 + unexamined (examinedVertices st))%nat)
         (q := q0) (s := st) as (st' & Hrun & Hst' & _); [|done|done|eauto].
  intros x q s [Hs Hq]. apply Forall_cons in Hq as [Hx Hq].
  destruct (faceVerticesBody_total facePair x q s Hs Hx Hq)
    as (q' & s' & Hb & Hs' & Hq').
  by exists q', s'.
Qed.

Lemma faceEdgesBody_total (e : Z) (q : list (Z * Z)) (st : PolySymmetryData) :
  wfTable meshData st -> 0 <= e < numberOfEdges meshData ->
  exists q' st', faceEdgesBody intersection meshData e (q, st) = Ok (q', st').
Proof.
  intros Hst He.
  pose proof Hst as ((LV & LVi & LE & LEi & _) & BV & _).
  destruct wfMesh_lengths as (LVd & LEd & _).
  unfold faceEdgesBody.
  destruct (vget_in_range (examinedEdges st) e) as [b ->]; [lia|]. simpl.
  destruct b; [eauto|].
  destruct (wfMesh_endpoints e He)
    as (ed & c0 & c1 & Hed & Hc0 & Hc1 & Hr0 & Hr1).
  rewrite Hed. simpl. rewrite Hc0. simpl.
  destruct (vget_in_range (vertexSymmetryIndices st) c0) as [vertex0 Hv0]; [lia|].
  rewrite Hv0. simpl. rewrite Hc1. simpl.
  destruct (vget_in_range (vertexSymmetryIndices st) c1) as [vertex1 Hv1]; [lia|].
  rewrite Hv1. simpl.
  destruct (Z.eqb_spec vertex0 (-1)) as [?|Hne0]; simpl; [eauto|].
  destruct (Z.eqb_spec vertex1 (-1)) as [?|Hne1]; simpl; [eauto|].
  destruct (BV _ _ Hv0) as [?|Hb0]; [done|].
  destruct (BV _ _ Hv1) as [?|Hb1]; [done|].
  destruct (vget_in_range (vertexData meshData) vertex0) as [vd0 Hvd0]; [lia|].
  destruct (vget_in_range (vertexData meshData) vertex1) as [vd1 Hvd1]; [lia|].
  rewrite Hvd0. simpl. rewrite Hvd1. simpl.
  destruct (Nat.eqb_spec
              (length (intersection (connectedEdges vd0) (connectedEdges vd1))) 1)
    as [Hlen|Hlen]; simpl; [|eauto].
  destruct (vget_in_range
              (intersection (connectedEdges vd0) (connectedEdges vd1)) 0)
    as [edgeIndex Hei]; [lia|].
  rewrite Hei. simpl.
  assert (Hir : 0 <= edgeIndex < numberOfEdges meshData).
  { destruct (wfMesh_vertex _ _ Hvd0) as (_ & Hes & _).
    rewrite Forall_forall in Hes. by eapply Hes, Hintersection, vget_elem_of. }
  destruct (vget_in_range (examinedEdges st) edgeIndex) as [exi ->]; [lia|].
  simpl.
  destruct (markSymmetricalEdges_total e edgeIndex st Hst He Hir)
    as (st' & -> & _).
  simpl. eauto.
Qed.

(** The pairs of a worklist name edges of the mesh. *)
Lemma faceEdgesBody_queue (e : Z) (q q' : list (Z * Z))
    (st st' : PolySymmetryData) :
  tableLengths meshData st ->
  Forall (fun p => 0 <= fst p < numberOfEdges meshData /\
                   0 <= snd p < numberOfEdges meshData) q ->
  faceEdgesBody intersection meshData e (q, st) = Ok (q', st') ->
  Forall (fun p => 0 <= fst p < numberOfEdges meshData /\
                   0 <= snd p < numberOfEdges meshData) q'.
Proof.
  intros (_ & _ & LE & _) Hq
    [[-> ->]|(ed & c0 & c1 & vertex0 & vertex1 & vd0 & vd1 & edgeIndex & exi
              & _ & _ & _ & _ & _ & _ & _ & _ & _ & _ & -> & Hm)]
    %faceEdgesBody_Ok; [done|].
  destruct exi; [done|]. apply Forall_app. split; [done|].
  constructor; [|constructor]. simpl.
  apply markSymmetricalEdges_Ok in Hm as (idx & ex & Hm & _).
  apply markPair_spec in Hm as (_ & _ & H0 & H1 & _). lia.
Qed.

Lemma findSymmetricalEdgesOnFace_total (faceIndex : Z) (q : list (Z * Z))
    (st : PolySymmetryData) :
  wfTable meshData st -> 0 <= faceIndex < numberOfFaces meshData ->
  Forall (fun p => 0 <= fst p < numberOfEdges meshData /\
                   0 <= snd p < numberOfEdges meshData) q ->
  exists q' st',
    findSymmetricalEdgesOnFace intersection meshData q faceIndex st = Ok (q', st') /\
    wfTable meshData st' /\
    Forall (fun p => 0 <= fst p < numberOfEdges meshData /\
                     0 <= snd p < numberOfEdges meshData) q'.
Proof.
  intros Hst Hf Hq. destruct wfMesh_lengths as (_ & _ & LFd).
  unfold findSymmetricalEdgesOnFace.
  destruct (vget_in_range (faceData meshData) faceIndex) as [fd Hfd]; [lia|].
  rewrite Hfd. simpl. destruct (wfMesh_face _ _ Hfd) as [_ Hes].
  destruct (forEach_total
              (fun s : list (Z * Z) * PolySymmetryData =>
                 wfTable meshData (snd s) /\
                 Forall (fun p => 0 <= fst p < numberOfEdges meshData /\
                                  0 <= snd p < numberOfEdges meshData) (fst s))
              (faceEdgesBody intersection meshData) (connectedEdges fd))
    with (s := (q, st)) as ([q' st'] & Hrun & Hst' & Hq'); [|done|by exists q', st'].
  intros e [q1 s1] He [Hs1 Hq1]. simpl in *.
  rewrite Forall_forall in Hes. specialize (Hes _ He).
  destruct (faceEdgesBody_total e q1 s1 Hs1 Hes) as (q2 & s2 & Hb).
  exists (q2, s2). split; [done|]. simpl. split.
  - eapply rtc_anyMark_wfTable; [|exact Hs1]. by eapply faceEdgesBody_marks.
  - eapply faceEdgesBody_queue; [|exact Hq1|exact Hb]. by destruct Hs1.
Qed.

Lemma findFirstSymmetricalVertices_total (selection : ComponentSelection)
    (st : PolySymmetryData) :
  wfTable meshData st -> seedInBounds meshData selection = true ->
  exists st',
    findFirstSymmetricalVertices meshData selection st = Ok st' /\
    wfTable meshData st'.
Proof.
  intros Hst Hseed. unfold seedInBounds in Hseed.
  rewrite !andb_true_iff, !inBounds_spec in Hseed.
  destruct Hseed as [[[[[V0 V1] E0] E1] F0] F1].
  unfold findFirstSymmetricalVertices.
  destruct (markSymmetricalVertices_total _ _ st Hst V0 V1) as (s1 & -> & Hs1).
  simpl.
  destruct (markSymmetricalFaces_total _ _ s1 Hs1 F0 F1) as (s2 & -> & Hs2).
  simpl. pose proof Hs2 as ((LV & _) & _).
  destruct (wfMesh_endpoints _ E0)
    as (ed0 & a0 & b0 & Hed0 & Ha0 & Hb0 & Ra0 & Rb0).
  rewrite Hed0. simpl. rewrite Ha0. simpl. rewrite Hb0. simpl.
  destruct (vget_in_range (examinedVertices s2) a0) as [ex0 ->]; [lia|]. simpl.
  destruct (wfMesh_endpoints _ E1)
    as (ed1 & a1 & b1 & Hed1 & Ha1 & Hb1 & Ra1 & Rb1).
  rewrite Hed1. simpl. rewrite Ha1. simpl. rewrite Hb1. simpl.
  destruct (vget_in_range (examinedVertices s2) a1) as [ex1 ->]; [lia|]. simpl.
  destruct (markSymmetricalVertices_total (if ex0 then b0 else a0)
              (if ex1 then b1 else a1) s2 Hs2) as (s3 & -> & Hs3);
    [by destruct ex0 | by destruct ex1 |].
  simpl. by apply findSymmetricalVerticesOnFace_total.
Qed.

Lemma worklistBody_total (edgePair : Z * Z) (q : list (Z * Z))
    (st : PolySymmetryData) :
  wfTable meshData st ->
  Forall (fun p => 0 <= fst p < numberOfEdges meshData /\
                   0 <= snd p < numberOfEdges meshData) (edgePair :: q) ->
  exists q' st',
    worklistBody intersection meshData edgePair q st = Ok (q', st') /\
    wfTable meshData st' /\
    Forall (fun p => 0 <= fst p < numberOfEdges meshData /\
                     0 <= snd p < numberOfEdges meshData) q'.
Proof.
  intros Hst [[E0 E1] Hq]%Forall_cons. unfold worklistBody.
  destruct (markSymmetricalEdges_total _ _ st Hst E0 E1) as (s1 & -> & Hs1).
  simpl.
  destruct (getUnexaminedFaces_total edgePair s1 Hs1 E0 E1) as [faces Hfaces].
  rewrite Hfaces. simpl.
  destruct (Z.eqb_spec (fst faces) (-1)) as [?|Hn0]; simpl; [by exists q, s1|].
  destruct (Z.eqb_spec (snd faces) (-1)) as [?|Hn1]; simpl; [by exists q, s1|].
  pose proof Hs1 as ((_ & _ & _ & _ & LF & _) & _).
  destruct (getUnexaminedFaces_region intersection meshData anywhere anywhere
              anywhere (closedShell_all _ _) edgePair faces s1 I I Hfaces)
    as [[?|[_ X0]] [?|[_ X1]]]; try done.
  apply vget_range in X0, X1.
  destruct (markSymmetricalFaces_total (fst faces) (snd faces) s1 Hs1)
    as (s2 & -> & Hs2); [lia | lia |].
  simpl.
  destruct (findSymmetricalVerticesOnFace_total faces s2 Hs2) as (s3 & -> & Hs3);
    [lia|].
  simpl. apply findSymmetricalEdgesOnFace_total; [done | lia | done].
Qed.

Lemma findSymmetricalVertices_total (fuel : nat) (selection : ComponentSelection)
    (st : PolySymmetryData) :
  wfTable meshData st -> seedInBounds meshData selection = true ->
  (unexamined (examinedEdges st) < fuel)%nat ->
  exists st',
    findSymmetricalVertices intersection meshData fuel selection st = Ok st' /\
    wfTable meshData st'.
Proof.
  intros Hst Hseed Hfuel.
  pose proof (findSymmetricalVertices_fuel intersection meshData fuel selection
                st Hfuel) as Hnf.
  unfold findSymmetricalVertices in *.
  fold (withLeftVertex selection st) in *.
  assert (Hst0 : wfTable meshData (withLeftVertex selection st))
    by (by rewrite withLeftVertex_tables).
  destruct (findFirstSymmetricalVertices_total selection _ Hst0 Hseed)
    as (st1 & Hfirst & Hst1).
  rewrite Hfirst in *. simpl in *.
  destruct (whileQueue_safe
              (fun q s => wfTable meshData s /\
                 Forall (fun p => 0 <= fst p < numberOfEdges meshData /\
                                  0 <= snd p < numberOfEdges meshData) q)
              (worklistBody intersection meshData))
    with (fuel := fuel) (q := [edgeIndices selection]) (s := st1)
    as (st' & Hrun & Hst' & _); [| |done|eauto].
  - intros x q s [Hs Hq]. by apply worklistBody_total.
  - split; [done|]. constructor; [|constructor].
    unfold seedInBounds in Hseed.
    rewrite !andb_true_iff, !inBounds_spec in Hseed. tauto.
Qed.

Lemma unexamined_le_length (ex : list bool) : (unexamined ex <= length ex)%nat.
Proof. unfold unexamined. apply length_filter. Qed.

(** X1. On a well-formed mesh, with a seed that names components of the mesh,
    the propagation engine indexes no vector out of its bounds: with fuel
    for one iteration more than the mesh has edges, it returns a table from
    the table after [reset], and from every well-formed table, and the
    table that it returns is well formed. *)
Theorem findSymmetricalVertices_in_bounds (fuel : nat)
    (selection : ComponentSelection) :
  seedInBounds meshData selection = true ->
  (Z.to_nat (numberOfEdges meshData) < fuel)%nat ->
  (exists st',
     findSymmetricalVertices intersection meshData fuel selection (reset meshData)
     = Ok st' /\ wfTable meshData st') /\
  (forall st, wfTable meshData st ->
     exists st',
       findSymmetricalVertices intersection meshData fuel selection st = Ok st' /\
       wfTable meshData st').
Proof.
  intros Hseed Hfuel.
  assert (Hall : forall st, wfTable meshData st ->
     exists st',
       findSymmetricalVertices intersection meshData fuel selection st = Ok st' /\
       wfTable meshData st').
  { intros st Hst. apply findSymmetricalVertices_total; [done..|].
    pose proof Hst as ((_ & _ & LE & _) & _).
    pose proof (unexamined_le_length (examinedEdges st)). lia. }
  split; [|exact Hall]. apply Hall, wfTable_reset.
Qed.

(** *** The derived sides *)

Lemma edgeSideBody_total (st : PolySymmetryData) (i : Z) (sides : list Z) :
  length (vertexSides st) = Z.to_nat (numberOfVertices meshData) ->
  length sides = Z.to_nat (numberOfEdges meshData) ->
  0 <= i < numberOfEdges meshData ->
  exists sides',
    edgeSideBody meshData st i sides = Ok sides' /\ length sides' = length sides.
Proof.
  intros LV LS Hi. unfold edgeSideBody.
  destruct (wfMesh_endpoints i Hi)
    as (ed & c0 & c1 & Hed & Hc0 & Hc1 & Hr0 & Hr1).
  rewrite Hed. simpl. rewrite Hc0. simpl.
  destruct (vget_in_range (vertexSides st) c0) as [sv0 ->]; [lia|]. simpl.
  rewrite Hc1. simpl.
  destruct (vget_in_range (vertexSides st) c1) as [sv1 ->]; [lia|]. simpl.
  repeat match goal with
         | |- context [if ?c then _ else _] => destruct c
         end;
    try (rewrite vset_in_range by lia; eexists; split; [done|];
         by rewrite length_insert).
  by exists sides.
Qed.

Lemma faceSideBody_total (st : PolySymmetryData) (i : Z) (sides : list Z) :
  length (vertexSides st) = Z.to_nat (numberOfVertices meshData) ->
  length sides = Z.to_nat (numberOfFaces meshData) ->
  0 <= i < numberOfFaces meshData ->
  exists sides',
    faceSideBody meshData st i sides = Ok sides' /\ length sides' = length sides.
Proof.
  intros LV LS Hi. destruct wfMesh_lengths as (_ & _ & LFd).
  unfold faceSideBody.
  destruct (vget_in_range (faceData meshData) i) as [fd Hfd]; [lia|].
  rewrite Hfd. simpl. destruct (wfMesh_face _ _ Hfd) as [Hvs _].
  destruct (forEach_total (fun _ => True)
              (fun v acc => sv ← vget (vertexSides st) v; Ok (acc ++ [sv]))
              (connectedVertices fd)) with (s := ([] : list Z))
    as (svs & -> & _); [|done|].
  { intros v acc Hv _. rewrite Forall_forall in Hvs. specialize (Hvs _ Hv).
    destruct (vget_in_range (vertexSides st) v) as [sv ->]; [lia|]. simpl.
    eauto. }
  simpl. rewrite vset_in_range by lia.
  eexists. split; [done|]. by rewrite length_insert.
Qed.

Lemma finalizeSymmetry_total (st : PolySymmetryData) :
  sideLengths meshData st ->
  exists st', finalizeSymmetry meshData st = Ok st' /\ sideLengths meshData st'.
Proof.
  intros (LV & LE & LF). unfold finalizeSymmetry.
  destruct (forEach_total
              (fun sides => length sides = Z.to_nat (numberOfEdges meshData))
              (edgeSideBody meshData st) (seqZ 0 (numberOfEdges meshData)))
    with (s := edgeSides st) as (es & -> & Les); [|done|].
  { intros i sides [Hi0 Hi1]%elem_of_seqZ Hs.
    destruct (edgeSideBody_total st i sides LV Hs) as (sides' & Hb & Hl); [lia|].
    exists sides'. split; [done | congruence]. }
  simpl.
  destruct (forEach_total
              (fun sides => length sides = Z.to_nat (numberOfFaces meshData))
              (faceSideBody meshData st) (seqZ 0 (numberOfFaces meshData)))
    with (s := faceSides st) as (fs & -> & Lfs); [|done|].
  { intros i sides [Hi0 Hi1]%elem_of_seqZ Hs.
    destruct (faceSideBody_total st i sides LV Hs) as (sides' & Hb & Hl); [lia|].
    exists sides'. split; [done | congruence]. }
  simpl. eexists. split; [done|]. by repeat split.
Qed.

(** X3. On a well-formed mesh, [finalizeSymmetry] indexes no vector out of its
    bounds when the side table has an entry per component: it returns a
    table, and the side table keeps its lengths. *)
Theorem finalizeSymmetry_in_bounds (st : PolySymmetryData) :
  length (vertexSides st) = Z.to_nat (numberOfVertices meshData) ->
  length (edgeSides st) = Z.to_nat (numberOfEdges meshData) ->
  length (faceSides st) = Z.to_nat (numberOfFaces meshData) ->
  exists st',
    finalizeSymmetry meshData st = Ok st' /\
    length (vertexSides st') = Z.to_nat (numberOfVertices meshData) /\
    length (edgeSides st') = Z.to_nat (numberOfEdges meshData) /\
    length (faceSides st') = Z.to_nat (numberOfFaces meshData).
Proof. intros LV LE LF. by apply finalizeSymmetry_total. Qed.

(** *** The three passes in sequence *)

Lemma wfMesh_wfVertexData : wfVertexData meshData.
Proof.
  destruct wfMesh_lengths as (LVd & _). split; [done|].
  apply Forall_forall. intros vd [i Hi]%list_elem_of_lookup.
  assert (Hvd : vget (vertexData meshData) (Z.of_nat i) = Ok vd).
  { apply vget_Ok. split; [lia|]. by rewrite Nat2Z.id. }
  by destruct (wfMesh_vertex _ _ Hvd) as (? & _).
Qed.

(** X2. [reset], the propagation engine, the side classifier on the left seeds
    of the engine and [finalizeSymmetry], run in this order on a well-formed
    mesh with a seed that names components of the mesh, index no vector out
    of its bounds when the seed has no left vertex or its left vertex is
    one of the two seed vertices. *)
Theorem pipeline_in_bounds (fuel : nat) (selection : ComponentSelection) :
  seedInBounds meshData selection = true ->
  (Z.to_nat (numberOfEdges meshData) < fuel)%nat ->
  leftVertexIndex selection = -1 \/
  leftVertexIndex selection = fst (vertexIndices selection) \/
  leftVertexIndex selection = snd (vertexIndices selection) ->
  exists st1 st2 st3,
    findSymmetricalVertices intersection meshData fuel selection (reset meshData)
    = Ok st1 /\
    findVertexSides meshData (leftSideVertexIndices st1) st1 = Ok st2 /\
    finalizeSymmetry meshData st2 = Ok st3.
Proof.
  intros Hseed Hfuel Hleft.
  destruct (findSymmetricalVertices_total fuel selection (reset meshData))
    as (st1 & H1 & Hst1); [apply wfTable_reset | done | |].
  { simpl. by rewrite unexamined_replicate. }
  pose proof Hst1 as ((LV & LVi & _) & BV & _ & _ & [_ PX]).
  pose proof (findSymmetricalVertices_marks _ _ _ _ _ _ H1) as Hext.
  apply rtc_anyMark_extends in Hext. rewrite withLeftVertex_tables in Hext.
  destruct Hext as (SV & SE & SF & SL & _). simpl in SV, SE, SF, SL.
  pose proof (findSymmetricalVertices_seed_recorded_aux _ _ _ _ _ _ H1)
    as (_ & _ & _ & _ & X0 & X1 & _).
  (* the left seeds are resolved *)
  assert (Hres : seedsResolved meshData (leftSideVertexIndices st1) st1).
  { rewrite SL. unfold seedsResolved.
    destruct (Z.eqb_spec (leftVertexIndex selection) (-1)) as [?|Hne];
      [constructor|].
    constructor; [|constructor].
    assert (Hx : vget (examinedVertices st1) (leftVertexIndex selection) = Ok true)
      by (destruct Hleft as [?|[-> | ->]]; done).
    destruct (PX _ Hx) as (p & Hp & Hpne).
    split; [apply vget_range in Hx; lia|].
    exists p. split; [done|]. destruct (BV _ _ Hp); [done | lia]. }
  destruct (findVertexSides_total meshData _ st1 wfMesh_wfVertexData LVi Hres)
    as [st2 H2].
  destruct (findVertexSides_region meshData anywhere (leftSideVertexIndices st1)
              st1 st2) as (Hst2 & L2 & _);
    [by intros; apply Forall_forall | by apply Forall_forall
     | by intros ? ? _ _ | done |].
  destruct (finalizeSymmetry_total st2) as (st3 & H3 & _).
  { split; [done|]. rewrite Hst2. simpl. rewrite SE, SF. simpl.
    by rewrite !length_replicate. }
  by exists st1, st2, st3.
Qed.

End InBounds.

(** ** Examined and resolved components *)

(** X5. After the propagation engine ran on a freshly reset table, every entry
    of the symmetry table is the sentinel or a component of the mesh, and
    the components that are examined are those for which a partner is
    recorded. *)
Theorem findSymmetricalVertices_resolved
    (intersection : list Z -> list Z -> list Z) (meshData : MeshData)
    (fuel : nat) (selection : ComponentSelection) (st' : PolySymmetryData) :
  findSymmetricalVertices intersection meshData fuel selection (reset meshData)
  = Ok st' ->
  ((forall v b, vget (vertexSymmetryIndices st') v = Ok b ->
      b = -1 \/ 0 <= b < numberOfVertices meshData) /\
   (forall v, vget (examinedVertices st') v = Ok true <->
      exists b, vget (vertexSymmetryIndices st') v = Ok b /\ b <> -1)) /\
  ((forall e b, vget (edgeSymmetryIndices st') e = Ok b ->
      b = -1 \/ 0 <= b < numberOfEdges meshData) /\
   (forall e, vget (examinedEdges st') e = Ok true <->
      exists b, vget (edgeSymmetryIndices st') e = Ok b /\ b <> -1)) /\
  ((forall f b, vget (faceSymmetryIndices st') f = Ok b ->
      b = -1 \/ 0 <= b < numberOfFaces meshData) /\
   (forall f, vget (examinedFaces st') f = Ok true <->
      exists b, vget (faceSymmetryIndices st') f = Ok b /\ b <> -1)).
Proof.
  intros H.
  destruct (findSymmetricalVertices_tableInvariant _ _ _ _ _ H)
    as (_ & [HV HVx] & [HE HEx] & [HF HFx] & _).
  pose proof (findSymmetricalVertices_marks _ _ _ _ _ _ H) as Hm.
  apply rtc_anyMark_wfTable with (meshData := meshData) in Hm;
    [|rewrite withLeftVertex_tables; apply wfTable_reset].
  destruct Hm as (_ & BV & BE & BF & _).
  split; [|split]; (split; [done|]); intros c; split.
  - apply HVx.
  - intros (b & Hb & Hne). by destruct (HV c b Hb Hne).
  - apply HEx.
  - intros (b & Hb & Hne). by destruct (HE c b Hb Hne).
  - apply HFx.
  - intros (b & Hb & Hne). by destruct (HF c b Hb Hne).
Qed.

(** ** The sides *)

Section Sides.
Variable meshData : MeshData.

(** The values of the side table. *)
Lemma floodStep_codomain (side : Z) (st : PolySymmetryData) (x : Z)
    (q q' : list Z) (s s' : FloodState) :
  side = LEFT \/ side = RIGHT ->
  (forall v sv, vget (snd s) v = Ok sv -> sv = LEFT \/ sv = RIGHT \/ sv = CENTER) ->
  floodStep meshData side st x q s q' s' ->
  forall v sv, vget (snd s') v = Ok sv -> sv = LEFT \/ sv = RIGHT \/ sv = CENTER.
Proof.
  intros Hside HP Hstep v sv Hv.
  destruct (decide (v = x)) as [->|Hne].
  - destruct Hstep as [(_ & _ & ->)|(_ & _ & p & _ & [(_ & Hs & _)|(_ & Hs & _)])].
    + by eapply HP.
    + rewrite (vget_vset_eq _ _ _ _ Hs) in Hv. injection Hv as <-. auto.
    + rewrite (vget_vset_eq _ _ _ _ Hs) in Hv. injection Hv as <-. tauto.
  - destruct (floodStep_other _ _ _ _ v _ _ _ _ Hstep Hne) as [_ Heq].
    rewrite Heq in Hv. by eapply HP.
Qed.

Lemma findVertexSides_codomain (left : list Z) (st st' : PolySymmetryData) :
  findVertexSides meshData left st = Ok st' ->
  forall v sv, vget (vertexSides st') v = Ok sv ->
    sv = LEFT \/ sv = RIGHT \/ sv = CENTER.
Proof.
  intros H.
  apply findVertexSides_Ok in H
    as (n & q1 & sides1 & fuel1 & vis2 & sides2 & q3 & sides3 & fuel3 & vis4
        & sides4 & -> & H1 & H2 & H3 & H4 & ->).
  simpl.
  apply seedLeft_spec in H1 as (-> & _ & _ & Hin1 & Hout1). simpl in *.
  apply seedRight_spec in H3 as (ps & -> & _ & _ & _ & Hin3 & Hout3).
  simpl in *.
  pose (P := fun (_ : list Z) (s : FloodState) =>
      forall v sv, vget (snd s) v = Ok sv ->
        sv = LEFT \/ sv = RIGHT \/ sv = CENTER).
  assert (HP2 : P [] (vis2, sides2)).
  { eapply (leftFlood_inv meshData P); [| |exact H2].
    - intros x q s q' s' HP Hstep.
      exact (floodStep_codomain _ _ _ _ _ _ _ (or_introl eq_refl) HP Hstep).
    - intros v sv. simpl. destruct (decide (v ∈ left)) as [Hv|Hv].
      + rewrite (Hin1 _ Hv). intros [= <-]. auto.
      + rewrite (Hout1 _ Hv). intros ->%vget_replicate. auto. }
  assert (HP4 : P [] (vis4, sides4)).
  { eapply (rightFlood_inv meshData P); [| |exact H4].
    - intros x q s q' s' HP Hstep.
      exact (floodStep_codomain _ _ _ _ _ _ _ (or_intror eq_refl) HP Hstep).
    - intros v sv. simpl. destruct (decide (v ∈ ps)) as [Hv|Hv].
      + rewrite (Hin3 _ Hv). intros [= <-]. auto.
      + rewrite (Hout3 _ Hv). apply HP2. }
  exact HP4.
Qed.

(** X10. After the side classifier and [finalizeSymmetry], every entry of the
    side table is LEFT, RIGHT or CENTER: the vertex sides, the side of
    every edge and the side of every face of the mesh.  The value that
    [reset] leaves in an entry is overwritten. *)
Theorem sides_codomain (left : list Z) (st st1 st2 : PolySymmetryData) :
  findVertexSides meshData left st = Ok st1 ->
  finalizeSymmetry meshData st1 = Ok st2 ->
  (forall v sv, vget (vertexSides st2) v = Ok sv ->
     sv = LEFT \/ sv = RIGHT \/ sv = CENTER) /\
  (forall e, 0 <= e < numberOfEdges meshData ->
     exists sv, vget (edgeSides st2) e = Ok sv /\
                (sv = LEFT \/ sv = RIGHT \/ sv = CENTER)) /\
  (forall f, 0 <= f < numberOfFaces meshData ->
     exists sv, vget (faceSides st2) f = Ok sv /\
                (sv = LEFT \/ sv = RIGHT \/ sv = CENTER)).
Proof.
  intros H1 H2. pose proof (findVertexSides_codomain _ _ _ H1) as HV.
  pose proof (finalizeSymmetry_tables _ _ _ H2) as Hst2.
  assert (HV2 : forall v sv, vget (vertexSides st2) v = Ok sv ->
     sv = LEFT \/ sv = RIGHT \/ sv = CENTER).
  { rewrite Hst2. simpl. exact HV. }
  split; [exact HV2|]. split.
  - intros e He.
    destruct (finalizeSymmetry_edgeSides_spec _ _ _ _ H2 He)
      as (ed & c0 & c1 & sv0 & sv1 & _ & _ & _ & Hs0 & Hs1 & HC & HR & HL & _).
    apply HV2 in Hs0, Hs1. unfold LEFT, RIGHT, CENTER in *.
    destruct Hs0 as [-> | [-> | ->]], Hs1 as [-> | [-> | ->]];
      try (exists (-1); split; [apply HR; [lia | auto]|auto]; fail);
      try (exists 1; split; [apply HL; [lia | lia | lia | auto]|auto]; fail).
    exists 0. split; [by apply HC | auto].
  - intros f Hf.
    destruct (finalizeSymmetry_faceSides_spec _ _ _ _ H2 Hf)
      as (fd & svs & _ & _ & Hside & _).
    eexists. split; [exact Hside|]. unfold LEFT, RIGHT, CENTER.
    destruct (bool_decide _), (bool_decide _); simpl; auto.
Qed.

Lemma floodStep_left (st : PolySymmetryData) (x : Z) (q q' : list Z)
    (s s' : FloodState) (v : Z) :
  (vget (snd s) v = Ok LEFT ->
   (vget (fst s) v = Ok true /\ vget (vertexSymmetryIndices st) v <> Ok v) \/
   (vget (fst s) v = Ok false /\ v ∈ x :: q)) ->
  floodStep meshData LEFT st x q s q' s' ->
  vget (snd s') v = Ok LEFT ->
  (vget (fst s') v = Ok true /\ vget (vertexSymmetryIndices st) v <> Ok v) \/
  (vget (fst s') v = Ok false /\ v ∈ q').
Proof.
  intros HP Hstep Hv. destruct (decide (v = x)) as [->|Hne].
  - destruct Hstep as [(Hx & -> & ->)|(_ & Hvis & p & Hp & Hcase)].
    + destruct (HP Hv) as [?|[? _]]; [by left | congruence].
    + destruct Hcase as [(_ & Hs & _)|(Hpx & _)].
      * rewrite (vget_vset_eq _ _ _ _ Hs) in Hv. discriminate.
      * left. split; [by eapply vget_vset_eq | congruence].
  - destruct (floodStep_other _ _ _ _ v _ _ _ _ Hstep Hne) as [Hvis Hs].
    rewrite Hvis. rewrite Hs in Hv.
    destruct (HP Hv) as [?|[? Hq]]; [by left|]. right. split; [done|].
    apply elem_of_cons in Hq as [?|Hq]; [done|].
    by eapply floodStep_queue.
Qed.

Lemma floodStep_right_keeps (st : PolySymmetryData) (x : Z) (q q' : list Z)
    (s s' : FloodState) (v : Z) :
  floodStep meshData RIGHT st x q s q' s' ->
  vget (snd s') v = Ok LEFT -> vget (snd s) v = Ok LEFT.
Proof.
  intros Hstep Hv. destruct (decide (v = x)) as [->|Hne].
  - destruct Hstep as [(_ & _ & ->)|(_ & _ & p & _ & [(_ & Hs & _)|(_ & Hs & _)])];
      [done | |]; rewrite (vget_vset_eq _ _ _ _ Hs) in Hv; discriminate.
  - destruct (floodStep_other _ _ _ _ v _ _ _ _ Hstep Hne) as [_ Hs].
    by rewrite <- Hs.
Qed.

(** X11. A vertex that the side classifier leaves on the LEFT is not its own
    partner and is not the partner of a left seed: the left flood fill
    visited it, and neither the seeding of the right flood fill nor the
    right flood fill wrote to it. *)
Theorem findVertexSides_left_side (left : list Z) (st st' : PolySymmetryData)
    (v : Z) :
  findVertexSides meshData left st = Ok st' ->
  vget (vertexSides st') v = Ok LEFT ->
  vget (vertexSymmetryIndices st) v <> Ok v /\
  (forall i, i ∈ left -> vget (vertexSymmetryIndices st) i <> Ok v).
Proof.
  intros H.
  apply findVertexSides_Ok in H
    as (n & q1 & sides1 & fuel1 & vis2 & sides2 & q3 & sides3 & fuel3 & vis4
        & sides4 & -> & H1 & H2 & H3 & H4 & ->).
  simpl. intros Hv.
  apply seedLeft_spec in H1 as (-> & _ & Hrange & Hin1 & Hout1). simpl in *.
  apply seedRight_spec in H3 as (ps & -> & _ & Hall2 & _ & Hin3 & Hout3).
  simpl in *.
  (* the right flood fill writes no LEFT *)
  assert (Hv3 : vget sides3 v = Ok LEFT).
  { pose (P := fun (_ : list Z) (s : FloodState) =>
        vget (snd s) v = Ok LEFT -> vget sides3 v = Ok LEFT).
    assert (HP : P [] (vis4, sides4)); [|by apply HP].
    eapply (rightFlood_inv meshData P); [| |exact H4]; [|exact (fun Hv' => Hv')].
    intros x q s q' s' HP Hstep Hv'. apply HP.
    by eapply floodStep_right_keeps. }
  assert (Hvps : v ∉ ps).
  { intros Hin. rewrite (Hin3 _ Hin) in Hv3. discriminate. }
  rewrite (Hout3 _ Hvps) in Hv3.
  (* the left flood fill visited it *)
  pose (P := fun (q : list Z) (s : FloodState) =>
      vget (snd s) v = Ok LEFT ->
      (vget (fst s) v = Ok true /\ vget (vertexSymmetryIndices st) v <> Ok v) \/
      (vget (fst s) v = Ok false /\ v ∈ q)).
  assert (HP : P [] (vis2, sides2)).
  { eapply (leftFlood_inv meshData P); [| |exact H2].
    - intros x q s q' s' HP Hstep.
      exact (floodStep_left _ _ _ _ _ _ _ HP Hstep).
    - intros Hv1. simpl in *. right.
      destruct (decide (v ∈ left)) as [Hin|Hout].
      + split; [|done]. apply vget_replicate_in_range.
        rewrite Forall_forall in Hrange. rewrite length_replicate in Hrange.
        by apply Hrange.
      + rewrite (Hout1 _ Hout) in Hv1. apply vget_replicate in Hv1. discriminate. }
  destruct (HP Hv3) as [[_ Hself]|[_ Hnil]]; [|by apply elem_of_nil in Hnil].
  split; [done|]. intros i Hi Hip.
  destruct (Forall2_elem_of_l _ _ _ _ Hall2 Hi) as (p & Hp & Hip').
  assert (p = v) as -> by congruence. done.
Qed.

End Sides.

(** X13. Without a left vertex in the seed, the engine on a freshly reset table
    leaves no left seed, and the side classifier and [finalizeSymmetry]
    give every vertex, every edge and every face the side CENTER. *)
Theorem no_left_vertex_all_center (intersection : list Z -> list Z -> list Z)
    (meshData : MeshData) (fuel : nat) (selection : ComponentSelection)
    (st1 st2 st3 : PolySymmetryData) :
  leftVertexIndex selection = -1 ->
  findSymmetricalVertices intersection meshData fuel selection (reset meshData)
  = Ok st1 ->
  findVertexSides meshData (leftSideVertexIndices st1) st1 = Ok st2 ->
  finalizeSymmetry meshData st2 = Ok st3 ->
  leftSideVertexIndices st1 = [] /\
  (forall v, 0 <= v < numberOfVertices meshData ->
     vget (vertexSides st3) v = Ok CENTER) /\
  (forall e, 0 <= e < numberOfEdges meshData ->
     vget (edgeSides st3) e = Ok CENTER) /\
  (forall f, 0 <= f < numberOfFaces meshData ->
     vget (faceSides st3) f = Ok CENTER).
Proof.
  intros Hleft H1 H2 H3.
  pose proof (findSymmetricalVertices_marks _ _ _ _ _ _ H1) as Hext.
  apply rtc_anyMark_extends in Hext. rewrite withLeftVertex_tables in Hext.
  destruct Hext as (_ & _ & _ & SL & _). simpl in SL.
  rewrite Hleft in SL. simpl in SL. split; [exact SL|].
  destruct (findVertexSides_region meshData (fun _ => False)
              (leftSideVertexIndices st1) st1 st2) as (_ & L2 & HC);
    [done | by rewrite SL | by intros ? ? [] | done |].
  pose proof (finalizeSymmetry_tables _ _ _ H3) as Hst3.
  assert (HC3 : forall v sv, vget (vertexSides st3) v = Ok sv -> sv = CENTER).
  { rewrite Hst3. simpl. intros v sv. exact (HC v sv (fun x => x)). }
  split; [|split].
  - intros v Hv. rewrite Hst3. simpl.
    destruct (vget_in_range (vertexSides st2) v) as [sv Hsv]; [lia|].
    by rewrite Hsv, (HC _ _ (fun x => x) Hsv).
  - intros e He.
    destruct (finalizeSymmetry_edgeSides_spec _ _ _ _ H3 He)
      as (ed & c0 & c1 & sv0 & sv1 & _ & _ & _ & Hs0 & Hs1 & Hcenter & _).
    apply Hcenter; by eapply HC3.
  - intros f Hf.
    destruct (finalizeSymmetry_faceSides_spec _ _ _ _ H3 Hf)
      as (fd & svs & _ & Hall & Hside & _).
    assert (Hsvs : forall sv, sv ∈ svs -> sv = CENTER).
    { intros sv Hsv.
      destruct (Forall2_elem_of_r _ _ _ _ Hall Hsv) as (c & _ & Hcs).
      by eapply HC3. }
    rewrite Hside.
    by rewrite !bool_decide_eq_false_2 by (intros Hin; by apply Hsvs in Hin).
Qed.

(** X12. The side of a vertex that is its own partner: CENTER when no left seed
    has it as partner; RIGHT when it is a left seed itself, since the left
    flood fill visits it, the seeding of the right flood fill then writes
    RIGHT to it, and the right flood fill skips the vertices that are
    visited. *)
Theorem findVertexSides_self_symmetric_sides (meshData : MeshData)
    (left : list Z) (st st' : PolySymmetryData) (v : Z) :
  findVertexSides meshData left st = Ok st' ->
  vget (vertexSymmetryIndices st) v = Ok v ->
  ((forall i, i ∈ left -> vget (vertexSymmetryIndices st) i <> Ok v) ->
   forall sv, vget (vertexSides st') v = Ok sv -> sv = CENTER) /\
  (v ∈ left -> vget (vertexSides st') v = Ok RIGHT).
Proof.
  intros H Hv. split; [by apply (findVertexSides_self_symmetric meshData left st)|].
  intros Hin.
  apply findVertexSides_Ok in H
    as (n & q1 & sides1 & fuel1 & vis2 & sides2 & q3 & sides3 & fuel3 & vis4
        & sides4 & -> & H1 & H2 & H3 & H4 & ->).
  simpl.
  apply seedLeft_spec in H1 as (-> & _ & Hrange & _ & _). simpl in *.
  rewrite length_replicate in Hrange.
  assert (Hvr : 0 <= v < Z.of_nat (Z.to_nat (numberOfVertices meshData))).
  { rewrite Forall_forall in Hrange. by apply Hrange. }
  (* the left flood fill visits it *)
  assert (Hvis2 : vget vis2 v = Ok true).
  { pose (P := fun (q : list Z) (s : FloodState) =>
        (v ∈ q /\ vget (fst s) v = Ok false) \/ vget (fst s) v = Ok true).
    assert (HP : P [] (vis2, sides2)).
    { eapply (leftFlood_inv meshData P); [| |exact H2].
      - intros x q s q' s' [[Hq Hvis]|Hvis] Hstep.
        + destruct (decide (v = x)) as [<-|Hne].
          * right. destruct Hstep as [(Hx & _)|(_ & Hset & _)]; [congruence|].
            by eapply vget_vset_eq.
          * left. apply elem_of_cons in Hq as [?|Hq]; [done|].
            split; [by eapply floodStep_queue|].
            by destruct (floodStep_other _ _ _ _ v _ _ _ _ Hstep Hne) as [-> _].
        + right.
          by destruct (floodStep_visited _ _ _ _ v _ _ _ _ Hstep Hvis) as [-> _].
      - left. split; [done|]. simpl. by apply vget_replicate_in_range. }
    destruct HP as [[Hnil _]|HP]; [by apply elem_of_nil in Hnil | done]. }
  (* the seeding of the right flood fill writes RIGHT to it *)
  apply seedRight_spec in H3 as (ps & -> & _ & Hall2 & _ & Hin3 & _).
  simpl in *.
  assert (Hps : v ∈ ps).
  { destruct (Forall2_elem_of_l _ _ _ _ Hall2 Hin) as (p & Hp & Hvp).
    congruence. }
  (* the right flood fill skips it *)
  pose (P := fun (_ : list Z) (s : FloodState) =>
      vget (fst s) v = Ok true /\ vget (snd s) v = Ok RIGHT).
  assert (HP : P [] (vis4, sides4)); [|by destruct HP].
  eapply (rightFlood_inv meshData P); [| |exact H4].
  - intros x q s q' s' [Hvis Hside] Hstep.
    destruct (floodStep_visited _ _ _ _ v _ _ _ _ Hstep Hvis) as [Hvis' Hside'].
    split; [done | congruence].
  - split; [done|]. simpl. by apply Hin3.
Qed.

(** ** One shell after the other *)

Section TwoShells.
Variable intersection : list Z -> list Z -> list Z.
Variable meshData : MeshData.
Variables inBV inBE inBF : Z -> bool.
Hypothesis Hintersection : forall a b x, x ∈ intersection a b -> x ∈ a.
Hypothesis Hseparated : shellsSeparated meshData inBV inBE inBF = true.

(** A disconnected shell is a closed region. *)
Lemma separated_closedShell_inside :
  closedShell intersection meshData (inside inBV) (inside inBE) (inside inBF).
Proof.
  unfold closedShell, inside. split; [|split; [|split; [|split]]].
  - intros a b Ha. rewrite Forall_forall in Ha |- *.
    intros x Hx. eapply Ha, Hintersection, Hx.
  - intros a b Ha. rewrite Forall_forall in Ha |- *.
    intros x Hx. eapply Ha, Hintersection, Hx.
  - intros v vd Hv Hvd. pose proof (vget_range _ _ _ Hvd) as Hr.
    destruct (separated_vertex _ _ _ _ Hseparated _ _ Hvd) as (H1 & H2 & H3).
    rewrite !Forall_forall. split; [|split].
    + intros w Hw _. rewrite (H1 _ Hw). apply Hv. lia.
    + intros e He _. rewrite (H2 _ He). apply Hv. lia.
    + intros f sibs Hf. rewrite Forall_forall.
      intros w Hw _. rewrite (H3 _ _ _ Hf Hw). apply Hv. lia.
  - intros e ed He Hed. pose proof (vget_range _ _ _ Hed) as Hr.
    destruct (separated_edge _ _ _ _ Hseparated _ _ Hed) as (H1 & H2).
    rewrite !Forall_forall. split.
    + intros w Hw _. rewrite (H1 _ Hw). apply He. lia.
    + intros f Hf _. rewrite (H2 _ Hf). apply He. lia.
  - intros f fd Hf Hfd. pose proof (vget_range _ _ _ Hfd) as Hr.
    destruct (separated_face _ _ _ _ Hseparated _ _ Hfd) as (H1 & H2).
    rewrite !Forall_forall. split.
    + intros w Hw _. rewrite (H1 _ Hw). apply Hf. lia.
    + intros e He _. rewrite (H2 _ He). apply Hf. lia.
Qed.

(** X9. On a mesh where shell B is disconnected from the rest, the engine can
    resolve one shell after the other: a run seeded outside of shell B on
    a freshly reset table, followed by a run seeded in shell B on the table
    of the first, leaves every entry that the first run made outside of
    shell B as it was. *)
Theorem second_shell_keeps_first (fuelA fuelB : nat)
    (selectionA selectionB : ComponentSelection) (st1 st2 : PolySymmetryData) :
  seedOutside inBV inBE inBF selectionA = true ->
  seedInside inBV inBE inBF selectionB = true ->
  findSymmetricalVertices intersection meshData fuelA selectionA (reset meshData)
  = Ok st1 ->
  findSymmetricalVertices intersection meshData fuelB selectionB st1 = Ok st2 ->
  (forall v, 0 <= v -> inBV v = false ->
     vget (vertexSymmetryIndices st2) v = vget (vertexSymmetryIndices st1) v /\
     vget (examinedVertices st2) v = vget (examinedVertices st1) v) /\
  (forall e, 0 <= e -> inBE e = false ->
     vget (edgeSymmetryIndices st2) e = vget (edgeSymmetryIndices st1) e /\
     vget (examinedEdges st2) e = vget (examinedEdges st1) e) /\
  (forall f, 0 <= f -> inBF f = false ->
     vget (faceSymmetryIndices st2) f = vget (faceSymmetryIndices st1) f /\
     vget (examinedFaces st2) f = vget (examinedFaces st1) f).
Proof.
  intros HseedA HseedB H1 H2.
  (* the first run writes nothing in shell B *)
  assert (HinA : seedIn (outside inBV) (outside inBE) (outside inBF) selectionA).
  { unfold seedOutside in HseedA. unfold seedIn, outside.
    repeat (apply andb_prop in HseedA as [HseedA ?%negb_true_iff]).
    apply negb_true_iff in HseedA. by repeat split. }
  assert (Hc0 : closedVertexTable (outside inBV) (reset meshData)).
  { intros v p _ ->%vget_replicate. unfold outside. lia. }
  destruct (findSymmetricalVertices_seed_faces _ _ _ _ _ _ H1) as [Hf0 Hf1].
  simpl in Hf0, Hf1. rewrite length_replicate in Hf0, Hf1.
  destruct (findSymmetricalVertices_region intersection meshData _ _ _ False
              (separated_closedShell intersection meshData inBV inBE inBF
                 Hintersection Hseparated)
              fuelA selectionA (reset meshData) st1 HinA
              (fun contra : False => match contra with end)
              (vget_replicate_in_range _ false _ Hf0)
              (vget_replicate_in_range _ false _ Hf1) Hc0 H1)
    as (st0 & Hst0 & Hrtc1).
  apply rtc_markStep_frame in Hrtc1 as (HV1 & _ & HF1).
  assert (HVB : forall v p, 0 <= v -> inBV v = true ->
            vget (vertexSymmetryIndices st1) v = Ok p -> p = -1).
  { intros v p Hv HB. destruct (HV1 v) as [-> _].
    { intros Ho. specialize (Ho Hv). congruence. }
    destruct Hst0 as [->| ->]; simpl; by intros ->%vget_replicate. }
  assert (HFB : forall f b, 0 <= f -> inBF f = true ->
            vget (examinedFaces st1) f = Ok b -> b = false).
  { intros f b Hf HB. destruct (HF1 f) as [_ ->].
    { intros Ho. specialize (Ho Hf). congruence. }
    destruct Hst0 as [->| ->]; simpl; by intros ->%vget_replicate. }
  (* the second run writes in shell B only *)
  assert (HinB : seedIn (inside inBV) (inside inBE) (inside inBF) selectionB).
  { unfold seedInside in HseedB. unfold seedIn, inside.
    repeat (apply andb_prop in HseedB as [HseedB ?]). by repeat split. }
  assert (Hc1 : closedVertexTable (inside inBV) st1).
  { intros v p Hv Hp. pose proof (vget_range _ _ _ Hp) as Hr.
    assert (p = -1) as ->; [|unfold inside; lia].
    apply (HVB v p); [lia | apply Hv; lia | done]. }
  destruct (findSymmetricalVertices_seed_faces _ _ _ _ _ _ H2) as [Hg0 Hg1].
  destruct HinB as (B0 & B1 & B2 & B3 & B4 & B5).
  destruct (vget_in_range (examinedFaces st1) _ Hg0) as [b0 Hb0].
  destruct (vget_in_range (examinedFaces st1) _ Hg1) as [b1 Hb1].
  assert (b0 = false) as ->
    by (eapply HFB; [|apply B4|exact Hb0]; lia).
  assert (b1 = false) as ->
    by (eapply HFB; [|apply B5|exact Hb1]; lia).
  destruct (findSymmetricalVertices_region intersection meshData _ _ _ False
              separated_closedShell_inside fuelB selectionB st1 st2
              (conj B0 (conj B1 (conj B2 (conj B3 (conj B4 B5)))))
              (fun contra : False => match contra with end) Hb0 Hb1 Hc1 H2)
    as (st1' & Hst1' & Hrtc2).
  apply rtc_markStep_frame in Hrtc2 as (HV2 & HE2 & HF2).
  assert (Hnot : forall (inB : Z -> bool) c, 0 <= c -> inB c = false ->
            ~ inside inB c).
  { intros inB c Hc Hout Hin. specialize (Hin Hc). congruence. }
  split; [|split]; intros c Hc Hout.
  - destruct (HV2 c (Hnot _ _ Hc Hout)) as [-> ->].
    by destruct Hst1' as [->| ->].
  - destruct (HE2 c (Hnot _ _ Hc Hout)) as [-> ->].
    by destruct Hst1' as [->| ->].
  - destruct (HF2 c (Hnot _ _ Hc Hout)) as [-> ->].
    by destruct Hst1' as [->| ->].
Qed.

End TwoShells.

(** ** The [markSymmetrical...] methods *)

Lemma markPair_commutes (idx idx' : list Z) (ex ex' : list bool) (i0 i1 : Z) :
  markPair idx ex i0 i1 = Ok (idx', ex') ->
  markPair idx ex i1 i0 = Ok (idx', ex').
Proof.
  intros H. destruct (decide (i0 = i1)) as [->|Hne]; [done|].
  pose proof (markPair_spec _ _ _ _ _ _ H) as (R0 & R1 & X0 & X1 & _).
  unfold markPair in *.
  rewrite (vset_in_range idx i0 i1) in H by done. simpl in H.
  rewrite (vset_in_range (<[Z.to_nat i0:=i1]> idx) i1 i0) in H
    by (by rewrite length_insert). simpl in H.
  rewrite (vset_in_range ex i0 true) in H by done. simpl in H.
  rewrite (vset_in_range (<[Z.to_nat i0:=true]> ex) i1 true) in H
    by (by rewrite length_insert). simpl in H.
  injection H as <- <-.
  rewrite (vset_in_range idx i1 i0) by done. simpl.
  rewrite (vset_in_range (<[Z.to_nat i1:=i0]> idx) i0 i1)
    by (by rewrite length_insert). simpl.
  rewrite (vset_in_range ex i1 true) by done. simpl.
  rewrite (vset_in_range (<[Z.to_nat i1:=true]> ex) i0 true)
    by (by rewrite length_insert). simpl.
  f_equal. f_equal; apply list_insert_insert_ne; lia.
Qed.

Lemma markPair_again (idx idx' : list Z) (ex ex' : list bool) (i0 i1 : Z) :
  markPair idx ex i0 i1 = Ok (idx', ex') ->
  markPair idx' ex' i0 i1 = Ok (idx', ex').
Proof.
  intros (_ & _ & _ & _ & _ & _ & H1 & H0 & X0 & X1 & _)%markPair_spec.
  apply markPair_idempotent; [|done..].
  destruct (decide (i0 = i1)) as [->|Hne]; [done | by apply H0].
Qed.

(** X18. Marking a pair is symmetric in the two components, and marking the
    same pair once more changes nothing: for vertices, edges and faces,
    [markSymmetrical...(i1, i0)] gives the table that
    [markSymmetrical...(i0, i1)] gives, and on that table
    [markSymmetrical...(i0, i1)] gives it again. *)
Theorem markSymmetrical_symmetric_idempotent (i0 i1 : Z)
    (st st' : PolySymmetryData) :
  (markSymmetricalVertices i0 i1 st = Ok st' ->
   markSymmetricalVertices i1 i0 st = Ok st' /\
   markSymmetricalVertices i0 i1 st' = Ok st') /\
  (markSymmetricalEdges i0 i1 st = Ok st' ->
   markSymmetricalEdges i1 i0 st = Ok st' /\
   markSymmetricalEdges i0 i1 st' = Ok st') /\
  (markSymmetricalFaces i0 i1 st = Ok st' ->
   markSymmetricalFaces i1 i0 st = Ok st' /\
   markSymmetricalFaces i0 i1 st' = Ok st').
Proof.
  split; [|split].
  - intros (idx & ex & Hm & ->)%markSymmetricalVertices_Ok.
    rewrite !markSymmetricalVertices_markPair. simpl.
    by rewrite (markPair_commutes _ _ _ _ _ _ Hm), (markPair_again _ _ _ _ _ _ Hm).
  - intros (idx & ex & Hm & ->)%markSymmetricalEdges_Ok.
    rewrite !markSymmetricalEdges_markPair. simpl.
    by rewrite (markPair_commutes _ _ _ _ _ _ Hm), (markPair_again _ _ _ _ _ _ Hm).
  - intros (idx & ex & Hm & ->)%markSymmetricalFaces_Ok.
    rewrite !markSymmetricalFaces_markPair. simpl.
    by rewrite (markPair_commutes _ _ _ _ _ _ Hm), (markPair_again _ _ _ _ _ _ Hm).
Qed.

(** ** The components that are looked up *)

Lemma unexaminedOf_cons (examined : list bool) (x : Z) (l : list Z) :
  unexaminedOf examined (x :: l)
  = match vget examined x with
    | Ok false => x :: unexaminedOf examined l
    | _ => unexaminedOf examined l
    end.
Proof.
  unfold unexaminedOf. simpl. by destruct (vget examined x) as [[]| |].
Qed.

Lemma firstUnexamined_head (examined : list bool) (l : list Z) (r : Z) :
  firstUnexamined examined l = Ok r ->
  r = default (-1) (head (unexaminedOf examined l)).
Proof.
  induction l as [|x l IH]; intros H; simpl in H; [by injection H as <-|].
  inv_bind H as b Hb. rewrite unexaminedOf_cons, Hb.
  destruct b; [by apply IH | by injection H as <-].
Qed.

(** X14. [getUnexaminedVertexSibling] returns the first member of the sibling
    vector of the vertex on the face that is not examined, and the
    sentinel when there is none; a face that is no key of the sibling map
    gives the sentinel.  [getUnexaminedFace] returns the first face of the
    edge that is not examined, and the sentinel when there is none. *)
Theorem getUnexamined_first (meshData : MeshData) (st : PolySymmetryData) :
  (forall vertexIndex faceIndex r,
     getUnexaminedVertexSibling meshData vertexIndex faceIndex st = Ok r ->
     exists vd,
       vget (vertexData meshData) vertexIndex = Ok vd /\
       r = default (-1)
             (head (unexaminedOf (examinedVertices st)
                      (default [] (faceVertexSiblings vd !! faceIndex)))) /\
       (faceVertexSiblings vd !! faceIndex = None -> r = -1)) /\
  (forall edgeIndex r,
     getUnexaminedFace meshData edgeIndex st = Ok r ->
     exists ed,
       vget (edgeData meshData) edgeIndex = Ok ed /\
       r = default (-1)
             (head (unexaminedOf (examinedFaces st) (connectedFaces ed)))).
Proof.
  split.
  - intros v f r H. unfold getUnexaminedVertexSibling in H.
    inv_bind H as vd Hvd. exists vd. split; [done|].
    apply firstUnexamined_head in H. split; [done|].
    intros Hnone. by rewrite Hnone in H.
  - intros e r H. unfold getUnexaminedFace in H.
    inv_bind H as ed Hed. exists ed. split; [done|].
    by apply firstUnexamined_head.
Qed.

Section SharedFaces.
Variable st : PolySymmetryData.

Lemma sharedFaces_full (l : list Z) (a0 a1 : Z) (res : Z * Z) :
  a0 <> -1 -> a1 <> -1 ->
  forEach (sharedFacesBody st) l (a0, a1) = Ok res -> res = (a0, a1).
Proof.
  intros H0 H1. induction l as [|f l IH]; intros H; simpl in H;
    [by injection H as <-|].
  inv_bind H as acc Hacc. unfold sharedFacesBody in Hacc.
  inv_bind Hacc as b Hb. simpl in Hacc.
  destruct b; [injection Hacc as <-; by apply IH|].
  destruct (Z.eqb_spec a0 (-1)); [done|].
  destruct (Z.eqb_spec a1 (-1)); [done|].
  injection Hacc as <-. by apply IH.
Qed.

Lemma sharedFaces_second (l : list Z) (a0 : Z) (res : Z * Z) :
  a0 <> -1 ->
  forEach (sharedFacesBody st) l (a0, -1) = Ok res ->
  res = (a0, default (-1) (head (unexaminedOf (examinedFaces st) l))).
Proof.
  intros H0. induction l as [|f l IH]; intros H; simpl in H;
    [by injection H as <-|].
  inv_bind H as acc Hacc. unfold sharedFacesBody in Hacc.
  inv_bind Hacc as b Hb. simpl in Hacc. rewrite unexaminedOf_cons, Hb.
  destruct b; [injection Hacc as <-; by apply IH|].
  destruct (Z.eqb_spec a0 (-1)); [done|]. simpl in Hacc.
  injection Hacc as <-. simpl.
  apply sharedFaces_full in H; [done | done |].
  apply vget_range in Hb. lia.
Qed.

Lemma sharedFaces_first (l : list Z) (res : Z * Z) :
  forEach (sharedFacesBody st) l (-1, -1) = Ok res ->
  res = (default (-1) (head (unexaminedOf (examinedFaces st) l)),
         default (-1) (head (tail (unexaminedOf (examinedFaces st) l)))).
Proof.
  induction l as [|f l IH]; intros H; simpl in H; [by injection H as <-|].
  inv_bind H as acc Hacc. unfold sharedFacesBody in Hacc.
  inv_bind Hacc as b Hb. simpl in Hacc. rewrite unexaminedOf_cons, Hb.
  destruct b; [injection Hacc as <-; by apply IH|].
  injection Hacc as <-. simpl.
  apply sharedFaces_second in H; [done|].
  apply vget_range in Hb. lia.
Qed.

End SharedFaces.

(** X15. [getUnexaminedFaces] on a pair of edges that share faces returns the
    first and the second of the shared faces that are not examined, in the
    order of [intersection], with the sentinel in place of a missing one;
    it does not look at the other faces of the edges.  On a pair of edges
    that share no face it returns, for each edge, the first of its faces
    that is not examined, or the sentinel. *)
Theorem getUnexaminedFaces_first (intersection : list Z -> list Z -> list Z)
    (meshData : MeshData) (edgePair faces : Z * Z) (st : PolySymmetryData) :
  getUnexaminedFaces intersection meshData edgePair st = Ok faces ->
  exists ed0 ed1,
    vget (edgeData meshData) (fst edgePair) = Ok ed0 /\
    vget (edgeData meshData) (snd edgePair) = Ok ed1 /\
    (intersection (connectedFaces ed0) (connectedFaces ed1) <> [] ->
     fst faces
     = default (-1)
         (head (unexaminedOf (examinedFaces st)
                  (intersection (connectedFaces ed0) (connectedFaces ed1)))) /\
     snd faces
     = default (-1)
         (head (tail (unexaminedOf (examinedFaces st)
                        (intersection (connectedFaces ed0) (connectedFaces ed1)))))) /\
    (intersection (connectedFaces ed0) (connectedFaces ed1) = [] ->
     fst faces
     = default (-1) (head (unexaminedOf (examinedFaces st) (connectedFaces ed0))) /\
     snd faces
     = default (-1) (head (unexaminedOf (examinedFaces st) (connectedFaces ed1)))).
Proof.
  unfold getUnexaminedFaces. intros H.
  inv_bind H as ed0 Hed0. inv_bind H as ed1 Hed1.
  exists ed0, ed1. split; [done|]. split; [done|].
  destruct (intersection (connectedFaces ed0) (connectedFaces ed1))
    as [|f shared] eqn:Hshared; simpl in H.
  - split; [done|]. intros _.
    inv_bind H as f0 Hf0. inv_bind H as f1 Hf1. injection H as <-. simpl.
    unfold getUnexaminedFace in Hf0, Hf1.
    rewrite Hed0 in Hf0. rewrite Hed1 in Hf1. simpl in Hf0, Hf1.
    split; by apply firstUnexamined_head.
  - split; [|done]. intros _.
    change (forEach (sharedFacesBody st) (f :: shared) (-1, -1) = Ok faces) in H.
    apply sharedFaces_first in H. by rewrite H.
Qed.

(** ** The loops inside the engine and the classifier *)

Lemma whileQueue_nil {A S : Type}
    (body : A -> list A -> S -> result (list A * S)) (fuel : nat) (s : S) :
  whileQueue body fuel [] s = Ok s.
Proof. by destruct fuel. Qed.

(** X19. The loop of [findSymmetricalVerticesOnFace] terminates on every mesh
    and every table: an iteration takes a vertex from the queue and puts
    one in only after marking a vertex that was not examined, so the loop
    runs for at most the length of the queue plus the number of unexamined
    vertices iterations. *)
Theorem findSymmetricalVerticesOnFace_terminates (meshData : MeshData)
    (facePair : Z * Z) :
  (forall fuel q st,
     (length q + unexamined (examinedVertices st) <= fuel)%nat ->
     whileQueue (faceVerticesBody meshData facePair) fuel q st <> OutOfFuel) /\
  (forall st, findSymmetricalVerticesOnFace meshData facePair st <> OutOfFuel).
Proof.
  split; [|apply findSymmetricalVerticesOnFace_fuel].
  intros fuel q st.
  apply (whileQueue_terminates (fun _ _ => True)
           (fun q s => (length q + unexamined (examinedVertices s))%nat));
    [| | |done].
  - intros x q0 s. simpl. lia.
  - intros x q0 s _. apply faceVerticesBody_not_OutOfFuel.
  - intros x q0 s q' s' _ Hb. split; [done|]. by eapply faceVerticesBody_measure.
Qed.

(** X20. The two flood fills of [findVertexSides] terminate on every mesh and
    every table: an iteration takes a vertex from the queue and puts
    neighbours in only when it visits a vertex for the first time, so a
    flood fill runs for at most the length of the queue plus the number of
    neighbours of the vertices not yet visited iterations. *)
Theorem findVertexSides_terminates (meshData : MeshData) (st : PolySymmetryData) :
  (forall fuel q s,
     (floodMeasure meshData q s <= fuel)%nat ->
     whileQueue (leftFloodBody meshData st) fuel q s <> OutOfFuel /\
     whileQueue (rightFloodBody meshData st) fuel q s <> OutOfFuel) /\
  (forall left, findVertexSides meshData left st <> OutOfFuel).
Proof.
  split.
  - intros fuel q s Hfuel.
    split; [by apply leftFlood_terminates | by apply rightFlood_terminates].
  - intros left. apply findVertexSides_fuel.
Qed.

(** ** What the two passes over a face write *)

Section FacePasses.
Variable intersection : list Z -> list Z -> list Z.
Variable meshData : MeshData.

(** The vertex pass over a face leaves everything but the vertex table
    alone, and in the vertex table the entries of the vertices that were
    examined. *)
Lemma findSymmetricalVerticesOnFace_frame (facePair : Z * Z)
    (st st' : PolySymmetryData) :
  findSymmetricalVerticesOnFace meshData facePair st = Ok st' ->
  st' = withVertices st (vertexSymmetryIndices st') (examinedVertices st') /\
  (forall v, vget (examinedVertices st) v = Ok true ->
     vget (examinedVertices st') v = Ok true /\
     vget (vertexSymmetryIndices st') v = vget (vertexSymmetryIndices st) v).
Proof.
  unfold findSymmetricalVerticesOnFace. intros H.
  inv_bind H as fd Hfd. inv_bind H as q0 Hq0.
  pose (P := fun (_ : list Z) (s : PolySymmetryData) =>
      s = withVertices st (vertexSymmetryIndices s) (examinedVertices s) /\
      forall v, vget (examinedVertices st) v = Ok true ->
        vget (examinedVertices s) v = Ok true /\
        vget (vertexSymmetryIndices s) v = vget (vertexSymmetryIndices st) v).
  assert (HP : P [] st'); [|exact HP].
  eapply (whileQueue_inv P); [| |exact H]; [|split; [by destruct st | done]].
  intros x q s q' s' [Hs Hkeep]
    [[-> ->]|(vertex1 & n0 & n1 & _ & Hn0 & Hn1 & Hne0 & Hne1 & Hm & ->)]
    %faceVerticesBody_Ok; [done|].
  apply getUnexaminedVertexSibling_unexamined in Hn0 as [?|Hn0]; [done|].
  apply getUnexaminedVertexSibling_unexamined in Hn1 as [?|Hn1]; [done|].
  apply markSymmetricalVertices_Ok in Hm as (idx & ex & Hm & ->).
  split; [rewrite Hs at 1; done|]. simpl.
  apply markPair_spec in Hm as (_ & _ & _ & _ & _ & _ & _ & _ & _ & _ & Ho).
  intros v Hv. destruct (Hkeep v Hv) as [Hx Hi].
  assert (Hv0 : v <> n0) by congruence.
  assert (Hv1 : v <> n1) by congruence.
  destruct (Ho v Hv0 Hv1) as [-> ->]. done.
Qed.

(** X16. [findSymmetricalVerticesOnFace] writes to the entries of vertices that
    were not examined, and to nothing else: the entries of the edges and
    of the faces, the side table and the left seeds are as before, and so
    is the entry of every vertex that was examined.  On a face none of
    whose vertices is examined it changes nothing. *)
Theorem findSymmetricalVerticesOnFace_writes (facePair : Z * Z)
    (st st' : PolySymmetryData) :
  findSymmetricalVerticesOnFace meshData facePair st = Ok st' ->
  st' = withVertices st (vertexSymmetryIndices st') (examinedVertices st') /\
  (forall v, vget (examinedVertices st) v = Ok true ->
     vget (examinedVertices st') v = Ok true /\
     vget (vertexSymmetryIndices st') v = vget (vertexSymmetryIndices st) v) /\
  (forall fd, vget (faceData meshData) (fst facePair) = Ok fd ->
     Forall (fun v => vget (examinedVertices st) v = Ok false)
            (connectedVertices fd) ->
     st' = st).
Proof.
  intros H0. destruct (findSymmetricalVerticesOnFace_frame _ _ _ H0) as [HP1 HP2].
  split; [done|]. split; [done|].
  revert H0. unfold findSymmetricalVerticesOnFace. intros H.
  inv_bind H as fd Hfd. inv_bind H as q0 Hq0.
  intros fd' Hfd' Hall. assert (fd' = fd) as -> by congruence.
  assert (Hnil : q0 = []).
  { eapply (forEach_inv (fun q => q = [])); [| |exact Hq0]; [|done].
    intros v q q' Hv -> Hb. rewrite Forall_forall in Hall.
    rewrite (Hall _ Hv) in Hb. simpl in Hb. by injection Hb as <-. }
  subst q0. rewrite whileQueue_nil in H. by injection H as <-.
Qed.

Lemma faceEdgesBody_sublist (l : list Z) :
  forall q st q' st',
  forEach (faceEdgesBody intersection meshData) l (q, st) = Ok (q', st') ->
  exists pushed, q' = q ++ pushed /\ sublist (pushed.*1) l.
Proof.
  induction l as [|e l IH]; intros q st q' st' H; simpl in H.
  - injection H as <- <-. exists []. by rewrite app_nil_r.
  - inv_bind H as s1 Hs1. destruct s1 as [q1 st1].
    destruct (IH _ _ _ _ H) as (pushed & -> & Hsub).
    apply faceEdgesBody_Ok in Hs1
      as [[-> ->]|(ed & c0 & c1 & vertex0 & vertex1 & vd0 & vd1 & edgeIndex & exi
                   & _ & _ & _ & _ & _ & _ & _ & _ & _ & _ & -> & _)].
    + exists pushed. split; [done | by constructor].
    + destruct exi.
      * exists pushed. split; [done | by constructor].
      * exists ((e, edgeIndex) :: pushed).
        split; [by rewrite <- app_assoc | by constructor].
Qed.

(** X17. [findSymmetricalEdgesOnFace] writes to entries of edges, and to
    nothing else of the table; it keeps the pairs that are in the queue
    and appends pairs whose first edges are edges of the face, in the
    order of the face.  On a face all of whose edges are examined it
    changes nothing and appends nothing. *)
Theorem findSymmetricalEdgesOnFace_writes (faceIndex : Z) (q q' : list (Z * Z))
    (st st' : PolySymmetryData) :
  findSymmetricalEdgesOnFace intersection meshData q faceIndex st = Ok (q', st') ->
  st' = withEdges st (edgeSymmetryIndices st') (examinedEdges st') /\
  exists fd pushed,
    vget (faceData meshData) faceIndex = Ok fd /\
    q' = q ++ pushed /\ sublist (pushed.*1) (connectedEdges fd) /\
    (Forall (fun e => vget (examinedEdges st) e = Ok true) (connectedEdges fd) ->
     q' = q /\ st' = st).
Proof.
  unfold findSymmetricalEdgesOnFace. intros H. inv_bind H as fd Hfd. split.
  - pose (P := fun s : list (Z * Z) * PolySymmetryData =>
        snd s = withEdges st (edgeSymmetryIndices (snd s)) (examinedEdges (snd s))).
    change (P (q', st')).
    eapply (forEach_inv P); [| |exact H]; [|by destruct st].
    intros e [q1 s1] [q2 s2] _ HP
      [[-> ->]|(ed & c0 & c1 & vertex0 & vertex1 & vd0 & vd1 & edgeIndex & exi
                & _ & _ & _ & _ & _ & _ & _ & _ & _ & _ & _ & Hm)]
      %faceEdgesBody_Ok; [done|].
    unfold P in *. simpl in *.
    apply markSymmetricalEdges_Ok in Hm as (idx & ex & _ & ->). simpl.
    rewrite HP at 1. done.
  - destruct (faceEdgesBody_sublist _ _ _ _ _ H) as (pushed & -> & Hsub).
    exists fd, pushed. split; [done|]. split; [done|]. split; [done|].
    intros Hall.
    pose (P := fun s : list (Z * Z) * PolySymmetryData => s = (q, st)).
    assert (HP : P (q ++ pushed, st')); [|by injection HP].
    eapply (forEach_inv P); [| |exact H]; [|done].
    intros e s s' He -> Hb. unfold P. rewrite Forall_forall in Hall.
    unfold faceEdgesBody in Hb. rewrite (Hall _ He) in Hb. simpl in Hb.
    by injection Hb as <-.
Qed.

End FacePasses.

(** ** How far the flood fills spread *)

Section Spread.
Variable meshData : MeshData.

Lemma push_unvisited_guarded_closed (visited : list bool) (idx : list Z)
    (vertexIndex : Z) (l : list Z) :
  forall q q',
  forEach (fun i queue =>
             vis ← vget visited i;
             if (vis : bool) then Ok queue
             else
               partner ← vget idx i;
               if partner =? vertexIndex then Ok queue
               else Ok (queue ++ [i])) l q = Ok q' ->
  (forall j, j ∈ q -> j ∈ q') /\
  (forall i, i ∈ l ->
     vget visited i = Ok true \/ vget idx i = Ok vertexIndex \/ i ∈ q').
Proof.
  induction l as [|i l IH]; intros q q' H; simpl in H.
  - injection H as <-. split; [done|]. by intros i ?%elem_of_nil.
  - inv_bind H as q1 H1. inv_bind H1 as vis Hvis.
    destruct (IH _ _ H) as [Hq Hl].
    assert (Hq1 : forall j, j ∈ q -> j ∈ q1).
    { destruct vis; [by injection H1 as <-|]. inv_bind H1 as p Hp.
      destruct (p =? vertexIndex); injection H1 as <-; [done|].
      intros j Hj. apply elem_of_app. by left. }
    split; [intros j Hj; by apply Hq, Hq1|].
    intros j [->|Hj]%elem_of_cons; [|by apply Hl].
    destruct vis; [by left|]. inv_bind H1 as p Hp.
    destruct (Z.eqb_spec p vertexIndex) as [->|Hne]; injection H1 as <-.
    + right. by left.
    + right. right. apply Hq, elem_of_app. right. by left.
Qed.

Lemma push_unvisited_closed (visited : list bool) (l : list Z) :
  forall q q',
  forEach (fun i queue =>
             vis ← vget visited i;
             if (vis : bool) then Ok queue else Ok (queue ++ [i])) l q = Ok q' ->
  (forall j, j ∈ q -> j ∈ q') /\
  (forall i, i ∈ l -> vget visited i = Ok true \/ i ∈ q').
Proof.
  induction l as [|i l IH]; intros q q' H; simpl in H.
  - injection H as <-. split; [done|]. by intros i ?%elem_of_nil.
  - inv_bind H as q1 H1. inv_bind H1 as vis Hvis.
    destruct (IH _ _ H) as [Hq Hl].
    assert (Hq1 : forall j, j ∈ q -> j ∈ q1).
    { destruct vis; injection H1 as <-; [done|].
      intros j Hj. apply elem_of_app. by left. }
    split; [intros j Hj; by apply Hq, Hq1|].
    intros j [->|Hj]%elem_of_cons; [|by apply Hl].
    destruct vis; [by left|]. injection H1 as <-.
    right. apply Hq, elem_of_app. right. by left.
Qed.

(** Visiting a vertex that is not its own partner puts its neighbours in
    the queue, but for those that are visited and, in the left flood fill,
    the one that has the vertex as partner. *)
Lemma leftFloodBody_closed (st : PolySymmetryData) (x : Z) (q q' : list Z)
    (s s' : FloodState) :
  leftFloodBody meshData st x q s = Ok (q', s') ->
  vget (fst s) x = Ok false -> vget (vertexSymmetryIndices st) x <> Ok x ->
  exists vd,
    vget (vertexData meshData) x = Ok vd /\
    forall i, i ∈ connectedVertices vd ->
      vget (fst s') i = Ok true \/ vget (vertexSymmetryIndices st) i = Ok x
      \/ i ∈ q'.
Proof.
  unfold leftFloodBody. destruct s as [vis sides]. simpl. intros H Hx Hself.
  rewrite Hx in H. simpl in H.
  inv_bind H as vis' Hvis'. inv_bind H as p Hp.
  destruct (Z.eqb_spec p x) as [->|Hne]; [done|].
  inv_bind H as sides' Hsides'. inv_bind H as vd Hvd.
  inv_bind H as q1 Hq1. injection H as <- <-. simpl.
  exists vd. split; [done|].
  by apply push_unvisited_guarded_closed in Hq1 as [_ Hl].
Qed.

Lemma rightFloodBody_closed (st : PolySymmetryData) (x : Z) (q q' : list Z)
    (s s' : FloodState) :
  rightFloodBody meshData st x q s = Ok (q', s') ->
  vget (fst s) x = Ok false -> vget (vertexSymmetryIndices st) x <> Ok x ->
  exists vd,
    vget (vertexData meshData) x = Ok vd /\
    forall i, i ∈ connectedVertices vd ->
      vget (fst s') i = Ok true \/ vget (vertexSymmetryIndices st) i = Ok x
      \/ i ∈ q'.
Proof.
  unfold rightFloodBody. destruct s as [vis sides]. simpl. intros H Hx Hself.
  rewrite Hx in H. simpl in H.
  inv_bind H as vis' Hvis'. inv_bind H as p Hp.
  destruct (Z.eqb_spec p x) as [->|Hne]; [done|].
  inv_bind H as sides' Hsides'. inv_bind H as vd Hvd.
  inv_bind H as q1 Hq1. injection H as <- <-. simpl.
  exists vd. split; [done|].
  apply push_unvisited_closed in Hq1 as [_ Hl].
  intros i Hi. destruct (Hl i Hi); auto.
Qed.

(** What both flood fills keep: a visited vertex that is not its own
    partner has a side other than CENTER; a vertex with a side other than
    CENTER is visited or in the queue; and the neighbours of a visited
    vertex that is not its own partner are visited or in the queue, but for
    the one that has the vertex as partner. *)
Lemma flood_spread_step (side : Z) (st : PolySymmetryData) (x : Z)
    (q q' : list Z) (s s' : FloodState) :
  side <> CENTER ->
  floodStep meshData side st x q s q' s' ->
  (vget (fst s) x = Ok false -> vget (vertexSymmetryIndices st) x <> Ok x ->
   exists vd,
     vget (vertexData meshData) x = Ok vd /\
     forall i, i ∈ connectedVertices vd ->
       vget (fst s') i = Ok true \/ vget (vertexSymmetryIndices st) i = Ok x
       \/ i ∈ q') ->
  spreadInvariant meshData st (x :: q) s -> spreadInvariant meshData st q' s'.
Proof.
  intros Hside Hstep Hclosed (HA & HB & HC).
  assert (Hq : forall j, j ∈ q -> j ∈ q') by (intros j; by eapply floodStep_queue).
  destruct (vget (fst s) x) as [[]| |] eqn:Hx.
  - (* visited before: nothing changes *)
    destruct Hstep as [(_ & -> & ->)|(Hx' & _)]; [|congruence].
    split; [done|]. split.
    + intros v sv Hv Hne. destruct (HB v sv Hv Hne) as [?|Hin]; [by left|].
      apply elem_of_cons in Hin as [->|?]; auto.
    + intros v vd i Hv Hself Hvd Hi.
      destruct (HC v vd i Hv Hself Hvd Hi) as [?|[?|Hin]]; auto.
      apply elem_of_cons in Hin as [->|?]; auto.
  - (* visited now *)
    destruct Hstep as [(Hx' & _)|(_ & Hvis & p & Hp & Hcase)]; [congruence|].
    assert (Hvis' : forall j, vget (fst s) j = Ok true -> vget (fst s') j = Ok true).
    { intros j Hj. assert (j <> x) by congruence.
      rewrite (vget_vset_ne _ _ _ _ _ Hvis); [done | congruence]. }
    assert (Hvisx : vget (fst s') x = Ok true) by (by eapply vget_vset_eq).
    assert (Hsides : exists sx, vset (snd s) x sx = Ok (snd s') /\
                               (p <> x -> sx <> CENTER)).
    { destruct Hcase as [(-> & Hs & _)|(Hne & Hs & _)]; eauto. }
    destruct Hsides as (sx & Hs & Hsx).
    split; [|split].
    + intros v Hv. destruct (decide (v = x)) as [->|Hne].
      * exists sx. split; [by eapply vget_vset_eq|].
        intros Hself. apply Hsx. congruence.
      * rewrite (vget_vset_ne _ _ _ _ _ Hs) by congruence. apply HA.
        rewrite <- (vget_vset_ne _ _ _ _ _ Hvis); [done | congruence].
    + intros v sv Hv Hne. destruct (decide (v = x)) as [->|Hnx]; [by left|].
      rewrite (vget_vset_ne _ _ _ _ _ Hs) in Hv by congruence.
      destruct (HB v sv Hv Hne) as [?|Hin]; [left; by apply Hvis'|].
      apply elem_of_cons in Hin as [->|?]; auto.
    + intros v vd i Hv Hself Hvd Hi.
      destruct (decide (v = x)) as [->|Hnx].
      * destruct (Hclosed eq_refl Hself) as (vd' & Hvd' & Hall).
        assert (vd' = vd) as -> by congruence. by apply Hall.
      * rewrite (vget_vset_ne _ _ _ _ _ Hvis) in Hv by congruence.
        destruct (HC v vd i Hv Hself Hvd Hi) as [?|[?|Hin]]; auto.
        apply elem_of_cons in Hin as [->|?]; auto.
  - destruct Hstep as [(Hx' & _)|(Hx' & _)]; congruence.
  - destruct Hstep as [(Hx' & _)|(Hx' & _)]; congruence.
Qed.

(** X21. The flood fills of the side classifier stop only at vertices that
    are their own partner, and at the partner of the vertex they come
    from: when a vertex that is not its own partner ends with a side other
    than CENTER, each of its neighbours that is not its own partner, and
    does not have the vertex as partner, ends with a side other than CENTER
    too. *)
Theorem findVertexSides_spreads (left : list Z) (st st' : PolySymmetryData)
    (v i sv : Z) (vd : ComponentData) :
  findVertexSides meshData left st = Ok st' ->
  vget (vertexSides st') v = Ok sv -> sv <> CENTER ->
  vget (vertexSymmetryIndices st) v <> Ok v ->
  vget (vertexData meshData) v = Ok vd -> i ∈ connectedVertices vd ->
  vget (vertexSymmetryIndices st) i <> Ok v ->
  vget (vertexSymmetryIndices st) i <> Ok i ->
  exists si, vget (vertexSides st') i = Ok si /\ si <> CENTER.
Proof.
  intros H Hsv Hne Hself Hvd Hi Hiv Hii.
  apply findVertexSides_Ok in H
    as (n & q1 & sides1 & fuel1 & vis2 & sides2 & q3 & sides3 & fuel3 & vis4
        & sides4 & -> & H1 & H2 & H3 & H4 & ->).
  simpl in *.
  apply seedLeft_spec in H1 as (-> & _ & _ & Hin1 & Hout1). simpl in *.
  apply seedRight_spec in H3 as (ps & -> & _ & _ & _ & Hin3 & Hout3).
  simpl in *.
  assert (I2 : spreadInvariant meshData st [] (vis2, sides2)).
  { eapply (whileQueue_inv (spreadInvariant meshData st)); [| |exact H2].
    - intros x q s q' s' HI Hb.
      apply (flood_spread_step LEFT st x q q' s s');
        [done | by apply leftFloodBody_step | exact (leftFloodBody_closed st x q q' s s' Hb) | done].
    - split; [|split]; simpl.
      + by intros w ?%vget_replicate.
      + intros w sw Hw Hsw. right.
        destruct (decide (w ∈ left)) as [?|Hout]; [done|].
        rewrite (Hout1 _ Hout) in Hw. apply vget_replicate in Hw. by destruct Hsw.
      + by intros w ? ? ?%vget_replicate. }
  assert (I4 : spreadInvariant meshData st [] (vis4, sides4)).
  { eapply (whileQueue_inv (spreadInvariant meshData st)); [| |exact H4].
    - intros x q s q' s' HI Hb.
      apply (flood_spread_step RIGHT st x q q' s s');
        [done | by apply rightFloodBody_step | exact (rightFloodBody_closed st x q q' s s' Hb) | done].
    - destruct I2 as (HA & HB & HC). split; [|split]; simpl in *.
      + intros w Hw. destruct (decide (w ∈ ps)) as [Hps|Hps].
        * exists RIGHT. split; [by apply Hin3 | done].
        * rewrite (Hout3 _ Hps). by apply HA.
      + intros w sw Hw Hsw. destruct (decide (w ∈ ps)) as [Hps|Hps]; [by right|].
        rewrite (Hout3 _ Hps) in Hw.
        destruct (HB w sw Hw Hsw) as [?|Hnil]; [by left|].
        by apply elem_of_nil in Hnil.
      + intros w wd j Hw Hws Hwd Hj.
        destruct (HC w wd j Hw Hws Hwd Hj) as [?|[?|Hnil]]; auto.
        by apply elem_of_nil in Hnil. }
  destruct I4 as (HA & HB & HC). simpl in *.
  destruct (HB v sv Hsv Hne) as [Hv|Hnil]; [|by apply elem_of_nil in Hnil].
  destruct (HC v vd i Hv Hself Hvd Hi) as [Hvi|[?|Hnil]];
    [|done|by apply elem_of_nil in Hnil].
  destruct (HA i Hvi) as (si & Hsi & Hc). exists si. split; [done|]. by apply Hc.
Qed.

End Spread.



(** ** Partners on opposite sides *)

Section Opposite.
Variable meshData : MeshData.

Lemma floodTrace_step (side : Z) (st : PolySymmetryData) (old : list bool)
    (sides0 : list Z) (q0 : list Z) (x : Z) (q q' : list Z)
    (s s' : FloodState) :
  floodStep meshData side st x q s q' s' ->
  floodTrace side st old sides0 q0 (x :: q) s ->
  floodTrace side st old sides0 q0 q' s'.
Proof.
  intros Hstep (Hold & Hnew & Hq0).
  assert (Hq : forall j, j ∈ q -> j ∈ q') by (intros j; by eapply floodStep_queue).
  pose proof Hstep as Hstep'.
  destruct Hstep as [(Hx & -> & ->)|(Hx & Hvis & p & Hp & Hcase)].
  - split; [done|]. split; [done|].
    intros p Hp. destruct (Hq0 p Hp) as [?|[->|?]%elem_of_cons]; auto.
  - assert (Hsx : vget (snd s') x = Ok (if p =? x then CENTER else side)).
    { destruct Hcase as [(-> & Hs & _)|(Hne & Hs & _)].
      - rewrite Z.eqb_refl. by eapply vget_vset_eq.
      - destruct (Z.eqb_spec p x); [done|]. by eapply vget_vset_eq. }
    split; [|split].
    + intros v Hv. destruct (Hold v Hv) as [Hvv Hsv].
      destruct (floodStep_visited _ _ _ _ v _ _ _ _ Hstep' Hvv) as [-> ->]. done.
    + intros v Hv Hov. destruct (decide (v = x)) as [->|Hne]; [by exists p|].
      destruct (floodStep_other _ _ _ _ v _ _ _ _ Hstep' Hne) as [Hv' ->].
      rewrite Hv' in Hv. by apply Hnew.
    + intros p0 Hp0. destruct (Hq0 p0 Hp0) as [Hv|[->|?]%elem_of_cons]; auto.
      * left. by destruct (floodStep_visited _ _ _ _ p0 _ _ _ _ Hstep' Hv).
      * left. by eapply vget_vset_eq.
Qed.

(** The left flood fill pushes a neighbour only when its partner is not the
    vertex it comes from. *)
Lemma push_unvisited_guarded_guard (visited : list bool) (idx : list Z)
    (vertexIndex : Z) (l : list Z) :
  forall q q',
  forEach (fun i queue =>
             vis ← vget visited i;
             if (vis : bool) then Ok queue
             else
               partner ← vget idx i;
               if partner =? vertexIndex then Ok queue
               else Ok (queue ++ [i])) l q = Ok q' ->
  forall j, j ∈ q' -> j ∈ q \/ (j ∈ l /\ vget idx j <> Ok vertexIndex).
Proof.
  induction l as [|i l IH]; intros q q' H j Hj; simpl in H.
  - injection H as <-. by left.
  - inv_bind H as q1 H1. inv_bind H1 as vis Hvis.
    destruct (IH _ _ H j Hj) as [Hq1|[Hl Hg]]; [|right; split; [by right | done]].
    destruct vis; [injection H1 as <-; by left|].
    inv_bind H1 as p Hp.
    destruct (Z.eqb_spec p vertexIndex) as [->|Hne]; injection H1 as <-;
      [by left|].
    apply elem_of_app in Hq1 as [?|Hji]; [by left|].
    apply list_elem_of_singleton in Hji as ->.
    right. split; [by left | congruence].
Qed.

Lemma leftFloodBody_guard (st : PolySymmetryData) (x : Z) (q q' : list Z)
    (s s' : FloodState) :
  leftFloodBody meshData st x q s = Ok (q', s') ->
  forall j, j ∈ q' ->
    j ∈ q \/
    (vget (vertexSymmetryIndices st) x <> Ok x /\
     exists vd, vget (vertexData meshData) x = Ok vd /\
                j ∈ connectedVertices vd /\
                vget (vertexSymmetryIndices st) j <> Ok x).
Proof.
  unfold leftFloodBody. destruct s as [vis sides]. intros H j Hj.
  inv_bind H as b Hb. destruct b; [injection H as <- <-; by left|].
  inv_bind H as vis' Hvis'. inv_bind H as p Hp.
  destruct (Z.eqb_spec p x) as [->|Hne].
  { inv_bind H as sides' Hs. injection H as <- <-. by left. }
  inv_bind H as sides' Hs. inv_bind H as vd Hvd. inv_bind H as q1 Hq1.
  injection H as <- <-.
  destruct (push_unvisited_guarded_guard _ _ _ _ _ _ Hq1 j Hj) as [?|[Hl Hg]];
    [by left|].
  right. split; [congruence|]. by exists vd.
Qed.

Section Half.
Variable st : PolySymmetryData.
Variable left : list Z.
Variable half : Z -> Prop.
Hypothesis Hhalf : mirrorHalf meshData st half.
Hypothesis Hleft : Forall half left.

Lemma half_partner (v : Z) :
  half v -> vget (vertexSymmetryIndices st) v <> Ok v.
Proof.
  intros Hv Heq. destruct (Hhalf v Hv) as (p & _ & _ & Hp & _ & Hn & _).
  assert (p = v) as -> by congruence. done.
Qed.

(** The left flood fill stays in the half and on the centre line. *)
Lemma leftReach_half (v : Z) :
  leftReach meshData st left v ->
  vget (vertexSymmetryIndices st) v = Ok v \/ half v.
Proof.
  induction 1 as [l Hl|u v vd _ IH Hu Hvd Hv Hg].
  - right. rewrite Forall_forall in Hleft. by apply Hleft.
  - destruct IH as [?|Hhu]; [done|].
    destruct (Hhalf u Hhu) as (p & vd' & pd & _ & _ & _ & Hvd' & _ & Hn & _).
    assert (vd' = vd) as -> by congruence.
    destruct (Hn v Hv) as [?|[?|[? _]]]; auto. done.
Qed.

End Half.

(** When the left seeds are in one half of a mirrored region: every vertex
    of the half that the left flood fill can reach ends LEFT and its
    partner RIGHT; and every vertex that ends with a side other than CENTER
    is in the half and LEFT, with its partner RIGHT, or is the partner of a
    vertex of the half and RIGHT, with its partner LEFT. *)
Lemma findVertexSides_mirrored (left : list Z) (st st' : PolySymmetryData)
    (half : Z -> Prop) :
  findVertexSides meshData left st = Ok st' ->
  mirrorHalf meshData st half -> Forall half left ->
  (forall v, leftReach meshData st left v -> half v ->
     exists p,
       vget (vertexSymmetryIndices st) v = Ok p /\
       vget (vertexSides st') v = Ok LEFT /\
       vget (vertexSides st') p = Ok RIGHT) /\
  (forall v sv, vget (vertexSides st') v = Ok sv -> sv <> CENTER ->
     exists p,
       vget (vertexSymmetryIndices st) v = Ok p /\
       vget (vertexSymmetryIndices st) p = Ok v /\
       ((sv = LEFT /\ half v /\ vget (vertexSides st') p = Ok RIGHT) \/
        (sv = RIGHT /\ half p /\ vget (vertexSides st') p = Ok LEFT))).
Proof.
  intros H Hhalf Hleft.
  apply findVertexSides_Ok in H
    as (n & q1 & sides1 & fuel1 & vis2 & sides2 & q3 & sides3 & fuel3 & vis4
        & sides4 & -> & H1 & H2 & H3 & H4 & ->).
  simpl in *.
  apply seedLeft_spec in H1 as (-> & _ & _ & Hin1 & Hout1). simpl in *.
  apply seedRight_spec in H3 as (ps & -> & _ & Hall & _ & Hin3 & Hout3).
  simpl in *.
  set (vis0 := replicate (Z.to_nat (numberOfVertices meshData)) false) in *.
  assert (Hvis0 : forall w, vget vis0 w <> Ok true)
    by (by intros w ?%vget_replicate).
  (* the left flood fill *)
  pose (PL := fun (q : list Z) (s : FloodState) =>
      spreadInvariant meshData st q s /\
      floodTrace LEFT st vis0 sides1 left q s /\
      forall w, vget (fst s) w = Ok true \/ w ∈ q -> leftReach meshData st left w).
  assert (HL : PL [] (vis2, sides2)).
  { eapply (whileQueue_inv PL); [| |exact H2].
    - intros x q s q' s' (HS & HT & HR) Hb.
      pose proof (leftFloodBody_step _ _ _ _ _ _ _ Hb) as Hstep.
      split; [|split].
      + apply (flood_spread_step meshData LEFT st x q q' s s');
          [done | done | exact (leftFloodBody_closed meshData st x q q' s s' Hb)
          | done].
      + by eapply floodTrace_step.
      + intros w [Hw|Hw].
        * destruct (decide (w = x)) as [->|Hwx]; [apply HR; right; by left|].
          apply HR. left.
          by destruct (floodStep_other _ _ _ _ w _ _ _ _ Hstep Hwx) as [<- _].
        * destruct (leftFloodBody_guard _ _ _ _ _ _ Hb w Hw)
            as [?|(Hx & vd & Hvd & Hwn & Hg)]; [apply HR; right; by right|].
          eapply leftReach_step; [|exact Hx|exact Hvd|exact Hwn|exact Hg].
          apply HR. right. by left.
    - split; [|split].
      + split; [|split]; simpl.
        * by intros w ?%vget_replicate.
        * intros w sw Hw Hsw. right.
          destruct (decide (w ∈ left)) as [?|Hout]; [done|].
          rewrite (Hout1 _ Hout) in Hw. apply vget_replicate in Hw.
          by destruct Hsw.
        * by intros w ? ? ?%vget_replicate.
      + split; [by intros w ?%Hvis0|]. split; [|by right].
        by intros w ?%vget_replicate.
      + intros w [?%vget_replicate|Hw]; [done | by apply leftReach_seed]. }
  destruct HL as ((HA2 & HB2 & HC2) & (_ & HN2 & HQ2) & HR2). simpl in *.
  assert (HR2' : forall w, vget vis2 w = Ok true ->
                   vget (vertexSymmetryIndices st) w = Ok w \/ half w).
  { intros w Hw. eapply leftReach_half; [done..|]. apply HR2. by left. }
  (* the partners of the left seeds are on the other side *)
  assert (Hps : forall p, p ∈ ps ->
            exists l, l ∈ left /\ half l /\ vget vis2 l = Ok true /\
                      vget (vertexSymmetryIndices st) l = Ok p /\
                      vget (vertexSymmetryIndices st) p = Ok l /\ ~ half p).
  { intros p Hp.
    destruct (Forall2_elem_of_r _ _ _ _ Hall Hp) as (l & Hl & Hlp).
    assert (Hhl : half l) by (rewrite Forall_forall in Hleft; by apply Hleft).
    destruct (Hhalf l Hhl) as (p' & _ & _ & Hp' & Hpl & Hnp & _).
    assert (p' = p) as -> by congruence.
    exists l. repeat (split; [done|]). split; [|done].
    destruct (HQ2 l Hl) as [?|Hnil]; [done | by apply elem_of_nil in Hnil]. }
  assert (Hps2 : forall p, p ∈ ps -> vget vis2 p <> Ok true).
  { intros p Hp Hvp. destruct (Hps p Hp) as (l & _ & Hhl & _ & Hlp & Hpl & Hnp).
    destruct (HR2' p Hvp) as [Hself|?]; [|done].
    assert (l = p) as -> by congruence. done. }
  (* the right flood fill *)
  pose (PR := fun (q : list Z) (s : FloodState) =>
      spreadInvariant meshData st q s /\
      floodTrace RIGHT st vis2 sides3 ps q s /\
      forall u, vget (fst s) u = Ok true \/ u ∈ q ->
        vget vis2 u = Ok true \/ mirrored st half vis2 u).
  assert (HRt : PR [] (vis4, sides4)).
  { eapply (whileQueue_inv PR); [| |exact H4].
    - intros x q s q' s' (HS & HT & HK) Hb.
      pose proof (rightFloodBody_step _ _ _ _ _ _ _ Hb) as Hstep.
      split; [|split].
      + apply (flood_spread_step meshData RIGHT st x q q' s s');
          [done | done | exact (rightFloodBody_closed meshData st x q q' s s' Hb)
          | done].
      + by eapply floodTrace_step.
      + intros u [Hu|Hu].
        * destruct (decide (u = x)) as [->|Hux]; [apply HK; right; by left|].
          apply HK. left.
          by destruct (floodStep_other _ _ _ _ u _ _ _ _ Hstep Hux) as [<- _].
        * destruct Hstep as [(_ & -> & _)|(Hx & _ & p & Hp & Hcase)];
            [apply HK; right; by right|].
          destruct Hcase as [(_ & _ & ->)|(Hpx & _ & vd & pushed & Hvd & -> & Hsub)];
            [apply HK; right; by right|].
          apply elem_of_app in Hu as [?|Hu]; [apply HK; right; by right|].
          assert (Hun : u ∈ connectedVertices vd) by (by eapply elem_of_sublist).
          destruct HT as (Hold & _ & _).
          destruct (HK x) as [Hx2|[Hself|(w & Hhw & Hw2 & Hwx)]];
            [right; by left | | congruence |].
          { destruct (Hold x Hx2) as [? _]. congruence. }
          destruct (Hhalf w Hhw)
            as (p' & wd & pd & Hp' & Hxw & Hnx & Hwd & Hpd & _ & Hnb).
          assert (p' = x) as -> by congruence.
          assert (pd = vd) as -> by congruence.
          destruct (Hnb u Hun) as [?|[->|(i & Hhi & Hin & Hiu)]];
            [right; by left | by left |].
          destruct (HC2 w wd i Hw2 (half_partner _ _ Hhalf w Hhw) Hwd Hin)
            as [Hi2|[Hiw|Hnil]]; [| |by apply elem_of_nil in Hnil].
          -- right. right. by exists i.
          -- left. assert (u = w) as -> by congruence. done.
    - split; [|split].
      + split; [|split]; simpl.
        * intros w Hw. destruct (decide (w ∈ ps)) as [Hin|Hout].
          -- exists RIGHT. split; [by apply Hin3 | done].
          -- rewrite (Hout3 _ Hout). by apply HA2.
        * intros w sw Hw Hsw. destruct (decide (w ∈ ps)) as [?|Hout]; [by right|].
          rewrite (Hout3 _ Hout) in Hw.
          destruct (HB2 w sw Hw Hsw) as [?|Hnil]; [by left|].
          by apply elem_of_nil in Hnil.
        * intros w wd j Hw Hws Hwd Hj.
          destruct (HC2 w wd j Hw Hws Hwd Hj) as [?|[?|Hnil]]; auto.
          by apply elem_of_nil in Hnil.
      + split; [done|]. split; [done | by right].
      + intros u [?|Hu]; [by left|]. right. right.
        destruct (Hps u Hu) as (l & _ & Hhl & Hl2 & Hlu & _). by exists l. }
  destruct HRt as ((HA4 & HB4 & HC4) & (HO4 & HN4 & HQ4) & HK4). simpl in *.
  (* the sides of the half and of its mirror image *)
  assert (Hside_half : forall w, half w -> vget vis2 w = Ok true ->
                         vget sides4 w = Ok LEFT).
  { intros w Hhw Hw. destruct (HO4 w Hw) as [_ ->].
    assert (Hwps : w ∉ ps).
    { intros Hin. by destruct (Hps w Hin) as (_ & _ & _ & _ & _ & _ & ?). }
    rewrite (Hout3 _ Hwps).
    destruct (HN2 w Hw (Hvis0 w)) as (p & Hp & ->).
    destruct (Z.eqb_spec p w) as [->|?]; [|done].
    by destruct (half_partner _ _ Hhalf w Hhw). }
  assert (Hside_mirror : forall w p, half w -> vget vis4 p = Ok true ->
            vget (vertexSymmetryIndices st) w = Ok p ->
            vget sides4 p = Ok RIGHT).
  { intros w p Hhw Hp4 Hwp.
    destruct (Hhalf w Hhw) as (p' & _ & _ & Hp' & Hpw & Hnp & _).
    assert (p' = p) as -> by congruence.
    assert (Hp2 : vget vis2 p <> Ok true).
    { intros Hp2. destruct (HR2' p Hp2) as [?|?]; [|done].
      assert (w = p) as -> by congruence. done. }
    destruct (HN4 p Hp4 Hp2) as (w' & Hw' & ->).
    assert (w' = w) as -> by congruence.
    destruct (Z.eqb_spec w p) as [->|?]; [done | done]. }
  (* the mirror image of what the left flood fill reached is visited *)
  assert (Hreach : forall w, leftReach meshData st left w -> half w ->
            exists p, vget (vertexSymmetryIndices st) w = Ok p /\
                      vget vis4 p = Ok true).
  { induction 1 as [l Hl|u w vd Hu IH Hus Hvd Hw Hg]; intros Hhw.
    - destruct (Hhalf l Hhw) as (p & _ & _ & Hp & _).
      exists p. split; [done|].
      assert (Hpin : p ∈ ps).
      { destruct (Forall2_elem_of_l _ _ _ _ Hall Hl) as (p' & Hp' & Hlp').
        congruence. }
      destruct (HQ4 p Hpin) as [?|Hnil]; [done | by apply elem_of_nil in Hnil].
    - destruct (leftReach_half st left half Hhalf Hleft u Hu)
        as [?|Hhu]; [done|].
      destruct (IH Hhu) as (pu & Hpu & Hpu4).
      destruct (Hhalf u Hhu)
        as (pu' & vd' & pd & Hpu' & Hpuu & Hnpu & Hvd' & Hpd & Hn & _).
      assert (pu' = pu) as -> by congruence.
      assert (vd' = vd) as -> by congruence.
      destruct (Hn w Hw) as [Hself|[?|(_ & pw & Hpw & Hpwn)]]; [|done|].
      { by destruct (half_partner _ _ Hhalf w Hhw). }
      exists pw. split; [done|].
      assert (Hpus : vget (vertexSymmetryIndices st) pu <> Ok pu).
      { intros Heq. assert (u = pu) as -> by congruence. done. }
      destruct (HC4 pu pd pw Hpu4 Hpus Hpd Hpwn) as [?|[Hpwpu|Hnil]];
        [done | | by apply elem_of_nil in Hnil].
      destruct (Hhalf w Hhw) as (pw' & _ & _ & Hpw' & Hpww & _).
      assert (pw' = pw) as -> by congruence.
      assert (w = pu) as -> by congruence. done. }
  (* the left flood fill visits what it can reach *)
  assert (Hvisit : forall w, leftReach meshData st left w -> vget vis2 w = Ok true).
  { induction 1 as [l Hl|u w vd Hu IH Hus Hvd Hw Hg].
    - destruct (HQ2 l Hl) as [?|Hnil]; [done | by apply elem_of_nil in Hnil].
    - destruct (HC2 u vd w IH Hus Hvd Hw) as [?|[?|Hnil]];
        [done | done | by apply elem_of_nil in Hnil]. }
  split.
  { intros v Hrv Hhv. destruct (Hreach v Hrv Hhv) as (p & Hp & Hp4).
    exists p. split; [done|]. split; [by apply Hside_half, Hvisit|].
    by eapply Hside_mirror. }
  intros v sv Hsv Hne.
  destruct (HB4 v sv Hsv Hne) as [Hv4|Hnil]; [|by apply elem_of_nil in Hnil].
  assert (Hcase : (half v /\ vget vis2 v = Ok true) \/
                  (exists w, half w /\ vget vis2 w = Ok true /\
                             vget (vertexSymmetryIndices st) w = Ok v)).
  { destruct (HK4 v (or_introl Hv4)) as [Hv2|[Hself|(w & ? & ? & ?)]].
    - destruct (HR2' v Hv2) as [Hself|?]; [|by left].
      exfalso. destruct (HO4 v Hv2) as [_ Hs].
      assert (Hvps : v ∉ ps).
      { intros Hin. destruct (Hps v Hin) as (l & _ & Hhl & _ & Hlv & Hvl & Hnv).
        assert (l = v) as -> by congruence. done. }
      rewrite Hs, (Hout3 _ Hvps) in Hsv.
      destruct (HN2 v Hv2 (Hvis0 v)) as (p & Hp & Hs2).
      assert (p = v) as -> by congruence.
      rewrite Z.eqb_refl in Hs2. congruence.
    - exfalso.
      assert (Hdec : vget vis2 v = Ok true \/ vget vis2 v <> Ok true)
        by (destruct (vget vis2 v) as [[]| |]; [by left | by right..]).
      destruct Hdec as [Hv2|Hv2].
      + destruct (HO4 v Hv2) as [_ Hs].
        assert (Hvps : v ∉ ps).
        { intros Hin. destruct (Hps v Hin) as (l & _ & Hhl & _ & Hlv & Hvl & Hnv).
          assert (l = v) as -> by congruence. done. }
        rewrite Hs, (Hout3 _ Hvps) in Hsv.
        destruct (HN2 v Hv2 (Hvis0 v)) as (p & Hp & Hs2).
        assert (p = v) as -> by congruence.
        rewrite Z.eqb_refl in Hs2. congruence.
      + destruct (HN4 v Hv4 Hv2) as (p & Hp & Hs).
        assert (p = v) as -> by congruence.
        rewrite Z.eqb_refl in Hs. congruence.
    - right. by exists w. }
  destruct Hcase as [[Hhv Hv2]|(w & Hhw & Hw2 & Hwv)].
  - destruct (Hreach v (HR2 v (or_introl Hv2)) Hhv) as (p & Hp & Hp4).
    destruct (Hhalf v Hhv) as (p' & _ & _ & Hp' & Hpv & _).
    assert (p' = p) as -> by congruence.
    exists p. split; [done|]. split; [done|]. left.
    pose proof (Hside_half v Hhv Hv2) as HL.
    split; [congruence|]. split; [done|]. by eapply Hside_mirror.
  - destruct (Hhalf w Hhw) as (p' & _ & _ & Hp' & Hvw & _).
    assert (p' = v) as -> by congruence.
    exists w. split; [done|]. split; [done|]. right.
    pose proof (Hside_mirror w v Hhw Hv4 Hwv) as HR.
    split; [congruence|]. split; [done|]. by apply Hside_half.
Qed.

End Opposite.

(** ** C3 *)

(** C3 (amended). After [findVertexSides]: every left seed [i] that is not
    the partner of a left seed and whose partner [p] is not its own partner
    has side LEFT, and [p] has side RIGHT.  When the left seeds are in one
    half of a mirrored region of the mesh, every vertex of the half that
    the left flood fill can reach from the left seeds ends LEFT and its
    partner RIGHT, and every vertex that ends with a side other than CENTER
    is such a vertex or the partner of one: its side and the side of its
    partner are opposite, one LEFT and the other RIGHT.  Every vertex
    outside of a region that contains the left seeds and is closed under
    vertex adjacency and under the symmetry table keeps CENTER, resolved or
    not. *)
Theorem findVertexSides_partner_sides (meshData : MeshData) (left : list Z)
    (st st' : PolySymmetryData) :
  findVertexSides meshData left st = Ok st' ->
  (forall i p, i ∈ left ->
     vget (vertexSymmetryIndices st) i = Ok p ->
     (forall j, j ∈ left -> vget (vertexSymmetryIndices st) j <> Ok i) ->
     vget (vertexSymmetryIndices st) p <> Ok p ->
     vget (vertexSides st') i = Ok LEFT /\ vget (vertexSides st') p = Ok RIGHT) /\
  (forall half : Z -> Prop,
     mirrorHalf meshData st half -> Forall half left ->
     (forall v, leftReach meshData st left v -> half v ->
        exists p,
          vget (vertexSymmetryIndices st) v = Ok p /\
          vget (vertexSides st') v = Ok LEFT /\
          vget (vertexSides st') p = Ok RIGHT) /\
     (forall v sv, vget (vertexSides st') v = Ok sv -> sv <> CENTER ->
        exists p,
          vget (vertexSymmetryIndices st) v = Ok p /\
          vget (vertexSymmetryIndices st) p = Ok v /\
          ((sv = LEFT /\ half v /\ vget (vertexSides st') p = Ok RIGHT) \/
           (sv = RIGHT /\ half p /\ vget (vertexSides st') p = Ok LEFT)))) /\
  (forall AV : Z -> Prop,
     (forall w vd, AV w -> vget (vertexData meshData) w = Ok vd ->
        Forall AV (connectedVertices vd)) ->
     Forall AV left -> closedVertexTable AV st ->
     forall v sv, ~ AV v -> vget (vertexSides st') v = Ok sv -> sv = CENTER).
Proof.
  intros H. split; [|split].
  - intros i p. exact (findVertexSides_seeds meshData left st st' i p H).
  - intros half. exact (findVertexSides_mirrored meshData left st st' half H).
  - intros AV Hadj Hleft Hc.
    by destruct (findVertexSides_region meshData AV left st st' Hadj Hleft Hc H)
      as (_ & _ & ?).
Qed.

(** ** The symmetry table from one run to the next *)

(** Every mark keeps the examined flags and the partners in step. *)
Lemma anyMark_partnersExamined (st st' : PolySymmetryData) :
  anyMark st st' ->
  (partnersExamined (vertexSymmetryIndices st) (examinedVertices st) ->
   partnersExamined (vertexSymmetryIndices st') (examinedVertices st')) /\
  (partnersExamined (edgeSymmetryIndices st) (examinedEdges st) ->
   partnersExamined (edgeSymmetryIndices st') (examinedEdges st')) /\
  (partnersExamined (faceSymmetryIndices st) (examinedFaces st) ->
   partnersExamined (faceSymmetryIndices st') (examinedFaces st')).
Proof.
  intros (i0 & i1 & [H|[H|H]]).
  - apply markSymmetricalVertices_Ok in H as (idx & ex & Hm & ->). simpl.
    split; [by eapply markPair_partnersExamined | done].
  - apply markSymmetricalEdges_Ok in H as (idx & ex & Hm & ->). simpl.
    split; [done|]. split; [by eapply markPair_partnersExamined | done].
  - apply markSymmetricalFaces_Ok in H as (idx & ex & Hm & ->). simpl.
    split; [done|]. split; [done | by eapply markPair_partnersExamined].
Qed.

Lemma rtc_anyMark_partnersExamined (st st' : PolySymmetryData) :
  rtc anyMark st st' ->
  (partnersExamined (vertexSymmetryIndices st) (examinedVertices st) ->
   partnersExamined (vertexSymmetryIndices st') (examinedVertices st')) /\
  (partnersExamined (edgeSymmetryIndices st) (examinedEdges st) ->
   partnersExamined (edgeSymmetryIndices st') (examinedEdges st')) /\
  (partnersExamined (faceSymmetryIndices st) (examinedFaces st) ->
   partnersExamined (faceSymmetryIndices st') (examinedFaces st')).
Proof.
  induction 1 as [st|st st1 st' Hstep _ (IHV & IHE & IHF)]; [done|].
  destruct (anyMark_partnersExamined _ _ Hstep) as (HV & HE & HF). auto.
Qed.

(** A mark of two faces that were not examined keeps the face table a
    partial involution; the other marks leave it alone. *)
Lemma markStep_faces (AV AE AF : Z -> Prop) (freshV : Prop)
    (st st' : PolySymmetryData) :
  markStep AV AE AF freshV st st' ->
  partialInvolution (faceSymmetryIndices st) (examinedFaces st) ->
  partialInvolution (faceSymmetryIndices st') (examinedFaces st').
Proof.
  intros [(i0 & i1 & _ & _ & _ & Hm)|[(i0 & i1 & _ & _ & Hm)|
          (i0 & i1 & _ & _ & Hx0 & Hx1 & Hm)]] [HP HI].
  - by apply markSymmetricalVertices_Ok in Hm as (idx & ex & _ & ->).
  - by apply markSymmetricalEdges_Ok in Hm as (idx & ex & _ & ->).
  - apply markSymmetricalFaces_Ok in Hm as (idx & ex & Hm & ->). simpl.
    split; [by eapply markPair_partnersExamined | by eapply markPair_involutive].
Qed.

Lemma rtc_markStep_faces (AV AE AF : Z -> Prop) (freshV : Prop)
    (st st' : PolySymmetryData) :
  rtc (markStep AV AE AF freshV) st st' ->
  partialInvolution (faceSymmetryIndices st) (examinedFaces st) ->
  partialInvolution (faceSymmetryIndices st') (examinedFaces st').
Proof.
  induction 1 as [|st st1 st' Hstep _ IH]; [done|].
  intros HP. by eapply IH, markStep_faces.
Qed.

Lemma markStep_vertexStep (AV AE AF : Z -> Prop) (st st' : PolySymmetryData) :
  markStep AV AE AF True st st' -> vertexStep st st'.
Proof.
  intros [(i0 & i1 & _ & _ & Hg & Hm)|[(i0 & i1 & _ & _ & Hm)|
          (i0 & i1 & _ & _ & _ & _ & Hm)]].
  - left. destruct (Hg I). by exists i0, i1.
  - right. by apply markSymmetricalEdges_Ok in Hm as (idx & ex & _ & ->).
  - right. by apply markSymmetricalFaces_Ok in Hm as (idx & ex & _ & ->).
Qed.

Lemma rtc_markStep_vertexStep (AV AE AF : Z -> Prop)
    (st st' : PolySymmetryData) :
  rtc (markStep AV AE AF True) st st' -> rtc vertexStep st st'.
Proof.
  induction 1 as [|st st1 st' Hstep _ IH]; [done|].
  eapply rtc_l; [|exact IH]. by eapply markStep_vertexStep.
Qed.

(** A step keeps the vertex table a partial involution, and keeps the
    partners that are recorded. *)
Lemma vertexStep_keeps (st st' : PolySymmetryData) :
  vertexStep st st' ->
  partialInvolution (vertexSymmetryIndices st) (examinedVertices st) ->
  partialInvolution (vertexSymmetryIndices st') (examinedVertices st') /\
  vertexEntriesKept st st'.
Proof.
  intros [(i0 & i1 & Hx0 & Hx1 & Hm)|[Hi Hx]] [HP HI].
  - apply markSymmetricalVertices_Ok in Hm as (idx & ex & Hm & ->). simpl.
    split.
    + split; [by eapply markPair_partnersExamined
             | by eapply markPair_involutive].
    + intros a a' Ha Hne. simpl.
      destruct HP as [HP _]. destruct (HP a a' Ha Hne) as [Hxa _].
      apply markPair_spec in Hm
        as (_ & _ & _ & _ & _ & _ & _ & _ & _ & _ & Hother).
      destruct (Hother a) as [-> _]; [congruence..|done].
  - rewrite Hi, Hx. split; [done|]. intros a a' Ha _. by rewrite Hi.
Qed.

Lemma rtc_vertexStep_keeps (st st' : PolySymmetryData) :
  rtc vertexStep st st' ->
  partialInvolution (vertexSymmetryIndices st) (examinedVertices st) ->
  partialInvolution (vertexSymmetryIndices st') (examinedVertices st') /\
  vertexEntriesKept st st'.
Proof.
  induction 1 as [st|st st1 st' Hstep _ IH]; intros HP.
  - split; [done|]. by intros a a' Ha _.
  - destruct (vertexStep_keeps _ _ Hstep HP) as [HP1 Hk1].
    destruct (IH HP1) as [HP' Hk']. split; [done|].
    intros a a' Ha Hne. apply Hk'; [|done]. by apply Hk1.
Qed.

Section VertexSteps.
Variable intersection : list Z -> list Z -> list Z.
Variable meshData : MeshData.

Lemma findSymmetricalVerticesOnFace_vertexSteps (facePair : Z * Z)
    (st st' : PolySymmetryData) :
  findSymmetricalVerticesOnFace meshData facePair st = Ok st' ->
  rtc vertexStep st st'.
Proof.
  intros H. eapply (rtc_markStep_vertexStep anywhere anywhere anywhere).
  eapply (findSymmetricalVerticesOnFace_region intersection meshData anywhere
            anywhere anywhere True (closedShell_all _ _));
    [done | apply closedVertexTable_anywhere | exact H].
Qed.

(** With a fresh seed [findFirstSymmetricalVertices] marks vertices that were
    not examined only, whatever the seed faces are. *)
Lemma findFirstSymmetricalVertices_vertexSteps (selection : ComponentSelection)
    (st st' : PolySymmetryData) :
  findFirstSymmetricalVertices meshData selection st = Ok st' ->
  seedFresh meshData selection st -> rtc vertexStep st st'.
Proof.
  intros (st1 & st2 & ed0 & a0 & b0 & ex0 & ed1 & a1 & b1 & ex1 & st3 & Hst1
          & Hst2 & Hed0 & Ha0 & Hb0 & Hex0 & Hed1 & Ha1 & Hb1 & Hex1 & Hst3 & H)
    %findFirstSymmetricalVertices_Ok
    (w0 & w1 & Ho0 & Ho1 & Hn00 & Hn01 & Hn10 & Hn11 & Hu0 & Hu1 & Hw0 & Hw1).
  assert (R1 : vertexStep st st1).
  { left. by exists (fst (vertexIndices selection)), (snd (vertexIndices selection)). }
  apply markSymmetricalVertices_Ok in Hst1 as (idx1 & exv1 & Hm1 & ->).
  assert (R2 : vertexStep (withVertices st idx1 exv1) st2).
  { right. by apply markSymmetricalFaces_Ok in Hst2 as (idx2 & exf2 & _ & ->). }
  apply markSymmetricalFaces_Ok in Hst2 as (idx2 & exf2 & _ & ->).
  simpl in *.
  apply markPair_spec in Hm1
    as (_ & _ & _ & _ & _ & _ & _ & _ & Hex0' & Hex1' & Hother).
  assert (Hw0' : vget exv1 w0 = Ok false)
    by (by destruct (Hother w0 Hn00 Hn01) as [_ ->]).
  assert (Hw1' : vget exv1 w1 = Ok false)
    by (by destruct (Hother w1 Hn10 Hn11) as [_ ->]).
  rewrite (otherEndpoint_next meshData exv1 _ _ _ _ _ _ _
             Ho0 Hed0 Ha0 Hb0 Hex0 Hex0' Hw0') in Hst3.
  rewrite (otherEndpoint_next meshData exv1 _ _ _ _ _ _ _
             Ho1 Hed1 Ha1 Hb1 Hex1 Hex1' Hw1') in Hst3.
  assert (R3 : vertexStep (withFaces (withVertices st idx1 exv1) idx2 exf2) st3).
  { left. by exists w0, w1. }
  eapply rtc_l; [exact R1|]. eapply rtc_l; [exact R2|].
  eapply rtc_l; [exact R3|]. by eapply findSymmetricalVerticesOnFace_vertexSteps.
Qed.

Lemma worklist_vertexSteps (fuel : nat) (q : list (Z * Z))
    (st st' : PolySymmetryData) :
  whileQueue (worklistBody intersection meshData) fuel q st = Ok st' ->
  rtc vertexStep st st'.
Proof.
  intros H.
  eapply (whileQueue_inv (fun _ s => rtc vertexStep st s)); [| |exact H]; [|done].
  intros x q0 s q' s' HP Hb. etrans; [exact HP|].
  eapply (rtc_markStep_vertexStep anywhere anywhere anywhere).
  eapply (worklistBody_region intersection meshData anywhere anywhere anywhere
            True (closedShell_all _ _)); [| |exact Hb].
  - by apply Forall_forall.
  - apply closedVertexTable_anywhere.
Qed.

(** With a fresh seed a run of the engine marks vertices that were not
    examined only. *)
Lemma findSymmetricalVertices_vertexSteps (fuel : nat)
    (selection : ComponentSelection) (st st' : PolySymmetryData) :
  findSymmetricalVertices intersection meshData fuel selection st = Ok st' ->
  seedFresh meshData selection st ->
  rtc vertexStep st st'.
Proof.
  unfold findSymmetricalVertices. fold (withLeftVertex selection st).
  intros H Hfresh. inv_bind H as st1 Hst1.
  apply (rtc_l _ _ (withLeftVertex selection st));
    [right; unfold withLeftVertex; by destruct (_ =? _)|].
  etrans; [|by eapply worklist_vertexSteps].
  eapply findFirstSymmetricalVertices_vertexSteps; [exact Hst1|].
  unfold withLeftVertex. by destruct (_ =? _).
Qed.

End VertexSteps.

(** ** The edge table on a simple mesh *)

Section EdgeTable.
Variable intersection : list Z -> list Z -> list Z.
Variable meshData : MeshData.
Hypothesis Hsimple : simpleMesh meshData = true.
Hypothesis Hinter : forall a b x, x ∈ intersection a b -> x ∈ a /\ x ∈ b.

Lemma endpoints_Ok (e a b : Z) :
  endpoints meshData e = Ok (a, b) <->
  exists ed, vget (edgeData meshData) e = Ok ed /\
             vget (connectedVertices ed) 0 = Ok a /\
             vget (connectedVertices ed) 1 = Ok b.
Proof.
  unfold endpoints. split.
  - intros H. inv_bind H as ed Hed. inv_bind H as c0 Hc0. inv_bind H as c1 Hc1.
    injection H as <- <-. by exists ed.
  - intros (ed & -> & Ha & Hb). simpl. rewrite Ha. simpl. by rewrite Hb.
Qed.

Lemma simple_edge (e : Z) (p : Z * Z) :
  endpoints meshData e = Ok p ->
  0 <= fst p /\ 0 <= snd p /\ fst p <> snd p /\
  forall e' p', endpoints meshData e' = Ok p' -> sameEnds p p' = true -> e' = e.
Proof.
  intros He. destruct p as [a b].
  pose proof He as (ed & Hed & _)%endpoints_Ok.
  apply andb_true_iff in Hsimple as [HE _].
  rewrite forallb_forall in HE.
  specialize (HE (e, ed) (proj1 (list_elem_of_In _ _) (indexed_vget _ _ _ Hed))).
  simpl in HE. rewrite He in HE.
  apply andb_true_iff in HE as [HE Hall].
  apply andb_true_iff in HE as [HE Hne].
  apply andb_true_iff in HE as [H0 H1]. simpl in *.
  split; [lia|]. split; [lia|]. split.
  { apply negb_true_iff in Hne. lia. }
  intros e' p' He' Hsame. destruct p' as [a' b'].
  pose proof He' as (ed' & Hed' & _)%endpoints_Ok.
  rewrite forallb_forall in Hall.
  specialize (Hall (e', ed')
                (proj1 (list_elem_of_In _ _) (indexed_vget _ _ _ Hed'))).
  simpl in Hall. rewrite He', Hsame in Hall. simpl in Hall.
  rewrite orb_false_r in Hall. lia.
Qed.

Lemma simple_incident (v e : Z) (vd : ComponentData) :
  vget (vertexData meshData) v = Ok vd -> e ∈ connectedEdges vd ->
  exists a b, endpoints meshData e = Ok (a, b) /\ (a = v \/ b = v).
Proof.
  intros Hvd He.
  apply andb_true_iff in Hsimple as [_ HV].
  rewrite forallb_forall in HV.
  specialize (HV (v, vd) (proj1 (list_elem_of_In _ _) (indexed_vget _ _ _ Hvd))).
  simpl in HV. rewrite forallb_forall in HV.
  specialize (HV e (proj1 (list_elem_of_In _ _) He)).
  destruct (endpoints meshData e) as [[a b]| |]; [|done..].
  exists a, b. split; [done|]. simpl in HV. lia.
Qed.

Lemma joins_unique (e e' a b : Z) :
  joins meshData e a b -> joins meshData e' a b -> e = e'.
Proof.
  intros He He'.
  assert (Hs : forall p p', (p = (a, b) \/ p = (b, a)) ->
                            (p' = (a, b) \/ p' = (b, a)) ->
                            sameEnds p p' = true).
  { intros p p' [->| ->] [->| ->]; unfold sameEnds; simpl;
      rewrite !Z.eqb_refl; simpl; by rewrite ?orb_true_r. }
  assert (exists p, endpoints meshData e = Ok p /\ (p = (a, b) \/ p = (b, a)))
    as (p & Hp & Hpc) by (destruct He; eauto).
  assert (exists p', endpoints meshData e' = Ok p' /\ (p' = (a, b) \/ p' = (b, a)))
    as (p' & Hp' & Hpc') by (destruct He'; eauto).
  destruct (simple_edge e' p' Hp') as (_ & _ & _ & Hu).
  apply (Hu e p Hp). by apply Hs.
Qed.

Lemma joins_nonneg (e a b : Z) : joins meshData e a b -> 0 <= a /\ 0 <= b.
Proof.
  intros [H|H]; destruct (simple_edge _ _ H) as (? & ? & _); simpl in *; lia.
Qed.

Lemma edgePartner_kept (st st' : PolySymmetryData) (e e' : Z) :
  vertexEntriesKept st st' -> edgePartner meshData st e e' ->
  edgePartner meshData st' e e'.
Proof.
  intros Hk (a & b & a' & b' & He & Ha & Hb & Hj).
  destruct (joins_nonneg _ _ _ Hj) as [Ha' Hb'].
  exists a, b, a', b'. split; [done|].
  split; [apply Hk; [done | lia]|]. split; [apply Hk; [done | lia] | done].
Qed.

Lemma edgesConsistent_kept (st st' : PolySymmetryData) :
  vertexEntriesKept st st' ->
  edgeSymmetryIndices st' = edgeSymmetryIndices st ->
  edgesConsistent meshData st -> edgesConsistent meshData st'.
Proof.
  intros Hk Heq HC e e' He Hne. rewrite Heq in He.
  eapply edgePartner_kept; [exact Hk | by apply HC].
Qed.

Lemma queueConsistent_kept (st st' : PolySymmetryData) (q : list (Z * Z)) :
  vertexEntriesKept st st' ->
  queueConsistent meshData st q -> queueConsistent meshData st' q.
Proof.
  intros Hk HQ. eapply Forall_impl; [exact HQ|].
  intros p [H1 H2]. split; by eapply edgePartner_kept.
Qed.

Lemma vertexEntriesKept_same (st st' : PolySymmetryData) :
  vertexSymmetryIndices st' = vertexSymmetryIndices st ->
  vertexEntriesKept st st'.
Proof. intros Heq a a' Ha _. by rewrite Heq. Qed.

Lemma vertexEntriesKept_examined (st st' : PolySymmetryData) :
  partnersExamined (vertexSymmetryIndices st) (examinedVertices st) ->
  (forall v, vget (examinedVertices st) v = Ok true ->
     vget (vertexSymmetryIndices st') v = vget (vertexSymmetryIndices st) v) ->
  vertexEntriesKept st st'.
Proof.
  intros [HP _] Hk a a' Ha Hne.
  destruct (HP a a' Ha Hne) as [Hx _]. by rewrite (Hk a Hx).
Qed.

(** Marking a pair of edges each of which joins the partners of the
    endpoints of the other keeps the edge table consistent. *)
Lemma markSymmetricalEdges_consistent (e e' : Z) (st st' : PolySymmetryData) :
  markSymmetricalEdges e e' st = Ok st' ->
  edgePartner meshData st e e' -> edgePartner meshData st e' e ->
  edgesConsistent meshData st ->
  edgesConsistent meshData st' /\
  vertexSymmetryIndices st' = vertexSymmetryIndices st.
Proof.
  intros (idx & ex & Hm & ->)%markSymmetricalEdges_Ok H1 H2 HC.
  split; [|done].
  apply markPair_spec in Hm
    as (_ & _ & _ & _ & _ & _ & Hi1 & Hi0 & _ & _ & Hother).
  intros x y Hx Hy. simpl in Hx.
  destruct (decide (x = e')) as [->|Hn1].
  { assert (y = e) as -> by congruence. exact H2. }
  destruct (decide (x = e)) as [->|Hn0].
  { rewrite Hi0 in Hx by done. assert (y = e') as -> by congruence. exact H1. }
  destruct (Hother x Hn0 Hn1) as [Heq _]. rewrite Heq in Hx.
  exact (HC x y Hx Hy).
Qed.

Lemma markSymmetricalEdges_vertices (e e' : Z) (st st' : PolySymmetryData) :
  markSymmetricalEdges e e' st = Ok st' ->
  vertexSymmetryIndices st' = vertexSymmetryIndices st /\
  examinedVertices st' = examinedVertices st.
Proof. by intros (idx & ex & _ & ->)%markSymmetricalEdges_Ok. Qed.

(** One edge of the face: the pair that is marked, if any, is a pair of
    edges each of which joins the partners of the endpoints of the
    other. *)
Lemma faceEdgesBody_consistent (e : Z) (q q' : list (Z * Z))
    (st st' : PolySymmetryData) :
  faceEdgesBody intersection meshData e (q, st) = Ok (q', st') ->
  partialInvolution (vertexSymmetryIndices st) (examinedVertices st) ->
  edgesConsistent meshData st -> queueConsistent meshData st q ->
  partialInvolution (vertexSymmetryIndices st') (examinedVertices st') /\
  edgesConsistent meshData st' /\ queueConsistent meshData st' q'.
Proof.
  intros [[-> ->]|(ed & c0 & c1 & vertex0 & vertex1 & vd0 & vd1 & edgeIndex & exi
                   & Hex & Hed & Hc0 & Hc1 & Hv0 & Hv1 & Hvd0 & Hvd1 & Hei
                   & Hexi & -> & Hm)]%faceEdgesBody_Ok HV HC HQ; [done|].
  assert (He : endpoints meshData e = Ok (c0, c1))
    by (apply endpoints_Ok; by exists ed).
  destruct (simple_edge _ _ He) as (_ & _ & Hne & _). simpl in Hne.
  pose proof HV as [_ HIV].
  pose proof (vget_range _ _ _ Hvd0) as Hr0.
  pose proof (vget_range _ _ _ Hvd1) as Hr1.
  assert (Hb0 : vget (vertexSymmetryIndices st) vertex0 = Ok c0)
    by (apply HIV; [done | lia]).
  assert (Hb1 : vget (vertexSymmetryIndices st) vertex1 = Ok c1)
    by (apply HIV; [done | lia]).
  assert (Hvne : vertex0 <> vertex1) by congruence.
  apply vget_elem_of, Hinter in Hei as [Hin0 Hin1].
  destruct (simple_incident _ _ _ Hvd0 Hin0) as (x & y & Hxy & Hx0).
  destruct (simple_incident _ _ _ Hvd1 Hin1) as (x' & y' & Hxy' & Hx1).
  assert (x' = x /\ y' = y) as [-> ->] by (split; congruence).
  assert (H1 : edgePartner meshData st e edgeIndex).
  { exists c0, c1, vertex0, vertex1. repeat (split; [done|]).
    destruct Hx0 as [->| ->], Hx1 as [->| ->]; try done; [by left | by right]. }
  assert (H2 : edgePartner meshData st edgeIndex e).
  { destruct Hx0 as [->| ->], Hx1 as [->| ->]; try done.
    - exists vertex0, vertex1, c0, c1. repeat (split; [done|]). by left.
    - exists vertex1, vertex0, c1, c0. repeat (split; [done|]). by right. }
  destruct (markSymmetricalEdges_consistent _ _ _ _ Hm H1 H2 HC) as [HC' Heq].
  destruct (markSymmetricalEdges_vertices _ _ _ _ Hm) as [Hi Hx].
  split; [by rewrite Hi, Hx|]. split; [done|].
  pose proof (vertexEntriesKept_same _ _ Heq) as Hk.
  destruct exi; [by eapply queueConsistent_kept|].
  apply Forall_app. split; [by eapply queueConsistent_kept|].
  constructor; [|constructor]. simpl. split; by eapply edgePartner_kept.
Qed.

Lemma findSymmetricalEdgesOnFace_consistent (faceIndex : Z) (q q' : list (Z * Z))
    (st st' : PolySymmetryData) :
  findSymmetricalEdgesOnFace intersection meshData q faceIndex st = Ok (q', st') ->
  partialInvolution (vertexSymmetryIndices st) (examinedVertices st) ->
  edgesConsistent meshData st -> queueConsistent meshData st q ->
  partialInvolution (vertexSymmetryIndices st') (examinedVertices st') /\
  edgesConsistent meshData st' /\ queueConsistent meshData st' q'.
Proof.
  unfold findSymmetricalEdgesOnFace. intros H HV HC HQ. inv_bind H as fd Hfd.
  pose (P := fun s : list (Z * Z) * PolySymmetryData =>
      partialInvolution (vertexSymmetryIndices (snd s)) (examinedVertices (snd s))
      /\ edgesConsistent meshData (snd s) /\
      queueConsistent meshData (snd s) (fst s)).
  assert (HP : P (q', st')); [|exact HP].
  eapply (forEach_inv P); [| |exact H]; [|done].
  intros e [q1 s1] [q2 s2] _ (HV1 & HC1 & HQ1) Hb. simpl in *.
  by eapply faceEdgesBody_consistent.
Qed.

(** One iteration of the worklist loop keeps the edge table, and the pairs
    in the worklist, consistent with the vertex table. *)
Lemma worklistBody_consistent (edgePair : Z * Z) (q q' : list (Z * Z))
    (st st' : PolySymmetryData) :
  worklistBody intersection meshData edgePair q st = Ok (q', st') ->
  partialInvolution (vertexSymmetryIndices st) (examinedVertices st) ->
  edgesConsistent meshData st ->
  queueConsistent meshData st (edgePair :: q) ->
  partialInvolution (vertexSymmetryIndices st') (examinedVertices st') /\
  edgesConsistent meshData st' /\ queueConsistent meshData st' q'.
Proof.
  intros (st1 & faces & Hst1 & Hfaces & Hcase)%worklistBody_Ok HV HC
    [[Hp1 Hp2] HQ]%Forall_cons.
  destruct (markSymmetricalEdges_consistent _ _ _ _ Hst1 Hp1 Hp2 HC)
    as [HC1 Heq1].
  destruct (markSymmetricalEdges_vertices _ _ _ _ Hst1) as [Hi1 Hx1].
  assert (HV1 : partialInvolution (vertexSymmetryIndices st1)
                  (examinedVertices st1)) by (by rewrite Hi1, Hx1).
  pose proof (queueConsistent_kept _ _ _ (vertexEntriesKept_same _ _ Heq1) HQ)
    as HQ1.
  destruct Hcase as [(_ & -> & ->)|(Hn0 & Hn1 & st2 & st3 & Hst2 & Hst3 & H)];
    [done|].
  apply markSymmetricalFaces_Ok in Hst2 as (idxf & exf & _ & ->).
  pose proof (findSymmetricalVerticesOnFace_vertexSteps intersection meshData
                _ _ _ Hst3) as R3.
  destruct (rtc_vertexStep_keeps _ _ R3 HV1) as [HV3 Hk].
  destruct (findSymmetricalVerticesOnFace_frame _ _ _ _ Hst3) as [Hfr _].
  assert (Heq3 : edgeSymmetryIndices st3 = edgeSymmetryIndices st1)
    by (by rewrite Hfr).
  eapply findSymmetricalEdgesOnFace_consistent; [exact H | done | |].
  - by eapply edgesConsistent_kept.
  - by eapply queueConsistent_kept.
Qed.

(** After [findFirstSymmetricalVertices] on a fresh seed the seed edges
    join partners, and no edge has a partner yet. *)
Lemma findFirstSymmetricalVertices_consistent (selection : ComponentSelection)
    (st st' : PolySymmetryData) :
  findFirstSymmetricalVertices meshData selection st = Ok st' ->
  seedFresh meshData selection st ->
  edgeSymmetryIndices st' = edgeSymmetryIndices st /\
  queueConsistent meshData st' [edgeIndices selection].
Proof.
  intros (st1 & st2 & ed0 & a0 & b0 & ex0 & ed1 & a1 & b1 & ex1 & st3 & Hst1
          & Hst2 & Hed0 & Ha0 & Hb0 & Hex0 & Hed1 & Ha1 & Hb1 & Hex1 & Hst3 & H)
    %findFirstSymmetricalVertices_Ok
    (w0 & w1 & Ho0 & Ho1 & Hn00 & Hn01 & Hn10 & Hn11 & Hu0 & Hu1 & Hw0 & Hw1).
  set (v0 := fst (vertexIndices selection)) in *.
  set (v1 := snd (vertexIndices selection)) in *.
  set (e0 := fst (edgeIndices selection)) in *.
  set (e1 := snd (edgeIndices selection)) in *.
  apply markSymmetricalVertices_Ok in Hst1 as (idx1 & exv1 & Hm1 & ->).
  apply markSymmetricalFaces_Ok in Hst2 as (idx2 & exf2 & _ & ->).
  simpl in *.
  apply markPair_spec in Hm1
    as (_ & _ & _ & _ & _ & _ & Hi1 & Hi0 & Hex0' & Hex1' & Hother).
  assert (Hw0' : vget exv1 w0 = Ok false)
    by (by destruct (Hother w0 Hn00 Hn01) as [_ ->]).
  assert (Hw1' : vget exv1 w1 = Ok false)
    by (by destruct (Hother w1 Hn10 Hn11) as [_ ->]).
  rewrite (otherEndpoint_next meshData exv1 _ _ _ _ _ _ _
             Ho0 Hed0 Ha0 Hb0 Hex0 Hex0' Hw0') in Hst3.
  rewrite (otherEndpoint_next meshData exv1 _ _ _ _ _ _ _
             Ho1 Hed1 Ha1 Hb1 Hex1 Hex1' Hw1') in Hst3.
  apply markSymmetricalVertices_Ok in Hst3 as (idx3 & exv3 & Hm3 & ->).
  simpl in *.
  apply markPair_spec in Hm3
    as (_ & _ & _ & _ & _ & _ & Hj1 & Hj0 & Hxw0 & Hxw1 & Hother3).
  destruct (findSymmetricalVerticesOnFace_frame _ _ _ _ H) as [Hfr Hkeep].
  simpl in Hkeep.
  assert (Hv01 : vget idx1 v0 = Ok v1).
  { destruct (decide (v0 = v1)) as [Heq|Hne]; [|by apply Hi0].
    rewrite Heq at 1. by rewrite Hi1, Heq. }
  assert (K : forall v p, vget idx3 v = Ok p -> vget exv3 v = Ok true ->
                          vget (vertexSymmetryIndices st') v = Ok p).
  { intros v p Hv Hx. destruct (Hkeep v Hx) as [_ ->]. done. }
  assert (Kv0 : vget (vertexSymmetryIndices st') v0 = Ok v1).
  { destruct (Hother3 v0) as [Hi Hx]; [congruence..|].
    apply K; [by rewrite Hi | by rewrite Hx]. }
  assert (Kv1 : vget (vertexSymmetryIndices st') v1 = Ok v0).
  { destruct (Hother3 v1) as [Hi Hx]; [congruence..|].
    apply K; [by rewrite Hi | by rewrite Hx]. }
  assert (Kw1 : vget (vertexSymmetryIndices st') w1 = Ok w0) by (by apply K).
  assert (Kw0 : vget (vertexSymmetryIndices st') w0 = Ok w1).
  { apply K; [|done]. destruct (decide (w0 = w1)) as [Heq|Hne]; [|by apply Hj0].
    rewrite Heq at 1. by rewrite Hj1, Heq. }
  split; [by rewrite Hfr|].
  assert (J : forall e v w, otherEndpoint meshData e v w ->
                (endpoints meshData e = Ok (v, w) \/
                 endpoints meshData e = Ok (w, v))).
  { intros e v w (ed & Hed & [[? ?]|[? ?]]); [left | right];
      apply endpoints_Ok; by exists ed. }
  constructor; [|constructor]. fold e0 e1. simpl. split.
  - destruct (J _ _ _ Ho0) as [He|He].
    + exists v0, w0, v1, w1. repeat (split; [done|]). exact (J _ _ _ Ho1).
    + exists w0, v0, w1, v1. repeat (split; [done|]).
      destruct (J _ _ _ Ho1); [by right | by left].
  - destruct (J _ _ _ Ho1) as [He|He].
    + exists v1, w1, v0, w0. repeat (split; [done|]). exact (J _ _ _ Ho0).
    + exists w1, v1, w0, v0. repeat (split; [done|]).
      destruct (J _ _ _ Ho0); [by right | by left].
Qed.

(** A consistent edge table over an involutive vertex table is
    involutive. *)
Lemma edgesConsistent_involutive (st : PolySymmetryData) :
  involutive (vertexSymmetryIndices st) ->
  partnersExamined (edgeSymmetryIndices st) (examinedEdges st) ->
  edgesConsistent meshData st ->
  involutive (edgeSymmetryIndices st).
Proof.
  intros HIV [HE HEx] HC e e' He Hne.
  destruct (HE e e' He Hne) as [_ Hx'].
  destruct (HEx e' Hx') as (e'' & He'' & Hne'').
  destruct (HC e e' He Hne) as (a & b & a' & b' & Hab & Ha & Hb & Hj).
  destruct (HC e' e'' He'' Hne'') as (x & y & x' & y' & Hxy & Hx & Hy & Hj').
  destruct (joins_nonneg _ _ _ Hj) as [Ha' Hb'].
  assert (Haa : vget (vertexSymmetryIndices st) a' = Ok a)
    by (apply HIV; [done | lia]).
  assert (Hbb : vget (vertexSymmetryIndices st) b' = Ok b)
    by (apply HIV; [done | lia]).
  assert (He''e : e'' = e); [|by rewrite <- He''e].
  apply (joins_unique e'' e a b); [|by left].
  destruct Hj as [Hj|Hj]; rewrite Hxy in Hj; injection Hj as -> ->.
  - assert (x' = a) as -> by congruence. assert (y' = b) as -> by congruence.
    done.
  - assert (x' = b) as -> by congruence. assert (y' = a) as -> by congruence.
    destruct Hj'; [by right | by left].
Qed.

(** On a simple mesh a run of the engine with a fresh seed keeps the vertex
    table a partial involution and the edge table consistent with it. *)
Lemma findSymmetricalVertices_consistent (fuel : nat)
    (selection : ComponentSelection) (st st' : PolySymmetryData) :
  findSymmetricalVertices intersection meshData fuel selection st = Ok st' ->
  seedFresh meshData selection st ->
  partialInvolution (vertexSymmetryIndices st) (examinedVertices st) ->
  edgesConsistent meshData st ->
  partialInvolution (vertexSymmetryIndices st') (examinedVertices st') /\
  edgesConsistent meshData st'.
Proof.
  unfold findSymmetricalVertices. fold (withLeftVertex selection st).
  set (st0 := withLeftVertex selection st). intros H Hfresh HV HC.
  inv_bind H as st1 Hst1.
  assert (Hfresh0 : seedFresh meshData selection st0)
    by (subst st0; unfold withLeftVertex; by destruct (_ =? _)).
  assert (HV0 : partialInvolution (vertexSymmetryIndices st0)
                  (examinedVertices st0))
    by (subst st0; unfold withLeftVertex; by destruct (_ =? _)).
  assert (HC0 : edgesConsistent meshData st0)
    by (subst st0; unfold withLeftVertex; by destruct (_ =? _)).
  pose proof (findFirstSymmetricalVertices_vertexSteps intersection meshData
                _ _ _ Hst1 Hfresh0) as R1.
  destruct (rtc_vertexStep_keeps _ _ R1 HV0) as [HV1 Hk1].
  destruct (findFirstSymmetricalVertices_consistent _ _ _ Hst1 Hfresh0)
    as [Heq1 HQ1].
  pose proof (edgesConsistent_kept _ _ Hk1 Heq1 HC0) as HC1.
  pose (P := fun (q : list (Z * Z)) (s : PolySymmetryData) =>
      partialInvolution (vertexSymmetryIndices s) (examinedVertices s) /\
      edgesConsistent meshData s /\ queueConsistent meshData s q).
  assert (HP : P [] st').
  { eapply (whileQueue_inv P); [| |exact H]; [|done].
    intros x q s q' s' (HVs & HCs & HQs) Hb.
    by eapply worklistBody_consistent. }
  by destruct HP as (? & ? & _).
Qed.

(** X22. On a simple mesh whose vertices list their own edges, and with an
    [intersection] that returns common members only, the engine run on a
    freshly reset table with a fresh seed leaves a consistent edge table:
    the partner recorded for an edge joins the partners of the endpoints
    of the edge, and the edge table is a partial involution. *)
Theorem findSymmetricalVertices_edge_table (fuel : nat)
    (selection : ComponentSelection) (st' : PolySymmetryData) :
  findSymmetricalVertices intersection meshData fuel selection (reset meshData)
  = Ok st' ->
  seedFresh meshData selection (reset meshData) ->
  edgesConsistent meshData st' /\ involutive (edgeSymmetryIndices st').
Proof.
  intros H Hfresh.
  destruct (reset_tableInvariant True meshData) as (HIV & HPV & HPE & _).
  assert (HC0 : edgesConsistent meshData (reset meshData)).
  { intros e e' He Hne. simpl in He. by apply vget_replicate in He. }
  destruct (findSymmetricalVertices_consistent _ _ _ _ H Hfresh
              (conj HPV (HIV I)) HC0) as [[_ HIV'] HC].
  split; [done|]. apply edgesConsistent_involutive; [done | | done].
  destruct (rtc_anyMark_partnersExamined _ _
              (findSymmetricalVertices_marks _ _ _ _ _ _ H)) as (_ & HE & _).
  apply HE. unfold withLeftVertex. by destruct (_ =? _).
Qed.

End EdgeTable.

(** The property in full: partners are mutual and examined, and an examined
    component is the partner of its partner. *)
Lemma partialInvolution_spec (idx : list Z) (ex : list bool) :
  partialInvolution idx ex <->
  (forall a b, vget idx a = Ok b -> b <> -1 ->
     vget idx b = Ok a /\ vget ex a = Ok true /\ vget ex b = Ok true) /\
  (forall c, vget ex c = Ok true ->
     exists b, vget idx c = Ok b /\ b <> -1 /\ vget idx b = Ok c).
Proof.
  split.
  - intros [[HP HX] HI]. split.
    + intros a b Ha Hb. destruct (HP a b Ha Hb). split; [by apply HI | done].
    + intros c Hc. destruct (HX c Hc) as (b & Hb & Hne).
      exists b. split; [done|]. split; [done | by apply HI].
  - intros [H1 H2]. split; [split|].
    + intros a b Ha Hb. by destruct (H1 a b Ha Hb) as (_ & ? & ?).
    + intros c Hc. destruct (H2 c Hc) as (b & Hb & Hne & _). by exists b.
    + intros a b Ha Hb. by destruct (H1 a b Ha Hb) as (? & _).
Qed.

Lemma reset_partialInvolution (meshData : MeshData) :
  partialInvolution (vertexSymmetryIndices (reset meshData))
    (examinedVertices (reset meshData)) /\
  partialInvolution (edgeSymmetryIndices (reset meshData))
    (examinedEdges (reset meshData)) /\
  partialInvolution (faceSymmetryIndices (reset meshData))
    (examinedFaces (reset meshData)) /\
  edgesConsistent meshData (reset meshData) /\
  forall selection, seedFacesFresh selection (reset meshData).
Proof.
  assert (HI : forall n, involutive (replicate n (-1)))
    by (by intros n a b Ha%vget_replicate Hb).
  simpl. repeat (split; [split; [apply partnersExamined_replicate | apply HI]|]).
  split.
  - intros e e' He Hne. simpl in He. by apply vget_replicate in He.
  - intros selection. split; simpl; by intros ?%vget_replicate.
Qed.

(** ** C1 *)

(** C1 (amended). A run of the propagation engine, from any table [st]:
    for vertices, edges and faces alike, if in [st] the examined components
    are those with a partner recorded, the same holds after the run.  The
    face table stays a partial involution (whenever
    [symmetryIndex[a] == b] for a partner [b], then
    [symmetryIndex[b] == a] and both are examined, and every examined
    [c] has [symmetryIndex[symmetryIndex[c]] == c]) when the seed faces
    were not examined.  The vertex table stays a partial involution when
    the seed is fresh: the seed vertices are endpoints of their seed edges,
    the other endpoints of the seed edges are not seed vertices, and none
    of the four was examined.  With a fresh seed the edge table stays a
    partial involution too, and every edge partner joins the partners of
    the endpoints of its edge, when the mesh is simple and [intersection]
    returns common members only.  A freshly reset table satisfies every
    condition on [st] ([reset_partialInvolution]). *)
Theorem engine_symmetry_table (intersection : list Z -> list Z -> list Z)
    (meshData : MeshData) (fuel : nat) (selection : ComponentSelection)
    (st st' : PolySymmetryData) :
  findSymmetricalVertices intersection meshData fuel selection st = Ok st' ->
  (partnersExamined (vertexSymmetryIndices st) (examinedVertices st) ->
   partnersExamined (vertexSymmetryIndices st') (examinedVertices st')) /\
  (partnersExamined (edgeSymmetryIndices st) (examinedEdges st) ->
   partnersExamined (edgeSymmetryIndices st') (examinedEdges st')) /\
  (partnersExamined (faceSymmetryIndices st) (examinedFaces st) ->
   partnersExamined (faceSymmetryIndices st') (examinedFaces st')) /\
  (seedFacesFresh selection st ->
   partialInvolution (faceSymmetryIndices st) (examinedFaces st) ->
   partialInvolution (faceSymmetryIndices st') (examinedFaces st')) /\
  (seedFresh meshData selection st ->
   partialInvolution (vertexSymmetryIndices st) (examinedVertices st) ->
   partialInvolution (vertexSymmetryIndices st') (examinedVertices st') /\
   (simpleMesh meshData = true ->
    (forall a b x, x ∈ intersection a b -> x ∈ a /\ x ∈ b) ->
    partnersExamined (edgeSymmetryIndices st) (examinedEdges st) ->
    edgesConsistent meshData st ->
    partialInvolution (edgeSymmetryIndices st') (examinedEdges st') /\
    edgesConsistent meshData st')).
Proof.
  intros H.
  assert (Hflags := rtc_anyMark_partnersExamined _ _
                      (findSymmetricalVertices_marks _ _ _ _ _ _ H)).
  assert (Hleft : forall P : PolySymmetryData -> Prop,
            (forall l, P (withLeftSideVertexIndices st l) = P st) ->
            P (withLeftVertex selection st) = P st).
  { intros P HP. unfold withLeftVertex. destruct (_ =? _); [done | apply HP]. }
  destruct Hflags as (HV & HE & HF).
  rewrite (Hleft (fun s => partnersExamined (vertexSymmetryIndices s)
                             (examinedVertices s))) in HV by done.
  rewrite (Hleft (fun s => partnersExamined (edgeSymmetryIndices s)
                             (examinedEdges s))) in HE by done.
  rewrite (Hleft (fun s => partnersExamined (faceSymmetryIndices s)
                             (examinedFaces s))) in HF by done.
  split; [exact HV|]. split; [exact HE|]. split; [exact HF|]. split.
  - intros [Hf0 Hf1] HPF.
    destruct (findSymmetricalVertices_seed_within _ _ _ _ _ _ H)
      as (_ & _ & Hr0 & Hr1).
    assert (Hx : forall f, 0 <= f < Z.of_nat (length (examinedFaces st)) ->
                   vget (examinedFaces st) f <> Ok true ->
                   vget (examinedFaces st) f = Ok false).
    { intros f Hr Hne. destruct (vget_in_range (examinedFaces st) f Hr) as [b Hb].
      destruct b; [done | exact Hb]. }
    destruct (findSymmetricalVertices_region intersection meshData anywhere
                anywhere anywhere False (closedShell_all _ _) fuel selection
                st st') as (st0 & Hst0 & R);
      [by repeat split | done | by apply Hx | by apply Hx
      | apply closedVertexTable_anywhere | exact H |].
    eapply rtc_markStep_faces; [exact R|]. by destruct Hst0 as [->| ->].
  - intros Hfresh HPV.
    pose proof (findSymmetricalVertices_vertexSteps _ _ _ _ _ _ H Hfresh) as R.
    destruct (rtc_vertexStep_keeps _ _ R HPV) as [HPV' _].
    split; [done|]. intros Hsimple Hinter HPE HC.
    destruct (findSymmetricalVertices_consistent intersection meshData Hsimple
                Hinter _ _ _ _ H Hfresh HPV HC) as [_ HC'].
    split; [|done]. split; [by apply HE|].
    apply (edgesConsistent_involutive meshData Hsimple);
      [by destruct HPV' | by apply HE | done].
Qed.

(** * Examples *)

Lemma intersectionModel_subseteq (a b : list Z) (x : Z) :
  x ∈ intersectionModel a b -> x ∈ a.
Proof. unfold intersectionModel. by intros [_ ?]%list_elem_of_filter. Qed.

Lemma intersectionModel_elem_of (a b : list Z) (x : Z) :
  x ∈ intersectionModel a b -> x ∈ a /\ x ∈ b.
Proof.
  unfold intersectionModel. intros [Hb Ha]%list_elem_of_filter.
  split; [done|]. by apply bool_decide_unpack in Hb.
Qed.

(** The engine on [fan] from a freshly reset table: three dequeue iterations
    resolve the faces 2 and 3 and the edges e5, e6 and e7 from the seed.
    The other endpoint of both seed edges is the centre vertex 4. *)
Lemma engine_symmetry_table_witness :
  findSymmetricalVertices intersectionModel fan 9 fanSeed (reset fan)
  = Ok fanTable /\
  seedFresh fan fanSeed (reset fan) /\
  simpleMesh fan = true /\
  partialInvolution (vertexSymmetryIndices fanTable) (examinedVertices fanTable) /\
  partialInvolution (edgeSymmetryIndices fanTable) (examinedEdges fanTable) /\
  partialInvolution (faceSymmetryIndices fanTable) (examinedFaces fanTable) /\
  edgesConsistent fan fanTable.
Proof.
  assert (H : findSymmetricalVertices intersectionModel fan 9 fanSeed (reset fan)
              = Ok fanTable) by (vm_compute; reflexivity).
  assert (Hfresh : seedFresh fan fanSeed (reset fan)).
  { exists 4, 4. split.
    { eexists. split; [reflexivity|]. right. split; reflexivity. }
    split.
    { eexists. split; [reflexivity|]. left. split; reflexivity. }
    repeat (split; [simpl; lia|]). repeat split. }
  assert (Hs : simpleMesh fan = true) by (vm_compute; reflexivity).
  destruct (reset_partialInvolution fan) as (HV & HE & HF & HC & Hfaces).
  destruct (engine_symmetry_table intersectionModel fan 9 fanSeed (reset fan)
              fanTable H) as (_ & _ & _ & Hface & Hrest).
  destruct (Hrest Hfresh HV) as [HV' Hedges].
  destruct (Hedges Hs intersectionModel_elem_of (proj1 HE) HC) as [HE' HC'].
  split; [exact H|]. split; [exact Hfresh|]. split; [exact Hs|].
  split; [exact HV'|]. split; [exact HE'|].
  split; [exact (Hface (Hfaces fanSeed) HF) | exact HC'].
Defined.

(** Four runs after which a table is not a partial involution.  On
    [diagSquare] with the seed vertices 0 and 1 on the seed edges e0 and
    e3, the other endpoint of e0 is the seed vertex 1: marking it with
    vertex 2 overwrites its entry, and the examined vertex 0 is left with
    [symmetryIndex[0] == 1] while [symmetryIndex[1] == 2].  On [fan] with
    the seed vertices 0 and 4 the examined edge e6 is left with partner e7,
    whose partner is e5.  On [fan], a second run whose seed faces 0 and 2
    are examined leaves the examined face 1 with partner 0, whose partner
    is 2.  On [fanDoubled], which has two edges between the vertices 3 and
    0, the fresh seed of [fan] leaves the examined edge e8 with partner e5,
    whose partner is e7. *)
Lemma symmetry_table_not_involutive :
  (exists st',
     findSymmetricalVertices intersectionModel diagSquare 6 diagSquareSeedSkew
       (reset diagSquare) = Ok st' /\
     vget (examinedVertices st') 0 = Ok true /\
     vget (vertexSymmetryIndices st') 0 = Ok 1 /\
     vget (vertexSymmetryIndices st') 1 = Ok 2) /\
  (exists st',
     findSymmetricalVertices intersectionModel fan 9 fanSeedSkew (reset fan)
     = Ok st' /\
     vget (examinedEdges st') 6 = Ok true /\
     vget (edgeSymmetryIndices st') 6 = Ok 7 /\
     vget (edgeSymmetryIndices st') 7 = Ok 5) /\
  (exists st',
     findSymmetricalVertices intersectionModel fan 9 fanSeedAgain fanTable
     = Ok st' /\
     vget (examinedFaces fanTable) 0 = Ok true /\
     vget (examinedFaces st') 1 = Ok true /\
     vget (faceSymmetryIndices st') 1 = Ok 0 /\
     vget (faceSymmetryIndices st') 0 = Ok 2) /\
  (exists st',
     findSymmetricalVertices intersectionModel fanDoubled 10 fanSeed
       (reset fanDoubled) = Ok st' /\
     seedFresh fanDoubled fanSeed (reset fanDoubled) /\
     simpleMesh fanDoubled = false /\
     vget (examinedEdges st') 8 = Ok true /\
     vget (edgeSymmetryIndices st') 8 = Ok 5 /\
     vget (edgeSymmetryIndices st') 5 = Ok 7).
Proof.
  split; [|split; [|split]].
  - eexists. split; [vm_compute; reflexivity|]. repeat split.
  - eexists. split; [vm_compute; reflexivity|]. repeat split.
  - eexists. split; [vm_compute; reflexivity|]. repeat split.
  - eexists. split; [vm_compute; reflexivity|]. split.
    { exists 4, 4. split.
      { eexists. split; [reflexivity|]. right. split; reflexivity. }
      split.
      { eexists. split; [reflexivity|]. left. split; reflexivity. }
      repeat (split; [simpl; lia|]). repeat split. }
    split; [vm_compute; reflexivity|]. repeat split.
Qed.

(** On [quad], which has no vertex on the centre line, with the left seed
    0: the vertices 0 and 3 are one half, the flood fill goes from 0 to 3,
    and 3 ends LEFT and its partner 2 RIGHT. *)
Lemma findVertexSides_partner_sides_witness :
  findVertexSides quad [0] quadTable = Ok quadSides /\
  mirrorHalf quad quadTable (fun v => v = 0 \/ v = 3) /\
  leftReach quad quadTable [0] 3 /\
  vget (vertexSymmetryIndices quadTable) 3 = Ok 2 /\
  vget (vertexSides quadSides) 3 = Ok LEFT /\
  vget (vertexSides quadSides) 2 = Ok RIGHT.
Proof.
  assert (H : findVertexSides quad [0] quadTable = Ok quadSides)
    by (vm_compute; reflexivity).
  assert (Hhalf : mirrorHalf quad quadTable (fun v => v = 0 \/ v = 3)).
  { intros v [->| ->].
    - eexists 1, _, _. split; [reflexivity|]. split; [reflexivity|].
      split; [lia|]. split; [reflexivity|]. split; [reflexivity|].
      split; simpl.
      + intros i Hi. apply list_elem_of_In in Hi. simpl in Hi.
        destruct Hi as [<-|[<-|[]]].
        * right. left. reflexivity.
        * right. right. split; [by right|]. exists 2.
          split; [reflexivity|]. by apply (bool_decide_unpack _).
      + intros j Hj. apply list_elem_of_In in Hj. simpl in Hj.
        destruct Hj as [<-|[<-|[]]].
        * right. by left.
        * right. right. exists 3. split; [by right|].
          split; [by apply (bool_decide_unpack _) | reflexivity].
    - eexists 2, _, _. split; [reflexivity|]. split; [reflexivity|].
      split; [lia|]. split; [reflexivity|]. split; [reflexivity|].
      split; simpl.
      + intros i Hi. apply list_elem_of_In in Hi. simpl in Hi.
        destruct Hi as [<-|[<-|[]]].
        * right. right. split; [by left|]. exists 1.
          split; [reflexivity|]. by apply (bool_decide_unpack _).
        * right. left. reflexivity.
      + intros j Hj. apply list_elem_of_In in Hj. simpl in Hj.
        destruct Hj as [<-|[<-|[]]].
        * right. right. exists 0. split; [by left|].
          split; [by apply (bool_decide_unpack _) | reflexivity].
        * right. by left. }
  assert (Hreach : leftReach quad quadTable [0] 3).
  { eapply (leftReach_step quad quadTable [0] 0 3);
      [apply leftReach_seed; by left | vm_compute; discriminate | reflexivity
      | simpl; by apply (bool_decide_unpack _) | vm_compute; discriminate]. }
  split; [exact H|]. split; [exact Hhalf|]. split; [exact Hreach|].
  split; [reflexivity|].
  destruct (findVertexSides_partner_sides quad [0] quadTable quadSides H)
    as (_ & Hmirror & _).
  destruct (Hmirror _ Hhalf) as [Hl _].
  { constructor; [by left | constructor]. }
  destruct (Hl 3 Hreach) as (p & Hp & HL & HR); [by right|].
  assert (p = 2) as -> by (vm_compute in Hp; congruence).
  by split.
Defined.

(** Two ways in which resolved partners end on the same side.  On
    [twoSquares], with shell A resolved from the seed of [diagSquare] and
    shell B from a seed without left vertex, the partners 4 and 6 of shell
    B are reached by neither flood fill and are both CENTER.  On [quad]
    with the seed of its half-turn the vertices 1 and 3 are partners, the
    left flood fill reaches both of them from the left seed 0, and both
    are LEFT. *)
Lemma partners_on_the_same_side :
  (findSymmetricalVertices intersectionModel twoSquares 11 diagSquareSeed
     (reset twoSquares) = Ok twoSquaresTable /\
   findSymmetricalVertices intersectionModel twoSquares 11 twoSquaresSeedB
     twoSquaresTable = Ok twoSquaresBothTable /\
   leftSideVertexIndices twoSquaresBothTable = [0] /\
   findVertexSides twoSquares [0] twoSquaresBothTable = Ok twoSquaresBothSides /\
   vget (examinedVertices twoSquaresBothSides) 4 = Ok true /\
   vget (vertexSymmetryIndices twoSquaresBothSides) 4 = Ok 6 /\
   vget (vertexSymmetryIndices twoSquaresBothSides) 6 = Ok 4 /\
   vget (vertexSides twoSquaresBothSides) 4 = Ok CENTER /\
   vget (vertexSides twoSquaresBothSides) 6 = Ok CENTER) /\
  (findSymmetricalVertices intersectionModel quad 5 quadSeedTurn (reset quad)
   = Ok quadTurnTable /\
   leftSideVertexIndices quadTurnTable = [0] /\
   findVertexSides quad [0] quadTurnTable = Ok quadTurnSides /\
   vget (examinedVertices quadTurnSides) 1 = Ok true /\
   vget (vertexSymmetryIndices quadTurnSides) 1 = Ok 3 /\
   vget (vertexSymmetryIndices quadTurnSides) 3 = Ok 1 /\
   vget (vertexSides quadTurnSides) 1 = Ok LEFT /\
   vget (vertexSides quadTurnSides) 3 = Ok LEFT).
Proof.
  split.
  - split; [vm_compute; reflexivity|]. split; [vm_compute; reflexivity|].
    split; [reflexivity|]. split; [vm_compute; reflexivity|]. repeat split.
  - split; [vm_compute; reflexivity|]. split; [reflexivity|].
    split; [vm_compute; reflexivity|]. repeat split.
Qed.

(** On [quad] the edge e0 joins the LEFT vertex 0 to the RIGHT vertex 1 and
    is RIGHT. *)
Lemma finalizeSymmetry_edge_sides_witness :
  finalizeSymmetry quad quadSides = Ok quadFinal /\
  vget (vertexSides quadFinal) 0 = Ok LEFT /\
  vget (vertexSides quadFinal) 1 = Ok RIGHT /\
  vget (edgeSides quadFinal) 0 = Ok RIGHT.
Proof.
  assert (H : finalizeSymmetry quad quadSides = Ok quadFinal)
    by (vm_compute; reflexivity).
  split; [exact H|]. split; [reflexivity|]. split; [reflexivity|].
  destruct (finalizeSymmetry_edge_sides quad quadSides quadFinal 0 H)
    as (ed & c0 & c1 & sv0 & sv1 & Hed & Hc0 & Hc1 & Hs0 & Hs1 & _ & _ & _ & HLR);
    [simpl; lia|].
  apply HLR. left.
  injection Hed as <-. injection Hc0 as <-. injection Hc1 as <-.
  injection Hs0 as <-. injection Hs1 as <-. done.
Defined.

(** On [quad] the loop of the only face has the sides LEFT, RIGHT, RIGHT,
    LEFT, and the face is CENTER. *)
Lemma finalizeSymmetry_face_sides_witness :
  finalizeSymmetry quad quadSides = Ok quadFinal /\
  vget (faceSides quadFinal) 0 = Ok CENTER.
Proof.
  assert (H : finalizeSymmetry quad quadSides = Ok quadFinal)
    by (vm_compute; reflexivity).
  split; [exact H|].
  destruct (finalizeSymmetry_face_sides quad quadSides quadFinal 0 H)
    as (fd & svs & Hfd & Hall & _ & Hboth); [simpl; lia|].
  injection Hfd as <-. simpl in Hall.
  apply Forall2_cons_inv_l in Hall as (sv0 & svs0 & Hs0 & Hall & ->).
  apply Forall2_cons_inv_l in Hall as (sv1 & svs1 & Hs1 & Hall & ->).
  injection Hs0 as <-. injection Hs1 as <-.
  apply Hboth; [by left | right; by left].
Defined.

(** On [diagSquare] with the vertices 1 and 0, and 3 and 2, as partners:
    face edge completion on face 0 handles e0, then reaches e1=(1,3), whose
    endpoint partners 0 and 2 have no edge in common, skips it and goes on
    with e2. *)
Lemma findSymmetricalEdgesOnFace_skips_ambiguous_witness :
  forEach (faceEdgesBody intersectionModel diagSquare) [0] ([], diagSquareCrossed)
  = Ok diagSquareCrossedNext /\
  intersectionModel [0; 2] [3; 4] = [] /\
  faceEdgesBody intersectionModel diagSquare 1 diagSquareCrossedNext
  = Ok diagSquareCrossedNext /\
  findSymmetricalEdgesOnFace intersectionModel diagSquare [] 0 diagSquareCrossed
  = forEach (faceEdgesBody intersectionModel diagSquare) [2] diagSquareCrossedNext.
Proof.
  split; [vm_compute; reflexivity|]. split; [reflexivity|].
  apply (findSymmetricalEdgesOnFace_skips_ambiguous intersectionModel diagSquare
           0 1 [0] [2] [] [(0, 0)] diagSquareCrossed (snd diagSquareCrossedNext)
           (mkComponentData [0; 1; 3] [0; 1; 2] [] ∅)
           (mkComponentData [1; 3] [] [0; 1] ∅)
           (mkComponentData [1; 3] [0; 2] [0] (list_to_map [(0, [3; 1])]))
           (mkComponentData [1; 3] [3; 4] [1] (list_to_map [(1, [1; 3])]))
           1 3 0 2);
    try reflexivity.
  vm_compute. discriminate.
Defined.

(** On [fan], whose 8 edges bound the iterations by 9. *)
Lemma findSymmetricalVertices_terminates_witness :
  (Z.to_nat (numberOfEdges fan) < 9)%nat /\
  findSymmetricalVertices intersectionModel fan 9 fanSeed (reset fan)
  <> OutOfFuel /\
  findSymmetricalVertices intersectionModel fan 100 fanSeed (reset fan)
  = findSymmetricalVertices intersectionModel fan 9 fanSeed (reset fan).
Proof.
  assert (H : (Z.to_nat (numberOfEdges fan) < 9)%nat) by (simpl; lia).
  split; [exact H|].
  destruct (findSymmetricalVertices_terminates intersectionModel fan 9 fanSeed H)
    as (Hne & Hstable & _).
  split; [exact Hne|]. apply Hstable. lia.
Defined.

(** The run on [fan] takes exactly three dequeue iterations. *)
Lemma fan_three_iterations :
  findSymmetricalVertices intersectionModel fan 2 fanSeed (reset fan) = OutOfFuel /\
  findSymmetricalVertices intersectionModel fan 3 fanSeed (reset fan) = Ok fanTable.
Proof. split; vm_compute; reflexivity. Qed.

(** On [twoSquares] seeded in shell A. *)
Lemma disconnected_shell_untouched_witness :
  shellsSeparated twoSquares inShellBVertex inShellBEdge inShellBFace = true /\
  seedOutside inShellBVertex inShellBEdge inShellBFace diagSquareSeed = true /\
  findSymmetricalVertices intersectionModel twoSquares 11 diagSquareSeed
    (reset twoSquares) = Ok twoSquaresTable /\
  findVertexSides twoSquares [0] twoSquaresTable = Ok twoSquaresSides /\
  finalizeSymmetry twoSquares twoSquaresSides = Ok twoSquaresFinal /\
  (forall v, inShellBVertex v = true -> 0 <= v < numberOfVertices twoSquares ->
     vget (examinedVertices twoSquaresFinal) v = Ok false /\
     vget (vertexSymmetryIndices twoSquaresFinal) v = Ok (-1) /\
     vget (vertexSides twoSquaresFinal) v = Ok CENTER) /\
  (forall e, inShellBEdge e = true -> 0 <= e < numberOfEdges twoSquares ->
     vget (examinedEdges twoSquaresFinal) e = Ok false /\
     vget (edgeSymmetryIndices twoSquaresFinal) e = Ok (-1) /\
     vget (edgeSides twoSquaresFinal) e = Ok CENTER) /\
  (forall f, inShellBFace f = true -> 0 <= f < numberOfFaces twoSquares ->
     vget (examinedFaces twoSquaresFinal) f = Ok false /\
     vget (faceSymmetryIndices twoSquaresFinal) f = Ok (-1) /\
     vget (faceSides twoSquaresFinal) f = Ok CENTER).
Proof.
  assert (Hsep : shellsSeparated twoSquares inShellBVertex inShellBEdge
                   inShellBFace = true) by (vm_compute; reflexivity).
  assert (Hseed : seedOutside inShellBVertex inShellBEdge inShellBFace
                    diagSquareSeed = true) by reflexivity.
  assert (H1 : findSymmetricalVertices intersectionModel twoSquares 11
                 diagSquareSeed (reset twoSquares) = Ok twoSquaresTable)
    by (vm_compute; reflexivity).
  assert (H2 : findVertexSides twoSquares [0] twoSquaresTable = Ok twoSquaresSides)
    by (vm_compute; reflexivity).
  assert (H3 : finalizeSymmetry twoSquares twoSquaresSides = Ok twoSquaresFinal)
    by (vm_compute; reflexivity).
  repeat (split; [assumption|]).
  exact (disconnected_shell_untouched intersectionModel twoSquares
           inShellBVertex inShellBEdge inShellBFace intersectionModel_subseteq
           Hsep 11 diagSquareSeed [0] twoSquaresTable twoSquaresSides
           twoSquaresFinal Hseed eq_refl H1 H2 H3).
Defined.

(** On [diagSquare] the seed edges e0 and e3 are boundary edges of the seed
    faces: the first iteration of the worklist finds no unexamined face
    and drops the pair. *)
Lemma worklistBody_dead_end_witness :
  markSymmetricalEdges 0 3 diagSquareFirst = Ok diagSquareFirstMarked /\
  getUnexaminedFaces intersectionModel diagSquare (0, 3) diagSquareFirstMarked
  = Ok (-1, -1) /\
  worklistBody intersectionModel diagSquare (0, 3) [] diagSquareFirst
  = Ok ([], diagSquareFirstMarked) /\
  vertexSymmetryIndices diagSquareFirstMarked = vertexSymmetryIndices diagSquareFirst /\
  faceSymmetryIndices diagSquareFirstMarked = faceSymmetryIndices diagSquareFirst.
Proof.
  assert (H1 : markSymmetricalEdges 0 3 diagSquareFirst = Ok diagSquareFirstMarked)
    by reflexivity.
  assert (H2 : getUnexaminedFaces intersectionModel diagSquare (0, 3)
                 diagSquareFirstMarked = Ok (-1, -1)) by reflexivity.
  split; [exact H1|]. split; [exact H2|].
  destruct (worklistBody_dead_end intersectionModel diagSquare (0, 3) (-1, -1) []
              diagSquareFirst diagSquareFirstMarked H1 H2 (or_introl eq_refl))
    as (Hbody & HV & _ & HF & _).
  split; [exact Hbody|]. split; [exact HV | exact HF].
Defined.

(** In that iteration the seed edges are newly marked: the edge e0 was not
    examined and had no partner when the pair was dequeued, and is examined
    with partner e3 when the pair is dropped. *)
Lemma dead_end_marks_seed_edges :
  findFirstSymmetricalVertices diagSquare diagSquareSeed (reset diagSquare)
  = Ok diagSquareFirst /\
  getUnexaminedFaces intersectionModel diagSquare (0, 3) diagSquareFirstMarked
  = Ok (-1, -1) /\
  worklistBody intersectionModel diagSquare (0, 3) [] diagSquareFirst
  = Ok ([], diagSquareFirstMarked) /\
  vget (examinedEdges diagSquareFirst) 0 = Ok false /\
  vget (edgeSymmetryIndices diagSquareFirst) 0 = Ok (-1) /\
  vget (examinedEdges diagSquareFirstMarked) 0 = Ok true /\
  vget (edgeSymmetryIndices diagSquareFirstMarked) 0 = Ok 3.
Proof.
  split; [vm_compute; reflexivity|]. repeat split.
Qed.

(** On [fan] with the left seed 0, resolved to vertex 2. *)
Lemma findVertexSides_in_bounds_witness :
  wfVertexData fan /\
  length (vertexSymmetryIndices fanTable) = Z.to_nat (numberOfVertices fan) /\
  seedsResolved fan [0] fanTable /\
  exists st', findVertexSides fan [0] fanTable = Ok st'.
Proof.
  assert (Hwf : wfVertexData fan)
    by (split; [reflexivity | repeat constructor; simpl; lia]).
  assert (Hlen : length (vertexSymmetryIndices fanTable)
                 = Z.to_nat (numberOfVertices fan)) by reflexivity.
  assert (Hseeds : seedsResolved fan [0] fanTable).
  { constructor; [|constructor]. split; [simpl; lia|].
    exists 2. split; [reflexivity | simpl; lia]. }
  split; [exact Hwf|]. split; [exact Hlen|]. split; [exact Hseeds|].
  exact (proj1 findVertexSides_in_bounds fan [0] fanTable Hwf Hlen Hseeds).
Defined.

(** ** Further examples *)

(** On [fan] the engine leaves the sides as [reset] made them and records
    the left vertex 0 of the seed. *)
Lemma findSymmetricalVertices_frame_witness :
  findSymmetricalVertices intersectionModel fan 9 fanSeed (reset fan)
  = Ok fanTable /\
  vertexSides fanTable = vertexSides (reset fan) /\
  leftSideVertexIndices fanTable = [0] /\
  length (examinedEdges fanTable) = 8%nat.
Proof.
  assert (H : findSymmetricalVertices intersectionModel fan 9 fanSeed (reset fan)
              = Ok fanTable) by (vm_compute; reflexivity).
  destruct (findSymmetricalVertices_frame intersectionModel fan 9 fanSeed
              (reset fan) fanTable H)
    as (HV & _ & _ & HL & _ & _ & HE & _).
  split; [exact H|]. split; [exact HV|]. split; [exact HL | exact HE].
Defined.

(** On [twoSquares] the run seeded in shell B keeps the vertex 0 of shell
    A examined and resolved. *)
Lemma findSymmetricalVertices_monotone_witness :
  findSymmetricalVertices intersectionModel twoSquares 11 twoSquaresSeedB
    twoSquaresTable = Ok twoSquaresBothTable /\
  vget (examinedVertices twoSquaresTable) 0 = Ok true /\
  vget (examinedVertices twoSquaresBothTable) 0 = Ok true.
Proof.
  assert (H : findSymmetricalVertices intersectionModel twoSquares 11
                twoSquaresSeedB twoSquaresTable = Ok twoSquaresBothTable)
    by (vm_compute; reflexivity).
  assert (H0 : vget (examinedVertices twoSquaresTable) 0 = Ok true)
    by reflexivity.
  split; [exact H|]. split; [exact H0|].
  exact (proj1 (findSymmetricalVertices_monotone intersectionModel twoSquares 11
                  twoSquaresSeedB twoSquaresTable twoSquaresBothTable H) 0 H0).
Defined.

(** On [diagSquare] the symmetric seed is within bounds; with the seed
    vertex 7 the engine indexes a vector out of its bounds. *)
Lemma findSymmetricalVertices_seed_bounds_witness :
  tableLengths diagSquare (reset diagSquare) /\
  seedInBounds diagSquare diagSquareSeed = true /\
  seedInBounds diagSquare diagSquareSeedOutside = false /\
  exists j,
    findSymmetricalVertices intersectionModel diagSquare 6 diagSquareSeedOutside
      (reset diagSquare) = OutOfRange j.
Proof.
  assert (HL : tableLengths diagSquare (reset diagSquare)) by (by repeat split).
  split; [exact HL|].
  split.
  { apply (proj1 (findSymmetricalVertices_seed_bounds intersectionModel
                    diagSquare 6 diagSquareSeed (reset diagSquare) HL)
             diagSquareTable).
    vm_compute. reflexivity. }
  split; [reflexivity|].
  apply (proj2 (findSymmetricalVertices_seed_bounds intersectionModel
                  diagSquare 6 diagSquareSeedOutside (reset diagSquare) HL)).
  - vm_compute. lia.
  - reflexivity.
Defined.

(** On [fan] the seed faces 0 and 1 end as each other's partners. *)
Lemma findSymmetricalVertices_seed_recorded_witness :
  findSymmetricalVertices intersectionModel fan 9 fanSeed (reset fan)
  = Ok fanTable /\
  vget (faceSymmetryIndices fanTable) 0 = Ok 1 /\
  vget (faceSymmetryIndices fanTable) 1 = Ok 0 /\
  vget (examinedEdges fanTable) 2 = Ok true.
Proof.
  assert (H : findSymmetricalVertices intersectionModel fan 9 fanSeed (reset fan)
              = Ok fanTable) by (vm_compute; reflexivity).
  destruct (findSymmetricalVertices_seed_recorded intersectionModel fan 9 fanSeed
              (reset fan) fanTable H)
    as (F0 & F1 & _ & _ & _ & _ & E0 & _).
  split; [exact H|]. split; [exact F0|]. split; [exact F1 | exact E0].
Defined.

(** [fan] is well formed and its symmetric seed names components of it. *)
Lemma findSymmetricalVertices_in_bounds_witness :
  wfMesh fan = true /\
  seedInBounds fan fanSeed = true /\
  (Z.to_nat (numberOfEdges fan) < 9)%nat /\
  exists st',
    findSymmetricalVertices intersectionModel fan 9 fanSeed (reset fan) = Ok st' /\
    wfTable fan st'.
Proof.
  assert (Hwf : wfMesh fan = true) by (vm_compute; reflexivity).
  assert (Hseed : seedInBounds fan fanSeed = true) by reflexivity.
  assert (Hfuel : (Z.to_nat (numberOfEdges fan) < 9)%nat) by (simpl; lia).
  split; [exact Hwf|]. split; [exact Hseed|]. split; [exact Hfuel|].
  exact (proj1 (findSymmetricalVertices_in_bounds intersectionModel fan Hwf
                  intersectionModel_subseteq 9 fanSeed Hseed Hfuel)).
Defined.

Lemma finalizeSymmetry_in_bounds_witness :
  wfMesh fan = true /\
  exists st',
    finalizeSymmetry fan fanSides = Ok st' /\
    length (vertexSides st') = Z.to_nat (numberOfVertices fan) /\
    length (edgeSides st') = Z.to_nat (numberOfEdges fan) /\
    length (faceSides st') = Z.to_nat (numberOfFaces fan).
Proof.
  assert (Hwf : wfMesh fan = true) by (vm_compute; reflexivity).
  split; [exact Hwf|].
  exact (finalizeSymmetry_in_bounds fan Hwf fanSides eq_refl eq_refl eq_refl).
Defined.

(** On [fan] the left vertex 0 of the seed is its first seed vertex. *)
Lemma pipeline_in_bounds_witness :
  wfMesh fan = true /\
  seedInBounds fan fanSeed = true /\
  leftVertexIndex fanSeed = fst (vertexIndices fanSeed) /\
  exists st1 st2 st3,
    findSymmetricalVertices intersectionModel fan 9 fanSeed (reset fan) = Ok st1 /\
    findVertexSides fan (leftSideVertexIndices st1) st1 = Ok st2 /\
    finalizeSymmetry fan st2 = Ok st3.
Proof.
  assert (Hwf : wfMesh fan = true) by (vm_compute; reflexivity).
  assert (Hseed : seedInBounds fan fanSeed = true) by reflexivity.
  assert (Hfuel : (Z.to_nat (numberOfEdges fan) < 9)%nat) by (simpl; lia).
  split; [exact Hwf|]. split; [exact Hseed|]. split; [reflexivity|].
  exact (pipeline_in_bounds intersectionModel fan Hwf intersectionModel_subseteq
           9 fanSeed Hseed Hfuel (or_intror (or_introl eq_refl))).
Defined.

(** On [fan] the edge e0 is not examined and has no partner; the edge e5 is
    examined and has the partner e7. *)
Lemma findSymmetricalVertices_resolved_witness :
  findSymmetricalVertices intersectionModel fan 9 fanSeed (reset fan)
  = Ok fanTable /\
  vget (edgeSymmetryIndices fanTable) 5 = Ok 7 /\
  vget (examinedEdges fanTable) 5 = Ok true /\
  (7 = -1 \/ 0 <= 7 < numberOfEdges fan).
Proof.
  assert (H : findSymmetricalVertices intersectionModel fan 9 fanSeed (reset fan)
              = Ok fanTable) by (vm_compute; reflexivity).
  assert (H5 : vget (edgeSymmetryIndices fanTable) 5 = Ok 7) by reflexivity.
  destruct (findSymmetricalVertices_resolved intersectionModel fan 9 fanSeed
              fanTable H) as (_ & (HB & HX) & _).
  split; [exact H|]. split; [exact H5|]. split.
  - apply HX. exists 7. split; [exact H5 | lia].
  - exact (HB 5 7 H5).
Defined.

(** On [fan]. *)
Lemma sides_codomain_witness :
  findVertexSides fan [0] fanTable = Ok fanSides /\
  finalizeSymmetry fan fanSides = Ok fanFinal /\
  exists sv, vget (edgeSides fanFinal) 3 = Ok sv /\
             (sv = LEFT \/ sv = RIGHT \/ sv = CENTER).
Proof.
  assert (H1 : findVertexSides fan [0] fanTable = Ok fanSides)
    by (vm_compute; reflexivity).
  assert (H2 : finalizeSymmetry fan fanSides = Ok fanFinal)
    by (vm_compute; reflexivity).
  split; [exact H1|]. split; [exact H2|].
  apply (proj1 (proj2 (sides_codomain fan [0] fanTable fanSides fanFinal H1 H2))).
  simpl. lia.
Defined.

(** On [fan] the vertex 0 ends on the LEFT. *)
Lemma findVertexSides_left_side_witness :
  findVertexSides fan [0] fanTable = Ok fanSides /\
  vget (vertexSides fanSides) 0 = Ok LEFT /\
  vget (vertexSymmetryIndices fanTable) 0 <> Ok 0.
Proof.
  assert (H : findVertexSides fan [0] fanTable = Ok fanSides)
    by (vm_compute; reflexivity).
  assert (H0 : vget (vertexSides fanSides) 0 = Ok LEFT) by reflexivity.
  split; [exact H|]. split; [exact H0|].
  exact (proj1 (findVertexSides_left_side fan [0] fanTable fanSides 0 H H0)).
Defined.

(** On [diagSquare] with the symmetric seed without a left vertex. *)
Lemma no_left_vertex_all_center_witness :
  leftVertexIndex diagSquareSeedNoLeft = -1 /\
  findSymmetricalVertices intersectionModel diagSquare 6 diagSquareSeedNoLeft
    (reset diagSquare) = Ok diagSquareNoLeftTable /\
  findVertexSides diagSquare (leftSideVertexIndices diagSquareNoLeftTable)
    diagSquareNoLeftTable = Ok diagSquareNoLeftSides /\
  finalizeSymmetry diagSquare diagSquareNoLeftSides = Ok diagSquareNoLeftFinal /\
  leftSideVertexIndices diagSquareNoLeftTable = [] /\
  vget (edgeSides diagSquareNoLeftFinal) 0 = Ok CENTER.
Proof.
  assert (H1 : findSymmetricalVertices intersectionModel diagSquare 6
                 diagSquareSeedNoLeft (reset diagSquare)
               = Ok diagSquareNoLeftTable) by (vm_compute; reflexivity).
  assert (H2 : findVertexSides diagSquare
                 (leftSideVertexIndices diagSquareNoLeftTable)
                 diagSquareNoLeftTable = Ok diagSquareNoLeftSides)
    by (vm_compute; reflexivity).
  assert (H3 : finalizeSymmetry diagSquare diagSquareNoLeftSides
               = Ok diagSquareNoLeftFinal) by (vm_compute; reflexivity).
  destruct (no_left_vertex_all_center intersectionModel diagSquare 6
              diagSquareSeedNoLeft diagSquareNoLeftTable diagSquareNoLeftSides
              diagSquareNoLeftFinal eq_refl H1 H2 H3) as (HL & _ & HE & _).
  split; [reflexivity|]. split; [exact H1|]. split; [exact H2|].
  split; [exact H3|]. split; [exact HL|]. apply HE. simpl. lia.
Defined.

(** On [twoSquares] seeded in shell A and then in shell B. *)
Lemma second_shell_keeps_first_witness :
  shellsSeparated twoSquares inShellBVertex inShellBEdge inShellBFace = true /\
  seedOutside inShellBVertex inShellBEdge inShellBFace diagSquareSeed = true /\
  seedInside inShellBVertex inShellBEdge inShellBFace twoSquaresSeedB = true /\
  findSymmetricalVertices intersectionModel twoSquares 11 diagSquareSeed
    (reset twoSquares) = Ok twoSquaresTable /\
  findSymmetricalVertices intersectionModel twoSquares 11 twoSquaresSeedB
    twoSquaresTable = Ok twoSquaresBothTable /\
  vget (vertexSymmetryIndices twoSquaresBothTable) 0
  = vget (vertexSymmetryIndices twoSquaresTable) 0.
Proof.
  assert (Hsep : shellsSeparated twoSquares inShellBVertex inShellBEdge
                   inShellBFace = true) by (vm_compute; reflexivity).
  assert (HA : seedOutside inShellBVertex inShellBEdge inShellBFace
                 diagSquareSeed = true) by reflexivity.
  assert (HB : seedInside inShellBVertex inShellBEdge inShellBFace
                 twoSquaresSeedB = true) by reflexivity.
  assert (H1 : findSymmetricalVertices intersectionModel twoSquares 11
                 diagSquareSeed (reset twoSquares) = Ok twoSquaresTable)
    by (vm_compute; reflexivity).
  assert (H2 : findSymmetricalVertices intersectionModel twoSquares 11
                 twoSquaresSeedB twoSquaresTable = Ok twoSquaresBothTable)
    by (vm_compute; reflexivity).
  repeat (split; [assumption|]).
  destruct (second_shell_keeps_first intersectionModel twoSquares
              inShellBVertex inShellBEdge inShellBFace intersectionModel_subseteq
              Hsep 11 11 diagSquareSeed twoSquaresSeedB twoSquaresTable
              twoSquaresBothTable HA HB H1 H2) as (HV & _).
  apply (HV 0); [lia | reflexivity].
Defined.

(** On [diagSquare], the seed edges e0 and e3. *)
Lemma markSymmetrical_symmetric_idempotent_witness :
  markSymmetricalEdges 0 3 diagSquareFirst = Ok diagSquareFirstMarked /\
  markSymmetricalEdges 3 0 diagSquareFirst = Ok diagSquareFirstMarked /\
  markSymmetricalEdges 0 3 diagSquareFirstMarked = Ok diagSquareFirstMarked.
Proof.
  assert (H : markSymmetricalEdges 0 3 diagSquareFirst = Ok diagSquareFirstMarked)
    by reflexivity.
  split; [exact H|].
  exact (proj1 (proj2 (markSymmetrical_symmetric_idempotent 0 3 diagSquareFirst
                         diagSquareFirstMarked)) H).
Defined.

(** On [diagSquare] when the seed faces are walked: the vertex 0 has the
    siblings 3 and 1 on face 0, and 3 is the first that is not examined;
    face 1 is no key of its sibling map. *)
Lemma getUnexamined_first_witness :
  getUnexaminedVertexSibling diagSquare 0 0 diagSquareSeeded = Ok 3 /\
  getUnexaminedVertexSibling diagSquare 0 1 diagSquareSeeded = Ok (-1) /\
  exists vd,
    vget (vertexData diagSquare) 0 = Ok vd /\
    3 = default (-1)
          (head (unexaminedOf (examinedVertices diagSquareSeeded)
                   (default [] (faceVertexSiblings vd !! 0)))) /\
    (faceVertexSiblings vd !! 0 = None -> 3 = -1).
Proof.
  assert (H : getUnexaminedVertexSibling diagSquare 0 0 diagSquareSeeded = Ok 3)
    by reflexivity.
  split; [exact H|]. split; [reflexivity|].
  exact (proj1 (getUnexamined_first diagSquare diagSquareSeeded) 0 0 3 H).
Defined.

(** On [diagSquare] the diagonal e1 paired with itself: the two faces that
    share it are returned. *)
Lemma getUnexaminedFaces_first_witness :
  getUnexaminedFaces intersectionModel diagSquare (1, 1) (reset diagSquare)
  = Ok (0, 1) /\
  exists ed0 ed1,
    vget (edgeData diagSquare) 1 = Ok ed0 /\
    vget (edgeData diagSquare) 1 = Ok ed1 /\
    intersectionModel (connectedFaces ed0) (connectedFaces ed1) = [0; 1].
Proof.
  assert (H : getUnexaminedFaces intersectionModel diagSquare (1, 1)
                (reset diagSquare) = Ok (0, 1)) by reflexivity.
  split; [exact H|].
  destruct (getUnexaminedFaces_first intersectionModel diagSquare (1, 1) (0, 1)
              (reset diagSquare) H) as (ed0 & ed1 & H0 & H1 & _).
  exists ed0, ed1. split; [exact H0|]. split; [exact H1|].
  injection H0 as <-. injection H1 as <-. reflexivity.
Defined.

(** On [diagSquare] when the seed faces are walked: two vertices in the
    queue and one unexamined vertex bound the loop by three iterations. *)
Lemma findSymmetricalVerticesOnFace_terminates_witness :
  (length [0; 1] + unexamined (examinedVertices diagSquareSeeded) <= 3)%nat /\
  whileQueue (faceVerticesBody diagSquare (0, 1)) 3 [0; 1] diagSquareSeeded
  <> OutOfFuel.
Proof.
  assert (H : (length [0; 1] + unexamined (examinedVertices diagSquareSeeded)
               <= 3)%nat) by (vm_compute; lia).
  split; [exact H|].
  exact (proj1 (findSymmetricalVerticesOnFace_terminates diagSquare (0, 1))
           3%nat [0; 1] diagSquareSeeded H).
Defined.

(** On [fan] with the left seed 0. *)
Lemma findVertexSides_terminates_witness :
  findVertexSides fan [0] fanTable <> OutOfFuel.
Proof.
  exact (proj2 (findVertexSides_terminates fan fanTable) [0]).
Defined.

(** On [diagSquare] the walk of the seed faces resolves the vertex 3 and
    leaves the partner of the examined vertex 0 as it was. *)
Lemma findSymmetricalVerticesOnFace_writes_witness :
  findSymmetricalVerticesOnFace diagSquare (0, 1) diagSquareSeeded
  = Ok diagSquareFirst /\
  vget (examinedVertices diagSquareSeeded) 0 = Ok true /\
  vget (vertexSymmetryIndices diagSquareFirst) 0
  = vget (vertexSymmetryIndices diagSquareSeeded) 0.
Proof.
  assert (H : findSymmetricalVerticesOnFace diagSquare (0, 1) diagSquareSeeded
              = Ok diagSquareFirst) by (vm_compute; reflexivity).
  assert (H0 : vget (examinedVertices diagSquareSeeded) 0 = Ok true)
    by reflexivity.
  split; [exact H|]. split; [exact H0|].
  destruct (findSymmetricalVerticesOnFace_writes diagSquare (0, 1)
              diagSquareSeeded diagSquareFirst H) as (_ & Hkeep & _).
  exact (proj2 (Hkeep 0 H0)).
Defined.

(** On [diagSquare] with the vertices 1 and 0, and 3 and 2, as partners:
    face edge completion on face 0 appends the pairs of e0 and e2. *)
Lemma findSymmetricalEdgesOnFace_writes_witness :
  findSymmetricalEdgesOnFace intersectionModel diagSquare [] 0 diagSquareCrossed
  = Ok diagSquareCrossedEdges /\
  fst diagSquareCrossedEdges = [(0, 0); (2, 3)] /\
  vertexSymmetryIndices (snd diagSquareCrossedEdges)
  = vertexSymmetryIndices diagSquareCrossed.
Proof.
  assert (H : findSymmetricalEdgesOnFace intersectionModel diagSquare [] 0
                diagSquareCrossed
              = Ok (fst diagSquareCrossedEdges, snd diagSquareCrossedEdges))
    by (vm_compute; reflexivity).
  split; [exact H|]. split; [reflexivity|].
  destruct (findSymmetricalEdgesOnFace_writes intersectionModel diagSquare 0 []
              (fst diagSquareCrossedEdges) diagSquareCrossed
              (snd diagSquareCrossedEdges) H) as (Hst & _).
  rewrite Hst. reflexivity.
Defined.

(** On [diagSquare]: with the left seed 0, the centre-line vertex 1 is its
    own partner, no left seed has it as partner, and it ends CENTER; with
    the left seed 1 it ends RIGHT. *)
Lemma findVertexSides_self_symmetric_sides_witness :
  findVertexSides diagSquare [0] diagSquareTable = Ok diagSquareSides /\
  vget (vertexSymmetryIndices diagSquareTable) 1 = Ok 1 /\
  (forall sv, vget (vertexSides diagSquareSides) 1 = Ok sv -> sv = CENTER) /\
  exists st',
    findVertexSides diagSquare [1] diagSquareTable = Ok st' /\
    vget (vertexSides st') 1 = Ok RIGHT.
Proof.
  assert (H : findVertexSides diagSquare [0] diagSquareTable = Ok diagSquareSides)
    by (vm_compute; reflexivity).
  assert (H1 : vget (vertexSymmetryIndices diagSquareTable) 1 = Ok 1)
    by reflexivity.
  split; [exact H|]. split; [exact H1|]. split.
  - apply (proj1 (findVertexSides_self_symmetric_sides diagSquare [0]
                    diagSquareTable diagSquareSides 1 H H1)).
    intros i ->%list_elem_of_singleton. vm_compute. discriminate.
  - eexists. split; [vm_compute; reflexivity|]. reflexivity.
Defined.

(** On [quad], which has no vertex on the centre line: the left seed 0 is
    LEFT, and so is its neighbour 3, whose partner is 2. *)
Lemma findVertexSides_spreads_witness :
  findVertexSides quad [0] quadTable = Ok quadSides /\
  vget (vertexSides quadSides) 0 = Ok LEFT /\
  exists si, vget (vertexSides quadSides) 3 = Ok si /\ si <> CENTER.
Proof.
  assert (H : findVertexSides quad [0] quadTable = Ok quadSides)
    by (vm_compute; reflexivity).
  assert (H0 : vget (vertexSides quadSides) 0 = Ok LEFT) by reflexivity.
  split; [exact H|]. split; [exact H0|].
  eapply (findVertexSides_spreads quad [0] quadTable quadSides 0 3 LEFT);
    [exact H | exact H0 | done | vm_compute; discriminate | reflexivity
    | simpl; by apply (bool_decide_unpack _) | vm_compute; discriminate | vm_compute; discriminate].
Defined.

(** On [fan] with its symmetric seed: the edges e5 and e7, and the edge e6
    with itself, are found from the faces 2 and 3. *)
Lemma findSymmetricalVertices_edge_table_witness :
  simpleMesh fan = true /\
  findSymmetricalVertices intersectionModel fan 9 fanSeed (reset fan)
  = Ok fanTable /\
  seedFresh fan fanSeed (reset fan) /\
  vget (edgeSymmetryIndices fanTable) 5 = Ok 7 /\
  edgesConsistent fan fanTable /\ involutive (edgeSymmetryIndices fanTable).
Proof.
  assert (Hs : simpleMesh fan = true) by (vm_compute; reflexivity).
  assert (H : findSymmetricalVertices intersectionModel fan 9 fanSeed (reset fan)
              = Ok fanTable) by (vm_compute; reflexivity).
  assert (Hfresh : seedFresh fan fanSeed (reset fan)).
  { exists 4, 4. split.
    { eexists. split; [reflexivity|]. right. split; reflexivity. }
    split.
    { eexists. split; [reflexivity|]. left. split; reflexivity. }
    repeat (split; [simpl; lia|]). repeat split. }
  split; [exact Hs|]. split; [exact H|]. split; [exact Hfresh|].
  split; [reflexivity|].
  exact (findSymmetricalVertices_edge_table intersectionModel fan Hs
           intersectionModel_elem_of 9 fanSeed fanTable H Hfresh).
Defined.
